(* ===== verification/_CoqProject ===== *)
-Q . S2P
Prelude.v
Lexer.v
Parser.v
ParserSpec.v
ParserTheorems.v
Device.v
DeviceProofs.v
DeviceTheorems.v
MemDisk.v
FsTypes.v
Fs.v
FsWf.v
FsData.v
FsIO.v
FsDir.v
FsLife.v
FsLayout.v
FsMount.v
FsRun.v
FsDemo.v
Tls.v
TlsSpec.v
TlsPages.v
TlsTable.v
TlsReadWrite.v
TlsLife.v
TlsTheorems.v
TlsDemo.v
Jmpbuf.v
Threads.v
ThreadsSched.v
ThreadsInv.v
ThreadsQueue.v
ThreadsStep.v
ThreadsOps.v
ThreadsMutex.v
ThreadsCreate.v
ThreadsView.v
ThreadsTheorems.v
ThreadsShape.v
ThreadsFair.v
ThreadsLocks.v
ThreadsBarrier.v
ThreadsStuck.v
ThreadsDemo.v
Shell.v
ShellProofs.v
ShellInv.v
ShellRun.v
ShellTheorems.v
ShellDemo.v
