(* ===== verification/Prelude.v ===== *)
(** * Verification of the operating-systems programs

    A shell with its parser ([parser-for-shell-noodlez102]), a file system on a
    virtual disk ([file-systems-noodlez102]), thread-local storage with copy on
    write ([copy-on-write-noodlez102]) and a user-level threads library with
    mutexes and barriers ([ulpt-noodlez102]).  The programs are separate: the
    shell calls its parser and the file system its disk; the other two stand
    alone.  Each C function is a function here that takes the variables it
    reads and returns its result and their new values.

    ** How C is modelled (this file)

    [res] is the outcome of code that returns: a value, undefined behaviour
    ([UB]) or not enough fuel ([NoFuel]); [run] is the outcome of code that may
    also end its thread or process.  Arrays are lists with checked reads and
    writes [l.[i]] and [l.[i <- x]]; an access out of range is undefined
    behaviour.  Integers are [Z], wrapped where the code's width matters
    ([u32], [u64], [s32]).  Loops that are not structural take fuel; it is
    computed from the data in the definition and proved to be enough (the
    length of the line for the parser, the size of the array of arguments for
    its deallocation, a turn of the table for the scheduler,
    the size of the heap for the list of a mutex, a round per block of a file,
    the number of bytes for the storages, the number of children for the
    signal handler), so that [NoFuel] is excluded by the theorems, or
    is itself what they show where the code does not end ([OutOfFuel] of a
    search for a thread that can run, for every amount of fuel).

    ** The shell parser: Lexer, Parser, ParserSpec, ParserTheorems

    [Lexer] is [next_token] of [myshell_parser.c] and the token sequence of a
    text; [Parser] has one function per function of the file, [pipeline_build]
    and [pipeline_free] among them.  [ParserSpec] states the accepted grammar on
    token sequences and proves that the parser implements it.  The theorems:
    the tokeniser yields the tokens whose rendering the line is; a line parses
    exactly when it is in the grammar, and to its syntax tree; printing and
    parsing back; memory safety of building and freeing; termination on every
    line; and lines on which the code departs from its comments.

    ** The shell: Shell, ShellProofs, ShellInv, ShellRun, ShellTheorems, ShellDemo

    [Shell] is [doCommand], [signalHandler] and [main] of [myshell.c] on the
    descriptor tables of the shell and its children.  The state stands at one of
    the two blocking calls, [fgets] and [waitpid]; [exec] is what one event (a
    line, or children that end) leads to, [step] and [reachable] the states of
    all interleavings of typing and ending children.  What [open] and [execvp]
    answer is a class; [pipe] and [fork] succeed.  The theorems: how each
    command of a pipeline is connected, on every branch; the invariant of the
    shell's own descriptors; a typed line, read by [fgets], parsed and run, gives
    the children its specification [stages] asks for, a composition of parser
    and shell; foreground commands run one at a time; the line in the buffer
    is run again when a background command ends at the prompt.

    ** The disk: Device, DeviceProofs, DeviceTheorems, MemDisk

    [disk.c] over the system calls it makes ([Posix], with their documented laws
    in [PosixFiles]); [BlockDevice] and its laws [BlockDeviceSpec] are what the
    file system is proved against, and [disk.c] is proved to implement them.
    [MemDisk] is a second instance, on which concrete runs are evaluated.

    ** The file system: FsTypes, Fs, FsWf, FsData, FsIO, FsDir, FsLife, FsLayout,
    FsMount, FsRun, FsDemo

    [FsTypes] has the structures of [fs.c], their byte layouts and the bitmap
    helpers; [Fs] the operations.  [FsWf] is the invariant of a mounted file
    system.  The theorems of [FsIO] give reading, writing, seeking and
    truncating in terms of the contents of files, those of [FsDir] the
    directory as a map from names to inodes, those of [FsMount] formatting,
    mounting and what survives unmounting and mounting again ([FsLayout]: the
    layouts are decoded as they were encoded), those of [FsLife] and [FsRun]
    sequences of calls: the states reached from making and mounting a disk as
    long as nothing is deleted, and what the first deletion breaks.

    ** Thread-local storage: Tls, TlsSpec, TlsPages, TlsTable, TlsReadWrite,
    TlsLife, TlsTheorems, TlsDemo

    [Tls] is every function of [tls.c] over a virtual memory given as a class
    ([mmap], [mprotect] and the accesses they allow).  [TlsSpec] is an abstract
    machine that maps each thread to its bytes; the theorems show that every
    call, and every sequence of calls by any threads, simulates it, although
    pages are shared between clones and copied when written, that no page
    leaks, and that a read or write outside the calls ends the thread.  A call is
    one step.

    ** Threads: Jmpbuf, Threads, ThreadsSched, ThreadsInv, ThreadsQueue,
    ThreadsStep, ThreadsOps, ThreadsMutex, ThreadsCreate, ThreadsView,
    ThreadsTheorems, ThreadsShape, ThreadsFair, ThreadsLocks, ThreadsBarrier,
    ThreadsStuck, ThreadsDemo

    [Jmpbuf] is [ec440threads.h]: the registers of a [jmp_buf], the mangling of
    pointers at 64 bits, and the instructions of [start_thunk].  [Threads] is
    [threads.c]: the control blocks, [schedule], creating, ending and joining
    threads, mutexes and barriers, with the linked lists in a heap.  A thread
    is at a [point], the place a [jmp_buf] saved by [setjmp] holds; a step is
    a call by the running thread, its going on inside the library, or the
    timer's interruption; [reachable] are the states of all programs.
    [ThreadsInv] is the invariant and [ThreadsStep] to [ThreadsCreate] show that
    each operation keeps it; [ThreadsView] is the abstract machine of locks
    with queues, [ThreadsShape] what a step does to the threads that do not
    run.  The theorems: [schedule] finds the next ready thread within one turn
    and every ready thread gets its turn; well-formed control blocks; mutexes
    refine locks with first-in first-out queues, hence mutual exclusion; a new
    thread enters its routine with its argument; joining; the first round of
    a barrier; and what goes wrong when it is entered again too early, after
    the first exit and after the last.

    ** Not modelled

    Output to the terminal and diagnostics, except what the shell prints; the
    contents of files the shell's commands open and the data in their pipes;
    failures of [pipe] and [fork] in the shell, and of [malloc] except in the
    threads library, and of [mmap]; threads that run the code of [tls.c] at the
    same time, which takes no lock; a signal that arrives while [fgets] has read
    a part of a line, and any buffer but the old one after an interrupted
    [fgets] (the C library's behaviour; the C standard leaves it open); the timer's signal inside the threads library at places other than the
    points of [Threads.point] (in particular in the middle of
    [pthread_create]); the contents of memory outside the
    modelled objects.  A thread that returns from its routine reaches
    [pthread_exit] with an unspecified argument.  The test programs
    ([tests/], [test_*.c], [barriertest.c], [mutextest.c]), scripts and makefiles
    only call the modelled functions. *)

From Stdlib Require String.
From Stdlib Require Export ZArith Lia Ascii.
From stdpp Require Export strings base tactics numbers list list_numbers gmap option.

#[global] Open Scope Z_scope.
#[global] Set Default Goal Selector "!".

(** ** Outcomes of C code

    [Ret a]: the code returns [a].  [UB]: the code reaches undefined
    behaviour (an access outside an object, through a null or dangling
    pointer, or to an uninitialised pointer).  [NoFuel]: the bound given to
    a loop of the model was not enough; theorems exclude it. *)
Inductive res (A : Type) : Type :=
  | Ret (a : A)
  | UB
  | NoFuel.
Arguments Ret {A} a.
Arguments UB {A}.
Arguments NoFuel {A}.

#[export] Instance res_mret : MRet res := fun A a => Ret a.
#[export] Instance res_mbind : MBind res := fun A B f m =>
  match m with Ret a => f a | UB => UB | NoFuel => NoFuel end.

#[export] Instance res_eq_dec `{EqDecision A} : EqDecision (res A).
Proof. solve_decision. Defined.

Lemma res_bind_Ret {A B} (a : A) (f : A → res B) : (Ret a ≫= f) = f a.
Proof. reflexivity. Qed.

Lemma res_bind_Ret_inv {A B} (m : res A) (f : A → res B) b :
  (m ≫= f) = Ret b → ∃ a, m = Ret a ∧ f a = Ret b.
Proof. destruct m; simpl; [eauto|discriminate..]. Qed.

Lemma res_bind_assoc {A B C} (m : res A) (f : A → res B) (g : B → res C) :
  ((m ≫= f) ≫= g) = (m ≫= (λ a, f a ≫= g)).
Proof. by destruct m. Qed.

(** Code that may also end its thread or its process: [Done], or the way it
    stopped, or undefined behaviour, or not enough fuel. *)
Inductive stop : Type := Exited (code : Z) | ThreadExited | Killed.

Inductive run (A : Type) : Type :=
  | Done (a : A)
  | Stopped (e : stop)
  | Crashed
  | OutOfFuel.
Arguments Done {A} a.
Arguments Stopped {A} e.
Arguments Crashed {A}.
Arguments OutOfFuel {A}.

#[export] Instance run_mret : MRet run := fun A a => Done a.
#[export] Instance run_mbind : MBind run := fun A B f m =>
  match m with
  | Done a => f a
  | Stopped e => Stopped e
  | Crashed => Crashed
  | OutOfFuel => OutOfFuel
  end.

(** A computation that cannot stop the process, as part of one that can. *)
Definition lift {A} (m : res A) : run A :=
  match m with Ret a => Done a | UB => Crashed | NoFuel => OutOfFuel end.

Lemma run_bind_Done {A B} (a : A) (f : A → run B) : (Done a ≫= f) = f a.
Proof. reflexivity. Qed.

Lemma run_bind_Done_inv {A B} (m : run A) (f : A → run B) b :
  (m ≫= f) = Done b → ∃ a, m = Done a ∧ f a = Done b.
Proof. destruct m; simpl; [eauto|discriminate..]. Qed.

Lemma lift_Done_inv {A} (m : res A) a : lift m = Done a → m = Ret a.
Proof. destruct m; simpl; congruence. Qed.

(** ** C arrays: bounds-checked reads and writes at an integer index *)

Declare Scope c_scope.
Delimit Scope c_scope with C.
#[global] Open Scope c_scope.

Definition zget {A} (l : list A) (i : Z) : option A :=
  if i <? 0 then None else l !! Z.to_nat i.

Definition aread {A} (l : list A) (i : Z) : res A :=
  match zget l i with Some x => Ret x | None => UB end.

Definition awrite {A} (l : list A) (i : Z) (x : A) : res (list A) :=
  match zget l i with Some _ => Ret (<[Z.to_nat i := x]> l) | None => UB end.

Notation "l .[ i ]" := (aread l i) (at level 1, left associativity, format "l .[ i ]") : c_scope.
Notation "l .[ i <- x ]" := (awrite l i x)
  (at level 1, left associativity, format "l .[ i  <-  x ]") : c_scope.

Lemma zget_nat {A} (l : list A) (i : nat) : zget l (Z.of_nat i) = l !! i.
Proof.
  unfold zget. destruct (Z.ltb_spec (Z.of_nat i) 0); [lia|].
  by rewrite Nat2Z.id.
Qed.

Lemma zget_Some {A} (l : list A) i x :
  zget l i = Some x ↔ 0 ≤ i ∧ l !! Z.to_nat i = Some x.
Proof.
  unfold zget. destruct (Z.ltb_spec i 0); split.
  - done.
  - lia.
  - intros; by split; [lia|].
  - by intros [_ ?].
Qed.

Lemma zget_is_Some {A} (l : list A) i :
  is_Some (zget l i) ↔ 0 ≤ i < Z.of_nat (length l).
Proof.
  unfold zget. destruct (Z.ltb_spec i 0).
  - split; [by intros []|lia].
  - rewrite lookup_lt_is_Some. lia.
Qed.

Lemma aread_Ret {A} (l : list A) i x : l.[i] = Ret x ↔ zget l i = Some x.
Proof. unfold aread. destruct (zget l i); naive_solver. Qed.

Lemma awrite_Ret {A} (l : list A) i x l' :
  l.[i <- x] = Ret l' ↔ is_Some (zget l i) ∧ l' = <[Z.to_nat i := x]> l.
Proof.
  unfold awrite. destruct (zget l i).
  - split; [intros [= <-]; eauto|by intros [_ ->]].
  - split; [done|by intros [[? ?] _]].
Qed.

Lemma aread_nat {A} (l : list A) (i : nat) x :
  l !! i = Some x → l.[Z.of_nat i] = Ret x.
Proof. intros H. unfold aread. by rewrite zget_nat, H. Qed.

Lemma awrite_nat {A} (l : list A) (i : nat) x :
  (i < length l)%nat → l.[Z.of_nat i <- x] = Ret (<[i := x]> l).
Proof.
  intros H. unfold awrite. rewrite zget_nat.
  destruct (lookup_lt_is_Some_2 l i H) as [y ->]. by rewrite Nat2Z.id.
Qed.

Lemma aread_lt {A} (l : list A) i :
  0 ≤ i < Z.of_nat (length l) → ∃ x, l.[i] = Ret x ∧ l !! Z.to_nat i = Some x.
Proof.
  intros H. destruct (proj2 (zget_is_Some l i) H) as [x Hx].
  exists x. split; [by apply aread_Ret|]. by apply zget_Some in Hx as [_ ?].
Qed.

Lemma awrite_lt {A} (l : list A) i x :
  0 ≤ i < Z.of_nat (length l) → l.[i <- x] = Ret (<[Z.to_nat i := x]> l).
Proof.
  intros H. unfold awrite. by destruct (proj2 (zget_is_Some l i) H) as [y ->].
Qed.

Lemma aread_UB {A} (l : list A) i :
  ¬ (0 ≤ i < Z.of_nat (length l)) → l.[i] = UB.
Proof.
  intros H. unfold aread. destruct (zget l i) eqn:E; [|done].
  exfalso. apply H, zget_is_Some. eauto.
Qed.

Lemma awrite_UB {A} (l : list A) i x :
  ¬ (0 ≤ i < Z.of_nat (length l)) → l.[i <- x] = UB.
Proof.
  intros H. unfold awrite. destruct (zget l i) eqn:E; [|done].
  exfalso. apply H, zget_is_Some. eauto.
Qed.

Lemma zget_insert {A} (l : list A) i j x :
  0 ≤ i < Z.of_nat (length l) →
  zget (<[Z.to_nat i := x]> l) j = if decide (j = i) then Some x else zget l j.
Proof.
  intros Hi. unfold zget. destruct (Z.ltb_spec j 0).
  - rewrite decide_False by lia. done.
  - case_decide as E.
    + subst j. apply list_lookup_insert_eq. lia.
    + apply list_lookup_insert_ne. lia.
Qed.

Lemma zget_range {A} (l : list A) i x : zget l i = Some x → 0 ≤ i < Z.of_nat (length l).
Proof. intros E. apply zget_is_Some. by exists x. Qed.
Lemma lookup_insert_at {A} (l : list A) k i x :
  (k < length l)%nat → <[k := x]> l !! i = if decide (i = k) then Some x else l !! i.
Proof.
  intros Hk. case_decide as C; [subst; by apply list_lookup_insert_eq|].
  by apply list_lookup_insert_ne.
Qed.

Lemma zget_replicate {A} (n : nat) (x : A) i :
  zget (replicate n x) i = if decide (0 ≤ i < Z.of_nat n) then Some x else None.
Proof.
  unfold zget. destruct (Z.ltb_spec i 0).
  - by rewrite decide_False by lia.
  - case_decide.
    + apply lookup_replicate_2. lia.
    + apply lookup_replicate_None. lia.
Qed.

(** ** Search loops

    [for (i = 0; i < n; i++) if (P (a[i])) { r = i; break; }] with [r = -1]
    before the loop, on an array of length [n]. *)
Definition first_index {A} (P : A → bool) (l : list A) : option nat :=
  fst <$> list_find (λ x, P x = true) l.

Lemma first_index_Some {A} (P : A → bool) l i :
  first_index P l = Some i ↔
  (∃ x, l !! i = Some x ∧ P x = true) ∧
  ∀ j y, l !! j = Some y → (j < i)%nat → P y = false.
Proof.
  unfold first_index. rewrite fmap_Some. split.
  - intros ([j x] & (Hj & Hx & Hmin)%list_find_Some & ->). simpl. split; [eauto|].
    intros k y Hk Hlt. specialize (Hmin k y Hk Hlt). by apply not_true_is_false.
  - intros [(x & Hi & Hx) Hmin]. exists (i, x). split; [|done].
    apply list_find_Some. split_and!; [done..|].
    intros j y Hj Hlt. by rewrite (Hmin j y Hj Hlt).
Qed.

Lemma first_index_None {A} (P : A → bool) l :
  first_index P l = None ↔ ∀ i x, l !! i = Some x → P x = false.
Proof.
  unfold first_index. rewrite fmap_None, list_find_None, Forall_lookup.
  split; intros H i x Hi; specialize (H i x Hi); [by apply not_true_is_false|].
  by rewrite H.
Qed.

Lemma first_index_lt {A} (P : A → bool) l i :
  first_index P l = Some i → (i < length l)%nat.
Proof. intros [(x & H & _) _]%first_index_Some. by eapply lookup_lt_Some. Qed.

(** ** Machine integers: wrap-around at width [w] *)

Definition wrap (w z : Z) : Z := z mod 2 ^ w.
Definition to_signed (w z : Z) : Z :=
  let u := z mod 2 ^ w in if u <? 2 ^ (w - 1) then u else u - 2 ^ w.

Abbreviation u8 := (wrap 8).
Abbreviation u16 := (wrap 16).
Abbreviation u32 := (wrap 32).
Abbreviation u64 := (wrap 64).
Abbreviation s32 := (to_signed 32).

Lemma wrap_id w z : 0 ≤ z < 2 ^ w → wrap w z = z.
Proof. apply Z.mod_small. Qed.

Lemma wrap_bound w z : 0 ≤ w → 0 ≤ wrap w z < 2 ^ w.
Proof. intros. apply Z.mod_pos_bound. by apply Z.pow_pos_nonneg. Qed.

Lemma to_signed_id w z : 0 < w → - 2 ^ (w - 1) ≤ z < 2 ^ (w - 1) → to_signed w z = z.
Proof.
  intros Hw Hz. unfold to_signed.
  assert (2 ^ w = 2 * 2 ^ (w - 1)) as E by (rewrite <- Z.pow_succ_r by lia; f_equal; lia).
  assert (0 < 2 ^ (w - 1)) by (apply Z.pow_pos_nonneg; lia).
  rewrite E. destruct (decide (0 ≤ z)).
  - rewrite Z.mod_small by lia. destruct (Z.ltb_spec z (2 ^ (w - 1))); lia.
  - rewrite <- (Z.mod_unique z (2 * 2 ^ (w - 1)) (-1) (z + 2 * 2 ^ (w - 1))) by lia.
    destruct (Z.ltb_spec (z + 2 * 2 ^ (w - 1)) (2 ^ (w - 1))); lia.
Qed.

Lemma s32_id z : - 2 ^ 31 ≤ z < 2 ^ 31 → s32 z = z.
Proof. intros. apply to_signed_id; simpl; lia. Qed.

(** ** Automation *)

(** Linear arithmetic with division and remainder by constants. *)
Ltac dlia := zify; Z.to_euclidean_division_equations; lia.

(** Step through the bind of a computation that returns. *)
Ltac rstep := cbn [mbind res_mbind run_mbind lift].

(** From [H : (x ← m; f x) = Done b], the value of [m] as [x] with its equation
    [E], and the rest in [H]. *)
Tactic Notation "rinv" ident(H) "as" simple_intropattern(x) ident(E) :=
  apply run_bind_Done_inv in H as (x & E & H); cbn beta iota in H.

(** ** Hint databases

    [c_bounds]: ranges of machine integers and of indices, for [auto] and
    [eauto]; [c_arrays]: lengths and reads of arrays after writes, for
    [autorewrite]. *)
Create HintDb c_bounds.
#[export] Hint Resolve wrap_bound : c_bounds.
#[export] Hint Extern 5 (_ < _) => lia : c_bounds.
#[export] Hint Extern 5 (_ ≤ _) => lia : c_bounds.
#[export] Hint Extern 5 (_ ≤ _ < _) => lia : c_bounds.
#[export] Hint Extern 5 (_ ≠ _) => lia : c_bounds.
Create Rewrite HintDb c_arrays.
#[export] Hint Rewrite @length_insert @length_replicate @length_fmap @length_imap : c_arrays.
