(* ===== verification/Lexer.v ===== *)
(** * The tokeniser of the shell parser ([myshell_parser.c], lines 9-75)

    Characters are [ascii]; a C string is the list of its characters up to,
    and without, its terminator, so a [const char *] into it is the list's
    remaining suffix and the terminator is the empty suffix (or an embedded
    NUL character, which the code cannot tell apart). *)

From S2P Require Export Prelude.

Abbreviation cstr := (list ascii).

Definition nul : ascii := "000"%char.
Definition WHITESPACE_CHARS : cstr := ["010"; "009"; " "]%char.
Definition SPECIAL_CHARS : cstr := ["<"; ">"; "|"; "&"]%char.
Definition MAX_WORD_LENGTH : Z := 32.

Definition char_in (c : ascii) (set : cstr) : bool := existsb (Ascii.eqb c) set.
Arguments char_in : simpl never.

(** [strspn] and [strcspn] of [<string.h>]: both stop at the terminator. *)
Fixpoint strspn (s accept : cstr) : nat :=
  match s with
  | c :: s' => if char_in c accept && negb (Ascii.eqb c nul) then S (strspn s' accept) else O
  | [] => O
  end.

Fixpoint strcspn (s reject : cstr) : nat :=
  match s with
  | c :: s' => if char_in c reject || Ascii.eqb c nul then O else S (strcspn s' reject)
  | [] => O
  end.

(** [strndup (s, n)]: at most [n] characters of [s]. *)
Definition strndup (s : cstr) (n : nat) : cstr := take n s.

Inductive token_type :=
  | TT_NONE | TT_AMPERSAND | TT_PIPE | TT_LEFT_ANGLE | TT_RIGHT_ANGLE | TT_WORD.

#[export] Instance token_type_eq_dec : EqDecision token_type.
Proof. solve_decision. Defined.

(** [next_token (&token, &token_length)] returns the token type; the model
    also returns the new values of [token] and [token_length]. *)
Definition next_token (token : cstr) : token_type * cstr * nat :=
  let token := drop (strspn token WHITESPACE_CHARS) token in
  match token with
  | [] => (TT_NONE, token, 0%nat)
  | c :: _ =>
      if Ascii.eqb c "&" then (TT_AMPERSAND, token, 1%nat)
      else if Ascii.eqb c "|" then (TT_PIPE, token, 1%nat)
      else if Ascii.eqb c "<" then (TT_LEFT_ANGLE, token, 1%nat)
      else if Ascii.eqb c ">" then (TT_RIGHT_ANGLE, token, 1%nat)
      else if Ascii.eqb c nul then (TT_NONE, token, 0%nat)
      else (TT_WORD, token, strcspn token (WHITESPACE_CHARS ++ SPECIAL_CHARS))
  end.

(** ** The token sequence of a line *)

Inductive token : Type :=
  | Amp | Pipe | Lt | Gt | Word (w : cstr).

#[export] Instance token_eq_dec : EqDecision token.
Proof. solve_decision. Defined.

(** [lexes s ts]: calling [next_token] on [s], and again past each token
    it reports, yields the tokens [ts] and then [TT_NONE]. *)
Inductive lexes : cstr → list token → Prop :=
  | lexes_none s s' n :
      next_token s = (TT_NONE, s', n) → lexes s []
  | lexes_amp s s' n ts :
      next_token s = (TT_AMPERSAND, s', n) → lexes (drop n s') ts → lexes s (Amp :: ts)
  | lexes_pipe s s' n ts :
      next_token s = (TT_PIPE, s', n) → lexes (drop n s') ts → lexes s (Pipe :: ts)
  | lexes_lt s s' n ts :
      next_token s = (TT_LEFT_ANGLE, s', n) → lexes (drop n s') ts → lexes s (Lt :: ts)
  | lexes_gt s s' n ts :
      next_token s = (TT_RIGHT_ANGLE, s', n) → lexes (drop n s') ts → lexes s (Gt :: ts)
  | lexes_word s s' n ts :
      next_token s = (TT_WORD, s', n) → lexes (drop n s') ts →
      lexes s (Word (strndup s' n) :: ts).

(** A character a word can hold, and a word. *)
Definition word_char (c : ascii) : bool :=
  negb (char_in c (WHITESPACE_CHARS ++ SPECIAL_CHARS)) && negb (Ascii.eqb c nul).

Definition is_word (w : cstr) : bool := negb (bool_decide (w = [])) && forallb word_char w.

(** ** Facts about the scanners *)

Lemma next_token_cons_cases c s :
  let r := next_token (c :: s) in
  (char_in c WHITESPACE_CHARS = true ∧ r = next_token s) ∨
  (r = (TT_AMPERSAND, c :: s, 1%nat) ∧ c = "&"%char) ∨
  (r = (TT_PIPE, c :: s, 1%nat) ∧ c = "|"%char) ∨
  (r = (TT_LEFT_ANGLE, c :: s, 1%nat) ∧ c = "<"%char) ∨
  (r = (TT_RIGHT_ANGLE, c :: s, 1%nat) ∧ c = ">"%char) ∨
  (r = (TT_NONE, c :: s, 0%nat) ∧ c = nul) ∨
  (r = (TT_WORD, c :: s, strcspn (c :: s) (WHITESPACE_CHARS ++ SPECIAL_CHARS)) ∧
   word_char c = true).
Proof.
  cbv zeta. destruct (char_in c WHITESPACE_CHARS) eqn:Hws.
  { left. split; [done|]. unfold next_token. cbn [strspn]. rewrite Hws.
    destruct (Ascii.eqb_spec c nul) as [->|]; [done|]. done. }
  right. unfold next_token. cbn [strspn]. rewrite Hws. cbn [andb drop].
  destruct (Ascii.eqb_spec c "&"); [auto|].
  destruct (Ascii.eqb_spec c "|"); [auto|].
  destruct (Ascii.eqb_spec c "<"); [auto|].
  destruct (Ascii.eqb_spec c ">"); [auto 6|].
  destruct (Ascii.eqb_spec c nul); [auto 7|].
  repeat right. split; [done|]. unfold word_char.
  unfold char_in in *. rewrite existsb_app, Hws. simpl.
  by repeat match goal with |- context [Ascii.eqb c ?d] =>
    destruct (Ascii.eqb_spec c d); [contradiction|] end.
Qed.

Lemma strcspn_le s set : (strcspn s set <= length s)%nat.
Proof. induction s as [|c s IH]; simpl; [lia|]. destruct (_ || _); simpl; lia. Qed.

Lemma next_token_suffix s t s' n :
  next_token s = (t, s', n) → s' `suffix_of` s.
Proof.
  unfold next_token. intros H.
  assert (s' = drop (strspn s WHITESPACE_CHARS) s) as ->.
  { destruct (drop _ s); repeat case_match; by simplify_eq. }
  eexists. symmetry. apply take_drop.
Qed.

(** Reading a token leaves [token] at its first character: reading again
    reports the same token. *)
Lemma next_token_idemp s t s' n :
  next_token s = (t, s', n) → next_token s' = (t, s', n).
Proof.
  revert t s' n. induction s as [|c s IH]; intros t s' n.
  { intros [= <- <- <-]. done. }
  destruct (next_token_cons_cases c s) as [[_ E]|H].
  { rewrite E. apply IH. }
  intros Hs. assert (s' = c :: s) as ->; [|done].
  destruct_or! H; destruct H as [H ?]; congruence.
Qed.

Lemma next_token_length s t s' n :
  next_token s = (t, s', n) → (n <= length s')%nat ∧ (t ≠ TT_NONE → 0 < n)%nat.
Proof.
  revert t s' n. induction s as [|c s IH]; intros t s' n.
  { by intros [= <- <- <-]. }
  destruct (next_token_cons_cases c s) as [[_ E]|H].
  { rewrite E. apply IH. }
  intros Hs. destruct_or! H; destruct H as [H Hc]; rewrite H in Hs; simplify_eq;
    simpl length; split; try lia; try done.
  - apply (strcspn_le (c :: s)).
  - intros _. cbn [strcspn]. unfold word_char in Hc.
    apply andb_true_iff in Hc as [H1 H2].
    apply negb_true_iff in H1 as ->. apply negb_true_iff in H2 as ->. simpl. lia.
Qed.

(** Each token read consumes characters. *)
Lemma next_token_progress s t s' n :
  next_token s = (t, s', n) → t ≠ TT_NONE → (length (drop n s') < length s)%nat.
Proof.
  intros H Ht. pose proof (suffix_length _ _ (next_token_suffix _ _ _ _ H)).
  destruct (next_token_length _ _ _ _ H) as [? Hn]. specialize (Hn Ht).
  rewrite length_drop. lia.
Qed.

Lemma lexes_total s : ∃ ts, lexes s ts.
Proof.
  induction s as [s IH] using (induction_ltof1 _ (@length ascii)). unfold ltof in IH.
  destruct (next_token s) as [[t s'] n] eqn:E.
  destruct (decide (t = TT_NONE)) as [->|Ht]; [eexists; by eapply lexes_none|].
  destruct (IH (drop n s')) as [ts Hts].
  { by eapply next_token_progress. }
  destruct t; [done|..]; eexists; eauto using lexes.
Qed.

Lemma lexes_det s ts1 ts2 : lexes s ts1 → lexes s ts2 → ts1 = ts2.
Proof.
  intros H1. revert ts2.
  induction H1 as [|? ? ? ? E ? IH|? ? ? ? E ? IH|? ? ? ? E ? IH|? ? ? ? E ? IH|? ? ? ? E ? IH];
    intros ts2 H2; inversion H2 as [? ? ? E2|? ? ? ? E2|? ? ? ? E2|? ? ? ? E2|? ? ? ? E2|? ? ? ? E2];
    subst; try congruence; rewrite E2 in E; injection E as -> ->; f_equal; by apply IH.
Qed.

Lemma lexes_length s ts : lexes s ts → (length ts <= length s)%nat.
Proof.
  induction 1; simpl; try lia;
    match goal with H : next_token _ = _ |- _ =>
      apply next_token_progress in H; [lia|done] end.
Qed.

(** The token a [next_token] call reports is the head of the sequence, and
    the moved [token] pointer stands for the same sequence. *)
Definition type_of (ts : list token) : token_type :=
  match ts with
  | [] => TT_NONE | Amp :: _ => TT_AMPERSAND | Pipe :: _ => TT_PIPE
  | Lt :: _ => TT_LEFT_ANGLE | Gt :: _ => TT_RIGHT_ANGLE | Word _ :: _ => TT_WORD
  end.

Lemma lexes_next s ts :
  lexes s ts → ∃ s' n, next_token s = (type_of ts, s', n) ∧ lexes s' ts ∧
    (ts ≠ [] → lexes (drop n s') (tail ts)) ∧
    (∀ w, head ts = Some (Word w) → strndup s' n = w ∧ length w = n).
Proof.
  intros H. pose proof H as H0.
  inversion H; simplify_eq/=;
    (eexists _, _; split; [eassumption|]; split;
      [|split; [done|intros ? [=]; try (subst; split; [done|])]]).
  all: try (eapply next_token_length in H1 as [??]; unfold strndup; rewrite length_take; lia).
  all: eauto using lexes, next_token_idemp.
Qed.

(** ** The lexical grammar, without scanning

    [renders ts s]: the text [s] writes the tokens [ts] with any whitespace
    between them; whitespace is needed only between two words. *)
Definition is_space (ws : cstr) : bool := forallb (λ c, char_in c WHITESPACE_CHARS) ws.

Definition starts_word (s : cstr) : bool :=
  match s with c :: _ => word_char c | [] => false end.

Inductive renders : list token → cstr → Prop :=
  | r_end ws : is_space ws = true → renders [] ws
  | r_amp ws ts s : is_space ws = true → renders ts s → renders (Amp :: ts) (ws ++ "&"%char :: s)
  | r_pipe ws ts s : is_space ws = true → renders ts s → renders (Pipe :: ts) (ws ++ "|"%char :: s)
  | r_lt ws ts s : is_space ws = true → renders ts s → renders (Lt :: ts) (ws ++ "<"%char :: s)
  | r_gt ws ts s : is_space ws = true → renders ts s → renders (Gt :: ts) (ws ++ ">"%char :: s)
  | r_word ws w ts s :
      is_space ws = true → is_word w = true → starts_word s = false → renders ts s →
      renders (Word w :: ts) (ws ++ w ++ s).

Lemma space_not_nul c : char_in c WHITESPACE_CHARS = true → Ascii.eqb c nul = false.
Proof. intros H. by destruct (Ascii.eqb_spec c nul) as [->|]. Qed.

Lemma next_token_skip ws s :
  is_space ws = true → next_token (ws ++ s) = next_token s.
Proof.
  unfold is_space. induction ws as [|c ws IH]; [done|]. intros [Hc Hws]%andb_true_iff.
  rewrite <- (IH Hws). simpl app.
  destruct (next_token_cons_cases c (ws ++ s)) as [[_ E]|H]; [done|].
  exfalso. destruct_or! H; destruct H as [_ H]; try (by subst).
  unfold word_char, char_in in H. rewrite existsb_app in H. unfold char_in in Hc.
  by rewrite Hc in H.
Qed.

Lemma next_token_space_split s t s' n :
  next_token s = (t, s', n) → ∃ ws, s = ws ++ s' ∧ is_space ws = true.
Proof.
  revert t s' n. induction s as [|c s IH]; intros t s' n.
  { intros [= <- <- <-]. by exists []. }
  destruct (next_token_cons_cases c s) as [[Hc E]|H].
  - rewrite E. intros (ws & -> & Hws)%IH. exists (c :: ws). split; [done|].
    unfold is_space in *. simpl. by rewrite Hc, Hws.
  - intros Hs. exists []. split; [|done].
    destruct_or! H; destruct H as [H _]; simpl; congruence.
Qed.

Lemma word_char_reject c :
  word_char c = negb (char_in c (WHITESPACE_CHARS ++ SPECIAL_CHARS) || Ascii.eqb c nul).
Proof. unfold word_char. by rewrite negb_orb. Qed.

Lemma strcspn_word w s :
  forallb word_char w = true → starts_word s = false →
  strcspn (w ++ s) (WHITESPACE_CHARS ++ SPECIAL_CHARS) = length w.
Proof.
  intros Hw Hs. induction w as [|c w IH].
  - destruct s as [|c s]; [done|]. simpl in Hs. rewrite word_char_reject in Hs.
    apply negb_false_iff in Hs. cbn [strcspn app length]. by rewrite Hs.
  - cbn [forallb] in Hw. apply andb_true_iff in Hw as [Hc Hw].
    rewrite word_char_reject in Hc. apply negb_true_iff in Hc.
    cbn [strcspn app length]. by rewrite Hc, IH.
Qed.

Lemma strcspn_split s :
  let n := strcspn s (WHITESPACE_CHARS ++ SPECIAL_CHARS) in
  forallb word_char (take n s) = true ∧ starts_word (drop n s) = false.
Proof.
  induction s as [|c s IH]; [done|]. cbn [strcspn].
  destruct (_ || _) eqn:E; cbn [take drop].
  - split; [done|]. simpl. by rewrite word_char_reject, E.
  - cbn [forallb]. rewrite word_char_reject, E. exact IH.
Qed.

Lemma next_token_word w s :
  is_word w = true → starts_word s = false →
  next_token (w ++ s) = (TT_WORD, w ++ s, length w).
Proof.
  intros [Hne Hw]%andb_true_iff Hs. destruct w as [|c w]; [done|].
  pose proof Hw as Hc. cbn [forallb] in Hc. apply andb_true_iff in Hc as [Hc _].
  cbn [app]. destruct (next_token_cons_cases c (w ++ s)) as [[Hsp _]|H].
  { rewrite word_char_reject in Hc. unfold char_in in *.
    rewrite existsb_app, Hsp in Hc. done. }
  destruct_or! H; destruct H as [H ?]; try (subst c; done).
  rewrite H. by rewrite <- (strcspn_word (c :: w) s).
Qed.

Lemma next_token_word_inv s s' n :
  next_token s = (TT_WORD, s', n) →
  is_word (take n s') = true ∧ starts_word (drop n s') = false.
Proof.
  intros H. pose proof (next_token_length _ _ _ _ H) as [Hn Hpos].
  apply next_token_idemp in H. destruct s' as [|c s']; [done|].
  destruct (next_token_cons_cases c s') as [[Hc E]|Hcs].
  { rewrite E in H. apply next_token_suffix in H.
    apply suffix_length in H. simpl in H. lia. }
  destruct_or! Hcs; destruct Hcs as [Hr Hc]; rewrite Hr in H; simplify_eq.
  pose proof (strcspn_split (c :: s')) as [? ?]. split; [|done].
  unfold is_word. apply andb_true_iff; split; [|done].
  rewrite bool_decide_eq_false_2; [done|].
  intros E. apply (f_equal length) in E. rewrite length_take in E. simpl length in *.
  specialize (Hpos ltac:(done)). lia.
Qed.

Lemma no_nul_none s s' n :
  Forall (λ c, c ≠ nul) s → next_token s = (TT_NONE, s', n) → s' = [].
Proof.
  revert s' n. induction s as [|c s IH]; intros s' n.
  { by intros _ [= <- <-]. }
  intros [Hc Hs]%Forall_cons_1. destruct (next_token_cons_cases c s) as [[_ E]|H].
  - rewrite E. by apply IH.
  - destruct_or! H; destruct H as [H ?]; congruence.
Qed.

Lemma renders_lexes ts s : renders ts s → lexes s ts.
Proof.
  induction 1; [|econstructor; [rewrite next_token_skip by done; reflexivity|];
                 cbn [drop]; done..|].
  - eapply lexes_none. rewrite <- (app_nil_r ws), next_token_skip by done. reflexivity.
  - rewrite <- (take_app_length w s) at 2. eapply lexes_word.
    + rewrite next_token_skip by done. by apply next_token_word.
    + by rewrite drop_app_length.
Qed.

Lemma lexes_renders s ts : Forall (λ c, c ≠ nul) s → lexes s ts → renders ts s.
Proof.
  intros Hs H. induction H as [s s' n E|s s' n ts E ? IH|s s' n ts E ? IH
    |s s' n ts E ? IH|s s' n ts E ? IH|s s' n ts E ? IH];
    destruct (next_token_space_split _ _ _ _ E) as (ws & -> & Hws);
    apply Forall_app in Hs as [Hs1 Hs2].
  { assert (s' = []) as ->; [|rewrite app_nil_r; by constructor].
    eapply no_nul_none; [exact Hs2|]. by eapply next_token_idemp. }
  all: specialize (IH (Forall_drop _ _ _ Hs2)).
  5: { destruct (next_token_word_inv _ _ _ E). rewrite <- (take_drop n s') at 2.
       by constructor. }
  all: apply next_token_idemp in E; pose proof E as E'; destruct s' as [|c s']; [done|];
    destruct (next_token_cons_cases c s') as [[_ E2]|H'].
  1,3,5,7: rewrite E2 in E; apply next_token_suffix, suffix_length in E; simpl in E; lia.
  all: destruct_or! H'; destruct H' as [H' ?]; rewrite H' in E; simplify_eq;
    by constructor.
Qed.
