(* ===== verification/Parser.v ===== *)
(** * The shell parser ([myshell_parser.c], [myshell_parser.h])

    Each function of the C file is a function here, taking the [token]
    pointer (the remaining text) and the structures it fills and returning
    its result and their new values.  [command_args] is an array of
    [MAX_ARGV_LENGTH] pointers whose cells are uninitialised after
    [malloc]; the linked list of commands is a list. *)

From S2P Require Export Lexer.

Definition MAX_LINE_LENGTH : Z := 512.
Definition MAX_ARGV_LENGTH : Z := MAX_LINE_LENGTH / 2 + 1.

(** A cell of [command_args]: never written, [NULL], or a [strndup]ed word. *)
Inductive arg_cell : Type :=
  | Uninit | Null | Str (w : cstr).

#[export] Instance arg_cell_eq_dec : EqDecision arg_cell.
Proof. solve_decision. Defined.

Record pipeline_command : Type := PipelineCommand {
  command_args : list arg_cell;
  redirect_in_path : option cstr;
  redirect_out_path : option cstr
}.

Record pipeline : Type := Pipeline {
  commands : list pipeline_command;
  is_background : bool
}.

#[export] Instance pipeline_command_eq_dec : EqDecision pipeline_command.
Proof. solve_decision. Defined.
#[export] Instance pipeline_eq_dec : EqDecision pipeline.
Proof. solve_decision. Defined.

Definition with_args (cmd : pipeline_command) (args : list arg_cell) : pipeline_command :=
  PipelineCommand args (redirect_in_path cmd) (redirect_out_path cmd).
Definition with_in (cmd : pipeline_command) (w : cstr) : pipeline_command :=
  PipelineCommand (command_args cmd) (Some w) (redirect_out_path cmd).
Definition with_out (cmd : pipeline_command) (w : cstr) : pipeline_command :=
  PipelineCommand (command_args cmd) (redirect_in_path cmd) (Some w).

Definition pipeline_command_alloc : pipeline_command :=
  PipelineCommand (Null :: replicate (Z.to_nat MAX_ARGV_LENGTH - 1) Uninit) None None.

(** Returns the count and the new [start] and [pipeline]. *)
Definition parse_background (start : cstr) (p : pipeline) : Z * cstr * pipeline :=
  let '(token_type, start, token_length) := next_token start in
  if decide (token_type = TT_AMPERSAND) then
    (1, drop token_length start, Pipeline (commands p) true)
  else (0, start, p).

Definition parse_redirect_out (token : cstr) (command : pipeline_command)
    : Z * cstr * pipeline_command :=
  let '(token_type, token, token_length) := next_token token in
  if decide (token_type = TT_RIGHT_ANGLE) then
    let token := drop token_length token in
    let '(token_type, token, token_length) := next_token token in
    if decide (token_type = TT_WORD) then
      if MAX_WORD_LENGTH <? Z.of_nat token_length then (-1, token, command)
      else (1, drop token_length token, with_out command (strndup token token_length))
    else (-1, token, command)
  else (0, token, command).

Definition parse_redirect_in (token : cstr) (command : pipeline_command)
    : Z * cstr * pipeline_command :=
  let '(token_type, token, token_length) := next_token token in
  if decide (token_type = TT_LEFT_ANGLE) then
    let token := drop token_length token in
    let '(token_type, token, token_length) := next_token token in
    if decide (token_type = TT_WORD) then
      if MAX_WORD_LENGTH <? Z.of_nat token_length then (-1, token, command)
      else (1, drop token_length token, with_in command (strndup token token_length))
    else (-1, token, command)
  else (0, token, command).

(** The [while] loop of [parse_args], and the [NULL] written after it. *)
Fixpoint parse_args_loop (fuel : nat) (token : cstr) (command : pipeline_command)
    (arg_count : Z) : res (Z * cstr * pipeline_command) :=
  match fuel with
  | O => NoFuel
  | S fuel =>
      let '(token_type, token, token_length) := next_token token in
      if decide (token_type = TT_WORD) then
        if MAX_WORD_LENGTH <? Z.of_nat token_length then Ret (-1, token, command)
        else
          args ← (command_args command).[arg_count <- Str (strndup token token_length)];
          parse_args_loop fuel (drop token_length token) (with_args command args) (arg_count + 1)
      else
        args ← (command_args command).[arg_count <- Null];
        Ret (arg_count, token, with_args command args)
  end.

Definition parse_args (fuel : nat) (token : cstr) (command : pipeline_command)
    : res (Z * cstr * pipeline_command) :=
  let '(_, token, _) := next_token token in
  parse_args_loop fuel token command 0.

(** The [do ... while] loop of [parse_command]; returns the last values of
    [redirect_in_ret] and [redirect_out_ret]. *)
Fixpoint parse_redirects (fuel : nat) (token : cstr) (command : pipeline_command)
    : res (Z * Z * cstr * pipeline_command) :=
  match fuel with
  | O => NoFuel
  | S fuel =>
      let '(redirect_in_ret, token, command) := parse_redirect_in token command in
      let '(redirect_out_ret, token, command) := parse_redirect_out token command in
      if (0 <? redirect_in_ret) && (0 <? redirect_out_ret)
      then parse_redirects fuel token command
      else Ret (redirect_in_ret, redirect_out_ret, token, command)
  end.

Definition parse_command (fuel : nat) (token : cstr) (command : pipeline_command)
    : res (Z * cstr * pipeline_command) :=
  '(args_parsed, token, command) ← parse_args fuel token command;
  if args_parsed <? 1 then Ret (args_parsed, token, command)
  else
    '(redirect_in_ret, redirect_out_ret, token, command) ← parse_redirects fuel token command;
    if (redirect_in_ret =? -1) || (redirect_out_ret =? -1) then Ret (-1, token, command)
    else Ret (1, token, command).

(** The [while] loop of [parse_pipes].  [cmds] is the list of commands
    linked so far, the last one being [current_command]; returns the value of
    [pipe_count] at the end of the loop, or -1 where the function returns -1. *)
Fixpoint parse_pipes_loop (fuel : nat) (token : cstr) (cmds : list pipeline_command)
    (last_cmd_parse pipe_count : Z) : res (Z * cstr * list pipeline_command) :=
  match fuel with
  | O => NoFuel
  | S fuel' =>
      let '(token_type, token, token_length) := next_token token in
      if decide (token_type = TT_PIPE) then
        if negb (last_cmd_parse =? 1) then Ret (-1, token, cmds)
        else
          let token := drop token_length token in
          '(last_cmd_parse, token, command) ← parse_command fuel token pipeline_command_alloc;
          let cmds := cmds ++ [command] in
          if last_cmd_parse =? -1 then Ret (-1, token, cmds)
          else parse_pipes_loop fuel' token cmds last_cmd_parse (pipe_count + 1)
      else Ret (pipe_count, token, cmds)
  end.

Definition parse_pipes (fuel : nat) (token : cstr) : res (Z * cstr * pipeline) :=
  '(last_cmd_parse, token, command) ← parse_command fuel token pipeline_command_alloc;
  if last_cmd_parse =? -1 then Ret (-1, token, Pipeline [command] false)
  else
    '(pipe_count, token, cmds) ← parse_pipes_loop fuel token [command] last_cmd_parse 0;
    let p := Pipeline cmds false in
    if pipe_count =? -1 then Ret (-1, token, p)
    else
      let '(background, token, p) := parse_background token p in
      if background =? -1 then Ret (-1, token, p)
      else
        let '(token_type, token, _) := next_token token in
        if decide (token_type = TT_NONE) then Ret (pipe_count, token, p)
        else Ret (-1, token, p).

(** [pipeline_command_free_args]: the words passed to [free], in order.  The
    loop reads [*arg] before it compares [arg] with the end of the array;
    freeing an uninitialised pointer is undefined. *)
Fixpoint free_args_loop (fuel : nat) (args : list arg_cell) (arg : Z) : res (list cstr) :=
  match fuel with
  | O => NoFuel
  | S fuel =>
      cell ← args.[arg];
      match cell with
      | Null => Ret []
      | Uninit => UB
      | Str w =>
          if arg <? MAX_ARGV_LENGTH then
            freed ← free_args_loop fuel args (arg + 1);
            Ret (w :: freed)
          else Ret []
      end
  end.

Definition pipeline_command_free_args (command : pipeline_command) : res (list cstr) :=
  free_args_loop (S (Z.to_nat MAX_ARGV_LENGTH)) (command_args command) 0.

(** [pipeline_free] on a non-null pipeline: the strings freed, in order. *)
Fixpoint free_commands (cmds : list pipeline_command) : res (list cstr) :=
  match cmds with
  | [] => Ret []
  | command_to_free :: next_command =>
      freed_args ← pipeline_command_free_args command_to_free;
      freed ← free_commands next_command;
      Ret (freed_args ++ option_list (redirect_in_path command_to_free)
                      ++ option_list (redirect_out_path command_to_free) ++ freed)
  end.

Definition pipeline_free (p : option pipeline) : res (list cstr) :=
  match p with Some p => free_commands (commands p) | None => Ret [] end.

(** [None] is the [NULL] returned for a line that does not parse.  Every
    loop consumes a token per round, so the length of the line bounds them. *)
Definition pipeline_build (command_line : cstr) : res (option pipeline) :=
  '(pipes_parsed, _, p) ← parse_pipes (S (length command_line)) command_line;
  if pipes_parsed =? -1 then
    _ ← pipeline_free (Some p);
    Ret None
  else Ret (Some p).

(** The argument words of a command: the cells before the first [NULL]. *)
Fixpoint cells_words (cells : list arg_cell) : list cstr :=
  match cells with Str w :: cells => w :: cells_words cells | _ => [] end.

Definition argv (c : pipeline_command) : list cstr := cells_words (command_args c).
