(* ===== verification/ParserSpec.v ===== *)
(** * What the shell parser accepts and builds

    The grammar the code implements, stated on token sequences, and the
    equivalence of [pipeline_build] with it; memory safety of [pipeline_free]
    on what [pipeline_build] returns; termination. *)

From S2P Require Export Parser.

(** ** The grammar *)

Record command_ast : Type := CommandAst {
  ast_args : list cstr;
  ast_in : option cstr;
  ast_out : option cstr
}.

Definition short (w : cstr) : Prop := Z.of_nat (length w) ≤ MAX_WORD_LENGTH.

(** [g_redirs i o ts i' o']: the redirections [ts] change the input and
    output paths from [i], [o] to [i'], [o'].  An output redirection is only
    followed by an input one when an input one precedes it. *)
Inductive g_redirs : option cstr → option cstr → list token → option cstr → option cstr → Prop :=
  | g_none i o : g_redirs i o [] i o
  | g_in i o w : short w → g_redirs i o [Lt; Word w] (Some w) o
  | g_out i o w : short w → g_redirs i o [Gt; Word w] i (Some w)
  | g_both i o w v ts i' o' :
      short w → short v → g_redirs (Some w) (Some v) ts i' o' →
      g_redirs i o (Lt :: Word w :: Gt :: Word v :: ts) i' o'.

Inductive g_command : list token → command_ast → Prop :=
  | g_cmd ws rs i o :
      ws ≠ [] → Z.of_nat (length ws) < MAX_ARGV_LENGTH → Forall short ws →
      g_redirs None None rs i o →
      g_command (map Word ws ++ rs) (CommandAst ws i o).

(** A pipeline; its last command may be empty. *)
Inductive g_pipes : list token → list command_ast → Prop :=
  | g_empty : g_pipes [] [CommandAst [] None None]
  | g_last ts c : g_command ts c → g_pipes ts [c]
  | g_cons ts c ts' cs :
      g_command ts c → g_pipes ts' cs → g_pipes (ts ++ Pipe :: ts') (c :: cs).

Inductive g_line : list token → list command_ast → bool → Prop :=
  | g_fore ts cs : g_pipes ts cs → g_line ts cs false
  | g_back ts cs : g_pipes ts cs → g_line (ts ++ [Amp]) cs true.

(** The structure built for a command: its words, a [NULL], and the cells
    that were never written. *)
Definition build_args (ws : list cstr) : list arg_cell :=
  map Str ws ++ Null :: replicate (Z.to_nat MAX_ARGV_LENGTH - 1 - length ws) Uninit.

Definition build_command (c : command_ast) : pipeline_command :=
  PipelineCommand (build_args (ast_args c)) (ast_in c) (ast_out c).

(** ** Redirections *)

(** [ends ts]: what follows a command in an accepted line. *)
Definition ends (ts : list token) : Prop :=
  match ts with [] | Pipe :: _ | Amp :: _ => True | _ => False end.

(** The three outcomes of [parse_redirect_in] and [parse_redirect_out] on a
    text of tokens [ts]; [angle] is the redirection's token and [upd] the
    update of the command. *)
Inductive redirect_case (angle : token) (upd : pipeline_command → cstr → pipeline_command)
    (ts : list token) (cmd : pipeline_command) : Z * cstr * pipeline_command → Prop :=
  | rc_no s' :
      head ts ≠ Some angle → lexes s' ts → redirect_case angle upd ts cmd (0, s', cmd)
  | rc_yes s' w ts' :
      ts = angle :: Word w :: ts' → short w → lexes s' ts' →
      redirect_case angle upd ts cmd (1, s', upd cmd w)
  | rc_err s' :
      head ts = Some angle → (∀ w ts', ts = angle :: Word w :: ts' → ¬ short w) →
      redirect_case angle upd ts cmd (-1, s', cmd).

Ltac redirect_spec H E1 :=
  let s1 := fresh in let n1 := fresh in let H1 := fresh in let Hr := fresh "Hr" in
  destruct (lexes_next _ _ H) as (s1 & n1 & E1 & H1 & Hr & _);
  rewrite E1;
  match goal with ts : list token |- _ =>
    destruct ts as [|[| | | |] ts]; simpl;
    try (by constructor);
    let s2 := fresh in let n2 := fresh in let E2 := fresh in let Hr2 := fresh "Hr" in
    let Hw := fresh "Hw" in
    specialize (Hr ltac:(done)); simpl in Hr;
    destruct (lexes_next _ _ Hr) as (s2 & n2 & E2 & _ & Hr2 & Hw); rewrite E2;
    destruct ts as [|[| | | |w] ts]; simpl; try (by constructor);
    specialize (Hr2 ltac:(done)); destruct (Hw w eq_refl) as [-> <-]; simpl in Hr2;
    destruct (Z.ltb_spec MAX_WORD_LENGTH (Z.of_nat (length w)));
    [ constructor; [done|]; intros ? ? [= <- <-]; unfold short; lia
    | eapply rc_yes; [done|unfold short; lia|done] ]
  end.

Lemma parse_redirect_in_spec s ts cmd :
  lexes s ts → redirect_case Lt with_in ts cmd (parse_redirect_in s cmd).
Proof. intros H. unfold parse_redirect_in. redirect_spec H E1. Qed.

Lemma parse_redirect_out_spec s ts cmd :
  lexes s ts → redirect_case Gt with_out ts cmd (parse_redirect_out s cmd).
Proof. intros H. unfold parse_redirect_out. redirect_spec H E1. Qed.

(** On any text, the redirection loop stops; it reports an error or has read
    redirections of the grammar. *)
Lemma parse_redirects_sound fuel s ts cmd :
  lexes s ts → (length ts < fuel)%nat →
  ∃ ri ro s' cmd', parse_redirects fuel s cmd = Ret (ri, ro, s', cmd') ∧
    command_args cmd' = command_args cmd ∧
    (ri = -1 ∨ ro = -1 ∨
     (0 ≤ ri ∧ 0 ≤ ro ∧ ∃ rs ts', ts = rs ++ ts' ∧ lexes s' ts' ∧
       g_redirs (redirect_in_path cmd) (redirect_out_path cmd) rs
                (redirect_in_path cmd') (redirect_out_path cmd'))).
Proof.
  revert s ts cmd. induction fuel as [|fuel IH]; [lia|].
  intros s ts cmd H Hf. cbn [parse_redirects].
  pose proof (parse_redirect_in_spec s ts cmd H) as Hin.
  inversion Hin as [s1 Hh H1 E|s1 w ts1 Ht Hw H1 E|s1 Hh Hx E]; subst; clear Hin.
  - pose proof (parse_redirect_out_spec s1 ts cmd H1) as Hout.
    inversion Hout as [s2 Hh2 H2 E2|s2 v ts2 Ht2 Hv H2 E2|s2 Hh2 Hx2 E2]; subst; simpl;
      eexists _, _, _, _; (split; [reflexivity|]); split; auto; right.
    + right. split_and!; [lia..|]. eexists [], _. split_and!; [reflexivity|done|constructor].
    + right. split_and!; [lia..|]. eexists [Gt; Word v], _.
      split_and!; [reflexivity|done|by constructor].
  - pose proof (parse_redirect_out_spec s1 ts1 (with_in cmd w) H1) as Hout.
    inversion Hout as [s2 Hh2 H2 E2|s2 v ts2 Ht2 Hv H2 E2|s2 Hh2 Hx2 E2]; subst; simpl.
    + eexists _, _, _, _; (split; [reflexivity|]); split; auto; right.
      right. split_and!; [lia..|]. eexists [Lt; Word w], _.
      split_and!; [reflexivity|done|by constructor].
    + destruct (IH s2 ts2 (with_out (with_in cmd w) v)) as (ri & ro & s' & cmd' & E3 & Ha & Hc);
        [done|simpl in Hf; lia|].
      exists ri, ro, s', cmd'. split_and!; [done|done|].
      destruct Hc as [?|[?|(? & ? & rs & ts' & -> & ? & ?)]]; auto.
      right; right. split_and!; [done..|]. eexists (Lt :: Word w :: Gt :: Word v :: rs), ts'.
      split_and!; [reflexivity|done|by constructor].
    + eexists _, _, _, _; (split; [reflexivity|]); auto.
  - destruct (lexes_total s1) as [ts1 H1].
    pose proof (parse_redirect_out_spec s1 ts1 cmd H1) as Hout.
    inversion Hout; subst; simpl; eexists _, _, _, _; (split; [reflexivity|]); auto.
Qed.

Lemma redirect_case_no angle upd ts cmd r :
  head ts ≠ Some angle → redirect_case angle upd ts cmd r →
  ∃ s', r = (0, s', cmd) ∧ lexes s' ts.
Proof. intros Hh []; simplify_eq/=; eauto. Qed.

Lemma redirect_case_yes angle upd w ts cmd r :
  short w → redirect_case angle upd (angle :: Word w :: ts) cmd r →
  ∃ s', r = (1, s', upd cmd w) ∧ lexes s' ts.
Proof.
  intros Hw Hr. inversion Hr as [|? w' ts' [= <- <-]|? ? Hx]; simplify_eq/=; eauto.
  exfalso. by eapply Hx.
Qed.

Lemma parse_redirect_in_no s ts cmd :
  lexes s ts → head ts ≠ Some Lt → ∃ s', parse_redirect_in s cmd = (0, s', cmd) ∧ lexes s' ts.
Proof. intros. eapply redirect_case_no; [done|by apply parse_redirect_in_spec]. Qed.

Lemma parse_redirect_out_no s ts cmd :
  lexes s ts → head ts ≠ Some Gt → ∃ s', parse_redirect_out s cmd = (0, s', cmd) ∧ lexes s' ts.
Proof. intros. eapply redirect_case_no; [done|by apply parse_redirect_out_spec]. Qed.

Lemma parse_redirect_in_yes s w ts cmd :
  lexes s (Lt :: Word w :: ts) → short w →
  ∃ s', parse_redirect_in s cmd = (1, s', with_in cmd w) ∧ lexes s' ts.
Proof. intros. eapply redirect_case_yes; [done|by apply parse_redirect_in_spec]. Qed.

Lemma parse_redirect_out_yes s w ts cmd :
  lexes s (Gt :: Word w :: ts) → short w →
  ∃ s', parse_redirect_out s cmd = (1, s', with_out cmd w) ∧ lexes s' ts.
Proof. intros. eapply redirect_case_yes; [done|by apply parse_redirect_out_spec]. Qed.

Lemma ends_head ts : ends ts → head ts ≠ Some Lt ∧ head ts ≠ Some Gt.
Proof. by destruct ts as [|[] ?]. Qed.

(** Redirections of the grammar, followed by the end of a command, are read. *)
Lemma parse_redirects_complete i o rs i' o' rest :
  g_redirs i o rs i' o' → ends rest →
  ∀ fuel s args, lexes s (rs ++ rest) → (length (rs ++ rest) < fuel)%nat →
  ∃ ri ro s', parse_redirects fuel s (PipelineCommand args i o) =
                Ret (ri, ro, s', PipelineCommand args i' o') ∧
              0 ≤ ri ∧ 0 ≤ ro ∧ lexes s' rest.
Proof.
  intros Hg [HLt HGt]%ends_head.
  induction Hg as [i o|i o w Hw|i o w Hw|i o w v ts i' o' Hw Hv Hg IH];
    intros [|fuel] s args H Hf; try (simpl in Hf; lia); cbn [parse_redirects]; simpl in H.
  - edestruct parse_redirect_in_no as (s1 & -> & H1); [done..|].
    edestruct parse_redirect_out_no as (s2 & -> & H2); [done..|].
    eexists _, _, _. split_and!; [reflexivity|lia..|done].
  - edestruct parse_redirect_in_yes as (s1 & -> & H1); [done..|].
    edestruct parse_redirect_out_no as (s2 & -> & H2); [done..|].
    eexists _, _, _. split_and!; [reflexivity|lia..|done].
  - edestruct parse_redirect_in_no as (s1 & -> & H1); [done..|].
    edestruct parse_redirect_out_yes as (s2 & -> & H2); [done..|].
    eexists _, _, _. split_and!; [reflexivity|lia..|done].
  - edestruct parse_redirect_in_yes as (s1 & -> & H1); [done..|].
    edestruct parse_redirect_out_yes as (s2 & -> & H2); [done..|].
    simpl. apply IH; [done|]. simpl in Hf. lia.
Qed.

(** ** Arguments *)

(** The cells after [n] words have been stored. *)
Definition partial_args (ws : list cstr) (tl : list arg_cell) : list arg_cell :=
  map Str ws ++ tl.

Lemma write_arg ws c tl x :
  (partial_args ws (c :: tl)).[Z.of_nat (length ws) <- x] = Ret (partial_args ws (x :: tl)).
Proof.
  unfold partial_args. rewrite awrite_nat by (rewrite length_app, length_map; simpl; lia).
  f_equal. rewrite insert_app_r_alt by (rewrite length_map; lia).
  by rewrite length_map, Nat.sub_diag.
Qed.

Definition at_word (ts : list token) : bool :=
  match ts with Word _ :: _ => true | _ => false end.

(** [parse_args_loop] on the words at the head of the text: it stores them
    all when they are short and fit, fails at the first long one, and runs off
    the array when there are too many. *)
Lemma parse_args_loop_words ws rest : ∀ fuel s cmd ws0 tl,
  lexes s (map Word ws ++ rest) → at_word rest = false → Forall short ws →
  (length ws < fuel)%nat → command_args cmd = partial_args ws0 tl →
  (length ws < length tl)%nat →
  ∃ s', parse_args_loop fuel s cmd (Z.of_nat (length ws0)) =
    Ret (Z.of_nat (length (ws0 ++ ws)), s',
         with_args cmd (partial_args (ws0 ++ ws) (Null :: drop (S (length ws)) tl))) ∧
    lexes s' rest.
Proof.
  induction ws as [|w ws IH]; intros [|fuel] s cmd ws0 tl H Hr Hs Hf Ha Hl; simpl in Hf; try lia;
    (destruct tl as [|c tl]; [simpl in Hl; lia|]);
    cbn [parse_args_loop]; destruct (lexes_next _ _ H) as (s1 & n1 & E1 & H1 & Hn & Hw);
    rewrite E1, Ha.
  - simpl map in *. simpl app in *. rewrite decide_False by (by destruct rest as [|[] ?]).
    rewrite write_arg. simpl. rewrite app_nil_r. eauto.
  - apply Forall_cons_1 in Hs as [Hs Hss]. simpl type_of. rewrite decide_True by done.
    destruct (Hw w eq_refl) as [-> <-]. unfold short in Hs.
    rewrite (proj2 (Z.ltb_ge _ _) Hs), write_arg. cbn [mbind res_mbind].
    destruct (IH fuel (drop (length w) s1) (with_args cmd (partial_args ws0 (Str w :: tl)))
                (ws0 ++ [w]) tl) as (s' & E & Hl').
    + exact (Hn ltac:(done)).
    + done.
    + done.
    + lia.
    + simpl. unfold partial_args. rewrite map_app, <- app_assoc. done.
    + simpl in Hl. lia.
    + exists s'. split; [|done].
      replace (Z.of_nat (length ws0) + 1) with (Z.of_nat (length (ws0 ++ [w])))
        by (rewrite length_app; simpl; lia).
      rewrite E, <- app_assoc. done.
Qed.

Lemma parse_args_loop_long ws w rest : ∀ fuel s cmd ws0 tl,
  lexes s (map Word ws ++ Word w :: rest) → Forall short ws → ¬ short w →
  (length ws < fuel)%nat → command_args cmd = partial_args ws0 tl →
  (length ws <= length tl)%nat →
  ∃ s', parse_args_loop fuel s cmd (Z.of_nat (length ws0)) =
    Ret (-1, s', with_args cmd (partial_args (ws0 ++ ws) (drop (length ws) tl))).
Proof.
  induction ws as [|w' ws IH]; intros [|fuel] s cmd ws0 tl H Hs Hlong Hf Ha Hl; simpl in Hf;
    try lia; cbn [parse_args_loop];
    destruct (lexes_next _ _ H) as (s1 & n1 & E1 & H1 & Hn & Hw); rewrite E1;
    simpl type_of; rewrite decide_True by done;
    (destruct (Hw _ eq_refl) as [-> <-]); unfold short in *.
  - destruct (Z.ltb_spec MAX_WORD_LENGTH (Z.of_nat (length w))); [|lia].
    simpl. rewrite app_nil_r. exists s1. by destruct cmd; simpl in Ha; subst.
  - apply Forall_cons_1 in Hs as [Hs Hss].
    destruct tl as [|c tl]; [simpl in Hl; lia|].
    rewrite (proj2 (Z.ltb_ge _ _) Hs), Ha, write_arg. cbn [mbind res_mbind].
    destruct (IH fuel (drop (length w') s1) (with_args cmd (partial_args ws0 (Str w' :: tl)))
                (ws0 ++ [w']) tl) as (s' & E).
    + exact (Hn ltac:(done)).
    + done.
    + done.
    + lia.
    + simpl. unfold partial_args. rewrite map_app, <- app_assoc. done.
    + simpl in Hl. lia.
    + exists s'. replace (Z.of_nat (length ws0) + 1) with (Z.of_nat (length (ws0 ++ [w'])))
        by (rewrite length_app; simpl; lia).
      rewrite E, <- app_assoc. done.
Qed.

Lemma parse_args_loop_overflow ws rest : ∀ fuel s cmd ws0 tl,
  lexes s (map Word ws ++ rest) → Forall short ws →
  (length tl <= length ws)%nat → (length tl = length ws → at_word rest = false) →
  (length ws < fuel)%nat → command_args cmd = partial_args ws0 tl →
  parse_args_loop fuel s cmd (Z.of_nat (length ws0)) = UB.
Proof.
  induction ws as [|w ws IH]; intros [|fuel] s cmd ws0 tl H Hs Hl Hr Hf Ha; simpl in Hl, Hf; try lia;
    cbn [parse_args_loop]; destruct (lexes_next _ _ H) as (s1 & n1 & E1 & H1 & Hn & Hw);
    rewrite E1, Ha; simpl type_of.
  - destruct tl; [|simpl in Hl; lia]. specialize (Hr eq_refl).
    rewrite decide_False by (by destruct rest as [|[] ?]).
    rewrite awrite_UB; [done|]. unfold partial_args.
    rewrite length_app, length_map. simpl. lia.
  - apply Forall_cons_1 in Hs as [Hs Hss]. rewrite decide_True by done.
    destruct (Hw w eq_refl) as [-> <-]. unfold short in Hs.
    rewrite (proj2 (Z.ltb_ge _ _) Hs). destruct tl as [|c tl].
    { rewrite awrite_UB; [done|]. unfold partial_args.
      rewrite length_app, length_map. simpl. lia. }
    rewrite write_arg. cbn [mbind res_mbind].
    replace (Z.of_nat (length ws0) + 1) with (Z.of_nat (length (ws0 ++ [w])))
      by (rewrite length_app; simpl; lia).
    simpl in Hl, Hr. eapply (IH _ _ _ _ tl); [exact (Hn ltac:(done))|done|lia|intros; apply Hr; lia|lia|].
    simpl. unfold partial_args. by rewrite map_app, <- app_assoc.
Qed.

Lemma split_words ts : ∃ ws rest, ts = map Word ws ++ rest ∧ at_word rest = false.
Proof.
  induction ts as [|t ts (ws & rest & -> & Hr)]; [by exists [], []|].
  destruct t as [| | | |w]; [by eexists [], _..|].
  exists (w :: ws), rest. done.
Qed.

(** The words before the first one that is too long. *)
Lemma split_short ws :
  Forall short ws ∨ ∃ ws1 w ws2, ws = ws1 ++ w :: ws2 ∧ Forall short ws1 ∧ ¬ short w.
Proof.
  induction ws as [|w ws IH]; [by left|].
  destruct (Z.le_gt_cases (Z.of_nat (length w)) MAX_WORD_LENGTH) as [Hw|Hw].
  - destruct IH as [IH|(ws1 & w' & ws2 & -> & H1 & H2)].
    + left. by constructor.
    + right. exists (w :: ws1), w', ws2. split_and!; [done|by constructor|done].
  - right. exists [], w, ws. split_and!; [done|done|]. unfold short. lia.
Qed.

Definition empty_command : command_ast := CommandAst [] None None.

Lemma alloc_build : pipeline_command_alloc = build_command empty_command.
Proof. done. Qed.

Definition argv_room : nat := Z.to_nat MAX_ARGV_LENGTH.
Arguments argv_room : simpl never.

Lemma argv_room_Z : Z.of_nat argv_room = MAX_ARGV_LENGTH.
Proof. done. Qed.

Lemma alloc_args : command_args pipeline_command_alloc = partial_args [] (Null :: replicate (argv_room - 1) Uninit).
Proof. done. Qed.

Lemma partial_build ws :
  partial_args ws (Null :: drop (S (length ws)) (Null :: replicate (argv_room - 1) Uninit)) =
  build_args ws.
Proof. unfold partial_args, build_args. cbn [drop]. by rewrite drop_replicate. Qed.

(** The result of [parse_args] on a fresh command. *)
Inductive args_case (ts : list token) : res (Z * cstr * pipeline_command) → Prop :=
  | ac_ok s' ws rest :
      ts = map Word ws ++ rest → at_word rest = false → Forall short ws →
      (length ws < argv_room)%nat → lexes s' rest →
      args_case ts (Ret (Z.of_nat (length ws), s', build_command (CommandAst ws None None)))
  | ac_long s' ws w rest :
      ts = map Word ws ++ Word w :: rest → Forall short ws → ¬ short w →
      (length ws <= argv_room)%nat →
      args_case ts (Ret (-1, s', PipelineCommand
        (partial_args ws (drop (length ws) (Null :: replicate (argv_room - 1) Uninit))) None None))
  | ac_full ws rest :
      ts = map Word ws ++ rest → Forall short ws → (argv_room <= length ws)%nat →
      args_case ts UB.

Lemma parse_args_spec fuel s ts :
  lexes s ts → (length ts < fuel)%nat →
  args_case ts (parse_args fuel s pipeline_command_alloc).
Proof.
  intros H Hf. unfold parse_args.
  destruct (lexes_next _ _ H) as (s1 & n1 & -> & H1 & _).
  destruct (split_words ts) as (ws & rest & -> & Hr).
  rewrite length_app, length_map in Hf.
  change 0 with (Z.of_nat (length (@nil cstr))).
  assert (length (Null :: replicate (argv_room - 1) Uninit) = argv_room) as Hlen.
  { cbn [length]. rewrite length_replicate. done. }
  destruct (split_short ws) as [Hs|(ws1 & w & ws2 & -> & Hs & Hw)].
  - destruct (decide (length ws < argv_room)%nat) as [Hlt|Hge].
    + edestruct parse_args_loop_words as (s' & -> & Hl); [exact H1|done|done| |apply alloc_args| |].
      { lia. } { lia. }
      rewrite app_nil_l, partial_build. by eapply ac_ok.
    + erewrite parse_args_loop_overflow; [|exact H1|done| | | |apply alloc_args]; try lia; [|done].
      eapply ac_full; [done|done|lia].
  - rewrite map_app, <- app_assoc in *. rewrite length_app in Hf. cbn [map app] in *. cbn [length] in Hf.
    destruct (decide (length ws1 <= argv_room)%nat) as [Hlt|Hge].
    + edestruct parse_args_loop_long as (s' & ->); [exact H1|done|done| |apply alloc_args| |].
      { lia. } { lia. }
      rewrite app_nil_l. by eapply ac_long.
    + erewrite parse_args_loop_overflow; [|exact H1|done| | | |apply alloc_args]; try lia.
      eapply ac_full; [done|done|lia].
Qed.

(** ** Commands *)

Definition has_long (ts : list token) : Prop := ∃ w, Word w ∈ ts ∧ ¬ short w.

(** A command whose argument cells are words ended by a [NULL]. *)
Definition terminated (cmd : pipeline_command) : Prop :=
  ∃ ws, command_args cmd = build_args ws ∧ (length ws < argv_room)%nat.

Inductive command_case (ts : list token) : res (Z * cstr * pipeline_command) → Prop :=
  | cc_empty s' :
      at_word ts = false → lexes s' ts →
      command_case ts (Ret (0, s', build_command empty_command))
  | cc_cmd s' cs ts' c :
      ts = cs ++ ts' → g_command cs c → lexes s' ts' →
      command_case ts (Ret (1, s', build_command c))
  | cc_err s' cmd :
      terminated cmd ∨ has_long ts → command_case ts (Ret (-1, s', cmd))
  | cc_full : (argv_room <= length ts)%nat → command_case ts UB.

Lemma parse_command_spec fuel s ts :
  lexes s ts → (length ts < fuel)%nat →
  command_case ts (parse_command fuel s pipeline_command_alloc).
Proof.
  intros H Hf. unfold parse_command.
  destruct (parse_args_spec fuel s ts H Hf)
    as [s' ws rest -> Hr Hs Hl H'|s' ws w rest -> Hs Hw Hl|ws rest -> Hs Hl]; cbn [mbind res_mbind].
  - destruct ws as [|w ws]; cbn [length].
    { rewrite (proj2 (Z.ltb_lt _ _)) by lia. by apply cc_empty. }
    rewrite (proj2 (Z.ltb_ge _ _)) by lia.
    destruct (parse_redirects_sound fuel s' rest
      (build_command (CommandAst (w :: ws) None None)) H') as (ri & ro & s2 & cmd' & -> & Ha & Hc).
    { rewrite length_app in Hf. lia. }
    cbn [mbind res_mbind]. destruct Hc as [->|[->|(? & ? & rs & ts' & -> & H2 & Hg)]].
    + simpl. apply cc_err. left. by exists (w :: ws).
    + rewrite orb_true_r. apply cc_err. left. by exists (w :: ws).
    + rewrite (proj2 (Z.eqb_neq _ _)), (proj2 (Z.eqb_neq _ _)) by lia. simpl.
      destruct cmd' as [args i o]. simpl in Ha, Hg. subst args.
      eapply (cc_cmd _ _ (map Word (w :: ws) ++ rs) ts' (CommandAst (w :: ws) i o)).
      * by rewrite <- app_assoc.
      * constructor; [done|pose proof argv_room_Z; lia|done|done].
      * done.
  - rewrite (proj2 (Z.ltb_lt _ _)) by lia. apply cc_err. right.
    exists w. split; [set_solver|done].
  - apply cc_full. rewrite length_app, length_map. lia.
Qed.

Lemma at_word_ends rs rest i o i' o' :
  g_redirs i o rs i' o' → ends rest → at_word (rs ++ rest) = false.
Proof. intros []; [|done..]. by destruct rest as [|[] ?]. Qed.

Lemma parse_command_complete cs c rest fuel s :
  g_command cs c → ends rest → lexes s (cs ++ rest) → (length (cs ++ rest) < fuel)%nat →
  ∃ s', parse_command fuel s pipeline_command_alloc = Ret (1, s', build_command c) ∧
        lexes s' rest.
Proof.
  intros [ws rs i o Hne Hlen Hs Hg] Hend H Hf. rewrite <- app_assoc in *.
  unfold parse_command, parse_args. destruct (lexes_next _ _ H) as (s1 & n1 & -> & H1 & _).
  destruct (parse_args_loop_words ws (rs ++ rest) fuel s1 pipeline_command_alloc []
    (Null :: replicate (argv_room - 1) Uninit)) as (s2 & E & H2).
  - done.
  - by eapply at_word_ends.
  - done.
  - rewrite length_app, length_map in Hf. lia.
  - done.
  - cbn [length]. rewrite length_replicate. pose proof argv_room_Z. lia.
  - change (Z.of_nat (length (@nil cstr))) with 0 in E. rewrite E. cbn [mbind res_mbind].
    rewrite app_nil_l. destruct (Z.ltb_spec (Z.of_nat (length ws)) 1) as [Hz|_].
    { destruct ws; simpl in Hz; [done|lia]. }
    edestruct (parse_redirects_complete None None rs i o rest Hg Hend fuel s2)
      as (ri & ro & s3 & E3 & Hi & Ho & H3); [done| |].
    { rewrite length_app, length_map in Hf. lia. }
    unfold with_args. cbn [redirect_in_path redirect_out_path pipeline_command_alloc].
    rewrite E3. cbn [mbind res_mbind].
    rewrite (proj2 (Z.eqb_neq _ _)), (proj2 (Z.eqb_neq _ _)) by lia. cbn [orb].
    exists s3. by rewrite partial_build.
Qed.

Lemma parse_command_none fuel s ts :
  lexes s ts → at_word ts = false → (0 < fuel)%nat →
  ∃ s', parse_command fuel s pipeline_command_alloc = Ret (0, s', build_command empty_command)
        ∧ lexes s' ts.
Proof.
  intros H Hw Hf. unfold parse_command, parse_args.
  destruct (lexes_next _ _ H) as (s1 & n1 & -> & H1 & _).
  destruct (parse_args_loop_words [] ts fuel s1 pipeline_command_alloc []
    (Null :: replicate (argv_room - 1) Uninit)) as (s2 & E & H2); try done.
  { simpl. lia. }
  change (Z.of_nat (length (@nil cstr))) with 0 in E. rewrite E. exists s2. done.
Qed.

(** ** Pipelines *)

Lemma next_type s ts :
  lexes s ts → ∃ s' n, next_token s = (type_of ts, s', n) ∧ lexes s' ts ∧
    (ts ≠ [] → lexes (drop n s') (tail ts)).
Proof. intros (s' & n & ? & ? & ? & _)%lexes_next. eauto. Qed.

Lemma g_command_ne cs c : g_command cs c → cs ≠ [].
Proof. intros [ws ???? Hne]. destruct ws; [done|]. by intros [=]. Qed.

(** What parsing commands from a position of the line gives: [r] is the
    result of the loop entered after the first command. *)
Inductive pipes_case (ts : list token) (cs0 : list pipeline_command) :
    res (Z * cstr * list pipeline_command) → Prop :=
  | pc_ok m s' cs body ts' :
      0 ≤ m → ts = body ++ ts' → g_pipes body cs → lexes s' ts' → head ts' ≠ Some Pipe →
      pipes_case ts cs0 (Ret (m, s', cs0 ++ map build_command cs))
  | pc_err s' cmds :
      (Forall terminated cs0 → Forall terminated cmds) ∨ has_long ts →
      pipes_case ts cs0 (Ret (-1, s', cmds))
  | pc_full : (argv_room <= length ts)%nat → pipes_case ts cs0 UB.

Definition pipes_from (fuelc fuel : nat) (s : cstr) (cs0 : list pipeline_command) (n : Z) :
    res (Z * cstr * list pipeline_command) :=
  '(last_cmd_parse, s1, cmd) ← parse_command fuelc s pipeline_command_alloc;
  if last_cmd_parse =? -1 then Ret (-1, s1, cs0 ++ [cmd])
  else parse_pipes_loop fuel s1 (cs0 ++ [cmd]) last_cmd_parse n.

Lemma parse_pipes_loop_S fuel s cmds last n :
  parse_pipes_loop (S fuel) s cmds last n =
  let '(token_type, token, token_length) := next_token s in
  if decide (token_type = TT_PIPE) then
    if negb (last =? 1) then Ret (-1, token, cmds)
    else pipes_from (S fuel) fuel (drop token_length token) cmds (n + 1)
  else Ret (n, token, cmds).
Proof.
  cbn [parse_pipes_loop]. destruct (next_token s) as [[t s1] n1].
  case_decide; [|done]. destruct (negb _); [done|]. unfold pipes_from.
  destruct (parse_command _ _ _) as [[[l s2] c]| |]; done.
Qed.

Lemma has_long_app_r ts ts' : has_long ts' → has_long (ts ++ ts').
Proof. intros (w & ? & ?). exists w. split; [set_solver|done]. Qed.

Lemma terminated_build c cs : g_command cs c → terminated (build_command c).
Proof.
  intros [ws rs i o ? Hl]. exists ws. split; [done|]. pose proof argv_room_Z. lia.
Qed.

Lemma terminated_empty : terminated (build_command empty_command).
Proof. exists []. split; [done|]. by apply Nat.ltb_lt. Qed.

Lemma pipes_sound fuel : ∀ fuelc s ts cs0 n,
  lexes s ts → (length ts < fuelc)%nat → (length ts < fuel)%nat → 0 ≤ n →
  pipes_case ts cs0 (pipes_from fuelc fuel s cs0 n).
Proof.
  induction fuel as [|fuel IH]; intros fuelc s ts cs0 n H Hfc Hf Hn; [lia|].
  unfold pipes_from.
  destruct (parse_command_spec fuelc s ts H Hfc)
    as [s' Hw H'|s' cs ts' c -> Hg H'|s' cmd Hc|Hl]; cbn [mbind res_mbind]; cbn [Z.eqb].
  - rewrite parse_pipes_loop_S. destruct (next_type _ _ H') as (s2 & n2 & -> & H2 & _).
    case_decide as Ht.
    + apply pc_err. left. intros H0. apply Forall_app; split; [done|].
      constructor; [apply terminated_empty|constructor].
    + eapply (pc_ok _ _ _ _ [empty_command] []); [done|done|constructor|done|].
      by destruct ts as [|[] ?].
  - rewrite parse_pipes_loop_S. destruct (next_type _ _ H') as (s2 & n2 & -> & H2 & Hr).
    case_decide as Ht.
    + destruct ts' as [|[] ts']; try done. specialize (Hr ltac:(done)). simpl in Hr.
      cbn [negb Z.eqb Pos.eqb]. rewrite length_app in *. simpl in Hf, Hfc.
      destruct (IH (S fuel) _ _ (cs0 ++ [build_command c]) (n + 1) Hr)
        as [m s3 cs' body ts2 ? -> ? ? ?|s3 cmds Hc|Hfull]; try lia.
      * rewrite <- app_assoc. eapply (pc_ok _ _ _ _ (c :: cs') (cs ++ Pipe :: body));
          [done|by rewrite <- app_assoc|by constructor|done|done].
      * apply pc_err. destruct Hc as [Hc|Hc].
        { left. intros H0. apply Hc, Forall_app; split; [done|].
          constructor; [by eapply terminated_build|constructor]. }
        right. by apply (has_long_app_r (cs ++ [Pipe])) in Hc; rewrite <- app_assoc in Hc.
      * apply pc_full. rewrite length_app. simpl. lia.
    + eapply (pc_ok _ _ _ _ [c] cs); [done|done|by constructor|done|].
      by destruct ts' as [|[] ?].
  - apply pc_err. destruct Hc as [Hc|Hc]; [|by right]. left. intros H0.
    apply Forall_app; split; [done|]. by constructor.
  - by apply pc_full.
Qed.

Lemma pipes_complete ts cs : g_pipes ts cs → ∀ rest fuelc fuel s cs0 n,
  rest = [] ∨ rest = [Amp] → lexes s (ts ++ rest) →
  (length (ts ++ rest) < fuelc)%nat → (length (ts ++ rest) < fuel)%nat → 0 ≤ n →
  ∃ m s', pipes_from fuelc fuel s cs0 n = Ret (m, s', cs0 ++ map build_command cs) ∧
          0 ≤ m ∧ lexes s' rest.
Proof.
  induction 1 as [|ts c Hg|ts c ts' cs Hg _ IH];
    intros rest fuelc fuel s cs0 n Hrest H Hfc Hf Hn; unfold pipes_from;
    (assert (ends rest) by (by destruct Hrest as [-> | ->]));
    (destruct fuel as [|fuel]; [simpl in Hf; lia|]).
  - simpl in H. destruct (parse_command_none fuelc s rest H) as (s1 & -> & H1).
    { by destruct Hrest as [-> | ->]. } { lia. }
    cbn [mbind res_mbind Z.eqb]. rewrite parse_pipes_loop_S.
    destruct (next_type _ _ H1) as (s2 & n2 & -> & H2 & _).
    rewrite decide_False by (by destruct Hrest as [-> | ->]). eauto.
  - destruct (parse_command_complete _ _ rest fuelc s Hg) as (s1 & -> & H1); [done..|].
    cbn [mbind res_mbind Z.eqb]. rewrite parse_pipes_loop_S.
    destruct (next_type _ _ H1) as (s2 & n2 & -> & H2 & _).
    rewrite decide_False by (by destruct Hrest as [-> | ->]). eauto.
  - rewrite <- app_assoc in *. cbn [app] in *.
    destruct (parse_command_complete _ _ (Pipe :: ts' ++ rest) fuelc s Hg)
      as (s1 & -> & H1); [done..|].
    cbn [mbind res_mbind Z.eqb]. rewrite parse_pipes_loop_S.
    destruct (next_type _ _ H1) as (s2 & n2 & -> & H2 & Hr).
    specialize (Hr ltac:(done)). cbn [type_of tail] in *. rewrite decide_True by done.
    cbn [negb Z.eqb Pos.eqb]. rewrite length_app in *. cbn [length] in *.
    destruct (IH rest (S fuel) fuel _ (cs0 ++ [build_command c]) (n + 1) Hrest Hr)
      as (m & s' & -> & ? & ?); try lia.
    exists m, s'. by rewrite <- app_assoc.
Qed.

(** ** Freeing *)

Lemma read_arg_word ws w tl ws0 :
  (partial_args (ws0 ++ w :: ws) tl).[Z.of_nat (length ws0)] = Ret (Str w).
Proof.
  unfold partial_args. apply aread_nat. rewrite map_app, <- app_assoc.
  rewrite lookup_app_r by (rewrite length_map; lia).
  by rewrite length_map, Nat.sub_diag.
Qed.

Lemma read_arg_null ws tl : (partial_args ws (Null :: tl)).[Z.of_nat (length ws)] = Ret Null.
Proof.
  unfold partial_args. apply aread_nat.
  rewrite lookup_app_r by (rewrite length_map; lia).
  by rewrite length_map, Nat.sub_diag.
Qed.

Lemma free_args_partial ws : ∀ fuel ws0 tl,
  (length ws < fuel)%nat → (length (ws0 ++ ws) < argv_room)%nat →
  free_args_loop fuel (partial_args (ws0 ++ ws) (Null :: tl)) (Z.of_nat (length ws0)) = Ret ws.
Proof.
  induction ws as [|w ws IH]; intros [|fuel] ws0 tl Hf Hl; cbn [length] in Hf; try lia;
    cbn [free_args_loop].
  - rewrite app_nil_r, read_arg_null. done.
  - rewrite read_arg_word. cbn [mbind res_mbind].
    rewrite length_app in Hl. cbn [length] in Hl.
    rewrite (proj2 (Z.ltb_lt _ _)) by (pose proof argv_room_Z; lia).
    replace (Z.of_nat (length ws0) + 1) with (Z.of_nat (length (ws0 ++ [w])))
      by (rewrite length_app; simpl; lia).
    replace (ws0 ++ w :: ws) with ((ws0 ++ [w]) ++ ws) by (by rewrite <- app_assoc).
    rewrite IH; [done|lia|]. rewrite !length_app. simpl. lia.
Qed.

Lemma read_arg_uninit ws tl : (partial_args ws (Uninit :: tl)).[Z.of_nat (length ws)] = Ret Uninit.
Proof.
  unfold partial_args. apply aread_nat.
  rewrite lookup_app_r by (rewrite length_map; lia).
  by rewrite length_map, Nat.sub_diag.
Qed.

Lemma free_args_uninit ws : ∀ fuel ws0 tl,
  (length ws < fuel)%nat → (length (ws0 ++ ws) < argv_room)%nat →
  free_args_loop fuel (partial_args (ws0 ++ ws) (Uninit :: tl)) (Z.of_nat (length ws0)) = UB.
Proof.
  induction ws as [|w ws IH]; intros [|fuel] ws0 tl Hf Hl; cbn [length] in Hf; try lia;
    cbn [free_args_loop].
  - rewrite app_nil_r, read_arg_uninit. done.
  - rewrite read_arg_word. cbn [mbind res_mbind].
    rewrite length_app in Hl. cbn [length] in Hl.
    rewrite (proj2 (Z.ltb_lt _ _)) by (pose proof argv_room_Z; lia).
    replace (Z.of_nat (length ws0) + 1) with (Z.of_nat (length (ws0 ++ [w])))
      by (rewrite length_app; simpl; lia).
    replace (ws0 ++ w :: ws) with ((ws0 ++ [w]) ++ ws) by (by rewrite <- app_assoc).
    rewrite IH; [done|lia|]. rewrite !length_app. simpl. lia.
Qed.

Lemma argv_build c : argv (build_command c) = ast_args c.
Proof.
  unfold argv, build_command, build_args. cbn [command_args].
  generalize (replicate (Z.to_nat MAX_ARGV_LENGTH - 1 - length (ast_args c)) Uninit) as tl.
  induction (ast_args c) as [|w ws IH]; intros tl; simpl; [done|]. by rewrite IH.
Qed.

Lemma free_args_built cmd ws :
  command_args cmd = build_args ws → (length ws < argv_room)%nat →
  pipeline_command_free_args cmd = Ret ws.
Proof.
  intros E Hl. unfold pipeline_command_free_args. rewrite E.
  apply (free_args_partial ws _ []); [|done]. fold argv_room. lia.
Qed.

Lemma free_commands_terminated cmds :
  Forall terminated cmds → ∃ freed, free_commands cmds = Ret freed.
Proof.
  induction 1 as [|cmd cmds (ws & E & Hl) _ [freed IH]]; [by eexists|].
  simpl. rewrite (free_args_built _ _ E Hl), IH. simpl. eauto.
Qed.

(** All the words of a command, in the order they are freed. *)
Definition command_words (c : command_ast) : list cstr :=
  ast_args c ++ option_list (ast_in c) ++ option_list (ast_out c).

Lemma free_commands_built cs :
  Forall (λ c, length (ast_args c) < argv_room)%nat cs →
  free_commands (map build_command cs) = Ret (concat (map command_words cs)).
Proof.
  induction 1 as [|c cs Hc _ IH]; [done|]. simpl.
  rewrite (free_args_built _ (ast_args c)), IH by done. simpl.
  unfold command_words. by rewrite <- !app_assoc.
Qed.

Lemma g_pipes_lengths ts cs :
  g_pipes ts cs → Forall (λ c, length (ast_args c) < argv_room)%nat cs.
Proof.
  pose proof argv_room_Z.
  induction 1 as [|ts c Hg|ts c ts' cs Hg _ IH]; constructor; try done;
    try (by apply Nat.ltb_lt); destruct Hg; simpl; lia.
Qed.

Lemma terminated_pipes ts cs : g_pipes ts cs → Forall terminated (map build_command cs).
Proof.
  intros H%g_pipes_lengths. induction H as [|c cs Hc _ IH]; constructor; [|done].
  by exists (ast_args c).
Qed.

(** ** Lines *)

Lemma parse_pipes_from fuel s :
  parse_pipes fuel s =
  '(n, token, cmds) ← pipes_from fuel fuel s [] 0;
  if n =? -1 then Ret (-1, token, Pipeline cmds false)
  else
    let '(_, token, p) := parse_background token (Pipeline cmds false) in
    let '(token_type, token, _) := next_token token in
    if decide (token_type = TT_NONE) then Ret (n, token, p) else Ret (-1, token, p).
Proof.
  unfold parse_pipes, pipes_from.
  destruct (parse_command fuel s _) as [[[l s1] c]| |]; [|done..]. cbn [mbind res_mbind app].
  destruct (Z.eqb_spec l (-1)); [done|].
  destruct (parse_pipes_loop _ _ _ _ _) as [[[m s2] cmds]| |]; [|done..]. cbn [mbind res_mbind].
  destruct (Z.eqb_spec m (-1)); [done|].
  unfold parse_background. destruct (next_token s2) as [[t s3] n3]. by case_decide.
Qed.

(** The result of [pipeline_build] on a line of tokens [ts]. *)
Inductive build_case (ts : list token) : res (option pipeline) → Prop :=
  | bc_some cs bg :
      g_line ts cs bg → build_case ts (Ret (Some (Pipeline (map build_command cs) bg)))
  | bc_none : build_case ts (Ret None)
  | bc_ub : has_long ts ∨ (argv_room <= length ts)%nat → build_case ts UB.

Lemma free_args_fuel fuel : ∀ args k,
  (0 < fuel)%nat → MAX_ARGV_LENGTH < Z.of_nat fuel + k → free_args_loop fuel args k ≠ NoFuel.
Proof.
  induction fuel as [|fuel IH]; intros args k Hf Hk; [lia|]. cbn [free_args_loop].
  unfold aread. destruct (zget args k) as [[| |w]|]; simpl; try done.
  destruct (Z.ltb_spec k MAX_ARGV_LENGTH); [|done].
  specialize (IH args (k + 1) ltac:(lia) ltac:(lia)).
  by destruct (free_args_loop _ _ _).
Qed.

Lemma free_commands_fuel cmds : free_commands cmds ≠ NoFuel.
Proof.
  induction cmds as [|c cmds IH]; [done|]. simpl. unfold pipeline_command_free_args.
  pose proof (free_args_fuel (S argv_room) (command_args c) 0) as H.
  destruct (free_args_loop _ _ _) as [| |]; simpl; [|done|].
  - by destruct (free_commands cmds).
  - exfalso. apply H; [lia| |done]. pose proof argv_room_Z. lia.
Qed.

Lemma free_fail ts cmds bg :
  Forall terminated cmds ∨ has_long ts →
  build_case ts (_ ← pipeline_free (Some (Pipeline cmds bg)); Ret None).
Proof.
  intros [Hc|Hc]; simpl.
  - destruct (free_commands_terminated cmds Hc) as [freed ->]. constructor.
  - pose proof (free_commands_fuel cmds).
    destruct (free_commands cmds) eqn:E; simpl; [constructor|by constructor; left|done].
Qed.

Lemma parse_background_spec s ts p :
  lexes s ts →
  match ts with
  | Amp :: ts' => ∃ s', parse_background s p = (1, s', Pipeline (commands p) true) ∧ lexes s' ts'
  | _ => ∃ s', parse_background s p = (0, s', p) ∧ lexes s' ts
  end.
Proof.
  intros H. unfold parse_background. destruct (next_type _ _ H) as (s1 & n1 & -> & H1 & Hr).
  destruct ts as [|[] ts]; simpl; eauto; specialize (Hr ltac:(done)); eauto.
Qed.

Lemma pipeline_build_spec s ts : lexes s ts → build_case ts (pipeline_build s).
Proof.
  intros H. unfold pipeline_build. rewrite parse_pipes_from.
  pose proof (lexes_length _ _ H).
  destruct (pipes_sound (S (length s)) (S (length s)) s ts [] 0 H)
    as [m s' cs body ts' Hm -> Hg H' Hh|s' cmds Hc|Hfull]; try lia; cbn [mbind res_mbind].
  - rewrite (proj2 (Z.eqb_neq m (-1))) by lia. simpl app.
    assert (Forall terminated (map build_command cs)) as Hterm by (by eapply terminated_pipes).
    pose proof (parse_background_spec s' ts' (Pipeline (map build_command cs) false) H') as Hb.
    destruct ts' as [|[| | | |w] ts']; destruct Hb as (s2 & -> & H2);
      destruct (next_type _ _ H2) as (s3 & n3 & -> & H3 & _); try done; simpl type_of;
      try (rewrite decide_False by done; cbn [mbind res_mbind Z.eqb Pos.eqb];
           apply free_fail; by left).
    + rewrite decide_True by done. cbn [mbind res_mbind].
      rewrite (proj2 (Z.eqb_neq m (-1))) by lia. constructor. rewrite app_nil_r. by constructor.
    + case_decide as Ht; cbn [mbind res_mbind].
      * rewrite (proj2 (Z.eqb_neq m (-1))) by lia. constructor.
        assert (ts' = []) as -> by (by destruct ts' as [|[] ?]). by constructor.
      * cbn [Z.eqb Pos.eqb]. apply free_fail. by left.
  - cbn [Z.eqb Pos.eqb mbind res_mbind]. apply free_fail.
    destruct Hc as [Hc|Hc]; [left; by apply Hc|by right].
  - apply bc_ub. by right.
Qed.

Lemma pipeline_build_complete s ts cs bg :
  lexes s ts → g_line ts cs bg →
  pipeline_build s = Ret (Some (Pipeline (map build_command cs) bg)).
Proof.
  intros H Hg. unfold pipeline_build. rewrite parse_pipes_from.
  pose proof (lexes_length _ _ H).
  assert (∃ body rest, ts = body ++ rest ∧ g_pipes body cs ∧
            rest = if bg then [Amp] else []) as (body & rest & -> & Hp & Hrest).
  { destruct Hg; eexists _, _; split_and!; try done. by rewrite app_nil_r. }
  destruct (pipes_complete _ _ Hp rest (S (length s)) (S (length s)) s [] 0)
    as (m & s' & -> & Hm & H'); try lia.
  { destruct bg; subst rest; auto. }
  { done. }
  cbn [mbind res_mbind]. rewrite (proj2 (Z.eqb_neq m (-1))) by lia. simpl app.
  pose proof (parse_background_spec s' rest (Pipeline (map build_command cs) false) H') as Hb.
  destruct bg; subst rest; destruct Hb as (s2 & -> & H2);
    destruct (next_type _ _ H2) as (s3 & n3 & -> & _); simpl type_of;
    rewrite decide_True by done; cbn [mbind res_mbind];
    by rewrite (proj2 (Z.eqb_neq m (-1))) by lia.
Qed.
