(* ===== verification/ParserTheorems.v ===== *)
(** * Theorems about the shell parser

    The tokeniser against its lexical grammar, [pipeline_build] against the
    grammar of [ParserSpec], printing and parsing back, freeing, termination
    and memory safety, and the three lines on which the code departs from
    what its comments say. *)

From S2P Require Export ParserSpec.

(** ** Printing *)

Definition token_text (t : token) : cstr :=
  match t with
  | Amp => ["&"] | Pipe => ["|"] | Lt => ["<"] | Gt => [">"] | Word w => w
  end%char.

Definition print_tokens (ts : list token) : cstr :=
  concat (map (λ t, " "%char :: token_text t) ts) ++ ["010"%char].

Definition redirect_tokens (angle : token) (path : option cstr) : list token :=
  match path with Some w => [angle; Word w] | None => [] end.

Definition command_tokens (c : command_ast) : list token :=
  map Word (ast_args c) ++ redirect_tokens Lt (ast_in c) ++ redirect_tokens Gt (ast_out c).

Fixpoint pipes_tokens (cs : list command_ast) : list token :=
  match cs with
  | [] => []
  | [c] => command_tokens c
  | c :: cs => command_tokens c ++ Pipe :: pipes_tokens cs
  end.

Definition print_line (cs : list command_ast) (bg : bool) : cstr :=
  print_tokens (pipes_tokens cs ++ if bg then [Amp] else []).

Definition wf_word (w : cstr) : Prop := is_word w = true ∧ short w.

(** A command the printer can write: at least one argument, at most
    [MAX_ARGV_LENGTH - 1], and every word of at most 32 word characters. *)
Definition wf_command (c : command_ast) : Prop :=
  ast_args c ≠ [] ∧ Z.of_nat (length (ast_args c)) < MAX_ARGV_LENGTH ∧
  Forall wf_word (ast_args c ++ option_list (ast_in c) ++ option_list (ast_out c)).

Definition wf_token (t : token) : Prop :=
  match t with Word w => wf_word w | _ => True end.

Lemma print_tokens_renders ts : Forall wf_token ts → renders ts (print_tokens ts).
Proof.
  induction 1 as [|t ts Ht _ IH]; [by apply r_end|].
  unfold print_tokens in *. cbn [map concat]. rewrite <- app_assoc.
  destruct t as [| | | |w]; cbn [token_text app].
  1: by apply (r_amp [" "%char]).
  1: by apply (r_pipe [" "%char]).
  1: by apply (r_lt [" "%char]).
  1: by apply (r_gt [" "%char]).
  destruct Ht as [Hw _]. apply (r_word [" "%char]); [done|done| |done].
  by destruct ts as [|[] ?].
Qed.

Lemma wf_command_grammar c : wf_command c → g_command (command_tokens c) c.
Proof.
  destruct c as [ws i o]. intros (Hne & Hl & Hw). simpl in *.
  apply Forall_app in Hw as [Hw [Hi Ho]%Forall_app].
  apply g_cmd; [done|done|by eapply Forall_impl; [|exact Hw]; intros ? []|].
  destruct i as [i|], o as [o|]; simpl in *;
    repeat match goal with H : Forall wf_word [_] |- _ =>
      inversion H as [|? ? [??] ?]; subst; clear H end;
    repeat constructor; done.
Qed.

Lemma wf_pipes_grammar cs : cs ≠ [] → Forall wf_command cs → g_pipes (pipes_tokens cs) cs.
Proof.
  intros Hne H. induction H as [|c cs Hc Hcs IH]; [done|].
  destruct cs as [|c' cs]; [by apply g_last, wf_command_grammar|].
  apply g_cons; [by apply wf_command_grammar|by apply IH].
Qed.

Lemma wf_command_tokens c : wf_command c → Forall wf_token (command_tokens c).
Proof.
  intros (_ & _ & Hw). unfold command_tokens.
  apply Forall_app in Hw as [Hw [Hi Ho]%Forall_app]. repeat apply Forall_app_2.
  - by apply Forall_fmap.
  - destruct (ast_in c) as [w|]; [|constructor]. inversion Hi; subst.
    constructor; [done|]. by constructor.
  - destruct (ast_out c) as [w|]; [|constructor]. inversion Ho; subst.
    constructor; [done|]. by constructor.
Qed.

Lemma wf_pipes_tokens cs : Forall wf_command cs → Forall wf_token (pipes_tokens cs).
Proof.
  induction 1 as [|c cs Hc Hcs IH]; [constructor|].
  destruct cs as [|c' cs]; [by apply wf_command_tokens|].
  apply Forall_app_2; [by apply wf_command_tokens|]. by constructor.
Qed.

(** ** The accepted lines of a token sequence *)

Lemma map_Word_inj ws ws' : map Word ws = map Word ws' → ws = ws'.
Proof. revert ws'. induction ws; intros [|]; simpl; naive_solver. Qed.

(** A text splits into its leading words and the rest in one way. *)
Lemma words_rest_inj ws rest ws' rest' :
  map Word ws ++ rest = map Word ws' ++ rest' →
  at_word rest = false → at_word rest' = false → ws = ws' ∧ rest = rest'.
Proof.
  revert ws'. induction ws as [|w ws IH]; intros [|w' ws'] E H H'; simpl in E.
  - done.
  - subst. done.
  - subst. done.
  - injection E as -> E. destruct (IH ws' E H H') as [-> ->]. done.
Qed.

Lemma g_pipes_nopipe ts cs : g_pipes ts cs → Pipe ∉ ts →
  (ts = [] ∧ cs = [empty_command]) ∨ ∃ c, cs = [c] ∧ g_command ts c.
Proof. intros [] Hn; [by left|right; eauto|]. set_solver. Qed.

(** ** The theorems *)

(** C32: tokeniser correctness: on a NUL-free line, calling [next_token]
    repeatedly yields exactly the token sequences of which the line is a
    rendering with arbitrary whitespace, and every line has exactly one. *)
Theorem tokeniser_correct s ts :
  Forall (λ c, c ≠ nul) s →
  (lexes s ts ↔ renders ts s) ∧ ∃ ts0, lexes s ts0 ∧ ∀ ts', lexes s ts' → ts' = ts0.
Proof.
  intros Hs. split; [split; [by apply lexes_renders|by apply renders_lexes]|].
  destruct (lexes_total s) as [ts0 H0]. exists ts0. split; [done|].
  intros ts' H. by eapply lexes_det.
Qed.

Lemma tokeniser_correct_witness :
  Forall (λ c, c ≠ nul) (String.list_ascii_of_string "ls>txt &"%string) ∧
  ∃ ts0, lexes (String.list_ascii_of_string "ls>txt &"%string) ts0 ∧
    ∀ ts', lexes (String.list_ascii_of_string "ls>txt &"%string) ts' → ts' = ts0.
Proof.
  assert (Forall (λ c, c ≠ nul) (String.list_ascii_of_string "ls>txt &"%string)) as H.
  { repeat constructor; discriminate. }
  split; [exact H|]. exact (proj2 (tokeniser_correct _ [] H)).
Defined.

(** C20: [pipeline_build] returns a pipeline exactly on the lines of the
    grammar, and the pipeline is the one of the grammar's syntax tree: words,
    redirections, command order and background flag. *)
Theorem pipeline_build_correct s p :
  pipeline_build s = Ret (Some p) ↔
  ∃ ts cs bg, lexes s ts ∧ g_line ts cs bg ∧ p = Pipeline (map build_command cs) bg.
Proof.
  split.
  - intros E. destruct (lexes_total s) as [ts H]. pose proof (pipeline_build_spec s ts H) as Hc.
    rewrite E in Hc. inversion Hc; subst. eauto 6.
  - intros (ts & cs & bg & H & Hg & ->). by eapply pipeline_build_complete.
Qed.

(** The printed text of a pipeline is parsed back to it. *)
Lemma print_line_build cs bg :
  cs ≠ [] → Forall wf_command cs →
  pipeline_build (print_line cs bg) = Ret (Some (Pipeline (map build_command cs) bg)).
Proof.
  intros Hne Hwf. eapply pipeline_build_complete.
  - apply renders_lexes, print_tokens_renders, Forall_app_2; [by apply wf_pipes_tokens|].
    destruct bg; repeat constructor.
  - pose proof (wf_pipes_grammar cs Hne Hwf).
    destruct bg; [|rewrite app_nil_r]; by constructor.
Qed.

(** C21: printing a pipeline whose commands are well formed and parsing the
    text back builds the same pipeline. *)
Theorem print_parse_roundtrip cs bg :
  cs ≠ [] → Forall wf_command cs →
  pipeline_build (print_line cs bg) = Ret (Some (Pipeline (map build_command cs) bg)).
Proof. apply print_line_build. Qed.

Definition demo_pipeline : list command_ast :=
  map (λ c : list String.string * option String.string * option String.string,
         let '(ws, i, o) := c in
         CommandAst (map String.list_ascii_of_string ws)
           (String.list_ascii_of_string <$> i) (String.list_ascii_of_string <$> o))
    [(["cat"], Some "input.txt", None); (["grep"; "-v"; "42"], None, None);
     (["wc"], None, Some "output.txt")]%string.

Lemma print_parse_roundtrip_witness :
  demo_pipeline ≠ [] ∧ Forall wf_command demo_pipeline ∧
  pipeline_build (print_line demo_pipeline true) =
    Ret (Some (Pipeline (map build_command demo_pipeline) true)).
Proof.
  assert (Forall wf_command demo_pipeline) as H.
  { repeat constructor; (discriminate || reflexivity). }
  split; [discriminate|]. split; [exact H|].
  apply print_parse_roundtrip; [discriminate|exact H].
Defined.

(** C35: parsing terminates: on every line, as many rounds as the line has
    characters are enough for every loop of the parser, and as many as the array
    of arguments has places, and one, for the deallocation after an error. *)
Theorem pipeline_build_terminates s : pipeline_build s ≠ NoFuel.
Proof.
  destruct (lexes_total s) as [ts H]. pose proof (pipeline_build_spec s ts H) as Hc.
  intros E. rewrite E in Hc. inversion Hc.
Qed.

(** C33: parsing is memory safe on lines of fewer than [MAX_ARGV_LENGTH]
    tokens whose words have at most 32 characters: it returns a pipeline or
    [NULL], and deallocates nothing uninitialised on an error. *)
Theorem pipeline_build_safe s ts :
  lexes s ts → Z.of_nat (length ts) < MAX_ARGV_LENGTH → Forall (λ t, ∀ w, t = Word w → short w) ts →
  ∃ r, pipeline_build s = Ret r.
Proof.
  intros H Hl Hs. destruct (pipeline_build_spec s ts H) as [cs bg _| |Hc]; eauto.
  exfalso. rewrite Forall_forall in Hs. destruct Hc as [(w & Hin & Hw)|Hc].
  - apply Hw. by eapply Hs; [apply list_elem_of_In|].
  - pose proof argv_room_Z. lia.
Qed.

Lemma pipeline_build_safe_witness :
  ∃ s ts, lexes s ts ∧ Z.of_nat (length ts) < MAX_ARGV_LENGTH ∧
    Forall (λ t, ∀ w, t = Word w → short w) ts ∧ ∃ r, pipeline_build s = Ret r.
Proof.
  set (ts := pipes_tokens demo_pipeline).
  assert (lexes (print_tokens ts) ts) as H1.
  { apply renders_lexes, print_tokens_renders. repeat constructor; discriminate. }
  assert (Z.of_nat (length ts) < MAX_ARGV_LENGTH) as H2 by (vm_compute; reflexivity).
  assert (Forall (λ t, ∀ w, t = Word w → short w) ts) as H3.
  { repeat constructor; intros ? [=]; subst; vm_compute; discriminate. }
  exists (print_tokens ts), ts. split; [exact H1|]. split; [exact H2|]. split; [exact H3|].
  exact (pipeline_build_safe _ _ H1 H2 H3).
Defined.

(** C34: freeing a pipeline returned by [pipeline_build] is memory safe and
    frees, command by command and in order, exactly the argument words and
    the two redirection paths the structure holds. *)
Theorem pipeline_free_built s p :
  pipeline_build s = Ret (Some p) →
  pipeline_free (Some p) =
    Ret (concat (map (λ c, argv c ++ option_list (redirect_in_path c)
                                 ++ option_list (redirect_out_path c)) (commands p))).
Proof.
  intros E. destruct (lexes_total s) as [ts H]. pose proof (pipeline_build_spec s ts H) as Hc.
  rewrite E in Hc. inversion Hc as [cs bg Hg| |]; subst.
  assert (Forall (λ c, length (ast_args c) < argv_room)%nat cs) as Hl.
  { destruct Hg; by eapply g_pipes_lengths. }
  simpl. rewrite free_commands_built by done. rewrite map_map. f_equal. f_equal.
  apply map_ext. intros c. unfold command_words. by rewrite argv_build.
Qed.

Lemma pipeline_free_built_witness :
  ∃ s p, pipeline_build s = Ret (Some p) ∧
    pipeline_free (Some p) =
    Ret (concat (map (λ c, argv c ++ option_list (redirect_in_path c)
                                 ++ option_list (redirect_out_path c)) (commands p))).
Proof.
  exists (String.list_ascii_of_string "cat < x > y | wc"%string).
  eexists. split; [vm_compute; reflexivity|]. apply (pipeline_free_built
    (String.list_ascii_of_string "cat < x > y | wc"%string)). vm_compute. reflexivity.
Defined.

(** An output redirection followed by an input one is rejected, although
    the comment of [parse_command]'s loop says that the two can be presented in
    either order. *)
Theorem redirect_out_then_in_rejected s ws w v :
  lexes s (map Word ws ++ [Gt; Word w; Lt; Word v]) →
  Forall short (ws ++ [w; v]) → Z.of_nat (length ws) < MAX_ARGV_LENGTH - 4 →
  pipeline_build s = Ret None.
Proof.
  intros H Hs Hl. destruct (pipeline_build_spec s _ H) as [cs bg Hg| |Hc]; [exfalso|done|exfalso].
  - assert (∀ c, g_command (map Word ws ++ [Gt; Word w; Lt; Word v]) c → False) as Hno.
    { intros c Hc. inversion Hc as [ws' rs i o Hne Hlen Hsh Hr E]; subst.
      apply words_rest_inj in E as [-> E]; [|by destruct Hr|done]. subst.
      inversion Hr. }
    assert (Pipe ∉ map Word ws ++ [Gt; Word w; Lt; Word v]) as Hnp.
    { intros Hin%list_elem_of_In. apply in_app_iff in Hin as [Hin|Hin].
      - apply in_map_iff in Hin as (? & ? & _). done.
      - by repeat destruct Hin as [Hin|Hin]. }
    inversion Hg as [ts' cs' Hp|ts' cs' Hp E]; subst.
    + apply g_pipes_nopipe in Hp as [[? _]|(c & _ & Hc)]; [by destruct ws| |done]. by eapply Hno.
    + assert (∃ l, map Word ws ++ [Gt; Word w; Lt; Word v] = l ++ [Word v]) as [l El].
      { eexists (map Word ws ++ [Gt; Word w; Lt]). by rewrite <- app_assoc. }
      rewrite El in E. apply app_inj_tail in E as [_ [=]].
  - destruct Hc as [(u & Hin & Hu)|Hc].
    + rewrite Forall_forall in Hs. apply Hu, Hs.
      apply list_elem_of_In in Hin.
      apply in_app_iff in Hin as [Hin|Hin].
      * apply in_map_iff in Hin as (? & [= ->] & ?). apply in_app_iff. by left.
      * apply in_app_iff. right. simpl in *.
        destruct Hin as [?|[[= ->]|[?|[[= ->]|[]]]]]; try done; auto.
    + rewrite length_app, length_map in Hc. simpl in Hc. pose proof argv_room_Z. lia.
Qed.

(** A line may end in a pipe: the pipeline then ends in a command with no
    arguments, although the grammar in the comments of [parse_pipes] and
    [parse_args] gives every command at least one. *)
Theorem trailing_pipe_accepted s cs c :
  lexes s (cs ++ [Pipe]) → g_command cs c →
  pipeline_build s =
    Ret (Some (Pipeline [build_command c; build_command empty_command] false)) ∧
  argv (build_command empty_command) = [].
Proof.
  intros H Hc. split; [|done].
  apply (pipeline_build_complete s (cs ++ [Pipe]) [c; empty_command] false); [done|].
  constructor. apply g_cons; [done|constructor].
Qed.

(** A word of more than 32 characters that is not the first word of the
    line's first command makes the parser free an uninitialised pointer:
    [parse_args] returns before it ends the argument array with [NULL]. *)
Theorem long_argument_frees_uninitialised s w0 ws w rest :
  lexes s (map Word (w0 :: ws) ++ Word w :: rest) →
  Forall short (w0 :: ws) → ¬ short w → Z.of_nat (length (w0 :: ws)) < MAX_ARGV_LENGTH →
  pipeline_build s = UB.
Proof.
  intros H Hs Hw Hl. pose proof (lexes_length _ _ H) as Hlen.
  rewrite length_app, length_map in Hlen. unfold pipeline_build, parse_pipes, parse_command, parse_args.
  destruct (lexes_next _ _ H) as (s1 & n1 & -> & H1 & _).
  pose proof argv_room_Z.
  edestruct (parse_args_loop_long (w0 :: ws) w rest (S (length s)) s1 pipeline_command_alloc []
    (Null :: replicate (argv_room - 1) Uninit)) as (s' & E); [done|done|done|lia|done| |].
  { cbn [length]. rewrite length_replicate. cbn [length] in Hl. lia. }
  change (Z.of_nat (length (@nil cstr))) with 0 in E. rewrite E.
  cbn [mbind res_mbind Z.ltb Z.compare Z.eqb Pos.eqb pipeline_free commands free_commands].
  unfold pipeline_command_free_args. cbn [command_args with_args].
  rewrite app_nil_l. cbn [drop length].
  assert (∃ tl, drop (length ws) (replicate (argv_room - 1) Uninit) = Uninit :: tl) as [tl ->].
  { rewrite drop_replicate. cbn [length] in Hl.
    destruct (argv_room - 1 - length ws)%nat eqn:En; [lia|]. by eexists. }
  by rewrite (free_args_uninit (w0 :: ws) _ [] tl) by (cbn [length app] in *; lia).
Qed.

(** The text of a line of tokens lexes back to them. *)
Lemma print_tokens_lexes ts : Forall wf_token ts → lexes (print_tokens ts) ts.
Proof. intros. by apply renders_lexes, print_tokens_renders. Qed.

Definition word (w : String.string) : cstr := String.list_ascii_of_string w.

Lemma redirect_out_then_in_rejected_witness :
  pipeline_build (print_tokens (map Word [word "cat"] ++
    [Gt; Word (word "y"); Lt; Word (word "x")])) = Ret None.
Proof.
  apply (redirect_out_then_in_rejected _ [word "cat"] (word "y") (word "x")).
  - apply print_tokens_lexes. repeat constructor; discriminate.
  - repeat constructor; discriminate.
  - reflexivity.
Defined.

Lemma trailing_pipe_accepted_witness :
  pipeline_build (print_tokens ([Word (word "ls")] ++ [Pipe])) =
    Ret (Some (Pipeline [build_command (CommandAst [word "ls"] None None);
                         build_command empty_command] false)) ∧
  argv (build_command empty_command) = [].
Proof.
  apply (trailing_pipe_accepted _ [Word (word "ls")]).
  - apply print_tokens_lexes. repeat constructor; discriminate.
  - apply (g_cmd [word "ls"] []); [discriminate|reflexivity| |constructor].
    repeat constructor; discriminate.
Defined.

Definition long_word : cstr := replicate 33 "a"%char.

Lemma long_argument_frees_uninitialised_witness :
  pipeline_build (print_tokens (map Word [word "ls"] ++ [Word long_word])) = UB ∧
  is_word long_word = true.
Proof.
  split; [|reflexivity].
  apply (long_argument_frees_uninitialised _ (word "ls") [] long_word []).
  - apply renders_lexes. vm_compute. apply (r_word [" "%char] (word "ls")); [done..|].
    apply (r_word [" "%char] long_word [] ["010"%char]); [done..|]. by constructor.
  - repeat constructor; discriminate.
  - unfold short. vm_compute. intros H. by apply H.
  - reflexivity.
Defined.
