(* ===== verification/Device.v ===== *)
(** * The virtual disk ([disk.c], [disk.h])

    Three layers.  [Posix] is the interface of the system calls [disk.c]
    makes, with its laws in [PosixFiles].  [DiskC] is the code of [disk.c]
    over it.  [BlockDevice] and [BlockDeviceSpec] are what [disk.c] promises to
    [fs.c]: an array of blocks per disk name and at most one open disk; the
    instance [disk_c_spec] discharges the promise.

    A buffer is the list of its bytes (integers); a path is a list of bytes. *)

From S2P Require Export Prelude.

Abbreviation bytes := (list Z).
Abbreviation path := (list Z).

Definition DISK_BLOCKS : Z := 8192.
Definition BLOCK_SIZE : Z := 4096.

(** ** System calls *)

(** The two flag sets [disk.c] passes to [open]: [O_WRONLY | O_CREAT | O_TRUNC]
    and [O_RDWR]. *)
Inductive open_flags : Type := WRONLY_CREAT_TRUNC | RDWR.

Class Posix (H : Type) : Type := {
  sys_open : path → open_flags → H → Z * H;
  sys_lseek : Z → Z → H → Z * H;
  sys_write : Z → bytes → H → Z * H;
  sys_read : Z → Z → H → Z * bytes * H;
  sys_close : Z → H → Z * H
}.

(** Replacing the bytes of [c] from offset [off] on by [bs], extending [c]. *)
Definition overwrite (c : bytes) (off : nat) (bs : bytes) : bytes :=
  take off c ++ bs ++ drop (off + length bs) c.

(** The documented behaviour [disk.c] relies on, for regular files on a file
    system with room: [file h p] is the contents of the file named [p],
    [descr h fd] the file and offset of an open descriptor. *)
Class PosixFiles (H : Type) `{Posix H} : Type := {
  file : H → path → option bytes;
  descr : H → Z → option (path * Z);

  open_rdwr h p c : file h p = Some c →
    ∃ fd h', sys_open p RDWR h = (fd, h') ∧ 0 ≤ fd ∧ descr h fd = None ∧
      (∀ q, file h' q = file h q) ∧
      (∀ g, descr h' g = if decide (g = fd) then Some (p, 0) else descr h g);
  open_missing h p : file h p = None →
    ∃ r, sys_open p RDWR h = (r, h) ∧ r < 0;
  open_create h p :
    ∃ fd h', sys_open p WRONLY_CREAT_TRUNC h = (fd, h') ∧ 0 ≤ fd ∧ descr h fd = None ∧
      (∀ q, file h' q = if decide (q = p) then Some [] else file h q) ∧
      (∀ g, descr h' g = if decide (g = fd) then Some (p, 0) else descr h g);
  lseek_set h fd p o off : descr h fd = Some (p, o) → 0 ≤ off →
    ∃ h', sys_lseek fd off h = (off, h') ∧
      (∀ q, file h' q = file h q) ∧
      (∀ g, descr h' g = if decide (g = fd) then Some (p, off) else descr h g);
  write_all h fd p o c bs : descr h fd = Some (p, o) → file h p = Some c →
    0 ≤ o ≤ Z.of_nat (length c) →
    ∃ h', sys_write fd bs h = (Z.of_nat (length bs), h') ∧
      (∀ q, file h' q = if decide (q = p) then Some (overwrite c (Z.to_nat o) bs) else file h q) ∧
      (∀ g, descr h' g = if decide (g = fd) then Some (p, o + Z.of_nat (length bs)) else descr h g);
  read_all h fd p o c n : descr h fd = Some (p, o) → file h p = Some c →
    0 ≤ o → 0 ≤ n → o + n ≤ Z.of_nat (length c) →
    ∃ h', sys_read fd n h = (n, take (Z.to_nat n) (drop (Z.to_nat o) c), h') ∧
      (∀ q, file h' q = file h q) ∧
      (∀ g, descr h' g = if decide (g = fd) then Some (p, o + n) else descr h g);
  close_open h fd p o : descr h fd = Some (p, o) →
    ∃ r h', sys_close fd h = (r, h') ∧
      (∀ q, file h' q = file h q) ∧
      (∀ g, descr h' g = if decide (g = fd) then None else descr h g)
}.

(** ** The interface of the disk *)

Class BlockDevice (D : Type) : Type := {
  make_disk : option path → D → Z * D;
  open_disk : option path → D → Z * D;
  close_disk : D → Z * D;
  block_write : Z → bytes → D → Z * D;
  (** [block_read block buf]: the last component is [buf] after the call. *)
  block_read : Z → bytes → D → Z * D * bytes
}.

(** [dev_open d] names the open disk; [dev_block d p b] is block [b] of the
    disk named [p]; [dev_ok d] is the device's representation invariant. *)
Class BlockDeviceSpec (D : Type) `{BlockDevice D} : Type := {
  dev_ok : D → Prop;
  dev_open : D → option path;
  dev_block : D → path → Z → option bytes;

  dev_block_size d p b blk : dev_ok d → dev_block d p b = Some blk → Z.of_nat (length blk) = BLOCK_SIZE;
  dev_block_range d p b b' : is_Some (dev_block d p b) →
    (is_Some (dev_block d p b') ↔ 0 ≤ b' < DISK_BLOCKS);

  make_disk_ok d p : dev_ok d →
    ∃ d', make_disk (Some p) d = (0, d') ∧ dev_ok d' ∧ dev_open d' = dev_open d ∧
      ∀ q b, dev_block d' q b =
        if decide (q = p) then
          if decide (0 ≤ b < DISK_BLOCKS) then Some (replicate (Z.to_nat BLOCK_SIZE) 0) else None
        else dev_block d q b;
  open_disk_ok d p : dev_ok d → dev_open d = None → is_Some (dev_block d p 0) →
    ∃ d', open_disk (Some p) d = (0, d') ∧ dev_ok d' ∧ dev_open d' = Some p ∧
      ∀ q b, dev_block d' q b = dev_block d q b;
  open_disk_busy d p : dev_ok d → is_Some (dev_open d) → open_disk p d = (-1, d);
  close_disk_ok d : dev_ok d → is_Some (dev_open d) →
    ∃ d', close_disk d = (0, d') ∧ dev_ok d' ∧ dev_open d' = None ∧
      ∀ q b, dev_block d' q b = dev_block d q b;
  close_disk_none d : dev_ok d → dev_open d = None → close_disk d = (-1, d);
  block_write_ok d p b old buf : dev_ok d → dev_open d = Some p → dev_block d p b = Some old →
    Z.of_nat (length buf) = BLOCK_SIZE →
    ∃ d', block_write b buf d = (0, d') ∧ dev_ok d' ∧ dev_open d' = Some p ∧
      ∀ q c, dev_block d' q c =
        if decide (q = p ∧ c = b) then Some buf else dev_block d q c;
  block_write_closed d b buf : dev_ok d → dev_open d = None → block_write b buf d = (-1, d);
  block_read_ok d p b blk buf : dev_ok d → dev_open d = Some p → dev_block d p b = Some blk →
    Z.of_nat (length buf) = BLOCK_SIZE →
    ∃ d', block_read b buf d = (0, d', blk) ∧ dev_ok d' ∧ dev_open d' = Some p ∧
      ∀ q c, dev_block d' q c = dev_block d q c;
  block_range d b buf : ¬ (0 ≤ b < DISK_BLOCKS) →
    block_write b buf d = (-1, d) ∧ block_read b buf d = (-1, d, buf)
}.

(** ** The code of [disk.c] *)

Record disk (H : Type) : Type := Disk { active : bool; handle : Z; host : H }.
Arguments Disk {H}.
Arguments active {H}.
Arguments handle {H}.
Arguments host {H}.

Module DiskC.
Section disk_c.
Context {H : Type} `{Posix H}.

Definition with_host (d : disk H) (h : H) : disk H := Disk (active d) (handle d) h.

(** The loop of [make_disk]: [cnt] blocks of zeros, or the failed [write]. *)
Fixpoint make_disk_loop (cnt : nat) (f : Z) (buf : bytes) (h : H) : Z * H :=
  match cnt with
  | O => (0, h)
  | S cnt =>
      let '(n, h) := sys_write f buf h in
      if n <? 0 then (-1, h) else make_disk_loop cnt f buf h
  end.

Definition make_disk (name : option path) (d : disk H) : Z * disk H :=
  match name with
  | None => (-1, d)
  | Some name =>
      let '(f, h) := sys_open name WRONLY_CREAT_TRUNC (host d) in
      if f <? 0 then (-1, with_host d h)
      else
        let buf := replicate (Z.to_nat BLOCK_SIZE) 0 in
        let '(r, h) := make_disk_loop (Z.to_nat DISK_BLOCKS) f buf h in
        if r <? 0 then (-1, with_host d h)
        else let '(_, h) := sys_close f h in (0, with_host d h)
  end.

Definition open_disk (name : option path) (d : disk H) : Z * disk H :=
  match name with
  | None => (-1, d)
  | Some name =>
      if active d then (-1, d)
      else
        let '(f, h) := sys_open name RDWR (host d) in
        if f <? 0 then (-1, with_host d h) else (0, Disk true f h)
  end.

Definition close_disk (d : disk H) : Z * disk H :=
  if negb (active d) then (-1, d)
  else let '(_, h) := sys_close (handle d) (host d) in (0, Disk false 0 h).

Definition block_write (block : Z) (buf : bytes) (d : disk H) : Z * disk H :=
  if negb (active d) then (-1, d)
  else if (block <? 0) || (DISK_BLOCKS <=? block) then (-1, d)
  else
    let '(o, h) := sys_lseek (handle d) (block * BLOCK_SIZE) (host d) in
    if o <? 0 then (-1, with_host d h)
    else
      let '(n, h) := sys_write (handle d) buf h in
      if n <? 0 then (-1, with_host d h) else (0, with_host d h).

(** A short read fills a prefix of [buf]. *)
Definition block_read (block : Z) (buf : bytes) (d : disk H) : Z * disk H * bytes :=
  if negb (active d) then (-1, d, buf)
  else if (block <? 0) || (DISK_BLOCKS <=? block) then (-1, d, buf)
  else
    let '(o, h) := sys_lseek (handle d) (block * BLOCK_SIZE) (host d) in
    if o <? 0 then (-1, with_host d h, buf)
    else
      let '(n, got, h) := sys_read (handle d) BLOCK_SIZE h in
      if n <? 0 then (-1, with_host d h, buf)
      else (0, with_host d h, got ++ drop (length got) buf).

#[global] Instance disk_c_device : BlockDevice (disk H) := {
  Device.make_disk := make_disk;
  Device.open_disk := open_disk;
  Device.close_disk := close_disk;
  Device.block_write := block_write;
  Device.block_read := block_read
}.
End disk_c.
End DiskC.
