(* ===== verification/DeviceProofs.v ===== *)
(** * [disk.c] implements the block device interface

    For any host satisfying [PosixFiles], the functions of [disk.c] satisfy
    [BlockDeviceSpec]; [MemHost] is a host that does. *)

From S2P Require Export Device.

(** ** Overwriting parts of a byte sequence *)

Lemma overwrite_end c bs : overwrite c (length c) bs = c ++ bs.
Proof.
  unfold overwrite. rewrite firstn_all, drop_ge by lia. by rewrite app_nil_r.
Qed.

Lemma length_overwrite c off bs :
  (off + length bs <= length c)%nat → length (overwrite c off bs) = length c.
Proof.
  intros. unfold overwrite. rewrite !length_app, length_take, length_drop. lia.
Qed.

(** A window of [n] bytes at [o], after [bs] was written at [off]. *)
Lemma overwrite_same c off bs :
  (off + length bs <= length c)%nat →
  take (length bs) (drop off (overwrite c off bs)) = bs.
Proof.
  intros. unfold overwrite. rewrite drop_app_ge by (rewrite length_take; lia).
  rewrite length_take, Nat.min_l, Nat.sub_diag, drop_0 by lia.
  by rewrite take_app_length.
Qed.

Lemma overwrite_other c off bs o n :
  (off + length bs <= length c)%nat → (o + n <= off ∨ off + length bs <= o)%nat →
  take n (drop o (overwrite c off bs)) = take n (drop o c).
Proof.
  intros Hl Ho. apply list_eq. intros i.
  destruct (decide (i < n)%nat); [|by rewrite !lookup_take_ge by lia].
  rewrite !lookup_take_lt, !lookup_drop by lia. unfold overwrite.
  destruct Ho as [Ho|Ho].
  - rewrite lookup_app_l by (rewrite length_take; lia). by rewrite lookup_take_lt by lia.
  - rewrite lookup_app_r by (rewrite length_take; lia).
    rewrite lookup_app_r by (rewrite length_take; lia).
    rewrite lookup_drop, length_take. f_equal. lia.
Qed.

Section disk_c.
Context {H : Type} `{PosixFiles H}.
Implicit Types (d : disk H) (h : H) (p q : path).

Definition disk_bytes : Z := DISK_BLOCKS * BLOCK_SIZE.
Definition block_size : nat := Z.to_nat BLOCK_SIZE.
Arguments disk_bytes : simpl never.
Arguments block_size : simpl never.

Definition block_of (c : bytes) (b : Z) : bytes :=
  take block_size (drop (Z.to_nat (b * BLOCK_SIZE)) c).

Definition disk_block d p b : option bytes :=
  match file (host d) p with
  | Some c =>
      if decide (Z.of_nat (length c) = disk_bytes ∧ 0 ≤ b < DISK_BLOCKS) then Some (block_of c b) else None
  | None => None
  end.

Definition disk_open d : option path :=
  if active d then fst <$> descr (host d) (handle d) else None.

Definition disk_ok d : Prop :=
  active d = true →
  ∃ p o c, descr (host d) (handle d) = Some (p, o) ∧
           file (host d) p = Some c ∧ Z.of_nat (length c) = disk_bytes.

Lemma block_size_Z : Z.of_nat block_size = BLOCK_SIZE.
Proof. apply Z2Nat.id. done. Qed.

#[local] Opaque block_size.

(** The arithmetic of block positions. *)
Lemma block_fits b (n : nat) : 0 ≤ b < DISK_BLOCKS → Z.of_nat n = disk_bytes →
  (Z.to_nat (b * BLOCK_SIZE) + block_size <= n)%nat.
Proof.
  intros Hb Hn. pose proof block_size_Z.
  unfold disk_bytes, DISK_BLOCKS, BLOCK_SIZE in *. lia.
Qed.

Lemma blocks_apart b b' : 0 ≤ b → 0 ≤ b' → b ≠ b' →
  (Z.to_nat (b' * BLOCK_SIZE) + block_size <= Z.to_nat (b * BLOCK_SIZE) ∨
   Z.to_nat (b * BLOCK_SIZE) + block_size <= Z.to_nat (b' * BLOCK_SIZE))%nat.
Proof. intros. pose proof block_size_Z. unfold BLOCK_SIZE in *. lia. Qed.

Lemma length_block_of c b :
  Z.of_nat (length c) = disk_bytes → 0 ≤ b < DISK_BLOCKS → length (block_of c b) = block_size.
Proof.
  intros Hc Hb. pose proof (block_fits _ _ Hb Hc).
  unfold block_of. rewrite length_take, length_drop. lia.
Qed.

Lemma block_of_overwrite c b bs b' :
  Z.of_nat (length c) = disk_bytes → length bs = block_size →
  0 ≤ b < DISK_BLOCKS → 0 ≤ b' < DISK_BLOCKS →
  block_of (overwrite c (Z.to_nat (b * BLOCK_SIZE)) bs) b' =
    if decide (b' = b) then bs else block_of c b'.
Proof.
  intros Hc Hbs Hb Hb'. pose proof (block_fits _ _ Hb Hc). unfold block_of. case_decide.
  - subst b'. rewrite <- Hbs. apply overwrite_same. lia.
  - apply overwrite_other; [lia|]. rewrite Hbs. apply blocks_apart; lia.
Qed.

Lemma block_of_zeros b (n : nat) : 0 ≤ b < DISK_BLOCKS → Z.of_nat n = disk_bytes →
  block_of (replicate n 0) b = replicate block_size 0.
Proof.
  intros Hb Hn. pose proof (block_fits _ _ Hb Hn). unfold block_of. rewrite drop_replicate, take_replicate. f_equal. lia.
Qed.

(** ** The functions of [disk.c] *)

Lemma make_disk_loop_ok f p cnt : ∀ h k,
  descr h f = Some (p, Z.of_nat (k * block_size)) →
  file h p = Some (replicate (k * block_size) 0) →
  ∃ h', DiskC.make_disk_loop cnt f (replicate block_size 0) h = (0, h') ∧
    (∀ q, file h' q =
       if decide (q = p) then Some (replicate ((k + cnt) * block_size) 0) else file h q) ∧
    ∃ o, ∀ g, descr h' g = if decide (g = f) then Some (p, o) else descr h g.
Proof.
  induction cnt as [|cnt IH]; intros h k Hd Hf; cbn [DiskC.make_disk_loop].
  - exists h. split; [done|]. split.
    + intros q. rewrite Nat.add_0_r. case_decide; [by subst|done].
    + eexists. intros g. case_decide; [subst; exact Hd|done].
  - destruct (write_all h f p _ _ (replicate block_size 0) Hd Hf) as (h1 & -> & Hf1 & Hd1).
    { rewrite length_replicate. lia. }
    rewrite length_replicate in *. rewrite (proj2 (Z.ltb_ge _ _)) by lia.
    destruct (IH h1 (S k)) as (h2 & -> & Hf2 & o & Hd2).
    + rewrite Hd1, decide_True by done. do 2 f_equal. lia.
    + rewrite Hf1, decide_True by done. rewrite Nat2Z.id.
      rewrite <- (length_replicate (k * block_size) 0) at 2. rewrite overwrite_end.
      rewrite <- replicate_add. do 2 f_equal. lia.
    + exists h2. split; [done|]. split.
      * intros q. rewrite Hf2, Hf1. case_decide; [|done]. do 2 f_equal. lia.
      * exists o. intros g. rewrite Hd2, Hd1. by case_decide.
Qed.

Lemma disk_c_make_disk d p : disk_ok d →
  ∃ d', DiskC.make_disk (Some p) d = (0, d') ∧ disk_ok d' ∧ disk_open d' = disk_open d ∧
    ∀ q b, disk_block d' q b =
      if decide (q = p) then
        if decide (0 ≤ b < DISK_BLOCKS) then Some (replicate block_size 0) else None
      else disk_block d q b.
Proof.
  intros Hok. unfold DiskC.make_disk. change (Z.to_nat BLOCK_SIZE) with block_size.
  destruct (open_create (host d) p) as (f & h1 & -> & Hf0 & Hnone & Hf1 & Hd1).
  rewrite (proj2 (Z.ltb_ge _ _)) by lia.
  destruct (make_disk_loop_ok f p (Z.to_nat DISK_BLOCKS) h1 0) as (h2 & -> & Hf2 & o & Hd2).
  { by rewrite Hd1, decide_True. } { by rewrite Hf1, decide_True. }
  cbn [Z.ltb Z.compare].
  destruct (close_open h2 f p o) as (r & h3 & -> & Hf3 & Hd3).
  { by rewrite Hd2, decide_True. }
  assert (Z.of_nat ((0 + Z.to_nat DISK_BLOCKS) * block_size) = disk_bytes) as Hsz.
  { pose proof block_size_Z. unfold disk_bytes, DISK_BLOCKS, BLOCK_SIZE in *. lia. }
  revert Hsz Hf2. generalize ((0 + Z.to_nat DISK_BLOCKS) * block_size)%nat as n. intros n Hn Hf2.
  assert (∀ q, file h3 q = if decide (q = p) then Some (replicate n 0)
                           else file (host d) q) as HF.
  { intros q. rewrite Hf3, Hf2. case_decide; [done|]. rewrite Hf1. by rewrite decide_False. }
  assert (∀ g, descr h3 g = descr (host d) g) as HD.
  { intros g. rewrite Hd3. case_decide as Hg; [by subst|]. by rewrite Hd2, decide_False, Hd1, decide_False. }
  eexists. split; [reflexivity|]. split_and!.
  - intros Ha. destruct (Hok Ha) as (q & o' & c & Hq & Hc & Hl). simpl.
    exists q, o'. rewrite HD, HF. case_decide; [|exists c; auto].
    eexists. split_and!; [done..|]. by rewrite length_replicate.
  - unfold disk_open. simpl. by rewrite HD.
  - intros q b. unfold disk_block. simpl. rewrite HF. case_decide; [|done].
    rewrite length_replicate. destruct (decide (0 ≤ b < DISK_BLOCKS)) as [Hb|Hb].
    + rewrite decide_True by auto. by rewrite (block_of_zeros _ n).
    + rewrite decide_False; [done|]. intros [_ ?]. contradiction.
Qed.

Lemma disk_closed_active d : disk_ok d → disk_open d = None → active d = false.
Proof.
  intros Hok Ho. unfold disk_open in Ho. destruct (active d) eqn:Ha; [|done].
  destruct (Hok Ha) as (? & ? & ? & E & _). by rewrite E in Ho.
Qed.

(** A file of any size is opened; the result is a disk when it has the size of
    one. *)
Lemma disk_c_open_file d p c : disk_ok d → disk_open d = None → file (host d) p = Some c →
  ∃ d', DiskC.open_disk (Some p) d = (0, d') ∧ disk_open d' = Some p ∧
    (∀ q b, disk_block d' q b = disk_block d q b) ∧
    (Z.of_nat (length c) = disk_bytes → disk_ok d').
Proof.
  intros Hok Ho Hc. unfold DiskC.open_disk. rewrite (disk_closed_active d Hok Ho).
  destruct (open_rdwr _ _ _ Hc) as (f & h' & -> & Hf0 & _ & Hf & Hd).
  rewrite (proj2 (Z.ltb_ge _ _)) by lia. eexists. split; [reflexivity|].
  assert (descr h' f = Some (p, 0)) as Hdf by (by rewrite Hd, decide_True).
  split_and!.
  - unfold disk_open. simpl. by rewrite Hdf.
  - intros q b. unfold disk_block. simpl. by rewrite Hf.
  - intros Hl _. exists p, 0, c. simpl. by rewrite Hdf, Hf.
Qed.

Lemma disk_c_open_missing d p : disk_ok d → disk_open d = None → file (host d) p = None →
  DiskC.open_disk (Some p) d = (-1, d).
Proof.
  intros Hok Ho Hc. unfold DiskC.open_disk. rewrite (disk_closed_active d Hok Ho).
  destruct (open_missing _ _ Hc) as (r & -> & Hr). rewrite (proj2 (Z.ltb_lt _ _)) by lia.
  by destruct d.
Qed.

Lemma disk_c_open_disk d p : disk_ok d → disk_open d = None → is_Some (disk_block d p 0) →
  ∃ d', DiskC.open_disk (Some p) d = (0, d') ∧ disk_ok d' ∧ disk_open d' = Some p ∧
    ∀ q b, disk_block d' q b = disk_block d q b.
Proof.
  intros Hok Ho [blk Hb]. unfold disk_block in Hb.
  destruct (file (host d) p) as [c|] eqn:Hc; [|done]. case_decide as Hsz; [|done].
  destruct (disk_c_open_file d p c Hok Ho Hc) as (d' & E & Ho' & Hd' & Hok').
  exists d'. split_and!; [done| |done..]. apply Hok', Hsz.
Qed.

Lemma disk_c_close_disk d : disk_ok d → is_Some (disk_open d) →
  ∃ d', DiskC.close_disk d = (0, d') ∧ disk_ok d' ∧ disk_open d' = None ∧
    ∀ q b, disk_block d' q b = disk_block d q b.
Proof.
  intros Hok Ho. unfold DiskC.close_disk, disk_open in *.
  destruct (active d) eqn:Ha; [|by destruct Ho]. simpl.
  destruct (Hok Ha) as (p & o & c & Hd & _).
  destruct (close_open _ _ _ _ Hd) as (r & h' & -> & Hf & _).
  eexists. split; [reflexivity|]. split_and!; [done|done|].
  intros q b. unfold disk_block. simpl. by rewrite Hf.
Qed.

(** The state after moving the open descriptor's offset. *)
Lemma disk_ok_moved d h' p o o' :
  disk_ok d → descr (host d) (handle d) = Some (p, o) →
  (∀ q, file h' q = file (host d) q) →
  (∀ g, descr h' g = if decide (g = handle d) then Some (p, o') else descr (host d) g) →
  disk_ok (DiskC.with_host d h') ∧ disk_open (DiskC.with_host d h') = disk_open d ∧
  ∀ q b, disk_block (DiskC.with_host d h') q b = disk_block d q b.
Proof.
  intros Hok Hd Hf' Hd'. split_and!.
  - intros Ha. destruct (Hok Ha) as (q & o2 & c & E & Hc & Hl). rewrite Hd in E.
    injection E as <- <-. exists p, o', c. simpl. by rewrite Hd', Hf', decide_True.
  - unfold disk_open. simpl. rewrite Hd', Hd, decide_True by done. done.
  - intros q b. unfold disk_block. simpl. by rewrite Hf'.
Qed.

Lemma disk_open_active d p :
  disk_ok d → disk_open d = Some p →
  active d = true ∧ ∃ o c, descr (host d) (handle d) = Some (p, o) ∧
    file (host d) p = Some c ∧ Z.of_nat (length c) = disk_bytes.
Proof.
  intros Hok Ho. unfold disk_open in Ho. destruct (active d) eqn:Ha; [|done].
  destruct (Hok Ha) as (q & o & c & E & Hc & Hl). rewrite E in Ho. injection Ho as <-. eauto 6.
Qed.

Lemma disk_block_Some d p b blk :
  disk_block d p b = Some blk →
  0 ≤ b < DISK_BLOCKS ∧ ∃ c, file (host d) p = Some c ∧ Z.of_nat (length c) = disk_bytes ∧
    blk = block_of c b.
Proof.
  unfold disk_block. destruct (file (host d) p) as [c|]; [|done].
  case_decide as Hc; [|done]. intros [= <-]. destruct Hc. eauto.
Qed.

(** Every block of the open disk exists. *)
Lemma disk_open_block d p b : disk_ok d → disk_open d = Some p → 0 ≤ b < DISK_BLOCKS →
  is_Some (disk_block d p b).
Proof.
  intros Hok Ho Hb. destruct (disk_open_active d p Hok Ho) as (_ & o & c & _ & Hc & Hl).
  unfold disk_block. rewrite Hc, decide_True by done. by eexists.
Qed.

Lemma range_test b : 0 ≤ b < DISK_BLOCKS → (b <? 0) || (DISK_BLOCKS <=? b) = false.
Proof. intros. by rewrite (proj2 (Z.ltb_ge _ _)), (proj2 (Z.leb_gt _ _)) by lia. Qed.

Lemma disk_c_block_write d p b old buf :
  disk_ok d → disk_open d = Some p → disk_block d p b = Some old →
  Z.of_nat (length buf) = BLOCK_SIZE →
  ∃ d', DiskC.block_write b buf d = (0, d') ∧ disk_ok d' ∧ disk_open d' = Some p ∧
    ∀ q c, disk_block d' q c = if decide (q = p ∧ c = b) then Some buf else disk_block d q c.
Proof.
  intros Hok Ho Hb Hbuf.
  destruct (disk_open_active _ _ Hok Ho) as (Ha & o & c & Hd & Hc & Hl).
  apply disk_block_Some in Hb as [Hb _].
  assert (length buf = block_size) as Hbs by (pose proof block_size_Z; lia).
  pose proof (block_fits _ _ Hb Hl) as Hfit.
  unfold DiskC.block_write. rewrite Ha, (range_test _ Hb). simpl negb. cbv iota.
  destruct (lseek_set _ _ _ _ (b * BLOCK_SIZE) Hd) as (h1 & -> & Hf1 & Hd1).
  { unfold BLOCK_SIZE. lia. }
  rewrite (proj2 (Z.ltb_ge _ _)) by (unfold BLOCK_SIZE; lia).
  destruct (write_all h1 (handle d) p (b * BLOCK_SIZE) c buf) as (h2 & -> & Hf2 & Hd2).
  { by rewrite Hd1, decide_True. } { by rewrite Hf1. }
  { unfold BLOCK_SIZE in *. lia. }
  rewrite (proj2 (Z.ltb_ge _ _)) by lia.
  set (c' := overwrite c (Z.to_nat (b * BLOCK_SIZE)) buf) in *.
  assert (length c' = length c) as Hlc by (apply length_overwrite; lia).
  assert (descr h2 (handle d) = Some (p, b * BLOCK_SIZE + Z.of_nat (length buf))) as Hdh.
  { by rewrite Hd2, decide_True. }
  eexists. split; [reflexivity|]. split_and!.
  - intros _. eexists p, _, c'. simpl. rewrite Hdh, Hf2, decide_True, Hlc by done. done.
  - unfold disk_open. simpl. by rewrite Ha, Hdh.
  - intros q k. unfold disk_block. simpl. rewrite Hf2, Hf1.
    destruct (decide (q = p)) as [->|Hq]; [|by rewrite decide_False by (by intros [? _])].
    rewrite Hlc, Hc. destruct (decide (0 ≤ k < DISK_BLOCKS)) as [Hk|Hk].
    + rewrite !(decide_True (P:=Z.of_nat _ = _ ∧ _)) by done. unfold c'.
      rewrite block_of_overwrite by done. case_decide.
      * by rewrite decide_True.
      * rewrite decide_False; [done|]. by intros [_ ?].
    + rewrite !(decide_False (P:=Z.of_nat _ = _ ∧ _)) by (by intros [_ ?]).
      rewrite decide_False; [done|]. intros [_ ->]. done.
Qed.

Lemma disk_c_block_read d p b blk buf :
  disk_ok d → disk_open d = Some p → disk_block d p b = Some blk →
  Z.of_nat (length buf) = BLOCK_SIZE →
  ∃ d', DiskC.block_read b buf d = (0, d', blk) ∧ disk_ok d' ∧ disk_open d' = Some p ∧
    ∀ q c, disk_block d' q c = disk_block d q c.
Proof.
  intros Hok Ho Hb Hbuf.
  destruct (disk_open_active _ _ Hok Ho) as (Ha & o & c & Hd & Hc & Hl).
  apply disk_block_Some in Hb as (Hb & c2 & Hc2 & _ & ->).
  rewrite Hc in Hc2. injection Hc2 as <-.
  pose proof (block_fits _ _ Hb Hl) as Hfit. pose proof block_size_Z as Hbz.
  unfold DiskC.block_read. rewrite Ha, (range_test _ Hb). simpl negb. cbv iota.
  destruct (lseek_set _ _ _ _ (b * BLOCK_SIZE) Hd) as (h1 & -> & Hf1 & Hd1).
  { unfold BLOCK_SIZE. lia. }
  rewrite (proj2 (Z.ltb_ge _ _)) by (unfold BLOCK_SIZE; lia).
  destruct (read_all h1 (handle d) p (b * BLOCK_SIZE) c BLOCK_SIZE) as (h2 & -> & Hf2 & Hd2).
  { by rewrite Hd1, decide_True. } { by rewrite Hf1. }
  1-3: unfold BLOCK_SIZE in *; lia.
  rewrite (proj2 (Z.ltb_ge _ _)) by done.
  change (Z.to_nat BLOCK_SIZE) with block_size.
  fold (block_of c b). pose proof (length_block_of c b Hl Hb) as Hlen.
  rewrite Hlen, (drop_ge buf), app_nil_r by lia.
  destruct (disk_ok_moved d h2 p o (b * BLOCK_SIZE + BLOCK_SIZE) Hok Hd) as (Hm1 & Hm2 & Hm3).
  { intros q. by rewrite Hf2. }
  { intros g. rewrite Hd2, Hd1. by case_decide. }
  eexists. split; [reflexivity|]. split_and!; [done|by rewrite Hm2|done].
Qed.

(** [disk.c] keeps its promise to [fs.c]. *)
#[export, program] Instance disk_c_spec : BlockDeviceSpec (disk H) := {
  dev_ok := disk_ok;
  dev_open := disk_open;
  dev_block := disk_block
}.
Next Obligation.
  intros d p b blk _ (Hb & c & _ & Hl & ->)%disk_block_Some.
  rewrite length_block_of by done. apply block_size_Z.
Qed.
Next Obligation.
  intros d p b b' [blk (_ & c & Hc & Hl & _)%disk_block_Some]. unfold disk_block. rewrite Hc.
  split; [|intros; rewrite decide_True by done; eauto].
  intros [x Hx]. case_decide as Hd; [by destruct Hd|done].
Qed.
Next Obligation. exact disk_c_make_disk. Qed.
Next Obligation. exact disk_c_open_disk. Qed.
Next Obligation.
  intros d p Hok [q Ho]. simpl. destruct p as [p|]; [|done]. unfold DiskC.open_disk.
  by destruct (disk_open_active _ _ Hok Ho) as [-> _].
Qed.
Next Obligation. exact disk_c_close_disk. Qed.
Next Obligation.
  intros d Hok Ho. simpl. unfold DiskC.close_disk. by rewrite (disk_closed_active d Hok Ho).
Qed.
Next Obligation. exact disk_c_block_write. Qed.
Next Obligation.
  intros d b buf Hok Ho. simpl. unfold DiskC.block_write. by rewrite (disk_closed_active d Hok Ho).
Qed.
Next Obligation. exact disk_c_block_read. Qed.
Next Obligation.
  intros d b buf Hb. simpl. unfold DiskC.block_write, DiskC.block_read.
  assert ((b <? 0) || (DISK_BLOCKS <=? b) = true) as ->.
  { destruct (Z.ltb_spec b 0), (Z.leb_spec DISK_BLOCKS b); try done. lia. }
  by destruct (active d).
Qed.
End disk_c.

(** ** A host in memory

    Files and open descriptors as finite maps; a new descriptor is the
    smallest free one. *)
Module MemHost.

Record mem_host : Type := MemHost { files : gmap path bytes; fds : gmap nat (path * Z) }.

Definition get_fd (h : mem_host) (fd : Z) : option (path * Z) :=
  if decide (0 ≤ fd) then fds h !! Z.to_nat fd else None.

Definition set_fd (h : mem_host) (fd : Z) (x : path * Z) : mem_host :=
  MemHost (files h) (<[Z.to_nat fd := x]> (fds h)).

Definition new_fd (h : mem_host) : nat := fresh (dom (fds h) : gset nat).

#[export] Instance mem_posix : Posix mem_host := {
  sys_open p fl h :=
    match fl, files h !! p with
    | RDWR, None => (-1, h)
    | RDWR, Some _ => (Z.of_nat (new_fd h), MemHost (files h) (<[new_fd h := (p, 0)]> (fds h)))
    | WRONLY_CREAT_TRUNC, _ =>
        (Z.of_nat (new_fd h), MemHost (<[p := []]> (files h)) (<[new_fd h := (p, 0)]> (fds h)))
    end;
  sys_lseek fd off h :=
    match get_fd h fd with Some (p, _) => (off, set_fd h fd (p, off)) | None => (-1, h) end;
  sys_write fd bs h :=
    match get_fd h fd with
    | Some (p, o) =>
        match files h !! p with
        | Some c => (Z.of_nat (length bs),
            MemHost (<[p := overwrite c (Z.to_nat o) bs]> (files h))
                    (<[Z.to_nat fd := (p, o + Z.of_nat (length bs))]> (fds h)))
        | None => (-1, h)
        end
    | None => (-1, h)
    end;
  sys_read fd n h :=
    match get_fd h fd with
    | Some (p, o) =>
        match files h !! p with
        | Some c => (n, take (Z.to_nat n) (drop (Z.to_nat o) c), set_fd h fd (p, o + n))
        | None => (-1, [], h)
        end
    | None => (-1, [], h)
    end;
  sys_close fd h := (0, MemHost (files h) (delete (Z.to_nat fd) (fds h)))
}.

Lemma get_set h fd x g :
  0 ≤ fd → get_fd (set_fd h fd x) g = if decide (g = fd) then Some x else get_fd h g.
Proof.
  intros. unfold get_fd, set_fd. simpl. repeat case_decide; subst; try done; try lia.
  - by rewrite lookup_insert_eq.
  - rewrite lookup_insert_ne by lia. done.
Qed.

Lemma get_fd_nonneg h fd x : get_fd h fd = Some x → 0 ≤ fd.
Proof. unfold get_fd. by case_decide. Qed.

Lemma new_fd_free h : get_fd h (Z.of_nat (new_fd h)) = None.
Proof.
  unfold get_fd. rewrite decide_True, Nat2Z.id by lia. apply (not_elem_of_dom (D:=gset nat)).
  unfold new_fd. generalize (dom (fds h) : gset nat). intros X. apply is_fresh.
Qed.

Lemma get_new h fs x g :
  get_fd (MemHost fs (<[new_fd h := x]> (fds h))) g =
    if decide (g = Z.of_nat (new_fd h)) then Some x else get_fd h g.
Proof.
  rewrite <- (get_set h (Z.of_nat (new_fd h)) x g) by lia.
  unfold set_fd, get_fd. simpl. by rewrite Nat2Z.id.
Qed.

Lemma get_update h fs fd x g :
  0 ≤ fd → get_fd (MemHost fs (<[Z.to_nat fd := x]> (fds h))) g =
    if decide (g = fd) then Some x else get_fd h g.
Proof. intros. by rewrite <- (get_set h fd x g). Qed.

Lemma lookup_insert_decide (m : gmap path bytes) p c q :
  <[p := c]> m !! q = if decide (q = p) then Some c else m !! q.
Proof. rewrite lookup_insert. by repeat case_decide. Qed.

#[export, program] Instance mem_posix_files : PosixFiles mem_host := {
  file h p := files h !! p;
  descr := get_fd
}.
Next Obligation.
  intros h p c Hp. eexists _, _. simpl in *. rewrite Hp. split; [reflexivity|].
  split_and!; [lia|apply new_fd_free|done|]. intros. apply get_new.
Qed.
Next Obligation. intros h p Hp. simpl in *. rewrite Hp. eexists. by split. Qed.
Next Obligation.
  intros h p. eexists _, _. simpl. split; [reflexivity|].
  split_and!; [lia|apply new_fd_free| |intros; apply get_new].
  intros q. apply lookup_insert_decide.
Qed.
Next Obligation.
  intros h fd p o off Hd Ho. simpl in *. rewrite Hd. eexists. split; [reflexivity|].
  split; [done|]. intros. apply get_set. by eapply get_fd_nonneg.
Qed.
Next Obligation.
  intros h fd p o c bs Hd Hc Ho. simpl in *. rewrite Hd, Hc. eexists. split; [reflexivity|].
  split; [intros; apply lookup_insert_decide|].
  intros. apply get_update. by eapply get_fd_nonneg.
Qed.
Next Obligation.
  intros h fd p o c n Hd Hc Ho Hn Hl. simpl in *. rewrite Hd, Hc. eexists.
  split; [reflexivity|]. split; [done|]. intros. apply get_set. by eapply get_fd_nonneg.
Qed.
Next Obligation.
  intros h fd p o Hd. simpl. eexists _, _. split; [reflexivity|]. split; [done|].
  intros g. pose proof (get_fd_nonneg _ _ _ Hd). unfold get_fd. simpl.
  repeat case_decide; subst; try done; try lia.
  - apply lookup_delete_eq.
  - apply lookup_delete_ne. lia.
Qed.
End MemHost.
