(* ===== verification/DeviceTheorems.v ===== *)
(** * Theorems about [disk.c]

    Blocks are read as they were written, the calls succeed and fail by the
    state of the disk, and a new disk is empty. *)

From S2P Require Export DeviceProofs.

Definition zero_block : bytes := replicate (Z.to_nat BLOCK_SIZE) 0.

Section disk_c.
Context {H : Type} `{PosixFiles H}.
Implicit Types (d : disk H).

(** C29: on an open disk of full size, a block that is written is read back as
    written, and every other block is read as before the write. *)
Theorem disk_write_read d p b old buf c blk buf0 :
  dev_ok d → dev_open d = Some p → dev_block d p b = Some old → dev_block d p c = Some blk →
  Z.of_nat (length buf) = BLOCK_SIZE → Z.of_nat (length buf0) = BLOCK_SIZE →
  ∃ d1 d2, DiskC.block_write b buf d = (0, d1) ∧
    DiskC.block_read c buf0 d1 = (0, d2, if decide (c = b) then buf else blk).
Proof.
  intros Hok Ho Hb Hc Hbuf Hbuf0.
  destruct (block_write_ok _ _ _ _ _ Hok Ho Hb Hbuf) as (d1 & E1 & Hok1 & Ho1 & Hb1).
  assert (dev_block d1 p c = Some (if decide (c = b) then buf else blk)) as Hc1.
  { rewrite Hb1. destruct (decide (c = b)) as [->|Hcb].
    - by rewrite decide_True.
    - rewrite decide_False; [done|]. by intros [_ ?]. }
  destruct (block_read_ok _ _ _ _ _ Hok1 Ho1 Hc1 Hbuf0) as (d2 & E2 & _).
  exists d1, d2. by split.
Qed.

(** [make_disk] on a closed device creates a disk of 8192 blocks that
    [open_disk] then opens, and every block of it is read as zeros. *)
Theorem make_disk_zeroed d p b buf0 :
  dev_ok d → dev_open d = None → 0 ≤ b < DISK_BLOCKS → Z.of_nat (length buf0) = BLOCK_SIZE →
  ∃ d1 d2 d3, DiskC.make_disk (Some p) d = (0, d1) ∧ DiskC.open_disk (Some p) d1 = (0, d2) ∧
    DiskC.block_read b buf0 d2 = (0, d3, zero_block).
Proof.
  intros Hok Ho Hb Hbuf0.
  destruct (make_disk_ok d p Hok) as (d1 & E1 & Hok1 & Ho1 & Hb1).
  destruct (open_disk_ok d1 p Hok1) as (d2 & E2 & Hok2 & Ho2 & Hb2).
  { by rewrite Ho1. }
  { rewrite Hb1, !decide_True by done. by eexists. }
  destruct (block_read_ok d2 p b zero_block buf0 Hok2 Ho2) as (d3 & E3 & _); [|done|].
  { rewrite Hb2, Hb1, !decide_True by done. done. }
  exists d1, d2, d3. done.
Qed.

(** Two devices whose disks hold the same blocks. *)
Definition same_blocks d d' : Prop := ∀ q c, dev_block d' q c = dev_block d q c.

(** C30: the device is a two-state machine, and these are all the outcomes of
    its calls.  While the disk [p] is open, [open_disk] fails and changes
    nothing, [close_disk] closes it, and every block from 0 to 8191 is written
    and read.  While no disk is open, [close_disk], [block_write] and
    [block_read] fail and change nothing, and [open_disk] succeeds exactly when
    it is given the name of an existing file; what it opens is a usable disk
    when the file has the size of one, which [open_disk] does not check.  A
    block out of range is never read or written. *)
Theorem disk_state_machine d :
  dev_ok d →
  match dev_open d with
  | Some p =>
      (∀ q, DiskC.open_disk q d = (-1, d)) ∧
      (∃ d', DiskC.close_disk d = (0, d') ∧ dev_ok d' ∧ dev_open d' = None ∧ same_blocks d d') ∧
      ∀ b buf, 0 ≤ b < DISK_BLOCKS → Z.of_nat (length buf) = BLOCK_SIZE →
        (∃ d', DiskC.block_write b buf d = (0, d') ∧ dev_ok d' ∧ dev_open d' = Some p ∧
           ∀ q c, dev_block d' q c = if decide (q = p ∧ c = b) then Some buf else dev_block d q c) ∧
        ∃ d' blk, dev_block d p b = Some blk ∧ DiskC.block_read b buf d = (0, d', blk) ∧
          dev_ok d' ∧ dev_open d' = Some p ∧ same_blocks d d'
  | None =>
      DiskC.close_disk d = (-1, d) ∧ DiskC.open_disk None d = (-1, d) ∧
      (∀ p, file (host d) p = None → DiskC.open_disk (Some p) d = (-1, d)) ∧
      (∀ p c, file (host d) p = Some c →
         ∃ d', DiskC.open_disk (Some p) d = (0, d') ∧ dev_open d' = Some p ∧ same_blocks d d' ∧
           (Z.of_nat (length c) = DISK_BLOCKS * BLOCK_SIZE → dev_ok d')) ∧
      ∀ b buf, DiskC.block_write b buf d = (-1, d) ∧ DiskC.block_read b buf d = (-1, d, buf)
  end ∧
  ∀ b buf, ¬ (0 ≤ b < DISK_BLOCKS) →
    DiskC.block_write b buf d = (-1, d) ∧ DiskC.block_read b buf d = (-1, d, buf).
Proof.
  intros Hok. split; [|exact (block_range d)].
  destruct (dev_open d) as [p|] eqn:Ho; split_and!.
  - intros q. exact (open_disk_busy d q Hok (mk_is_Some _ _ Ho)).
  - exact (close_disk_ok d Hok (mk_is_Some _ _ Ho)).
  - intros b buf Hb Hbuf. destruct (disk_open_block d p b Hok Ho Hb) as [blk Hblk]. split.
    + exact (block_write_ok d p b blk buf Hok Ho Hblk Hbuf).
    + destruct (block_read_ok d p b blk buf Hok Ho Hblk Hbuf) as (d' & E & ?). by exists d', blk.
  - exact (close_disk_none d Hok Ho).
  - done.
  - intros p. by apply disk_c_open_missing.
  - intros p c. by apply disk_c_open_file.
  - intros b buf. unfold DiskC.block_write, DiskC.block_read.
    by rewrite (disk_closed_active d Hok Ho).
Qed.
End disk_c.

(** ** Witnesses, on the in-memory host *)

Import MemHost.

Definition no_disk : disk mem_host := Disk false 0 (MemHost ∅ ∅).

Lemma no_disk_ok : dev_ok no_disk ∧ dev_open no_disk = None.
Proof. done. Qed.

Lemma length_zero_block : Z.of_nat (length zero_block) = BLOCK_SIZE.
Proof. unfold zero_block. by rewrite length_replicate. Qed.

(** A device on which the disk named [p] has been made and opened. *)
Lemma opened_disk p :
  ∃ d1 d : disk mem_host, DiskC.make_disk (Some p) no_disk = (0, d1) ∧
    DiskC.open_disk (Some p) d1 = (0, d) ∧ dev_ok d ∧ dev_open d = Some p ∧
    ∀ b, 0 ≤ b < DISK_BLOCKS → dev_block d p b = Some zero_block.
Proof.
  destruct no_disk_ok as [Hok Ho].
  destruct (make_disk_ok no_disk p Hok) as (d1 & E1 & Hok1 & Ho1 & Hb1).
  destruct (open_disk_ok d1 p Hok1) as (d2 & E2 & Hok2 & Ho2 & Hb2).
  { by rewrite Ho1. }
  { rewrite Hb1, !decide_True by done. by eexists. }
  exists d1, d2. split; [exact E1|]. split; [exact E2|]. split_and!; [done..|].
  intros b Hb. by rewrite Hb2, Hb1, !decide_True.
Qed.

Lemma disk_write_read_witness :
  ∃ d d1 d2 : disk mem_host, dev_open d = Some [100] ∧
    DiskC.block_write 7 (replicate 4096 1) d = (0, d1) ∧
    DiskC.block_read 7 zero_block d1 = (0, d2, replicate 4096 1).
Proof.
  destruct (opened_disk [100]) as (_ & d & _ & _ & Hok & Ho & Hb).
  destruct (disk_write_read d [100] 7 zero_block (replicate 4096 1) 7 zero_block zero_block Hok Ho)
    as (d1 & d2 & E1 & E2).
  - apply Hb. done.
  - apply Hb. done.
  - by rewrite length_replicate.
  - apply length_zero_block.
  - exists d, d1, d2. split; [exact Ho|]. split; [exact E1|exact E2].
Defined.

Lemma make_disk_zeroed_witness :
  ∃ d1 d2 d3 : disk mem_host, DiskC.make_disk (Some [100]) no_disk = (0, d1) ∧
    DiskC.open_disk (Some [100]) d1 = (0, d2) ∧
    DiskC.block_read 8191 zero_block d2 = (0, d3, zero_block).
Proof.
  apply (make_disk_zeroed no_disk [100] 8191 zero_block).
  - apply no_disk_ok.
  - apply no_disk_ok.
  - done.
  - apply length_zero_block.
Defined.

(** A new disk is opened; then its last block is written, and it is closed
    again. *)
Lemma disk_state_machine_witness :
  ∃ d1 d2 d3 d4 : disk mem_host, DiskC.make_disk (Some [100]) no_disk = (0, d1) ∧
    DiskC.open_disk (Some [100]) d1 = (0, d2) ∧ DiskC.open_disk (Some [100]) d2 = (-1, d2) ∧
    DiskC.block_write 8191 zero_block d2 = (0, d3) ∧ DiskC.close_disk d2 = (0, d4) ∧
    DiskC.close_disk no_disk = (-1, no_disk).
Proof.
  destruct (opened_disk [100]) as (d1 & d2 & E1 & E2 & Hok2 & Ho2 & _).
  destruct no_disk_ok as [Hok Ho].
  pose proof (disk_state_machine d2 Hok2) as [Hopen _]. rewrite Ho2 in Hopen.
  destruct Hopen as (Hbusy & (d4 & E4 & _ & _ & _) & Hio).
  destruct (Hio 8191 zero_block) as [(d3 & E3 & _) _];
    [unfold DISK_BLOCKS; lia|apply length_zero_block|].
  pose proof (disk_state_machine no_disk Hok) as [Hclosed _]. rewrite Ho in Hclosed.
  destruct Hclosed as [E0 _]. exists d1, d2, d3, d4.
  split; [exact E1|]. split; [exact E2|]. split; [apply Hbusy|]. split; [exact E3|].
  split; [exact E4|exact E0].
Defined.
