(* ===== verification/MemDisk.v ===== *)
(** * A disk in memory

    An instance of the block device interface that computes: disks are finite
    maps of the blocks that were written, other blocks are zero.  Concrete
    runs of the file system are evaluated on it. *)

From S2P Require Export Device.

Record mem_disk : Type := MemDisk {
  md_open : option path;
  md_disks : gmap path (gmap Z bytes)
}.

Definition md_zero : bytes := replicate (Z.to_nat BLOCK_SIZE) 0.

Definition in_range (b : Z) : bool := (0 <=? b) && (b <? DISK_BLOCKS).

#[export] Instance mem_disk_device : BlockDevice mem_disk := {
  make_disk name d :=
    match name with
    | Some p => (0, MemDisk (md_open d) (<[p := ∅]> (md_disks d)))
    | None => (-1, d)
    end;
  open_disk name d :=
    match name, md_open d with
    | Some p, None =>
        match md_disks d !! p with
        | Some _ => (0, MemDisk (Some p) (md_disks d))
        | None => (-1, d)
        end
    | _, _ => (-1, d)
    end;
  close_disk d :=
    match md_open d with Some _ => (0, MemDisk None (md_disks d)) | None => (-1, d) end;
  block_write b buf d :=
    match md_open d with
    | Some p =>
        if in_range b then
          match md_disks d !! p with
          | Some m => (0, MemDisk (md_open d) (<[p := <[b := buf]> m]> (md_disks d)))
          | None => (-1, d)
          end
        else (-1, d)
    | None => (-1, d)
    end;
  block_read b buf d :=
    match md_open d with
    | Some p =>
        if in_range b then
          match md_disks d !! p with
          | Some m => (0, d, default md_zero (m !! b))
          | None => (-1, d, buf)
          end
        else (-1, d, buf)
    | None => (-1, d, buf)
    end
}.

Definition md_block (d : mem_disk) (p : path) (b : Z) : option bytes :=
  match md_disks d !! p with
  | Some m => if in_range b then Some (default md_zero (m !! b)) else None
  | None => None
  end.

Definition md_ok (d : mem_disk) : Prop :=
  (∀ p, md_open d = Some p → is_Some (md_disks d !! p)) ∧
  ∀ p b blk, md_block d p b = Some blk → Z.of_nat (length blk) = BLOCK_SIZE.

Lemma in_range_spec b : in_range b = true ↔ 0 ≤ b < DISK_BLOCKS.
Proof. unfold in_range. rewrite andb_true_iff, Z.leb_le, Z.ltb_lt. done. Qed.

Lemma in_range_false b : in_range b = false ↔ ¬ (0 ≤ b < DISK_BLOCKS).
Proof. rewrite <- in_range_spec. by destruct (in_range b). Qed.

Lemma length_md_zero : Z.of_nat (length md_zero) = BLOCK_SIZE.
Proof. unfold md_zero. by rewrite length_replicate. Qed.

#[export, program] Instance mem_disk_spec : BlockDeviceSpec mem_disk := {
  dev_ok := md_ok;
  dev_open := md_open;
  dev_block := md_block
}.
Next Obligation. intros d p b blk [_ Hok] E. by eapply Hok. Qed.
Next Obligation.
  intros d p b b' [blk Hb]. unfold md_block in *. destruct (md_disks d !! p); [|done].
  rewrite <- in_range_spec. destruct (in_range b'); split; try done; eauto.
Qed.
Next Obligation.
  intros d p [Hopen Hsz]. eexists. split; [reflexivity|]. simpl.
  assert (∀ q b, md_block (MemDisk (md_open d) (<[p:=∅]> (md_disks d))) q b =
    if decide (q = p) then if decide (0 ≤ b < DISK_BLOCKS) then Some md_zero else None
    else md_block d q b) as Hb.
  { intros q b. unfold md_block. simpl. rewrite lookup_insert.
    destruct (decide (p = q)) as [->|Hne].
    - rewrite decide_True by done. destruct (in_range b) eqn:E.
      + apply in_range_spec in E. by rewrite decide_True, lookup_empty.
      + apply in_range_false in E. by rewrite decide_False.
    - by rewrite decide_False. }
  split_and!; [|done|exact Hb]. split; simpl.
  - intros q Hq. rewrite lookup_insert. case_decide; [by eexists|by apply Hopen].
  - intros q b blk. rewrite Hb. repeat case_decide; try done; [|by apply Hsz].
    intros [= <-]. apply length_md_zero.
Qed.
Next Obligation.
  intros d p [Hopen Hsz] Ho [blk Hb]. simpl in *. unfold md_block in Hb. rewrite Ho.
  destruct (md_disks d !! p) eqn:E; [|done]. eexists. split; [reflexivity|].
  split_and!; [|done|done]. split; simpl; [|done].
  intros q [= <-]. rewrite E. by eexists.
Qed.
Next Obligation. intros d [p|] _ [q Hq]; simpl in *; [|done]. by rewrite Hq. Qed.
Next Obligation.
  intros d [Hopen Hsz] [p Ho]. simpl in *. rewrite Ho. eexists. split; [reflexivity|].
  split_and!; [|done|done]. by split.
Qed.
Next Obligation. intros d _ Ho. simpl in *. by rewrite Ho. Qed.
Next Obligation.
  intros d p b old buf [Hopen Hsz] Ho Hb Hl. simpl in *. rewrite Ho.
  unfold md_block in Hb. destruct (Hopen p Ho) as [m Hm]. rewrite Hm in *.
  destruct (in_range b) eqn:Hr; [|done]. eexists. split; [reflexivity|].
  assert (∀ q c, md_block (MemDisk (Some p) (<[p:=<[b:=buf]> m]> (md_disks d))) q c =
    if decide (q = p ∧ c = b) then Some buf else md_block d q c) as Hblk.
  { intros q c. unfold md_block. simpl. rewrite lookup_insert.
    destruct (decide (p = q)) as [<-|Hne].
    - rewrite Hm, lookup_insert. destruct (decide (b = c)) as [<-|Hbc].
      + rewrite decide_True, Hr by done. done.
      + rewrite decide_False; [done|]. by intros [_ ?].
    - rewrite decide_False; [done|]. by intros [? _]. }
  split_and!; [|done|exact Hblk]. split; simpl.
  - intros q [= <-]. rewrite lookup_insert_eq. by eexists.
  - intros q c blk. rewrite Hblk. case_decide; [by intros [= <-]|by apply Hsz].
Qed.
Next Obligation. intros d b buf _ Ho. simpl in *. by rewrite Ho. Qed.
Next Obligation.
  intros d p b blk buf [Hopen Hsz] Ho Hb _. simpl in *. rewrite Ho.
  unfold md_block in Hb. destruct (Hopen p Ho) as [m Hm]. rewrite Hm in *.
  destruct (in_range b) eqn:Hr; [|done]. injection Hb as <-. eexists. split; [reflexivity|].
  split_and!; done.
Qed.
Next Obligation.
  intros d b buf Hr%in_range_false. simpl. rewrite Hr. by destruct (md_open d).
Qed.

Definition no_disks : mem_disk := MemDisk None ∅.

Lemma no_disks_ok : dev_ok no_disks.
Proof. split; [done|]. intros p b blk. unfold dev_block; simpl. unfold md_block. simpl. by rewrite lookup_empty. Qed.
