(* ===== verification/FsTypes.v ===== *)
(** * The data of the file system ([fs.c], lines 12-67)

    The structures and global variables of [fs.c], the bitmap helpers, the
    byte layouts of the structures that are copied to and from disk blocks,
    and the C library routines on memory and strings that [fs.c] uses. *)

From S2P Require Export Device.

Definition MAX_FILE_NAME : Z := 15.
Definition MAX_NUM_OF_FILES : Z := 64.
Definition TOTAL_BLOCKS : Z := 8192.
Definition MAX_FILESIZE : Z := 2 ^ 20.
Definition MAX_FILE_DESCRIPTORS : Z := 32.
Definition CHAR_BIT : Z := 8.

Record super_block : Type := SuperBlock {
  used_block_bitmap_count : Z;
  used_block_bitmap_offset : Z;
  inode_metadata_blocks : Z;
  inode_metadata_offset : Z
}.

Record inode : Type := Inode {
  file_type : Z;
  direct_offset : list Z;
  single_indirect_offset : Z;
  double_indirect_offset : Z;
  file_size : Z
}.

Record dir_entry : Type := DirEntry {
  de_is_used : bool;
  de_inode_number : Z;
  de_name : bytes
}.

Record file_descriptor : Type := FileDescriptor {
  fd_is_used : bool;
  fd_inode_number : Z;
  fd_offset : Z
}.

(** The global variables, with the disk below them. *)
Record fs (D : Type) : Type := Fs {
  open_disk_fd : Z;
  used_block_bitmap : bytes;
  inode_table : list inode;
  open_file_descriptors : list file_descriptor;
  superblock : super_block;
  directory : list dir_entry;
  inode_bitmap : bytes;
  dev : D
}.
Arguments Fs {D}.
Arguments open_disk_fd {D}.
Arguments used_block_bitmap {D}.
Arguments inode_table {D}.
Arguments open_file_descriptors {D}.
Arguments superblock {D}.
Arguments directory {D}.
Arguments inode_bitmap {D}.
Arguments dev {D}.

(** ** Assignments to the globals and to their fields *)
Section setters.
Context {D : Type}.
Implicit Types s : fs D.

Definition set_disk_fd s v := Fs v (used_block_bitmap s) (inode_table s)
  (open_file_descriptors s) (superblock s) (directory s) (inode_bitmap s) (dev s).
Definition set_bitmap s v := Fs (open_disk_fd s) v (inode_table s)
  (open_file_descriptors s) (superblock s) (directory s) (inode_bitmap s) (dev s).
Definition set_inodes s v := Fs (open_disk_fd s) (used_block_bitmap s) v
  (open_file_descriptors s) (superblock s) (directory s) (inode_bitmap s) (dev s).
Definition set_fds s v := Fs (open_disk_fd s) (used_block_bitmap s) (inode_table s)
  v (superblock s) (directory s) (inode_bitmap s) (dev s).
Definition set_super s v := Fs (open_disk_fd s) (used_block_bitmap s) (inode_table s)
  (open_file_descriptors s) v (directory s) (inode_bitmap s) (dev s).
Definition set_dir s v := Fs (open_disk_fd s) (used_block_bitmap s) (inode_table s)
  (open_file_descriptors s) (superblock s) v (inode_bitmap s) (dev s).
Definition set_inode_bitmap s v := Fs (open_disk_fd s) (used_block_bitmap s) (inode_table s)
  (open_file_descriptors s) (superblock s) (directory s) v (dev s).
Definition set_dev s (v : D) : fs D := Fs (open_disk_fd s) (used_block_bitmap s) (inode_table s)
  (open_file_descriptors s) (superblock s) (directory s) (inode_bitmap s) v.
End setters.

Definition set_count (sb : super_block) (v : Z) : super_block :=
  SuperBlock v (used_block_bitmap_offset sb) (inode_metadata_blocks sb) (inode_metadata_offset sb).
Definition set_size (i : inode) (v : Z) : inode :=
  Inode (file_type i) (direct_offset i) (single_indirect_offset i) (double_indirect_offset i) v.
Definition set_direct (i : inode) (v : list Z) : inode :=
  Inode (file_type i) v (single_indirect_offset i) (double_indirect_offset i) (file_size i).
Definition set_offset (f : file_descriptor) (v : Z) : file_descriptor :=
  FileDescriptor (fd_is_used f) (fd_inode_number f) v.

(** ** Bitmap helpers *)

Definition set_bit (bitmap : bytes) (index : Z) : res bytes :=
  b ← bitmap.[index / 8];
  bitmap.[index / 8 <- u8 (Z.lor b (Z.shiftl 1 (index mod 8)))].

Definition clear_bit (bitmap : bytes) (index : Z) : res bytes :=
  b ← bitmap.[index / 8];
  bitmap.[index / 8 <- u8 (Z.land b (Z.lnot (Z.shiftl 1 (index mod 8))))].

Definition get_bit (bitmap : bytes) (index : Z) : res bool :=
  b ← bitmap.[index / 8];
  Ret (negb (Z.land b (Z.shiftl 1 (index mod 8)) =? 0)).

(** ** Strings of the C library

    A string is the list of its bytes, ending at its first zero byte or, for
    a list with none, at its end (a terminator follows it in memory, or the
    bound [n] stops the routine first). *)
Fixpoint strlen (s : bytes) : Z :=
  match s with c :: s => if c =? 0 then 0 else 1 + strlen s | [] => 0 end.

(** [strncmp (a, b, n) == 0] *)
Fixpoint strncmp_eq (a b : bytes) (n : nat) : bool :=
  match n with
  | O => true
  | S n =>
      let x := nth 0 a 0 in
      let y := nth 0 b 0 in
      (x =? y) && ((x =? 0) || strncmp_eq (tail a) (tail b) n)
  end.

(** The [n] bytes [strncpy (dst, src, n)] writes. *)
Fixpoint strncpy (src : bytes) (n : nat) : bytes :=
  match n with
  | O => []
  | S n =>
      match src with
      | c :: src => if c =? 0 then replicate (S n) 0 else c :: strncpy src n
      | [] => replicate (S n) 0
      end
  end.

(** The string held in a zero-terminated array of bytes. *)
Fixpoint string_of_bytes (s : bytes) : bytes :=
  match s with c :: s => if c =? 0 then [] else c :: string_of_bytes s | [] => [] end.

(** ** Memory *)

(** [memcpy (dst + off, src, length src)] into an object of contents [dst]. *)
Definition mem_store (dst : list Z) (off : Z) (src : list Z) : res (list Z) :=
  if (0 <=? off) && (off + Z.of_nat (length src) <=? Z.of_nat (length dst))
  then Ret (take (Z.to_nat off) dst ++ src ++ drop (Z.to_nat off + length src) dst)
  else UB.

(** The [n] bytes at [src + off] of an object of contents [src]. *)
Definition mem_load (src : list Z) (off n : Z) : res (list Z) :=
  if (0 <=? off) && (0 <=? n) && (off + n <=? Z.of_nat (length src))
  then Ret (take (Z.to_nat n) (drop (Z.to_nat off) src))
  else UB.

(** Little-endian integers of [n] bytes. *)
Fixpoint le_bytes (n : nat) (z : Z) : bytes :=
  match n with O => [] | S n => z mod 256 :: le_bytes n (z / 256) end.

Fixpoint le_int (bs : bytes) : Z :=
  match bs with b :: bs => b + 256 * le_int bs | [] => 0 end.

(** ** Layouts *)

Definition sizeof_super_block : Z := 8.
Definition sizeof_dir_entry : Z := 24.
Definition NUM_DIRECT : Z := MAX_FILESIZE / BLOCK_SIZE.
(** [struct inode] is [NUM_DIRECT + 4] unsigned longs. *)
Definition inode_words : Z := NUM_DIRECT + 4.
Definition sizeof_inode : Z := 8 * inode_words.

Definition super_bytes (sb : super_block) : bytes :=
  le_bytes 2 (used_block_bitmap_count sb) ++ le_bytes 2 (used_block_bitmap_offset sb) ++
  le_bytes 2 (inode_metadata_blocks sb) ++ le_bytes 2 (inode_metadata_offset sb).

Definition bytes_super (bs : bytes) : super_block :=
  SuperBlock (le_int (take 2 bs)) (le_int (take 2 (drop 2 bs)))
             (le_int (take 2 (drop 4 bs))) (le_int (take 2 (drop 6 bs))).

(** A [bool], three bytes of padding, an [int], the name, a byte of padding;
    the padding is taken to be zero. *)
Definition entry_bytes (e : dir_entry) : bytes :=
  [if de_is_used e then 1 else 0; 0; 0; 0] ++ le_bytes 4 (de_inode_number e) ++
  take 15 (de_name e) ++ [0].

Definition bytes_entry (bs : bytes) : dir_entry :=
  DirEntry (negb (nth 0 bs 0 =? 0)) (s32 (le_int (take 4 (drop 4 bs)))) (take 15 (drop 8 bs)).

Fixpoint split_every (n : nat) (k : nat) (l : list Z) : list (list Z) :=
  match k with O => [] | S k => take n l :: split_every n k (drop n l) end.

Definition directory_bytes (dir : list dir_entry) : bytes := concat (map entry_bytes dir).

Definition bytes_directory (bs : bytes) : list dir_entry :=
  map bytes_entry (split_every (Z.to_nat sizeof_dir_entry) (Z.to_nat MAX_NUM_OF_FILES) bs).

(** The inode table as an array of unsigned longs, and its words as bytes. *)
Definition inode_to_words (i : inode) : list Z :=
  file_type i :: direct_offset i ++
    [single_indirect_offset i; double_indirect_offset i; file_size i].

Definition words_to_inode (ws : list Z) : inode :=
  let d := take (Z.to_nat NUM_DIRECT) (tail ws) in
  let r := drop (Z.to_nat NUM_DIRECT) (tail ws) in
  Inode (nth 0 ws 0) d (nth 0 r 0) (nth 1 r 0) (nth 2 r 0).

Definition table_words (tbl : list inode) : list Z := concat (map inode_to_words tbl).

Definition words_table (ws : list Z) : list inode :=
  map words_to_inode (split_every (Z.to_nat inode_words) (Z.to_nat MAX_NUM_OF_FILES) ws).

Definition words_bytes (ws : list Z) : bytes := concat (map (le_bytes 8) ws).

Definition bytes_words (bs : bytes) : list Z :=
  map le_int (split_every 8 (Nat.div (length bs) 8) bs).

Definition unused_fd : file_descriptor := FileDescriptor false (-1) 0.

(** The globals before the program starts: all zero, with [open_disk_fd = -1]. *)
Definition fs_init {D} (d : D) : fs D :=
  Fs (-1) (replicate (Z.to_nat (TOTAL_BLOCKS / CHAR_BIT)) 0)
     (replicate (Z.to_nat MAX_NUM_OF_FILES) (Inode 0 (replicate (Z.to_nat NUM_DIRECT) 0) 0 0 0))
     (replicate (Z.to_nat MAX_FILE_DESCRIPTORS) (FileDescriptor false 0 0))
     (SuperBlock 0 0 0 0)
     (replicate (Z.to_nat MAX_NUM_OF_FILES) (DirEntry false 0 (replicate (Z.to_nat MAX_FILE_NAME) 0)))
     (replicate (Z.to_nat MAX_NUM_OF_FILES) 0) d.
