(* ===== verification/Fs.v ===== *)
(** * The file system operations ([fs.c])

    One definition per function of [fs.c], over any block device.  A function
    takes the globals and returns its result and the new globals; [UB] is an
    access outside an object.  [name] and [disk_name] are C strings, [None]
    a null pointer; a read buffer is the list of the caller's bytes.  Output
    to the terminal is left out, and [malloc] and [calloc] succeed. *)

From S2P Require Export FsTypes.

Section fs.
Context {D : Type} `{BlockDevice D}.
Implicit Types s : fs D.

(** The device calls, on the globals. *)
Definition dev_make_disk (name : option path) s : Z * fs D :=
  let '(r, d) := make_disk name (dev s) in (r, set_dev s d).
Definition dev_open_disk (name : option path) s : Z * fs D :=
  let '(r, d) := open_disk name (dev s) in (r, set_dev s d).
Definition dev_close_disk s : Z * fs D :=
  let '(r, d) := close_disk (dev s) in (r, set_dev s d).
Definition dev_block_write (block : Z) (buf : bytes) s : Z * fs D :=
  let '(r, d) := block_write block buf (dev s) in (r, set_dev s d).
Definition dev_block_read (block : Z) (buf : bytes) s : Z * fs D * bytes :=
  let '(r, d, buf) := block_read block buf (dev s) in (r, set_dev s d, buf).

(** ** make_fs

    [block_write] copies [BLOCK_SIZE] bytes from an object that is smaller:
    [past_super] and [past_bitmap] are the bytes that follow [superblock] and
    [used_block_bitmap] in memory. *)
Definition make_super : super_block :=
  let count := u16 ((TOTAL_BLOCKS / CHAR_BIT + BLOCK_SIZE - 1) / BLOCK_SIZE) in
  let offset := 1 in
  SuperBlock count offset
    (u16 ((sizeof_inode * MAX_NUM_OF_FILES + BLOCK_SIZE - 1) / BLOCK_SIZE))
    (u16 (offset + count)).

Fixpoint make_fs_loop (n : nat) (i : Z) (sb : super_block) (bm : bytes) : res bytes :=
  match n with
  | O => Ret bm
  | S n =>
      bm ← bm.[i <- if i <? used_block_bitmap_offset sb then 1 else 0];
      make_fs_loop n (i + 1) sb bm
  end.

Definition make_fs (past_super past_bitmap : bytes) (disk_name : option path) s
    : res (Z * fs D) :=
  let '(r, s) := dev_make_disk disk_name s in
  if negb (r =? 0) then Ret (-1, s) else
  let '(r, s) := dev_open_disk disk_name s in
  if negb (r =? 0) then Ret (-1, s) else
  let s := set_super s make_super in
  bm ← make_fs_loop (Z.to_nat (inode_metadata_offset make_super)) 0 make_super
         (used_block_bitmap s);
  let s := set_bitmap s (replicate (length bm) 0) in
  let s := set_inode_bitmap s (replicate (length (inode_bitmap s)) 0) in
  let '(r, s) := dev_block_write 0 (super_bytes (superblock s) ++ past_super) s in
  if negb (r =? 0) then Ret (-1, s) else
  let '(r, s) := dev_block_write (used_block_bitmap_offset (superblock s))
                   (used_block_bitmap s ++ past_bitmap) s in
  if negb (r =? 0) then Ret (-1, s) else
  let '(r, s) := dev_close_disk s in
  if negb (r =? 0) then Ret (-1, s) else Ret (0, s).

(** ** mount_fs *)

(** The loop reading the inode table.  [inode_table + i * (BLOCK_SIZE /
    sizeof (struct inode))] advances by whole structures. *)
Fixpoint mount_inodes (n : nat) (i : Z) (block_holder : bytes) s : res (Z * fs D * bytes) :=
  match n with
  | O => Ret (0, s, block_holder)
  | S n =>
      let '(r, s, block_holder) :=
        dev_block_read (inode_metadata_offset (superblock s) + i) block_holder s in
      if r =? -1 then Ret (-1, s, block_holder)
      else
        words ← mem_store (table_words (inode_table s))
                  (i * (BLOCK_SIZE / sizeof_inode) * inode_words) (bytes_words block_holder);
        mount_inodes n (i + 1) block_holder (set_inodes s (words_table words))
  end.

Definition mount_fs (disk_name : option path) s : res (Z * fs D) :=
  match disk_name with
  | None => Ret (-1, s)
  | Some _ =>
      let '(r, s) := dev_open_disk disk_name s in
      if r =? -1 then Ret (-1, s) else
      let block_holder := replicate (Z.to_nat BLOCK_SIZE) 0 in
      let '(r, s, block_holder) := dev_block_read 0 block_holder s in
      if r =? -1 then let '(_, s) := dev_close_disk s in Ret (-1, s) else
      let s := set_super s (bytes_super (take (Z.to_nat sizeof_super_block) block_holder)) in
      let '(r, s, block_holder) :=
        dev_block_read (inode_metadata_offset (superblock s) +
                        inode_metadata_blocks (superblock s)) block_holder s in
      if r =? -1 then let '(_, s) := dev_close_disk s in Ret (-1, s) else
      let s := set_dir s (bytes_directory block_holder) in
      '(r, s, block_holder) ←
        mount_inodes (Z.to_nat (inode_metadata_blocks (superblock s))) 0 block_holder s;
      if r =? -1 then let '(_, s) := dev_close_disk s in Ret (-1, s) else
      let '(r, s, block_holder) :=
        dev_block_read (used_block_bitmap_offset (superblock s)) block_holder s in
      if r =? -1 then let '(_, s) := dev_close_disk s in Ret (-1, s) else
      loaded ← mem_load block_holder 0 (used_block_bitmap_count (superblock s));
      bm ← mem_store (used_block_bitmap s) 0 loaded;
      let s := set_bitmap s bm in
      let s := set_fds s (replicate (length (open_file_descriptors s)) unused_fd) in
      Ret (0, set_disk_fd s 0)
  end.

(** ** umount_fs *)

Fixpoint umount_inodes (n : nat) (i : Z) (block_holder : bytes) s : res (Z * fs D) :=
  match n with
  | O => Ret (0, s)
  | S n =>
      words ← mem_load (table_words (inode_table s))
                (i * (BLOCK_SIZE / sizeof_inode) * inode_words) (BLOCK_SIZE / 8);
      block_holder ← mem_store block_holder 0 (words_bytes words);
      let '(r, s) := dev_block_write (inode_metadata_offset (superblock s) + i) block_holder s in
      if r =? -1 then Ret (-1, s) else umount_inodes n (i + 1) block_holder s
  end.

Definition umount_fs (disk_name : option path) s : res (Z * fs D) :=
  match disk_name with
  | None => Ret (-1, s)
  | Some _ =>
      let block_holder := replicate (Z.to_nat BLOCK_SIZE) 0 in
      block_holder ← mem_store block_holder 0 (super_bytes (superblock s));
      let '(r, s) := dev_block_write 0 block_holder s in
      if r =? -1 then let '(_, s) := dev_close_disk s in Ret (-1, s) else
      block_holder ← mem_store block_holder 0 (directory_bytes (directory s));
      let '(r, s) := dev_block_write (inode_metadata_offset (superblock s) +
                       inode_metadata_blocks (superblock s)) block_holder s in
      if r =? -1 then let '(_, s) := dev_close_disk s in Ret (-1, s) else
      '(r, s) ← umount_inodes (Z.to_nat (inode_metadata_blocks (superblock s))) 0 block_holder s;
      if r =? -1 then let '(_, s) := dev_close_disk s in Ret (-1, s) else
      let s := set_fds s (map (λ f, if fd_is_used f then unused_fd else f)
                              (open_file_descriptors s)) in
      let '(r, s) := dev_close_disk s in
      if r =? -1 then Ret (-1, s) else Ret (0, set_disk_fd s (-1))
  end.

(** ** Names *)

(** The entry test of the loops over the directory. *)
Definition entry_named (name : bytes) (e : dir_entry) : bool :=
  de_is_used e && strncmp_eq (de_name e) name (Z.to_nat MAX_FILE_NAME).

Definition fs_open (name : bytes) s : res (Z * fs D) :=
  if open_disk_fd s =? -1 then Ret (-1, s) else
  match first_index (entry_named name) (directory s) with
  | None => Ret (-1, s)
  | Some i =>
      match first_index (λ f, negb (fd_is_used f)) (open_file_descriptors s) with
      | None => Ret (-1, s)
      | Some fildes =>
          e ← (directory s).[Z.of_nat i];
          fds ← (open_file_descriptors s).[Z.of_nat fildes <-
                   FileDescriptor true (de_inode_number e) 0];
          Ret (Z.of_nat fildes, set_fds s fds)
      end
  end.

Definition fs_close (fildes : Z) s : res (Z * fs D) :=
  if (fildes <? 0) || (MAX_FILE_DESCRIPTORS <=? fildes) then Ret (-1, s) else
  f ← (open_file_descriptors s).[fildes];
  if negb (fd_is_used f) then Ret (-1, s) else
  fds ← (open_file_descriptors s).[fildes <- FileDescriptor false 0 0];
  Ret (0, set_fds s fds).

Definition fs_create (name : bytes) s : res (Z * fs D) :=
  if (MAX_FILE_NAME <? strlen name) || (strlen name =? 0) then Ret (-1, s) else
  if open_disk_fd s =? -1 then Ret (-1, s) else
  match first_index (entry_named name) (directory s) with
  | Some _ => Ret (-1, s)
  | None =>
      match first_index (λ i, file_type i =? 0) (inode_table s) with
      | None => Ret (-1, s)
      | Some available_inode =>
          old ← (inode_table s).[Z.of_nat available_inode];
          tbl ← (inode_table s).[Z.of_nat available_inode <-
                   Inode 1 (replicate (length (direct_offset old)) 0) 0 0 0];
          let s := set_inodes s tbl in
          ibm ← set_bit (inode_bitmap s) (Z.of_nat available_inode);
          let s := set_inode_bitmap s ibm in
          match first_index (λ e, negb (de_is_used e)) (directory s) with
          | None => Ret (-1, s)
          | Some available_dir_entry =>
              dir ← (directory s).[Z.of_nat available_dir_entry <-
                       DirEntry true (Z.of_nat available_inode)
                                (strncpy name (Z.to_nat MAX_FILE_NAME))];
              Ret (0, set_dir s dir)
          end
      end
  end.

(** The loop of [fs_delete] over [TOTAL_BLOCKS] elements of
    [used_block_bitmap], an array of [TOTAL_BLOCKS / CHAR_BIT] bytes: [past i]
    is the byte the process reads at the out-of-range index [i]. *)
Fixpoint delete_blocks (n : nat) (i : Z) (past : Z → Z) (inode_number : Z)
    (bm : bytes) (count : Z) : res (bytes * Z) :=
  match n with
  | O => Ret (bm, count)
  | S n =>
      let b := match zget bm i with Some b => b | None => past i end in
      if b =? inode_number then
        bm ← clear_bit bm i;
        delete_blocks n (i + 1) past inode_number bm (u16 (count - 1))
      else delete_blocks n (i + 1) past inode_number bm count
  end.

Definition fs_delete (past : Z → Z) (name : bytes) s : res (Z * fs D) :=
  if open_disk_fd s =? -1 then Ret (-1, s) else
  match first_index (entry_named name) (directory s) with
  | None => Ret (-1, s)
  | Some file_index =>
      e ← (directory s).[Z.of_nat file_index];
      match first_index (λ f, fd_is_used f && (fd_inode_number f =? de_inode_number e))
              (open_file_descriptors s) with
      | Some _ => Ret (-1, s)
      | None =>
          '(bm, count) ← delete_blocks (Z.to_nat TOTAL_BLOCKS) 0 past (de_inode_number e)
                           (used_block_bitmap s) (used_block_bitmap_count (superblock s));
          let s := set_super (set_bitmap s bm) (set_count (superblock s) count) in
          dir ← (directory s).[Z.of_nat file_index <-
                   DirEntry false 0 (replicate (Z.to_nat MAX_FILE_NAME) 0)];
          Ret (0, set_dir s dir)
      end
  end.

(** ** Open files *)

(** [fildes < 0 || fildes >= MAX_FILE_DESCRIPTORS ||
    !open_file_descriptors[fildes].is_used]: [None] when it holds. *)
Definition descriptor (fildes : Z) s : option file_descriptor :=
  if (fildes <? 0) || (MAX_FILE_DESCRIPTORS <=? fildes) then None
  else match zget (open_file_descriptors s) fildes with
       | Some f => if fd_is_used f then Some f else None
       | None => None
       end.

(** [file_index < 0 || file_index >= MAX_NUM_OF_FILES ||
    !directory[file_index].is_used], for the [inode_number] of a descriptor. *)
Definition bad_file (file_index : Z) s : bool :=
  (file_index <? 0) || (MAX_NUM_OF_FILES <=? file_index) ||
  match zget (directory s) file_index with Some e => negb (de_is_used e) | None => true end.

Fixpoint read_loop (fuel : nat) (file_index block_index block_offset bytes_read bytes_left : Z)
    (block_buffer buf : bytes) s : res (Z * fs D * bytes) :=
  match fuel with
  | O => NoFuel
  | S fuel =>
      if negb (0 <? bytes_left) then Ret (bytes_read, s, buf) else
      ino ← (inode_table s).[file_index];
      block ← (direct_offset ino).[block_index];
      let '(r, s, block_buffer) := dev_block_read (s32 block) block_buffer s in
      if r =? -1 then Ret (-1, s, buf) else
      let current_block_bytes :=
        if bytes_left <? BLOCK_SIZE - block_offset then bytes_left else BLOCK_SIZE - block_offset in
      data ← mem_load block_buffer block_offset current_block_bytes;
      buf ← mem_store buf bytes_read data;
      read_loop fuel file_index (block_index + 1) 0 (bytes_read + current_block_bytes)
        (bytes_left - current_block_bytes) block_buffer buf s
  end.

(** A round of [read_loop] or [write_loop] uses one of the [NUM_DIRECT]
    elements of [direct_offset]. *)
Definition loop_fuel : nat := S (Z.to_nat NUM_DIRECT).

(** [nbyte < remaining_bytes] compares a [size_t] with an [int].  Returns the
    result and the buffer. *)
Definition fs_read (fildes : Z) (buf : bytes) (nbyte : Z) s : res (Z * fs D * bytes) :=
  match descriptor fildes s with
  | None => Ret (-1, s, buf)
  | Some f =>
      let file_index := fd_inode_number f in
      if bad_file file_index s then Ret (-1, s, buf) else
      ino ← (inode_table s).[file_index];
      let remaining_bytes := s32 (u64 (file_size ino - fd_offset f)) in
      let bytes_to_read :=
        s32 (if nbyte <? u64 remaining_bytes then nbyte else u64 remaining_bytes) in
      if bytes_to_read <=? 0 then Ret (0, s, buf) else
      '(bytes_read, s, buf) ←
        read_loop loop_fuel file_index (Z.quot (fd_offset f) BLOCK_SIZE)
          (Z.rem (fd_offset f) BLOCK_SIZE) 0 bytes_to_read
          (replicate (Z.to_nat BLOCK_SIZE) 0) buf s;
      if bytes_read =? -1 then Ret (-1, s, buf) else
      f ← (open_file_descriptors s).[fildes];
      fds ← (open_file_descriptors s).[fildes <- set_offset f (s32 (fd_offset f + bytes_read))];
      Ret (bytes_read, set_fds s fds, buf)
  end.

(** The search of [fs_write] for a free block, from [i] on: the block found,
    or whether the last block of the disk was reached. *)
Inductive found_block : Type := FoundBlock (i : Z) | DiskFull | NoBlockScanned.

Fixpoint find_free_block (n : nat) (i : Z) (bm : bytes) : res found_block :=
  match n with
  | O => Ret NoBlockScanned
  | S n =>
      used ← get_bit bm i;
      if negb used then Ret (FoundBlock i)
      else if i =? TOTAL_BLOCKS - 1 then Ret DiskFull
      else find_free_block n (i + 1) bm
  end.

(** "Allocate a new block": the result is 0, or -1 when the disk is full. *)
Definition alloc_block (file_index block_index : Z) s : res (Z * fs D) :=
  let start := used_block_bitmap_offset (superblock s) in
  r ← find_free_block (Z.to_nat (TOTAL_BLOCKS - start)) start (used_block_bitmap s);
  match r with
  | DiskFull => Ret (-1, s)
  | NoBlockScanned => Ret (0, s)
  | FoundBlock i =>
      bm ← set_bit (used_block_bitmap s) i;
      ino ← (inode_table s).[file_index];
      direct ← (direct_offset ino).[block_index <- i];
      tbl ← (inode_table s).[file_index <- set_direct ino direct];
      let sb := superblock s in
      Ret (0, set_super (set_inodes (set_bitmap s bm) tbl)
                (set_count sb (u16 (used_block_bitmap_count sb + 1))))
  end.

(** [open_file_descriptors[fildes].offset += bytes_to_write], and the growth of
    [file_size]. *)
Definition advance (fildes file_index n : Z) s : res (fs D) :=
  f ← (open_file_descriptors s).[fildes];
  let offset := s32 (fd_offset f + n) in
  fds ← (open_file_descriptors s).[fildes <- set_offset f offset];
  let s := set_fds s fds in
  ino ← (inode_table s).[file_index];
  if file_size ino <? u64 offset then
    tbl ← (inode_table s).[file_index <- set_size ino (u64 offset)];
    Ret (set_inodes s tbl)
  else Ret s.

Fixpoint write_loop (fuel : nat) (fildes file_index block_index block_offset bytes_written : Z)
    (nbyte : Z) (block_buffer buf : bytes) s : res (Z * fs D) :=
  match fuel with
  | O => NoFuel
  | S fuel =>
      if negb (u64 bytes_written <? nbyte) then Ret (bytes_written, s) else
      ino ← (inode_table s).[file_index];
      block ← (direct_offset ino).[block_index];
      '(r, s) ← (if block =? 0 then alloc_block file_index block_index s else Ret (0, s));
      if r =? -1 then Ret (-1, s) else
      ino ← (inode_table s).[file_index];
      block ← (direct_offset ino).[block_index];
      let '(r, s, block_buffer) := dev_block_read (s32 block) block_buffer s in
      if r =? -1 then Ret (-1, s) else
      let bytes_to_write :=
        s32 (if u64 (nbyte - bytes_written) <? BLOCK_SIZE - block_offset
             then u64 (nbyte - bytes_written) else BLOCK_SIZE - block_offset) in
      data ← mem_load buf bytes_written bytes_to_write;
      block_buffer ← mem_store block_buffer block_offset data;
      let '(r, s) := dev_block_write (s32 block) block_buffer s in
      if r =? -1 then Ret (-1, s) else
      s ← advance fildes file_index bytes_to_write s;
      write_loop fuel fildes file_index (block_index + 1) 0 (bytes_written + bytes_to_write)
        nbyte block_buffer buf s
  end.

Definition fs_write (fildes : Z) (buf : bytes) (nbyte : Z) s : res (Z * fs D) :=
  match descriptor fildes s with
  | None => Ret (-1, s)
  | Some f =>
      let file_index := fd_inode_number f in
      if bad_file file_index s then Ret (-1, s) else
      write_loop loop_fuel fildes file_index (Z.quot (fd_offset f) BLOCK_SIZE)
        (Z.rem (fd_offset f) BLOCK_SIZE) 0 nbyte (replicate (Z.to_nat BLOCK_SIZE) 0) buf s
  end.

Definition fs_get_filesize (fildes : Z) s : res (Z * fs D) :=
  match descriptor fildes s with
  | None => Ret (-1, s)
  | Some f =>
      match first_index (λ e, de_is_used e && (de_inode_number e =? fd_inode_number f))
              (directory s) with
      | None => Ret (-1, s)
      | Some i =>
          e ← (directory s).[Z.of_nat i];
          ino ← (inode_table s).[de_inode_number e];
          Ret (s32 (file_size ino), s)
      end
  end.

(** The names copied into [*files], in order, up to the final [NULL]. *)
Fixpoint list_names (n : nat) (i : Z) (dir : list dir_entry) : res (list bytes) :=
  match n with
  | O => Ret []
  | S n =>
      e ← dir.[i];
      names ← list_names n (i + 1) dir;
      Ret (string_of_bytes (strncpy (de_name e) (Z.to_nat MAX_FILE_NAME) ++ [0]) :: names)
  end.

Definition fs_listfiles s : res (Z * list bytes) :=
  let num_of_files := length (filter (λ e, de_is_used e = true) (directory s)) in
  names ← list_names num_of_files 0 (directory s);
  Ret (0, names).

(** [offset > file_size] and [length > file_size] compare an [off_t] with an
    unsigned long. *)
Definition fs_lseek (fildes offset : Z) s : res (Z * fs D) :=
  match descriptor fildes s with
  | None => Ret (-1, s)
  | Some f =>
      if offset <? 0 then Ret (-1, s) else
      let file_index := fd_inode_number f in
      if bad_file file_index s then Ret (-1, s) else
      ino ← (inode_table s).[file_index];
      if file_size ino <? u64 offset then Ret (-1, s) else
      fds ← (open_file_descriptors s).[fildes <- set_offset f (s32 offset)];
      Ret (0, set_fds s fds)
  end.

Definition fs_truncate (fildes length : Z) s : res (Z * fs D) :=
  match descriptor fildes s with
  | None => Ret (-1, s)
  | Some f =>
      let file_index := fd_inode_number f in
      if bad_file file_index s then Ret (-1, s) else
      ino ← (inode_table s).[file_index];
      if file_size ino <? u64 length then Ret (-1, s) else
      tbl ← (inode_table s).[file_index <- set_size ino (u64 length)];
      fds ← (open_file_descriptors s).[fildes <- set_offset f (s32 length)];
      Ret (0, set_fds (set_inodes s tbl) fds)
  end.
End fs.
