(* ===== verification/FsWf.v ===== *)
(** * The invariant of the file system's state

    Bitmap lemmas, the block map of the inodes, and the invariant [wf] that
    the operations on open files preserve. *)

From S2P Require Export Fs.

(** ** The block bitmap *)

Definition bit (bm : bytes) (j : Z) : bool :=
  match zget bm (j / 8) with Some b => Z.testbit b (j mod 8) | None => false end.

(** The indices of a bitmap. *)
Definition bit_index (bm : bytes) (j : Z) : Prop := 0 ≤ j < 8 * Z.of_nat (length bm).

Lemma bit_index_byte bm j : bit_index bm j → ∃ b, zget bm (j / 8) = Some b.
Proof. intros Hj. apply zget_is_Some. unfold bit_index in Hj. dlia. Qed.

Lemma test_mask b k : 0 ≤ k → negb (Z.land b (Z.shiftl 1 k) =? 0) = Z.testbit b k.
Proof.
  intros Hk. rewrite Z.shiftl_1_l. destruct (Z.testbit b k) eqn:E.
  - apply negb_true_iff, Z.eqb_neq. intros E0.
    apply (f_equal (λ z, Z.testbit z k)) in E0.
    rewrite Z.land_spec, E, Z.pow2_bits_true, Z.bits_0 in E0 by lia. done.
  - apply negb_false_iff, Z.eqb_eq. apply Z.bits_inj_iff'. intros n Hn.
    rewrite Z.land_spec, Z.bits_0. destruct (decide (n = k)) as [->|Hne].
    + by rewrite E.
    + rewrite Z.pow2_bits_false by lia. apply andb_false_r.
Qed.

Lemma u8_bit z k : 0 ≤ k < 8 → Z.testbit (u8 z) k = Z.testbit z k.
Proof. intros. unfold wrap. rewrite Z.mod_pow2_bits_low by lia. done. Qed.

Lemma get_bit_spec bm j : bit_index bm j → get_bit bm j = Ret (bit bm j).
Proof.
  intros Hj. destruct (bit_index_byte _ _ Hj) as [b Hb].
  unfold get_bit, bit, aread. rewrite Hb. cbn [mbind res_mbind].
  by rewrite test_mask by (apply Z.mod_pos_bound; lia).
Qed.

(** A byte of the bitmap replaced, seen bit by bit. *)
Lemma bit_insert bm i x j :
  bit_index bm i → 0 ≤ j →
  bit (<[Z.to_nat (i / 8) := x]> bm) j =
    if decide (j / 8 = i / 8) then Z.testbit x (j mod 8) else bit bm j.
Proof.
  unfold bit_index. intros Hi Hj. unfold bit, zget.
  rewrite (proj2 (Z.ltb_ge (j / 8) 0)) by dlia. case_decide as E.
  - rewrite E, list_lookup_insert_eq; [done|]. dlia.
  - rewrite list_lookup_insert_ne by dlia. done.
Qed.

Lemma same_byte_bits i j : j / 8 = i / 8 → j mod 8 = i mod 8 → j = i.
Proof. intros. rewrite (Z.div_mod j 8), (Z.div_mod i 8) by lia. lia. Qed.

Lemma set_bit_spec bm i :
  bit_index bm i →
  ∃ bm', set_bit bm i = Ret bm' ∧ length bm' = length bm ∧
    ∀ j, 0 ≤ j → bit bm' j = if decide (j = i) then true else bit bm j.
Proof.
  intros Hi. destruct (bit_index_byte _ _ Hi) as [b Hb].
  unfold set_bit, aread, awrite. rewrite Hb. cbn [mbind res_mbind].
  eexists. split; [reflexivity|]. split; [by rewrite length_insert|].
  intros j Hj. rewrite bit_insert by done.
  pose proof (Z.mod_pos_bound i 8). pose proof (Z.mod_pos_bound j 8).
  destruct (decide (j / 8 = i / 8)) as [E|E].
  - rewrite u8_bit, Z.lor_spec, Z.shiftl_1_l, Z.pow2_bits_eqb by lia.
    destruct (decide (j = i)) as [->|Hne].
    + rewrite Z.eqb_refl. apply orb_true_r.
    + rewrite (proj2 (Z.eqb_neq _ _)).
      * unfold bit. by rewrite E, Hb, orb_false_r.
      * intros Em. by apply Hne, same_byte_bits.
  - rewrite decide_False; [done|]. by intros ->.
Qed.

Lemma clear_bit_spec bm i :
  bit_index bm i →
  ∃ bm', clear_bit bm i = Ret bm' ∧ length bm' = length bm ∧
    (∀ j, 0 ≤ j → bit bm' j = if decide (j = i) then false else bit bm j) ∧
    ∀ k, k ≠ i / 8 → zget bm' k = zget bm k.
Proof.
  intros Hi. destruct (bit_index_byte _ _ Hi) as [b Hb].
  unfold clear_bit, aread, awrite. rewrite Hb. cbn [mbind res_mbind].
  eexists. split; [reflexivity|]. split; [by rewrite length_insert|].
  pose proof (Z.mod_pos_bound i 8). split.
  - intros j Hj. rewrite bit_insert by done. pose proof (Z.mod_pos_bound j 8).
    destruct (decide (j / 8 = i / 8)) as [E|E].
    + rewrite u8_bit, Z.land_spec, Z.lnot_spec, Z.shiftl_1_l, Z.pow2_bits_eqb by lia.
      destruct (decide (j = i)) as [->|Hne].
      * rewrite Z.eqb_refl. apply andb_false_r.
      * rewrite (proj2 (Z.eqb_neq _ _)).
        -- unfold bit. by rewrite E, Hb, andb_true_r.
        -- intros Em. by apply Hne, same_byte_bits.
    + rewrite decide_False; [done|]. by intros ->.
  - intros k Hk. unfold zget. destruct (Z.ltb_spec k 0); [done|].
    apply list_lookup_insert_ne. unfold bit_index in Hi. dlia.
Qed.

(** The search for a free block. *)
Lemma find_free_block_spec n : ∀ i bm,
  bit_index bm (TOTAL_BLOCKS - 1) → 0 ≤ i → Z.of_nat n = TOTAL_BLOCKS - i → (0 < n)%nat →
  (∃ j, find_free_block n i bm = Ret (FoundBlock j) ∧ i ≤ j < TOTAL_BLOCKS ∧ bit bm j = false ∧
     ∀ k, i ≤ k < j → bit bm k = true) ∨
  (find_free_block n i bm = Ret DiskFull ∧ ∀ k, i ≤ k < TOTAL_BLOCKS → bit bm k = true).
Proof.
  induction n as [|n IH]; intros i bm Hb Hi Hn Hpos; [lia|]. cbn [find_free_block].
  rewrite get_bit_spec by (unfold bit_index in *; lia). cbn [mbind res_mbind].
  destruct (bit bm i) eqn:E; cbn [negb].
  - destruct (Z.eqb_spec i (TOTAL_BLOCKS - 1)) as [El|El].
    + right. split; [done|]. intros k Hk. assert (k = i) as -> by lia. done.
    + destruct (IH (i + 1) bm Hb) as [(j & Hf & Hj & Hjb & Hmin)|[Hf Hfull]]; try lia.
      * left. exists j. split_and!; [done|lia|lia|done|]. intros k Hk.
        destruct (decide (k = i)) as [->|]; [done|]. apply Hmin. lia.
      * right. split; [done|]. intros k Hk.
        destruct (decide (k = i)) as [->|]; [done|]. apply Hfull. lia.
  - left. exists i. split_and!; [done|lia|lia|done|]. intros k Hk. lia.
Qed.

(** ** The block map and the contents of files *)

Section wf.
Context {D : Type} `{BlockDeviceSpec D}.
Implicit Types s : fs D.

Definition entry s (j k : Z) : Z :=
  match zget (inode_table s) j with
  | Some ino => match zget (direct_offset ino) k with Some b => b | None => 0 end
  | None => 0
  end.

Definition fsize s (j : Z) : Z :=
  match zget (inode_table s) j with Some ino => file_size ino | None => 0 end.

Definition ftype s (j : Z) : Z :=
  match zget (inode_table s) j with Some ino => file_type ino | None => 0 end.

(** The byte at [pos] of the block that the inode [j] maps there. *)
Definition byte_at (p : path) s (j pos : Z) : Z :=
  match dev_block (dev s) p (entry s j (pos / BLOCK_SIZE)) with
  | Some blk => nth (Z.to_nat (pos mod BLOCK_SIZE)) blk 0
  | None => 0
  end.

Definition file_data (p : path) s (j : Z) : bytes :=
  map (byte_at p s j) (seqZ 0 (fsize s j)).

(** ** The invariant *)

Record shapes s : Prop := {
  sh_bitmap : Z.of_nat (length (used_block_bitmap s)) = TOTAL_BLOCKS / CHAR_BIT;
  sh_inodes : Z.of_nat (length (inode_table s)) = MAX_NUM_OF_FILES;
  sh_direct : ∀ j ino, zget (inode_table s) j = Some ino →
    Z.of_nat (length (direct_offset ino)) = NUM_DIRECT;
  sh_fds : Z.of_nat (length (open_file_descriptors s)) = MAX_FILE_DESCRIPTORS;
  sh_dir : Z.of_nat (length (directory s)) = MAX_NUM_OF_FILES;
  sh_inode_bitmap : Z.of_nat (length (inode_bitmap s)) = MAX_NUM_OF_FILES
}.

(** Blocks in use are marked in the bitmap and belong to one file, once. *)
Record alloc_ok s : Prop := {
  al_start : 1 ≤ used_block_bitmap_offset (superblock s) < TOTAL_BLOCKS;
  al_range : ∀ j k, 0 ≤ entry s j k < TOTAL_BLOCKS;
  al_used : ∀ j k, entry s j k ≠ 0 → bit (used_block_bitmap s) (entry s j k) = true;
  al_inj : ∀ j k j' k', entry s j k ≠ 0 → entry s j k = entry s j' k' → j = j' ∧ k = k'
}.

Definition allocated s (j pos : Z) : Prop :=
  ∀ k, 0 ≤ k → k * BLOCK_SIZE < pos → entry s j k ≠ 0.

(** Every byte below a file's size or below an offset has a block. *)
Record extents_ok s : Prop := {
  ex_size : ∀ j, 0 ≤ fsize s j ≤ MAX_FILESIZE;
  ex_size_alloc : ∀ j, allocated s j (fsize s j);
  ex_fd : ∀ i f, zget (open_file_descriptors s) i = Some f → fd_is_used f = true →
    0 ≤ fd_inode_number f < MAX_NUM_OF_FILES ∧ ftype s (fd_inode_number f) ≠ 0 ∧
    0 ≤ fd_offset f ≤ MAX_FILESIZE ∧ allocated s (fd_inode_number f) (fd_offset f)
}.

(** The names in use are inodes in use. *)
Definition dir_ok s : Prop :=
  ∀ i e, zget (directory s) i = Some e → de_is_used e = true →
    0 ≤ de_inode_number e < MAX_NUM_OF_FILES ∧ ftype s (de_inode_number e) ≠ 0.

Record disk_ok (p : path) s : Prop := {
  dk_ok : dev_ok (dev s);
  dk_open : dev_open (dev s) = Some p;
  dk_blocks : ∀ b, 0 ≤ b < DISK_BLOCKS → is_Some (dev_block (dev s) p b)
}.

Record wf (p : path) s : Prop := {
  wf_mounted : open_disk_fd s = 0;
  wf_shapes : shapes s;
  wf_alloc : alloc_ok s;
  wf_extents : extents_ok s;
  wf_dir : dir_ok s;
  wf_disk : disk_ok p s
}.

(** ** Entries in and out of the table *)

Lemma entry_bounds s j k : shapes s → entry s j k ≠ 0 →
  0 ≤ j < MAX_NUM_OF_FILES ∧ 0 ≤ k < NUM_DIRECT.
Proof.
  intros Hs. unfold entry. destruct (zget (inode_table s) j) as [ino|] eqn:E; [|done].
  pose proof (sh_direct s Hs _ _ E) as Hl.
  pose proof (proj1 (zget_is_Some _ _) (mk_is_Some _ _ E)) as Hj. rewrite (sh_inodes s Hs) in Hj.
  destruct (zget (direct_offset ino) k) as [b|] eqn:E'; [|done]. intros _.
  pose proof (proj1 (zget_is_Some _ _) (mk_is_Some _ _ E')). lia.
Qed.

Lemma inode_at s j : shapes s → 0 ≤ j < MAX_NUM_OF_FILES →
  ∃ ino, zget (inode_table s) j = Some ino ∧ (inode_table s).[j] = Ret ino ∧
    Z.of_nat (length (direct_offset ino)) = NUM_DIRECT ∧ file_size ino = fsize s j.
Proof.
  intros Hs Hj. destruct (proj2 (zget_is_Some (inode_table s) j)) as [ino E].
  { by rewrite (sh_inodes s Hs). }
  exists ino. split_and!; [done|by apply aread_Ret|by eapply sh_direct|]. unfold fsize. by rewrite E.
Qed.

Lemma entry_at s j k ino : shapes s → zget (inode_table s) j = Some ino → 0 ≤ k < NUM_DIRECT →
  (direct_offset ino).[k] = Ret (entry s j k).
Proof.
  intros Hs E Hk. destruct (aread_lt (direct_offset ino) k) as (b & Hb & _).
  { by rewrite (sh_direct s Hs _ _ E). }
  rewrite Hb. apply aread_Ret in Hb. unfold entry. by rewrite E, Hb.
Qed.

End wf.
