(* ===== verification/FsData.v ===== *)
(** * Reading and writing files

    The rounds of the loops of [fs_read] and [fs_write] on a well-formed
    state, and the loops as a whole. *)

From S2P Require Export FsWf.

(** Arithmetic with the constants of [fs.c]. *)
Ltac blia :=
  change NUM_DIRECT with 256 in *; change MAX_FILESIZE with 1048576 in *;
  change (TOTAL_BLOCKS / CHAR_BIT) with 1024 in *;
  unfold BLOCK_SIZE, TOTAL_BLOCKS, DISK_BLOCKS, MAX_NUM_OF_FILES, MAX_FILE_DESCRIPTORS in *; dlia.

(** ** Memory *)

Lemma mem_load_ok src off n :
  0 ≤ off → 0 ≤ n → off + n ≤ Z.of_nat (length src) →
  mem_load src off n = Ret (take (Z.to_nat n) (drop (Z.to_nat off) src)).
Proof.
  intros. unfold mem_load. by rewrite !(proj2 (Z.leb_le _ _)) by lia.
Qed.

Lemma mem_store_ok dst off src :
  0 ≤ off → off + Z.of_nat (length src) ≤ Z.of_nat (length dst) →
  mem_store dst off src =
    Ret (take (Z.to_nat off) dst ++ src ++ drop (Z.to_nat off + length src) dst).
Proof.
  intros. unfold mem_store. by rewrite !(proj2 (Z.leb_le _ _)) by lia.
Qed.

(** The spliced object, byte by byte. *)
Lemma nth_splice (dst src : list Z) (off i : nat) :
  (off + length src ≤ length dst)%nat →
  nth i (take off dst ++ src ++ drop (off + length src) dst) 0 =
    if decide (off ≤ i < off + length src)%nat then nth (i - off) src 0 else nth i dst 0.
Proof.
  intros Hl. destruct (decide (i < off)%nat) as [Hi|Hi].
  - rewrite decide_False by lia. rewrite app_nth1 by (rewrite length_take; lia).
    rewrite !nth_lookup, lookup_take_lt by lia. done.
  - rewrite app_nth2 by (rewrite length_take; lia). rewrite length_take, Nat.min_l by lia.
    case_decide.
    + by rewrite app_nth1 by lia.
    + rewrite app_nth2 by lia. rewrite !nth_lookup, lookup_drop. do 2 f_equal. lia.
Qed.

Lemma length_splice (dst src : list Z) (off : nat) :
  (off + length src ≤ length dst)%nat →
  length (take off dst ++ src ++ drop (off + length src) dst) = length dst.
Proof. intros. rewrite !length_app, length_take, length_drop. lia. Qed.

Lemma nth_slice (l : list Z) (off n i : nat) :
  (i < n)%nat → nth i (take n (drop off l)) 0 = nth (off + i) l 0.
Proof. intros. by rewrite !nth_lookup, lookup_take_lt, lookup_drop by lia. Qed.

(** ** What the data operations leave alone *)
Section data.
Context {D : Type} `{BlockDeviceSpec D}.
Implicit Types s : fs D.

Record same_frame (p : path) s s' : Prop := {
  fr_mounted : open_disk_fd s' = open_disk_fd s;
  fr_dir : directory s' = directory s;
  fr_inode_bitmap : inode_bitmap s' = inode_bitmap s;
  fr_start : used_block_bitmap_offset (superblock s') = used_block_bitmap_offset (superblock s);
  fr_ftype : ∀ j, ftype s' j = ftype s j;
  fr_disks : ∀ q b, q ≠ p → dev_block (dev s') q b = dev_block (dev s) q b
}.

#[export] Instance same_frame_preorder p : PreOrder (same_frame p).
Proof.
  split; [done|]. intros s1 s2 s3 [] []. split; try congruence; intros.
  etrans; [by apply fr_disks1|by apply fr_disks0].
Qed.

(** No free block is left. *)
Definition full s : Prop :=
  ∀ b, used_block_bitmap_offset (superblock s) ≤ b < TOTAL_BLOCKS → bit (used_block_bitmap s) b = true.

(** ** Allocation *)

(** The result of a table whose inode [j] has its element [k] set to [b]. *)
Lemma table_set_direct s j k b ino tbl' :
  shapes s → zget (inode_table s) j = Some ino → 0 ≤ k < NUM_DIRECT →
  tbl' = <[Z.to_nat j := set_direct ino (<[Z.to_nat k := b]> (direct_offset ino))]> (inode_table s) →
  (∀ j' k', entry (set_inodes s tbl') j' k' =
     if decide (j' = j ∧ k' = k) then b else entry s j' k') ∧
  (∀ j', fsize (set_inodes s tbl') j' = fsize s j') ∧
  (∀ j', ftype (set_inodes s tbl') j' = ftype s j') ∧
  shapes (set_inodes s tbl').
Proof.
  intros Hs E Hk ->. pose proof (zget_range _ _ _ E) as Hj.
  pose proof (sh_direct s Hs _ _ E) as Hd.
  split_and!.
  - intros j' k'. unfold entry; simpl. rewrite zget_insert by done.
    destruct (decide (j' = j)) as [->|Hne].
    + simpl. rewrite zget_insert by lia. rewrite E.
      destruct (decide (k' = k)) as [->|]; [by rewrite decide_True|].
      by rewrite decide_False by tauto.
    + by rewrite (decide_False (P := j' = j ∧ k' = k)) by tauto.
  - intros j'. unfold fsize; simpl. rewrite zget_insert by done.
    case_decide as C; [|done]. subst. by rewrite E.
  - intros j'. unfold ftype; simpl. rewrite zget_insert by done.
    case_decide as C; [|done]. subst. by rewrite E.
  - split; simpl; try apply Hs.
    + rewrite length_insert. apply Hs.
    + intros j' ino'. rewrite zget_insert by done. case_decide as C.
      * intros [= <-]. simpl. by rewrite length_insert.
      * by apply (sh_direct s Hs).
Qed.

Lemma alloc_block_spec p s j k :
  wf p s → 0 ≤ j < MAX_NUM_OF_FILES → 0 ≤ k < NUM_DIRECT → entry s j k = 0 →
  (alloc_block j k s = Ret (-1, s) ∧ full s) ∨
  ∃ s', alloc_block j k s = Ret (0, s') ∧ wf p s' ∧ entry s' j k ≠ 0 ∧
    bit (used_block_bitmap s) (entry s' j k) = false ∧
    (∀ j' k', ¬ (j' = j ∧ k' = k) → entry s' j' k' = entry s j' k') ∧
    (∀ j', fsize s' j' = fsize s j') ∧
    open_file_descriptors s' = open_file_descriptors s ∧ dev s' = dev s ∧ same_frame p s s'.
Proof.
  intros Hwf Hj Hk He. pose proof (wf_shapes p s Hwf) as Hs.
  pose proof (wf_alloc p s Hwf) as Ha. pose proof (al_start s Ha) as Hst.
  pose proof (sh_bitmap s Hs) as Hbm.
  unfold alloc_block.
  destruct (find_free_block_spec (Z.to_nat (TOTAL_BLOCKS - used_block_bitmap_offset (superblock s)))
    (used_block_bitmap_offset (superblock s)) (used_block_bitmap s))
    as [(b & -> & Hb & Hfree & _)|[-> Hfull]]; [unfold bit_index; blia|lia..| |by left].
  right. rstep.
  destruct (set_bit_spec (used_block_bitmap s) b) as (bm & -> & Hlbm & Hbit);
    [unfold bit_index; blia|].
  destruct (inode_at s j Hs Hj) as (ino & E & Hr & Hd & _). rstep. rewrite Hr. rstep.
  rewrite awrite_lt by lia. rstep. rewrite awrite_lt by (rewrite (sh_inodes s Hs); lia). rstep.
  destruct (table_set_direct s j k b ino _ Hs E Hk eq_refl) as (Hent & Hsz & Hft & Hsh).
  eexists. split; [reflexivity|].
  match goal with |- wf p ?x ∧ _ => set (s' := x) end.
  change (∀ j' k', entry s' j' k' = if decide (j' = j ∧ k' = k) then b else entry s j' k') in Hent.
  change (∀ j', fsize s' j' = fsize s j') in Hsz. change (∀ j', ftype s' j' = ftype s j') in Hft.
  assert (∀ j' k', entry s j' k' ≠ 0 → entry s' j' k' = entry s j' k') as Hkeep.
  { intros j' k' Hne. rewrite Hent. case_decide as C; [|done]. by destruct C as [-> ->]. }
  assert (∀ j' k', entry s j' k' ≠ 0 → entry s j' k' ≠ b) as Hnb.
  { intros j' k' Hne Heq. pose proof (al_used s Ha j' k' Hne). congruence. }
  split_and!; try done.
  - split; try apply Hwf.
    + destruct Hsh. split; try done. simpl. by rewrite Hlbm.
    + split; [done|..].
      * intros j' k'. rewrite Hent. case_decide; [lia|apply Ha].
      * intros j' k'. rewrite Hent. unfold s'; simpl. case_decide as C.
        -- intros _. rewrite Hbit by lia. by rewrite decide_True.
        -- intros Hne. rewrite Hbit by apply Ha. case_decide; [done|by apply Ha].
      * intros j' k' j2 k2. rewrite !Hent. repeat case_decide; intros Hne Heq.
        -- intuition congruence.
        -- exfalso. apply (Hnb j2 k2); [by rewrite <- Heq|done].
        -- exfalso. by apply (Hnb j' k').
        -- by apply (al_inj s Ha).
    + destruct (wf_extents p s Hwf) as [X1 X2 X3]. split.
      * intros j'. rewrite Hsz. apply X1.
      * intros j' k' Hk' Hlt. rewrite Hsz in Hlt. rewrite Hkeep; by apply X2.
      * intros i f Hi Hu. destruct (X3 i f Hi Hu) as (Y1 & Y2 & Y3 & Y4).
        split_and!; try lia; [by rewrite Hft|]. intros k' Hk' Hlt. rewrite Hkeep; by apply Y4.
    + intros i e Hi Hu. rewrite Hft. by apply (wf_dir p s Hwf i e).
    + by destruct (wf_disk p s Hwf).
  - rewrite Hent, decide_True by done. lia.
  - by rewrite Hent, decide_True by done.
  - intros j' k' C. by rewrite Hent, decide_False.
Qed.

(** ** Blocks of a file *)

Lemma entry_block p s j k : wf p s → entry s j k ≠ 0 →
  s32 (entry s j k) = entry s j k ∧
  ∃ blk, dev_block (dev s) p (entry s j k) = Some blk ∧ Z.of_nat (length blk) = BLOCK_SIZE.
Proof.
  intros Hwf Hne. pose proof (al_range s (wf_alloc p s Hwf) j k) as Hr.
  split; [apply s32_id; blia|]. destruct (wf_disk p s Hwf) as [Hok _ Hb].
  destruct (Hb (entry s j k)) as [blk E]; [blia|].
  exists blk. split; [done|]. by eapply dev_block_size.
Qed.

Lemma wf_set_dev p s d : wf p s → disk_ok p (set_dev s d) → wf p (set_dev s d).
Proof.
  intros [Hm [] [] [] Hdir _] ?. by split.
Qed.

Lemma read_file_block p s j k buf : wf p s → entry s j k ≠ 0 → Z.of_nat (length buf) = BLOCK_SIZE →
  ∃ s' blk, dev_block_read (s32 (entry s j k)) buf s = (0, s', blk) ∧ wf p s' ∧
    Z.of_nat (length blk) = BLOCK_SIZE ∧
    (∀ pos, 0 ≤ pos → pos / BLOCK_SIZE = k →
       byte_at p s j pos = nth (Z.to_nat (pos mod BLOCK_SIZE)) blk 0) ∧
    (∃ d, s' = set_dev s d) ∧ ∀ q c, dev_block (dev s') q c = dev_block (dev s) q c.
Proof.
  intros Hwf Hne Hl. destruct (entry_block p s j k Hwf Hne) as (-> & blk & Hb & Hlb).
  destruct (wf_disk p s Hwf) as [Hok Ho Hbs].
  destruct (block_read_ok (dev s) p _ blk buf Hok Ho Hb Hl) as (d' & E & Hok' & Ho' & Hsame).
  exists (set_dev s d'), blk. unfold dev_block_read. rewrite E. split_and!; try done.
  - apply wf_set_dev; [done|]. split; simpl; try done. intros b Hbr. rewrite Hsame. by apply Hbs.
  - intros pos _ <-. unfold byte_at. by rewrite Hb.
  - by eexists.
Qed.

Lemma write_file_block p s j k buf : wf p s → entry s j k ≠ 0 → Z.of_nat (length buf) = BLOCK_SIZE →
  ∃ s', dev_block_write (s32 (entry s j k)) buf s = (0, s') ∧ wf p s' ∧
    (∀ j' pos, byte_at p s' j' pos =
       if decide (j' = j ∧ pos / BLOCK_SIZE = k)
       then nth (Z.to_nat (pos mod BLOCK_SIZE)) buf 0 else byte_at p s j' pos) ∧
    (∃ d, s' = set_dev s d) ∧ same_frame p s s'.
Proof.
  intros Hwf Hne Hl. destruct (entry_block p s j k Hwf Hne) as (-> & blk & Hb & Hlb).
  destruct (wf_disk p s Hwf) as [Hok Ho Hbs].
  destruct (block_write_ok (dev s) p _ blk buf Hok Ho Hb Hl) as (d' & E & Hok' & Ho' & Hd').
  exists (set_dev s d'). unfold dev_block_write. rewrite E. split_and!; try done.
  - apply wf_set_dev; [done|]. split; simpl; try done. intros b Hbr. rewrite Hd'.
    case_decide; [by eexists|by apply Hbs].
  - intros j' pos. unfold byte_at at 1. simpl. rewrite Hd'.
    change (entry (set_dev s d')) with (entry s).
    destruct (decide (entry s j' (pos / BLOCK_SIZE) = entry s j k)) as [Heq|Hneq].
    + destruct (al_inj s (wf_alloc p s Hwf) j k j' (pos / BLOCK_SIZE) Hne) as [<- <-]; [done|].
      by rewrite !decide_True.
    + rewrite !decide_False; [done|..]; [intros [-> <-]; done|by intros [_ ?]].
  - by eexists.
  - split; try done. intros q b Hq. simpl. rewrite Hd', decide_False; [done|]. by intros [? _].
Qed.

(** ** The end of a round of [fs_write] *)

(** [s'] is [s] with the size [sz] for inode [j] and the descriptors [fds]. *)
Record resized s s' (j sz : Z) (fds : list file_descriptor) : Prop := {
  rs_fds : open_file_descriptors s' = fds;
  rs_size : ∀ j', fsize s' j' = if decide (j' = j) then sz else fsize s j';
  rs_entry : ∀ j' k, entry s' j' k = entry s j' k;
  rs_ftype : ∀ j', ftype s' j' = ftype s j';
  rs_shapes : shapes s → length fds = length (open_file_descriptors s) → shapes s';
  rs_dev : dev s' = dev s;
  rs_super : superblock s' = superblock s;
  rs_bitmap : used_block_bitmap s' = used_block_bitmap s;
  rs_dir : directory s' = directory s;
  rs_inode_bitmap : inode_bitmap s' = inode_bitmap s;
  rs_mounted : open_disk_fd s' = open_disk_fd s
}.

Lemma resized_same s j fds : resized s (set_fds s fds) j (fsize s j) fds.
Proof.
  split; try done.
  - intros j'. by case_decide; subst.
  - intros [] El. split; try done. by rewrite <- El in *.
Qed.

Lemma resized_size s j ino sz fds : zget (inode_table s) j = Some ino →
  resized s (set_inodes (set_fds s fds) (<[Z.to_nat j := set_size ino sz]> (inode_table s)))
    j sz fds.
Proof.
  intros E. pose proof (zget_range _ _ _ E) as Hr. split; try done.
  - intros j'. unfold fsize at 1; simpl. rewrite zget_insert by done. by case_decide.
  - intros j' k. unfold entry; simpl. rewrite zget_insert by done.
    case_decide as C; [|done]. subst. by rewrite E.
  - intros j'. unfold ftype; simpl. rewrite zget_insert by done.
    case_decide as C; [|done]. subst. by rewrite E.
  - intros Hs El. pose proof (sh_fds s Hs) as Hfds. split; try apply Hs; simpl.
    + rewrite length_insert. apply Hs.
    + intros j' ino'. rewrite zget_insert by done. case_decide; [|apply Hs].
      intros [= <-]. exact (sh_direct s Hs j ino E).
    + by rewrite El.
Qed.

(** The invariant after the file grew to [e] and a descriptor of it moved there. *)
Lemma resized_wf p s s' fildes f j e :
  wf p s → zget (open_file_descriptors s) fildes = Some f → fd_is_used f = true →
  fd_inode_number f = j → 0 ≤ e ≤ MAX_FILESIZE → allocated s j e →
  resized s s' j (Z.max (fsize s j) e)
    (<[Z.to_nat fildes := set_offset f e]> (open_file_descriptors s)) → wf p s'.
Proof.
  intros Hwf Hf Hu Hj He Hal [Rf Rs Re Rt Rh Rd Rsup Rb Rdir _ Rm].
  pose proof (zget_range _ _ _ Hf) as Hfr.
  destruct (ex_fd s (wf_extents p s Hwf) _ _ Hf Hu) as (Hjr & Hft & _). rewrite Hj in *.
  pose proof (ex_size s (wf_extents p s Hwf) j) as Hszr.
  assert (∀ j' pos, allocated s j' pos → allocated s' j' pos) as Halloc.
  { intros j' pos A k Hk Hlt. rewrite Re. by apply A. }
  destruct Hwf as [Wm Ws [A1 A2 A3 A4] [X1 X2 X3] Wd Wk]. split.
  - congruence.
  - apply Rh; [done|]. by rewrite length_insert.
  - split; [by rewrite Rsup|..].
    + intros. rewrite Re. apply A2.
    + intros j' k. rewrite Re, Rb. apply A3.
    + intros j' k j2 k2. rewrite !Re. apply A4.
  - split.
    + intros j'. rewrite Rs. case_decide; [lia|apply X1].
    + intros j'. rewrite Rs. apply Halloc. case_decide; [|apply X2]. subst j'.
      intros k Hk Hlt. destruct (Z.lt_ge_cases (k * BLOCK_SIZE) e); [by apply Hal|apply X2; lia].
    + intros i g. rewrite Rf, zget_insert by done. case_decide as C.
      * intros [= <-] _. simpl. rewrite Hj, Rt. split_and!; try lia. by apply Halloc.
      * intros Hg Hgu. destruct (X3 i g Hg Hgu) as (Y1 & Y2 & Y3 & Y4). rewrite Rt. auto.
  - intros i d Hi Hd. rewrite Rt. rewrite Rdir in Hi. by apply (Wd i d).
  - destruct Wk. split; by rewrite Rd.
Qed.

Lemma advance_spec p s fildes f j n :
  wf p s → zget (open_file_descriptors s) fildes = Some f → fd_is_used f = true →
  fd_inode_number f = j → 0 ≤ n → fd_offset f + n ≤ MAX_FILESIZE →
  allocated s j (fd_offset f + n) →
  ∃ s', advance fildes j n s = Ret s' ∧ wf p s' ∧
    open_file_descriptors s' =
      <[Z.to_nat fildes := set_offset f (fd_offset f + n)]> (open_file_descriptors s) ∧
    (∀ j', fsize s' j' =
       if decide (j' = j) then Z.max (fsize s j) (fd_offset f + n) else fsize s j') ∧
    (∀ j' k, entry s' j' k = entry s j' k) ∧ dev s' = dev s ∧
    superblock s' = superblock s ∧ used_block_bitmap s' = used_block_bitmap s ∧ same_frame p s s'.
Proof.
  intros Hwf Hf Hu Hj Hn Hmax Hal. pose proof (wf_shapes p s Hwf) as Hs.
  destruct (ex_fd s (wf_extents p s Hwf) _ _ Hf Hu) as (Hjr & _ & Ho & _). rewrite Hj in Hjr.
  destruct (inode_at s j Hs Hjr) as (ino & E & Hr & _ & Hsz).
  pose proof (ex_size s (wf_extents p s Hwf) j) as Hszr.
  unfold advance. rewrite (proj2 (aread_Ret _ _ _) Hf). rstep.
  rewrite s32_id by blia. rewrite awrite_lt by (by eapply zget_range). rstep.
  change (inode_table (set_fds s ?x)) with (inode_table s). rewrite Hr. rstep.
  rewrite wrap_id by blia. rewrite Hsz.
  set (fds := <[_ := _]> (open_file_descriptors s)).
  assert (∃ s', (if fsize s j <? fd_offset f + n
     then tbl ← (inode_table s).[j <- set_size ino (fd_offset f + n)];
          Ret (set_inodes (set_fds s fds) tbl) else Ret (set_fds s fds)) = Ret s' ∧
    resized s s' j (Z.max (fsize s j) (fd_offset f + n)) fds) as (s' & -> & Hres).
  { destruct (Z.ltb_spec (fsize s j) (fd_offset f + n)).
    - rewrite awrite_lt by (by eapply zget_range). rstep. eexists. split; [reflexivity|].
      rewrite Z.max_r by lia. by apply resized_size.
    - eexists. split; [reflexivity|]. rewrite Z.max_l by lia. apply resized_same. }
  exists s'. split; [done|].
  split; [apply (resized_wf p s s' fildes f j (fd_offset f + n)); (done || lia)|].
  destruct Hres. split_and!; try done. split; try congruence.
Qed.

(** ** The effect of a write

    [data] was written to the file [j] through the descriptor [fildes], which
    held [f]. *)
Record written (p : path) (fildes : Z) (f : file_descriptor) (data : bytes) s s' : Prop := {
  wr_wf : wf p s';
  wr_fds : open_file_descriptors s' =
    <[Z.to_nat fildes := set_offset f (fd_offset f + Z.of_nat (length data))]>
      (open_file_descriptors s);
  wr_size : ∀ j, fsize s' j =
    if decide (j = fd_inode_number f ∧ data ≠ [])
    then Z.max (fsize s j) (fd_offset f + Z.of_nat (length data)) else fsize s j;
  wr_keep : ∀ j k, entry s j k ≠ 0 → entry s' j k = entry s j k;
  wr_other : ∀ j k, j ≠ fd_inode_number f → entry s' j k = entry s j k;
  wr_new : ∀ pos, fd_offset f ≤ pos < fd_offset f + Z.of_nat (length data) →
    byte_at p s' (fd_inode_number f) pos = nth (Z.to_nat (pos - fd_offset f)) data 0;
  wr_old : ∀ j pos, 0 ≤ pos →
    ¬ (j = fd_inode_number f ∧ fd_offset f ≤ pos < fd_offset f + Z.of_nat (length data)) →
    entry s j (pos / BLOCK_SIZE) ≠ 0 → byte_at p s' j pos = byte_at p s j pos;
  wr_frame : same_frame p s s'
}.

Lemma written_nil p fildes f s :
  wf p s → zget (open_file_descriptors s) fildes = Some f → written p fildes f [] s s.
Proof.
  intros Hwf Hf. apply zget_Some in Hf as [Hp Hf]. split; try done; simpl.
  - rewrite Z.add_0_r. destruct f; unfold set_offset; simpl. by rewrite list_insert_id.
  - intros j. rewrite decide_False; [done|]. by intros [_ ?].
  - lia.
Qed.

Lemma written_app p fildes f d1 d2 s1 s2 s3 :
  0 ≤ fd_offset f →
  (∀ pos, fd_offset f ≤ pos < fd_offset f + Z.of_nat (length d1) →
    entry s2 (fd_inode_number f) (pos / BLOCK_SIZE) ≠ 0) →
  written p fildes f d1 s1 s2 →
  written p fildes (set_offset f (fd_offset f + Z.of_nat (length d1))) d2 s2 s3 →
  written p fildes f (d1 ++ d2) s1 s3.
Proof.
  intros Ho Hal [W1 F1 Z1 K1 O1 N1 P1 R1] [W2 F2 Z2 K2 O2 N2 P2 R2].
  simpl in *. pose proof (length_app d1 d2) as Hl. split.
  - done.
  - rewrite F2, F1, list_insert_insert_eq, Hl. unfold set_offset; simpl. do 2 f_equal. lia.
  - intros j. rewrite Z2, Z1, Hl. destruct d1 as [|x d1], d2 as [|y d2]; simpl in *;
      repeat case_decide; try lia; intuition (congruence || lia).
  - intros j k Hne. rewrite K2 by (by rewrite K1). by apply K1.
  - intros j k Hne. rewrite O2 by done. by apply O1.
  - intros pos Hpos. destruct (Z.lt_ge_cases pos (fd_offset f + Z.of_nat (length d1))) as [Hlt|Hge].
    + rewrite P2; [|lia|intros [_ ?]; lia|by apply Hal; lia].
      rewrite N1, app_nth1 by lia. done.
    + rewrite N2 by lia. rewrite app_nth2 by lia. f_equal. lia.
  - intros j pos Hpos Hnot Hent. rewrite P2, P1; [done|done| |done|done| |by rewrite K1].
    + intros [-> ?]. apply Hnot. split; [done|lia].
    + intros [-> ?]. apply Hnot. split; [done|lia].
  - by etrans.
Qed.

Lemma byte_at_ext p s s' j pos :
  entry s' j (pos / BLOCK_SIZE) = entry s j (pos / BLOCK_SIZE) →
  (∀ q c, dev_block (dev s') q c = dev_block (dev s) q c) →
  byte_at p s' j pos = byte_at p s j pos.
Proof. intros E Hd. unfold byte_at. by rewrite E, Hd. Qed.

(** ** Rounds of the loop of [fs_write] *)

(** The block a round works on: the one that is there, or a new one. *)
Lemma ensure_block p s j k :
  wf p s → 0 ≤ j < MAX_NUM_OF_FILES → 0 ≤ k < NUM_DIRECT →
  let r := if entry s j k =? 0 then alloc_block j k s else Ret (0, s) in
  (r = Ret (-1, s) ∧ full s) ∨
  ∃ s', r = Ret (0, s') ∧ wf p s' ∧ entry s' j k ≠ 0 ∧
    (∀ j' k', entry s j' k' ≠ 0 ∨ j' ≠ j → entry s' j' k' = entry s j' k') ∧
    (∀ j', fsize s' j' = fsize s j') ∧
    open_file_descriptors s' = open_file_descriptors s ∧ dev s' = dev s ∧ same_frame p s s'.
Proof.
  intros Hwf Hj Hk. destruct (Z.eqb_spec (entry s j k) 0) as [He|He]; cbn zeta.
  - destruct (alloc_block_spec p s j k Hwf Hj Hk He)
      as [?|(s' & E & W & Hne & _ & Hent & Hsz & Hf & Hd & Hfr)]; [by left|].
    right. exists s'. split_and!; try done. intros j' k' Hor. apply Hent. intros [-> ->]. tauto.
  - right. by exists s.
Qed.

(** Reading a block of a file, storing [data] at [off] in it and writing it
    back. *)
Lemma patch_block p s j k off bb data :
  wf p s → entry s j k ≠ 0 → Z.of_nat (length bb) = BLOCK_SIZE →
  0 ≤ off → off + Z.of_nat (length data) ≤ BLOCK_SIZE →
  ∃ s2 blk newblk s3,
    dev_block_read (s32 (entry s j k)) bb s = (0, s2, blk) ∧
    mem_store blk off data = Ret newblk ∧
    dev_block_write (s32 (entry s j k)) newblk s2 = (0, s3) ∧
    Z.of_nat (length newblk) = BLOCK_SIZE ∧ wf p s3 ∧ (∃ d, s3 = set_dev s d) ∧
    same_frame p s s3 ∧
    ∀ j' pos, 0 ≤ pos → byte_at p s3 j' pos =
      if decide (j' = j ∧ k * BLOCK_SIZE + off ≤ pos < k * BLOCK_SIZE + off + Z.of_nat (length data))
      then nth (Z.to_nat (pos - (k * BLOCK_SIZE + off))) data 0 else byte_at p s j' pos.
Proof.
  intros Hwf Hne Hbb Hoff Hend.
  destruct (read_file_block p s j k bb Hwf Hne Hbb)
    as (s2 & blk & E2 & W2 & Hlb & Hblk & [d2 ->] & Hd2).
  assert (Hfit : (Z.to_nat off + length data ≤ length blk)%nat) by lia.
  set (newblk := take (Z.to_nat off) blk ++ data ++ drop (Z.to_nat off + length data) blk).
  assert (Z.of_nat (length newblk) = BLOCK_SIZE) as Hlnew
    by (unfold newblk; rewrite length_splice by done; lia).
  destruct (write_file_block p (set_dev s d2) j k newblk W2) as (s3 & E3 & W3 & Hb3 & [d3 ->] & Hfr3);
    [done..|].
  exists (set_dev s d2), blk, newblk, (set_dev s d3).
  split_and!; try done; 
    [by rewrite mem_store_ok by lia|by eexists|by etrans; [|exact Hfr3]|].
  intros j' pos Hpos. rewrite Hb3, (byte_at_ext p s (set_dev s d2)) by done.
  destruct (decide (j' = j ∧ pos / BLOCK_SIZE = k)) as [[-> Hk]|Hnk].
  - unfold newblk. rewrite nth_splice by done. rewrite <- Hblk by done.
    assert (pos = k * BLOCK_SIZE + pos mod BLOCK_SIZE ∧ 0 ≤ pos mod BLOCK_SIZE < BLOCK_SIZE) as [Hp1 Hp2]
      by blia.
    destruct (decide (k * BLOCK_SIZE + off ≤ pos < k * BLOCK_SIZE + off + Z.of_nat (length data))).
    + rewrite !decide_True by (done || lia). f_equal. lia.
    + rewrite !decide_False by (lia || by intros [_ ?]). done.
  - rewrite decide_False; [done|]. intros [-> ?]. apply Hnk. split; [done|]. blia.
Qed.

Lemma write_round p fuel fildes f k off w nbyte bb buf s :
  wf p s → zget (open_file_descriptors s) fildes = Some f → fd_is_used f = true →
  fd_offset f = k * BLOCK_SIZE + off → 0 ≤ off < BLOCK_SIZE →
  0 ≤ w < nbyte → nbyte ≤ MAX_FILESIZE → nbyte ≤ Z.of_nat (length buf) →
  fd_offset f + (nbyte - w) ≤ MAX_FILESIZE → Z.of_nat (length bb) = BLOCK_SIZE →
  let j := fd_inode_number f in
  let c := Z.min (nbyte - w) (BLOCK_SIZE - off) in
  (write_loop (S fuel) fildes j k off w nbyte bb buf s = Ret (-1, s) ∧ full s) ∨
  ∃ s' bb', Z.of_nat (length bb') = BLOCK_SIZE ∧
    written p fildes f (take (Z.to_nat c) (drop (Z.to_nat w) buf)) s s' ∧
    entry s' j k ≠ 0 ∧
    write_loop (S fuel) fildes j k off w nbyte bb buf s =
      write_loop fuel fildes j (k + 1) 0 (w + c) nbyte bb' buf s'.
Proof.
  intros Hwf Hf Hu Ho Hoff Hw Hn Hbuf Hmax Hbb j c.
  pose proof (wf_shapes p s Hwf) as Hs.
  destruct (ex_fd s (wf_extents p s Hwf) _ _ Hf Hu) as (Hj & Hft & Hor & Hal).
  assert (0 ≤ k < NUM_DIRECT) as Hk by blia.
  fold j in Hj, Hal. cbn [write_loop].
  rewrite (wrap_id 64 w) by blia. rewrite (proj2 (Z.ltb_lt _ _)) by lia. cbn [negb].
  destruct (inode_at s j Hs Hj) as (ino & E & -> & _ & _). rstep.
  rewrite (entry_at s j k ino Hs E Hk). rstep.
  destruct (ensure_block p s j k Hwf Hj Hk)
    as [[-> ?]|(s1 & -> & W1 & Hne1 & Hent1 & Hsz1 & Hfd1 & Hd1 & Hfr1)]; rstep; [by left|].
  right. pose proof (wf_shapes p s1 W1) as Hs1.
  destruct (inode_at s1 j Hs1 Hj) as (ino1 & E1 & Hr1 & _ & _).
  change (0 =? -1) with false. cbv iota. rewrite Hr1. rstep.
  rewrite (entry_at s1 j k ino1 Hs1 E1 Hk). rstep.
  set (data := take (Z.to_nat c) (drop (Z.to_nat w) buf)).
  assert (0 < c ≤ nbyte - w ∧ c ≤ BLOCK_SIZE - off) as Hc by lia.
  assert (length data = Z.to_nat c) as Hld by (unfold data; rewrite length_take, length_drop; lia).
  destruct (patch_block p s1 j k off bb data W1 Hne1 Hbb)
    as (s2 & blk & newblk & s3 & -> & Hst & Hwr & Hlnew & W3 & [d3 ->] & Hfr3 & Hb3); [lia..|].
  change (0 =? -1) with false. cbv iota.
  rewrite (wrap_id 64 (nbyte - w)) by blia.
  assert (s32 (if nbyte - w <? BLOCK_SIZE - off then nbyte - w else BLOCK_SIZE - off) = c) as ->.
  { unfold c. destruct (Z.ltb_spec (nbyte - w) (BLOCK_SIZE - off)); rewrite s32_id by blia; lia. }
  rewrite mem_load_ok by lia. rstep. fold data. rewrite Hst. rstep. rewrite Hwr.
  change (0 =? -1) with false. cbv iota.
  destruct (advance_spec p (set_dev s1 d3) fildes f j c W3)
    as (s4 & -> & W4 & Hfd4 & Hsz4 & Hent4 & Hd4 & _ & _ & Hfr4); try done; try lia.
  { by rewrite <- Hfd1 in Hf. }
  { intros k' Hk' Hlt. change (entry (set_dev s1 d3)) with (entry s1).
    destruct (decide (k' = k)) as [->|Hkne]; [done|].
    assert (entry s j k' ≠ 0) as He by (apply Hal; [done|blia]). rewrite Hent1; tauto. }
  rstep. exists s4, newblk.
  assert (∀ j' k', entry s4 j' k' = entry s1 j' k') as Hent by (intros; by rewrite Hent4).
  assert (∀ j' pos, 0 ≤ pos → byte_at p s4 j' pos =
    if decide (j' = j ∧ fd_offset f ≤ pos < fd_offset f + c)
    then nth (Z.to_nat (pos - fd_offset f)) data 0 else byte_at p s1 j' pos) as Hbyte.
  { intros j' pos Hpos. rewrite (byte_at_ext p (set_dev s1 d3) s4) by (intros; congruence).
    rewrite Hb3, Ho, Hld, Z2Nat.id by lia. done. }
  split_and!; [done| |by rewrite Hent|done].
  split; rewrite ?Hld; fold j; rewrite ?Z2Nat.id by lia.
  - done.
  - by rewrite Hfd4, <- Hfd1.
  - intros j'. rewrite Hsz4. change (fsize (set_dev s1 d3)) with (fsize s1). rewrite !Hsz1.
    assert (data ≠ []) by (intros Hnil; rewrite Hnil in Hld; simpl in Hld; lia).
    destruct (decide (j' = j)) as [->|]; [by rewrite decide_True|]. by rewrite decide_False by tauto.
  - intros j' k' Hne. rewrite Hent, Hent1; tauto.
  - intros j' k' Hne. rewrite Hent, Hent1; tauto.
  - intros pos Hpos. by rewrite Hbyte, decide_True by (done || blia).
  - intros j' pos Hpos Hnot Hne. rewrite Hbyte, decide_False by done.
    apply byte_at_ext; [rewrite Hent1; tauto|by rewrite Hd1].
  - etrans; [exact Hfr1|]. by etrans; [|exact Hfr4].
Qed.

(** ** The loop of [fs_write] *)

Lemma take_drop_app (l : bytes) (w a b : nat) :
  take a (drop w l) ++ take b (drop (w + a) l) = take (a + b) (drop w l).
Proof.
  rewrite <- (take_drop a (take (a + b) (drop w l))), take_take, skipn_firstn_comm, drop_drop.
  rewrite Nat.min_l by lia. replace (a + b - a)%nat with b by lia.
  done.
Qed.

Lemma write_loop_spec p fuel : ∀ fildes f k off w nbyte bb buf s,
  wf p s → zget (open_file_descriptors s) fildes = Some f → fd_is_used f = true →
  (w < nbyte → fd_offset f = k * BLOCK_SIZE + off ∧ 0 ≤ off < BLOCK_SIZE) →
  0 ≤ w ≤ nbyte → nbyte ≤ MAX_FILESIZE → nbyte ≤ Z.of_nat (length buf) →
  fd_offset f + (nbyte - w) ≤ MAX_FILESIZE → Z.of_nat (length bb) = BLOCK_SIZE →
  (0 < fuel)%nat → (w < nbyte → NUM_DIRECT + 1 - k ≤ Z.of_nat fuel) →
  ∃ r n s', write_loop fuel fildes (fd_inode_number f) k off w nbyte bb buf s = Ret (r, s') ∧
    0 ≤ n ≤ nbyte - w ∧ written p fildes f (take (Z.to_nat n) (drop (Z.to_nat w) buf)) s s' ∧
    (r = nbyte ∧ n = nbyte - w ∨ r = -1 ∧ n < nbyte - w ∧ full s').
Proof.
  induction fuel as [|fuel IH]; intros fildes f k off w nbyte bb buf s
    Hwf Hf Hu Hpos Hw Hn Hbuf Hmax Hbb Hfuel0 Hfuel; [lia|].
  destruct (Z.eq_dec w nbyte) as [->|Hlt].
  { exists nbyte, 0, s. split_and!; try lia.
    - cbn [write_loop]. rewrite wrap_id by blia. by rewrite Z.ltb_irrefl.
    - by apply written_nil. }
  destruct Hpos as [Ho Hoff]; [lia|].
  pose proof (ex_fd s (wf_extents p s Hwf) _ _ Hf Hu) as (_ & _ & Hor & _).
  destruct (write_round p fuel fildes f k off w nbyte bb buf s)
    as [[-> Hfull]|(s1 & bb1 & Hbb1 & Hw1 & Hne & ->)]; try done; try lia.
  { exists (-1), 0, s. split_and!; try lia; [done|by apply written_nil|right; split_and!; [done|lia|done]]. }
  set (c := Z.min (nbyte - w) (BLOCK_SIZE - off)) in *.
  set (d1 := take (Z.to_nat c) (drop (Z.to_nat w) buf)) in *.
  assert (Z.of_nat (length d1) = c) as Hl1 by (unfold d1; rewrite length_take, length_drop; lia).
  set (f1 := set_offset f (fd_offset f + c)).
  assert (zget (open_file_descriptors s1) fildes = Some f1) as Hf1.
  { rewrite (wr_fds _ _ _ _ _ _ Hw1), zget_insert, decide_True by (done || by eapply zget_range).
    by rewrite Hl1. }
  destruct (IH fildes f1 (k + 1) 0 (w + c) nbyte bb1 buf s1) as (r & n & s' & E & Hn' & Hw' & Hr);
    try done; try (simpl; lia).
  { apply Hw1. }
  { blia. }
  exists r, (c + n), s'. split_and!; [exact E|lia|lia| |].
  - replace (take (Z.to_nat (c + n)) (drop (Z.to_nat w) buf))
      with (d1 ++ take (Z.to_nat n) (drop (Z.to_nat (w + c)) buf)).
    + eapply written_app; [lia| |exact Hw1|].
      * intros pos Hpos. rewrite Hl1 in Hpos. assert (pos / BLOCK_SIZE = k) as -> by blia. done.
      * by rewrite Hl1.
    + unfold d1. rewrite !Z2Nat.inj_add by lia. apply take_drop_app.
  - destruct Hr as [[-> ->]|(-> & ? & ?)]; [left|right]; split_and!; done || lia.
Qed.

(** ** The loop of [fs_read] *)

(** The bytes of a file from [pos] on. *)
Definition file_bytes (p : path) s (j pos n : Z) : bytes :=
  map (byte_at p s j) (seqZ pos n).

Lemma length_file_bytes p s j pos n : length (file_bytes p s j pos n) = Z.to_nat n.
Proof. unfold file_bytes. by rewrite length_fmap, length_seqZ. Qed.

Lemma file_bytes_lookup p s j pos n i : (i < Z.to_nat n)%nat →
  file_bytes p s j pos n !! i = Some (byte_at p s j (pos + Z.of_nat i)).
Proof.
  intros Hi. unfold file_bytes. rewrite list_lookup_fmap, (proj2 (lookup_seqZ _ _ _ _)) by
    (split; [reflexivity|lia]). done.
Qed.

Lemma file_bytes_app p s j pos n1 n2 : 0 ≤ n1 → 0 ≤ n2 →
  file_bytes p s j pos (n1 + n2) = file_bytes p s j pos n1 ++ file_bytes p s j (pos + n1) n2.
Proof. intros. unfold file_bytes. by rewrite seqZ_app, fmap_app by lia. Qed.

Lemma file_bytes_ext p s s' j pos n :
  (∀ i, pos ≤ i < pos + n → byte_at p s' j i = byte_at p s j i) →
  file_bytes p s' j pos n = file_bytes p s j pos n.
Proof.
  intros Hb. apply list_eq. intros i. destruct (decide (i < Z.to_nat n)%nat).
  - rewrite !file_bytes_lookup by done. f_equal. apply Hb. lia.
  - rewrite !lookup_ge_None_2 by (rewrite length_file_bytes; lia). done.
Qed.

Lemma splice_splice (l d1 d2 : bytes) (w : nat) :
  (w + length d1 + length d2 ≤ length l)%nat →
  let l1 := take w l ++ d1 ++ drop (w + length d1) l in
  take (w + length d1) l1 ++ d2 ++ drop (w + length d1 + length d2) l1 =
  take w l ++ (d1 ++ d2) ++ drop (w + length (d1 ++ d2)) l.
Proof.
  intros Hl l1. unfold l1. rewrite length_app.
  rewrite (app_assoc (take w l) d1), <- !app_assoc.
  assert (length (take w l ++ d1) = w + length d1)%nat as E by (rewrite length_app, length_take; lia).
  rewrite (app_assoc (take w l) d1 (drop _ l)), <- E at 1.
  rewrite take_app_length, <- app_assoc. do 3 f_equal.
  rewrite app_assoc, drop_app_ge, E, drop_drop by lia. f_equal. lia.
Qed.

(** A read changes only the state of the device, not its blocks. *)
Record only_device (p : path) s s' : Prop := {
  od_wf : wf p s';
  od_dev : ∃ d, s' = set_dev s d;
  od_blocks : ∀ q c, dev_block (dev s') q c = dev_block (dev s) q c
}.

Lemma only_device_byte p s s' j pos : only_device p s s' → byte_at p s' j pos = byte_at p s j pos.
Proof. intros [_ [d ->] Hb]. by apply byte_at_ext. Qed.

Lemma block_slice p s j k off c blk :
  0 ≤ off → 0 ≤ c → off + c ≤ BLOCK_SIZE → Z.of_nat (length blk) = BLOCK_SIZE → 0 ≤ k →
  (∀ pos, 0 ≤ pos → pos / BLOCK_SIZE = k →
     byte_at p s j pos = nth (Z.to_nat (pos mod BLOCK_SIZE)) blk 0) →
  take (Z.to_nat c) (drop (Z.to_nat off) blk) = file_bytes p s j (k * BLOCK_SIZE + off) c.
Proof.
  intros Hoff Hc Hfit Hl Hk Hb. apply list_eq. intros i.
  destruct (decide (i < Z.to_nat c)%nat) as [Hi|Hi].
  - rewrite file_bytes_lookup, lookup_take_lt, lookup_drop, Hb by (done || blia).
    destruct (lookup_lt_is_Some_2 blk (Z.to_nat off + i)) as [x Hx]; [lia|].
    rewrite Hx. symmetry. f_equal. rewrite nth_lookup.
    replace (Z.to_nat _) with (Z.to_nat off + i)%nat by blia. by rewrite Hx.
  - rewrite !lookup_ge_None_2; [done|..]; rewrite ?length_file_bytes, ?length_take, ?length_drop; lia.
Qed.

Lemma read_loop_spec p j fuel : ∀ k off br bl bb buf pos s,
  wf p s → 0 ≤ j < MAX_NUM_OF_FILES →
  (0 < bl → pos = k * BLOCK_SIZE + off ∧ 0 ≤ off < BLOCK_SIZE) →
  0 ≤ pos → 0 ≤ bl → pos + bl ≤ MAX_FILESIZE → allocated s j (pos + bl) →
  0 ≤ br → br + bl ≤ Z.of_nat (length buf) → Z.of_nat (length bb) = BLOCK_SIZE →
  (0 < fuel)%nat → (0 < bl → NUM_DIRECT + 1 - k ≤ Z.of_nat fuel) →
  ∃ s', read_loop fuel j k off br bl bb buf s =
      Ret (br + bl, s', take (Z.to_nat br) buf ++ file_bytes p s j pos bl ++
                        drop (Z.to_nat br + Z.to_nat bl) buf) ∧
    only_device p s s'.
Proof.
  induction fuel as [|fuel IH]; intros k off br bl bb buf pos s
    Hwf Hj Hko Hpos Hbl Hmax Hal Hbr Hbuf Hbb Hfuel0 Hfuel; [lia|].
  cbn [read_loop]. destruct (Z.ltb_spec 0 bl) as [Hlt|Hge]; cbn [negb].
  2: { assert (bl = 0) as -> by lia. exists s. split.
       - change (file_bytes p s j pos 0) with (@nil Z). rewrite !Z.add_0_r, Nat.add_0_r. simpl.
         by rewrite take_drop.
       - split; [done| |done]. exists (dev s). by destruct s. }
  destruct (Hko Hlt) as [Hp Hoff]. assert (0 ≤ k < NUM_DIRECT) as Hk by blia.
  pose proof (wf_shapes p s Hwf) as Hs.
  destruct (inode_at s j Hs Hj) as (ino & E & -> & _ & _). rstep.
  rewrite (entry_at s j k ino Hs E Hk). rstep.
  assert (entry s j k ≠ 0) as Hne by (apply Hal; lia).
  destruct (read_file_block p s j k bb Hwf Hne Hbb)
    as (s1 & blk & -> & W1 & Hlb & Hblk & Hd1 & Hsame). change (0 =? -1) with false. cbv iota.
  replace (if bl <? BLOCK_SIZE - off then bl else BLOCK_SIZE - off) with (Z.min bl (BLOCK_SIZE - off))
    by (destruct (Z.ltb_spec bl (BLOCK_SIZE - off)); lia).
  set (c := Z.min bl (BLOCK_SIZE - off)).
  rewrite mem_load_ok by lia. rstep.
  rewrite (block_slice p s j k off c blk) by (done || lia). rewrite <- Hp.
  pose proof (length_file_bytes p s j pos c) as Hlc.
  rewrite mem_store_ok by lia. rstep.
  set (buf1 := take _ buf ++ _).
  assert (length buf1 = length buf) as Hlbuf1 by (unfold buf1; rewrite length_splice; lia).
  assert (only_device p s s1) as Hod by (by split).
  assert (∀ j' k', entry s1 j' k' = entry s j' k') as Hent by (by destruct Hd1 as [d ->]).
  destruct (IH (k + 1) 0 (br + c) (bl - c) blk buf1 (pos + c) s1) as (s2 & -> & Hod2);
    try done; try lia; try blia.
  { intros k' Hk' Hlt'. rewrite Hent. apply Hal; [done|lia]. }
  exists s2. split.
  - do 2 f_equal; [f_equal; lia|].
    rewrite (file_bytes_ext p s s1) by (intros; by apply only_device_byte).
    assert (file_bytes p s j pos bl = file_bytes p s j pos c ++ file_bytes p s j (pos + c) (bl - c))
      as -> by (rewrite <- file_bytes_app by lia; f_equal; lia).
    pose proof (length_file_bytes p s j (pos + c) (bl - c)) as Hl2.
    pose proof (splice_splice buf (file_bytes p s j pos c) (file_bytes p s j (pos + c) (bl - c))
      (Z.to_nat br)) as Hsp. cbn zeta in Hsp. rewrite length_app, Hlc, Hl2 in Hsp.
    unfold buf1. rewrite Hlc.
    replace (Z.to_nat (br + c)) with (Z.to_nat br + Z.to_nat c)%nat by lia.
    replace (Z.to_nat br + Z.to_nat bl)%nat
      with (Z.to_nat br + (Z.to_nat c + Z.to_nat (bl - c)))%nat by lia.
    apply Hsp. lia.
  - destruct Hod2 as [W2 [d2 ->] B2]. destruct Hd1 as [d1 ->]. split; [done| |].
    + by exists d2.
    + intros q c'. rewrite B2. apply Hsame.
Qed.
End data.
