(* ===== verification/FsIO.v ===== *)
(** * What the operations on open files do

    [fs_write], [fs_read], [fs_lseek], [fs_truncate] and [fs_get_filesize] on
    a well-formed state, in terms of the contents of the files. *)

From S2P Require Import MemDisk.
From S2P Require Export FsData.

Section io.
Context {D : Type} `{BlockDeviceSpec D}.
Implicit Types s : fs D.

(** [fildes] is open on the file [fd_inode_number f], at [fd_offset f]. *)
Record open_on s (fildes : Z) (f : file_descriptor) : Prop := {
  oo_descriptor : descriptor fildes s = Some f;
  oo_file : bad_file (fd_inode_number f) s = false
}.

Lemma descriptor_Some fildes s f :
  descriptor fildes s = Some f ↔
  0 ≤ fildes < MAX_FILE_DESCRIPTORS ∧ zget (open_file_descriptors s) fildes = Some f ∧
  fd_is_used f = true.
Proof.
  unfold descriptor. destruct (Z.ltb_spec fildes 0); simpl; [split; [done|lia]|].
  destruct (Z.leb_spec MAX_FILE_DESCRIPTORS fildes); [split; [done|lia]|].
  destruct (zget _ _) as [g|]; [|split; [done|by intros (_ & ? & _)]].
  destruct (fd_is_used g) eqn:E; split; try done.
  - by intros [= <-].
  - by intros (_ & [= ->] & _).
  - intros (_ & [= ->] & ?). congruence.
Qed.

Lemma file_data_bytes p s j : file_data p s j = file_bytes p s j 0 (fsize s j).
Proof. done. Qed.

Lemma length_file_data p s j : length (file_data p s j) = Z.to_nat (fsize s j).
Proof. apply length_file_bytes. Qed.

Lemma file_data_slice p s j pos n : 0 ≤ pos → 0 ≤ n → pos + n ≤ fsize s j →
  take (Z.to_nat n) (drop (Z.to_nat pos) (file_data p s j)) = file_bytes p s j pos n.
Proof.
  intros. rewrite file_data_bytes.
  assert (fsize s j = pos + (n + (fsize s j - pos - n))) as -> by lia.
  rewrite file_bytes_app, drop_app_ge by (rewrite ?length_file_bytes; lia).
  rewrite length_file_bytes, Nat.sub_diag, drop_0, Z.add_0_l, file_bytes_app by lia.
  by rewrite take_app_length' by (by rewrite length_file_bytes).
Qed.

Lemma file_data_ext p s s' j :
  fsize s' j = fsize s j → (∀ i, 0 ≤ i < fsize s j → byte_at p s' j i = byte_at p s j i) →
  file_data p s' j = file_data p s j.
Proof.
  intros Hsz Hb. rewrite !file_data_bytes, Hsz. apply file_bytes_ext. intros. apply Hb. lia.
Qed.

Lemma size_allocated p s j pos : wf p s → 0 ≤ pos < fsize s j → entry s j (pos / BLOCK_SIZE) ≠ 0.
Proof. intros Hwf Hpos. apply (ex_size_alloc s (wf_extents p s Hwf)); blia. Qed.

(** ** The contents after a write *)

Lemma written_data p fildes f data s s' :
  wf p s → written p fildes f data s s' → 0 ≤ fd_offset f ≤ fsize s (fd_inode_number f) →
  file_data p s' (fd_inode_number f) =
    overwrite (file_data p s (fd_inode_number f)) (Z.to_nat (fd_offset f)) data.
Proof.
  intros Hwf Hw Ho. set (j := fd_inode_number f) in *. set (o := fd_offset f) in *.
  set (n := Z.of_nat (length data)).
  assert (fsize s' j = Z.max (fsize s j) (o + n)) as Hsz.
  { rewrite (wr_size _ _ _ _ _ _ Hw). case_decide as C; [done|]. destruct data as [|x data]; [simpl in n; lia|].
    exfalso. by apply C. }
  unfold overwrite. rewrite (file_data_bytes p s'), Hsz.
  assert (Z.max (fsize s j) (o + n) = o + (n + (Z.max (fsize s j) (o + n) - o - n))) as -> by lia.
  rewrite !file_bytes_app, Z.add_0_l by lia. f_equal; [|f_equal].
  - rewrite <- (drop_0 (file_data p s j)), <- Z2Nat.inj_0, file_data_slice by lia.
    apply file_bytes_ext. intros i Hi. apply (wr_old _ _ _ _ _ _ Hw); [lia|lia|].
    eapply size_allocated; [done|lia].
  - apply list_eq. intros i. destruct (decide (i < length data)%nat).
    + rewrite file_bytes_lookup by lia. fold o. rewrite (wr_new _ _ _ _ _ _ Hw) by (fold o; lia).
      destruct (lookup_lt_is_Some_2 data i) as [x Hx]; [done|]. rewrite Hx. f_equal.
      rewrite nth_lookup. replace (Z.to_nat _) with i by (fold o; lia). by rewrite Hx.
    + rewrite !lookup_ge_None_2; rewrite ?length_file_bytes; try done; lia.
  - destruct (Z.le_gt_cases (fsize s j) (o + n)) as [Hle|Hgt].
    + rewrite drop_ge by (rewrite length_file_data; lia).
      rewrite (proj2 (Z.sub_move_0_r _ _)) by lia. done.
    + rewrite Z.max_l by lia.
      rewrite <- (firstn_all (drop _ (file_data p s j))), length_drop, length_file_data.
      replace (Z.to_nat (fsize s j) - _)%nat with (Z.to_nat (fsize s j - o - n)) by lia.
      replace (Z.to_nat o + length data)%nat with (Z.to_nat (o + n)) by lia.
      rewrite file_data_slice by lia. apply file_bytes_ext. intros i Hi.
      apply (wr_old _ _ _ _ _ _ Hw); [lia|fold o n; lia|].
      eapply size_allocated; [done|lia].
Qed.

Lemma written_data_other p fildes f data s s' j :
  wf p s → written p fildes f data s s' → j ≠ fd_inode_number f →
  file_data p s' j = file_data p s j.
Proof.
  intros Hwf Hw Hj. apply file_data_ext.
  - rewrite (wr_size _ _ _ _ _ _ Hw), decide_False; [done|]. by intros [? _].
  - intros i Hi. apply (wr_old _ _ _ _ _ _ Hw); [lia|tauto|].
    eapply size_allocated; [done|lia].
Qed.

Lemma fs_write_spec p s fildes f buf nbyte :
  wf p s → open_on s fildes f →
  0 ≤ nbyte ≤ Z.of_nat (length buf) → fd_offset f + nbyte ≤ MAX_FILESIZE →
  fd_offset f ≤ fsize s (fd_inode_number f) →
  ∃ r n s', fs_write fildes buf nbyte s = Ret (r, s') ∧
    (r = nbyte ∧ n = nbyte ∨ r = -1 ∧ 0 ≤ n < nbyte ∧ full s') ∧
    wf p s' ∧ directory s' = directory s ∧
    file_data p s' (fd_inode_number f) =
      overwrite (file_data p s (fd_inode_number f)) (Z.to_nat (fd_offset f))
                (take (Z.to_nat n) buf) ∧
    (∀ j, j ≠ fd_inode_number f → file_data p s' j = file_data p s j) ∧
    open_file_descriptors s' =
      <[Z.to_nat fildes := set_offset f (fd_offset f + n)]> (open_file_descriptors s) ∧
    ∀ j, ftype s' j = ftype s j.
Proof.
  intros Hwf [Hd Hbad] Hn Hmax Hoff. pose proof Hd as (Hr & Hf & Hu)%descriptor_Some.
  destruct (ex_fd s (wf_extents p s Hwf) _ _ Hf Hu) as (Hj & _ & Ho & _).
  destruct (write_loop_spec p loop_fuel fildes f (Z.quot (fd_offset f) BLOCK_SIZE)
    (Z.rem (fd_offset f) BLOCK_SIZE) 0 nbyte (replicate (Z.to_nat BLOCK_SIZE) 0) buf s)
    as (r & n & s' & E & Hn' & Hw & Hres); try done; try lia.
  - intros _. rewrite Z.quot_div_nonneg, Z.rem_mod_nonneg by blia. blia.
  - unfold loop_fuel. lia.
  - intros _. unfold loop_fuel. rewrite Z.quot_div_nonneg by blia. blia.
  - exists r, n, s'. rewrite drop_0 in Hw.
    assert (length (take (Z.to_nat n) buf) = Z.to_nat n) as Hl by (rewrite length_take; lia).
    split_and!.
    + unfold fs_write. by rewrite Hd, Hbad.
    + destruct Hres as [[-> ->]|(-> & ? & ?)]; [left|right]; split_and!; done || lia.
    + apply Hw.
    + apply Hw.
    + apply (written_data p fildes); [done|done|lia].
    + intros j. by apply (written_data_other p fildes f _ s s' j Hwf Hw).
    + rewrite (wr_fds _ _ _ _ _ _ Hw), Hl. do 3 f_equal. lia.
    + apply Hw.
Qed.

(** C1: on a well-formed state a write through an open descriptor whose offset
    is not past the end of the file, and that ends within the limit of 1 MiB,
    returns (no fuel is missing, no access is out of bounds): it writes all of the data,
    or a prefix of it and returns -1 when no block is free; what it wrote
    replaces the bytes of the file at the offset, the offset advances, no
    other file's contents change and the state stays well-formed. *)
Theorem fs_write_correct p s fildes f buf nbyte :
  wf p s → open_on s fildes f →
  0 ≤ nbyte ≤ Z.of_nat (length buf) → fd_offset f + nbyte ≤ MAX_FILESIZE →
  fd_offset f ≤ fsize s (fd_inode_number f) →
  ∃ r n s', fs_write fildes buf nbyte s = Ret (r, s') ∧
    (r = nbyte ∧ n = nbyte ∨ r = -1 ∧ 0 ≤ n < nbyte ∧ full s') ∧
    wf p s' ∧ directory s' = directory s ∧
    file_data p s' (fd_inode_number f) =
      overwrite (file_data p s (fd_inode_number f)) (Z.to_nat (fd_offset f))
                (take (Z.to_nat n) buf) ∧
    (∀ j, j ≠ fd_inode_number f → file_data p s' j = file_data p s j) ∧
    open_file_descriptors s' =
      <[Z.to_nat fildes := set_offset f (fd_offset f + n)]> (open_file_descriptors s).
Proof.
  intros. destruct (fs_write_spec p s fildes f buf nbyte) as (r & n & s' & ? & ? & ? & ? & ? & ? & ? & _);
    [done..|]. by exists r, n, s'.
Qed.

(** ** Reading *)

Lemma only_device_data p s s' j : only_device p s s' → file_data p s' j = file_data p s j.
Proof.
  intros Hod. apply file_data_ext.
  - by destruct Hod as [_ [d ->] _].
  - intros i _. by apply only_device_byte.
Qed.

(** Moving the offset of an open descriptor to a place below which every
    block is there. *)
Lemma wf_set_offset p s fildes f o :
  wf p s → zget (open_file_descriptors s) fildes = Some f → fd_is_used f = true →
  0 ≤ o ≤ MAX_FILESIZE → allocated s (fd_inode_number f) o →
  wf p (set_fds s (<[Z.to_nat fildes := set_offset f o]> (open_file_descriptors s))).
Proof.
  intros Hwf Hf Hu Ho Hal. pose proof (zget_range _ _ _ Hf) as Hr.
  pose proof (ex_fd s (wf_extents p s Hwf) _ _ Hf Hu) as (Hj & Hft & _).
  destruct Hwf as [Hm [] [] [X1 X2 X3] Hdir []]. split; try done.
  - split; simpl; try done. by rewrite length_insert.
  - split; try done. intros i g. simpl. rewrite zget_insert by done. case_decide.
    + intros [= <-] _. done.
    + apply X3.
Qed.

(** What [fs_read] computes as the number of bytes to read, in bounds. *)
Lemma read_amount sz o nbyte :
  0 ≤ o ≤ sz → sz ≤ MAX_FILESIZE → 0 ≤ nbyte < 2 ^ 64 →
  s32 (if nbyte <? u64 (s32 (u64 (sz - o))) then nbyte else u64 (s32 (u64 (sz - o)))) =
    Z.min nbyte (sz - o).
Proof.
  intros Ho Hsz Hn. rewrite (wrap_id 64 (sz - o)) by blia. rewrite (s32_id (sz - o)) by blia.
  rewrite (wrap_id 64 (sz - o)) by blia.
  destruct (Z.ltb_spec nbyte (sz - o)); rewrite s32_id by blia; lia.
Qed.

Lemma fs_read_spec p s fildes f buf nbyte :
  wf p s → open_on s fildes f → 0 ≤ nbyte < 2 ^ 64 →
  fd_offset f ≤ fsize s (fd_inode_number f) →
  let n := Z.min nbyte (fsize s (fd_inode_number f) - fd_offset f) in
  n ≤ Z.of_nat (length buf) →
  ∃ s', fs_read fildes buf nbyte s =
      Ret (n, s', take (Z.to_nat n) (drop (Z.to_nat (fd_offset f)) (file_data p s (fd_inode_number f)))
                  ++ drop (Z.to_nat n) buf) ∧
    wf p s' ∧ directory s' = directory s ∧
    (∀ j, file_data p s' j = file_data p s j) ∧
    open_file_descriptors s' =
      <[Z.to_nat fildes := set_offset f (fd_offset f + n)]> (open_file_descriptors s) ∧
    ∀ j, ftype s' j = ftype s j.
Proof.
  intros Hwf [Hd Hbad] Hn Hoff n Hbuf. pose proof Hd as (Hr & Hf & Hu)%descriptor_Some.
  set (j := fd_inode_number f) in *.
  destruct (ex_fd s (wf_extents p s Hwf) _ _ Hf Hu) as (Hj & _ & Ho & Hal).
  pose proof (ex_size s (wf_extents p s Hwf) j) as Hsz.
  destruct (inode_at s j (wf_shapes p s Hwf) Hj) as (ino & E & Hread & _ & Hfs).
  unfold fs_read. rewrite Hd. fold j. rewrite Hbad, Hread. rstep. rewrite Hfs.
  rewrite read_amount by lia. fold n. destruct (Z.leb_spec n 0) as [Hle|Hgt].
  { exists s. assert (n = 0) as -> by lia. split_and!; try done. rewrite Z.add_0_r.
    apply zget_Some in Hf as [_ Hf]. destruct f; unfold set_offset; simpl.
    by rewrite list_insert_id. }
  assert (allocated s j (fd_offset f + n)) as Haln.
  { intros k Hk Hlt. apply (ex_size_alloc s (wf_extents p s Hwf)); [done|lia]. }
  destruct (read_loop_spec p j loop_fuel (Z.quot (fd_offset f) BLOCK_SIZE)
    (Z.rem (fd_offset f) BLOCK_SIZE) 0 n (replicate (Z.to_nat BLOCK_SIZE) 0) buf (fd_offset f) s)
    as (s1 & -> & Hod); try done; try lia.
  { intros _. rewrite Z.quot_div_nonneg, Z.rem_mod_nonneg by blia. blia. }
  { unfold loop_fuel. lia. }
  { intros _. unfold loop_fuel. rewrite Z.quot_div_nonneg by blia. blia. }
  rstep. rewrite Z.add_0_l, (proj2 (Z.eqb_neq n (-1))) by lia.
  assert (open_file_descriptors s1 = open_file_descriptors s) as Hfds
    by (by destruct Hod as [_ [d ->] _]).
  rewrite Hfds, (proj2 (aread_Ret _ _ _) Hf). rstep.
  rewrite awrite_lt by (by eapply zget_range). rstep. rewrite s32_id by blia.
  eexists. split_and!.
  - do 2 f_equal. simpl. by rewrite file_data_slice by lia.
  - rewrite <- Hfds. apply wf_set_offset; [apply Hod|by rewrite Hfds|done|lia|].
    fold j. intros k Hk Hlt. destruct Hod as [_ [d ->] _]. by apply Haln.
  - by destruct Hod as [_ [d ->] _].
  - intros i. by apply (only_device_data p s s1 i).
  - done.
  - by destruct Hod as [_ [d ->] _].
Qed.

(** C3: on a well-formed state a read through an open descriptor whose offset
    is not past the end of the file returns the number of bytes asked for or
    left in the file, whichever is less, puts exactly the file's bytes from
    the offset on at the start of the buffer and leaves the rest of it alone,
    advances the offset, and changes no file. *)
Theorem fs_read_correct p s fildes f buf nbyte :
  wf p s → open_on s fildes f → 0 ≤ nbyte < 2 ^ 64 →
  fd_offset f ≤ fsize s (fd_inode_number f) →
  let n := Z.min nbyte (fsize s (fd_inode_number f) - fd_offset f) in
  n ≤ Z.of_nat (length buf) →
  ∃ s', fs_read fildes buf nbyte s =
      Ret (n, s', take (Z.to_nat n) (drop (Z.to_nat (fd_offset f)) (file_data p s (fd_inode_number f)))
                  ++ drop (Z.to_nat n) buf) ∧
    wf p s' ∧ directory s' = directory s ∧
    (∀ j, file_data p s' j = file_data p s j) ∧
    open_file_descriptors s' =
      <[Z.to_nat fildes := set_offset f (fd_offset f + n)]> (open_file_descriptors s).
Proof.
  intros. destruct (fs_read_spec p s fildes f buf nbyte) as (s' & ? & ? & ? & ? & ? & _); [done..|].
  by exists s'.
Qed.

(** ** Positions and sizes *)

Lemma fs_lseek_spec p s fildes f offset :
  wf p s → open_on s fildes f → - 2 ^ 63 ≤ offset < 2 ^ 63 →
  (0 ≤ offset ≤ fsize s (fd_inode_number f) →
     let s' := set_fds s (<[Z.to_nat fildes := set_offset f offset]> (open_file_descriptors s)) in
     fs_lseek fildes offset s = Ret (0, s') ∧ wf p s') ∧
  (¬ (0 ≤ offset ≤ fsize s (fd_inode_number f)) → fs_lseek fildes offset s = Ret (-1, s)).
Proof.
  intros Hwf [Hd Hbad] Hoff. pose proof Hd as (Hr & Hf & Hu)%descriptor_Some.
  destruct (ex_fd s (wf_extents p s Hwf) _ _ Hf Hu) as (Hj & _ & _ & _).
  pose proof (ex_size s (wf_extents p s Hwf) (fd_inode_number f)) as Hsz.
  destruct (inode_at s _ (wf_shapes p s Hwf) Hj) as (ino & E & Hread & _ & Hfs).
  unfold fs_lseek. rewrite Hd, Hbad, Hread. rstep. rewrite Hfs. split.
  - intros Hok. rewrite (proj2 (Z.ltb_ge _ _)) by lia. rewrite wrap_id by lia.
    rewrite (proj2 (Z.ltb_ge _ _)) by lia. rewrite awrite_lt by (by eapply zget_range). rstep.
    rewrite s32_id by blia. split; [done|]. apply wf_set_offset; try done; [lia|].
    intros k Hk Hlt. apply (ex_size_alloc s (wf_extents p s Hwf)); [done|lia].
  - intros Hbadoff. destruct (Z.ltb_spec offset 0); [done|]. rewrite wrap_id by lia.
    by rewrite (proj2 (Z.ltb_lt _ _)) by lia.
Qed.

(** C27: on a well-formed state [fs_lseek] moves the offset to any position
    from 0 to the size of the file and rejects every other position, leaving
    the state as it is. *)
Theorem fs_lseek_correct p s fildes f offset :
  wf p s → open_on s fildes f → - 2 ^ 63 ≤ offset < 2 ^ 63 →
  (0 ≤ offset ≤ fsize s (fd_inode_number f) →
     let s' := set_fds s (<[Z.to_nat fildes := set_offset f offset]> (open_file_descriptors s)) in
     fs_lseek fildes offset s = Ret (0, s') ∧ wf p s') ∧
  (¬ (0 ≤ offset ≤ fsize s (fd_inode_number f)) → fs_lseek fildes offset s = Ret (-1, s)).
Proof. apply fs_lseek_spec. Qed.

(** A new size of a file, below the old one. *)
Lemma wf_shrink p s j ino n :
  wf p s → zget (inode_table s) j = Some ino → 0 ≤ n ≤ fsize s j →
  let s' := set_inodes s (<[Z.to_nat j := set_size ino n]> (inode_table s)) in
  wf p s' ∧ (∀ i, fsize s' i = if decide (i = j) then n else fsize s i) ∧
  (∀ i pos, byte_at p s' i pos = byte_at p s i pos) ∧ (∀ i, ftype s' i = ftype s i).
Proof.
  intros Hwf E Hn s'. pose proof (zget_range _ _ _ E) as Hr.
  assert (∀ i, fsize s' i = if decide (i = j) then n else fsize s i) as Hsz.
  { intros i. unfold fsize at 1, s'; simpl. rewrite zget_insert by done. by case_decide. }
  assert (∀ i k, entry s' i k = entry s i k) as Hent.
  { intros i k. unfold entry, s'; simpl. rewrite zget_insert by done. case_decide; [|done].
    subst i. by rewrite E. }
  assert (∀ i, ftype s' i = ftype s i) as Hft.
  { intros i. unfold ftype, s'; simpl. rewrite zget_insert by done. case_decide; [|done].
    subst i. by rewrite E. }
  split_and!; [|exact Hsz|intros; by apply byte_at_ext|exact Hft].
  destruct Hwf as [Hm Hs [A1 A2 A3 A4] [X1 X2 X3] Hdir []]. split; try done.
  - split; simpl; try apply Hs.
    + rewrite length_insert. apply Hs.
    + intros i ino'. rewrite zget_insert by done. case_decide; [|apply Hs].
      intros [= <-]. simpl. by apply (sh_direct s Hs j).
  - split; [done|..].
    + intros i k. rewrite Hent. apply A2.
    + intros i k. rewrite Hent. apply A3.
    + intros i k i' k'. rewrite !Hent. apply A4.
  - assert (∀ i pos, allocated s i pos → allocated s' i pos) as Hal.
    { intros i pos Ha k Hk Hlt. rewrite Hent. by apply Ha. }
    split.
    + intros i. rewrite Hsz. case_decide; [|apply X1]. specialize (X1 j). lia.
    + intros i. rewrite Hsz. apply Hal. case_decide; [|apply X2]. subst i.
      intros k Hk Hlt. apply X2; [done|lia].
    + intros i g Hg Hu. rewrite Hft. destruct (X3 i g Hg Hu) as (? & ? & ? & ?). auto.
  - intros i e Hi He. rewrite Hft. by apply (Hdir i).
Qed.

Lemma fs_truncate_spec p s fildes f length :
  wf p s → open_on s fildes f → - 2 ^ 63 ≤ length < 2 ^ 63 →
  (0 ≤ length ≤ fsize s (fd_inode_number f) →
     ∃ s', fs_truncate fildes length s = Ret (0, s') ∧ wf p s' ∧
       file_data p s' (fd_inode_number f) =
         take (Z.to_nat length) (file_data p s (fd_inode_number f)) ∧
       (∀ j, j ≠ fd_inode_number f → file_data p s' j = file_data p s j) ∧
       open_file_descriptors s' =
         <[Z.to_nat fildes := set_offset f length]> (open_file_descriptors s) ∧
       directory s' = directory s ∧ ∀ j, ftype s' j = ftype s j) ∧
  (¬ (0 ≤ length ≤ fsize s (fd_inode_number f)) → fs_truncate fildes length s = Ret (-1, s)).
Proof.
  intros Hwf [Hd Hbad] Hlen. pose proof Hd as (Hr & Hf & Hu)%descriptor_Some.
  set (j := fd_inode_number f) in *.
  destruct (ex_fd s (wf_extents p s Hwf) _ _ Hf Hu) as (Hj & _ & _ & _). fold j in Hj.
  pose proof (ex_size s (wf_extents p s Hwf) j) as Hsz.
  destruct (inode_at s j (wf_shapes p s Hwf) Hj) as (ino & E & Hread & _ & Hfs).
  unfold fs_truncate. rewrite Hd. fold j. rewrite Hbad, Hread. rstep. rewrite Hfs. split.
  - intros Hok. rewrite wrap_id by lia. rewrite (proj2 (Z.ltb_ge _ _)) by lia.
    rewrite awrite_lt by (by eapply zget_range). rstep.
    rewrite awrite_lt by (by eapply zget_range). rstep. rewrite s32_id by blia.
    destruct (wf_shrink p s j ino length Hwf E Hok) as (W & Hsize & Hb & Hft).
    set (s1 := set_inodes s _) in *. eexists. split; [reflexivity|]. split_and!.
    + apply (wf_set_offset p s1); try done; [lia|]. intros k Hk Hlt.
      apply (ex_size_alloc s1 (wf_extents p s1 W)); [done|]. fold j. rewrite Hsize, decide_True; [lia|done].
    + change (file_data p (set_fds s1 _) j) with (file_bytes p s1 j 0 (fsize s1 j)).
      rewrite Hsize, decide_True by done.
      rewrite <- (drop_0 (file_data p s j)), <- Z2Nat.inj_0, file_data_slice by lia.
      by apply file_bytes_ext.
    + intros i Hi. change (file_data p (set_fds s1 _) i) with (file_data p s1 i).
      apply file_data_ext; [by rewrite Hsize, decide_False|done].
    + done.
    + done.
    + exact Hft.
  - intros Hbadlen. assert (fsize s j < u64 length) as Hlt.
    { destruct (Z.lt_ge_cases length 0); [|rewrite wrap_id; lia].
      unfold wrap. rewrite <- (Z.mod_unique length (2 ^ 64) (-1) (length + 2 ^ 64)); blia. }
    by rewrite (proj2 (Z.ltb_lt _ _)).
Qed.

(** C18: on a well-formed state [fs_truncate] to a length from 0 to the size of
    the file cuts the file's contents there and moves the offset to the new
    end, changes no other file and keeps the state well-formed; any other
    length is rejected and changes nothing. *)
Theorem fs_truncate_correct p s fildes f length :
  wf p s → open_on s fildes f → - 2 ^ 63 ≤ length < 2 ^ 63 →
  (0 ≤ length ≤ fsize s (fd_inode_number f) →
     ∃ s', fs_truncate fildes length s = Ret (0, s') ∧ wf p s' ∧
       file_data p s' (fd_inode_number f) =
         take (Z.to_nat length) (file_data p s (fd_inode_number f)) ∧
       (∀ j, j ≠ fd_inode_number f → file_data p s' j = file_data p s j) ∧
       open_file_descriptors s' =
         <[Z.to_nat fildes := set_offset f length]> (open_file_descriptors s)) ∧
  (¬ (0 ≤ length ≤ fsize s (fd_inode_number f)) → fs_truncate fildes length s = Ret (-1, s)).
Proof.
  intros Hwf Ho Hl. destruct (fs_truncate_spec p s fildes f length Hwf Ho Hl) as [Hok Hbad].
  split; [|done]. intros Hr. destruct (Hok Hr) as (s' & ? & ? & ? & ? & ? & _). by exists s'.
Qed.

(** C2: writing [data], seeking back to where it was written and reading as
    many bytes gives [data] back, whenever the write reported success. *)
Theorem write_seek_read p s fildes f data s1 buf :
  wf p s → open_on s fildes f →
  fd_offset f + Z.of_nat (length data) ≤ MAX_FILESIZE →
  fd_offset f ≤ fsize s (fd_inode_number f) →
  fs_write fildes data (Z.of_nat (length data)) s = Ret (Z.of_nat (length data), s1) →
  length buf = length data →
  ∃ s2 s3, fs_lseek fildes (fd_offset f) s1 = Ret (0, s2) ∧
    fs_read fildes buf (Z.of_nat (length data)) s2 = Ret (Z.of_nat (length data), s3, data).
Proof.
  intros Hwf Hoo Hmax Hoff Hw Hbuf. pose proof Hoo as [Hd Hbad].
  pose proof Hd as (Hr & Hf & Hu)%descriptor_Some.
  destruct (ex_fd s (wf_extents p s Hwf) _ _ Hf Hu) as (Hj & _ & Ho & _).
  destruct (fs_write_spec p s fildes f data (Z.of_nat (length data)) Hwf Hoo)
    as (r & n & s1' & E & Hres & W1 & Hdir & Hdata & _ & Hfds & _); try lia.
  rewrite E in Hw. injection Hw as -> ->.
  assert (n = Z.of_nat (length data)) as -> by lia.
  rewrite Nat2Z.id, take_ge in Hdata by lia.
  set (j := fd_inode_number f) in *. set (o := fd_offset f) in *.
  pose proof (zget_range _ _ _ Hf) as Hrange.
  assert (∀ s', directory s' = directory s → bad_file j s' = false) as Hbad'.
  { intros s' Hs'. unfold bad_file in *. by rewrite Hs'. }
  set (f1 := set_offset f (o + Z.of_nat (length data))) in *.
  assert (open_on s1 fildes f1) as Hoo1.
  { split; [|by apply Hbad']. apply descriptor_Some. split_and!; [lia..| |done].
    by rewrite Hfds, zget_insert, decide_True. }
  assert (Z.max (fsize s j) (o + Z.of_nat (length data)) ≤ fsize s1 j) as Hsz1.
  { apply (f_equal Datatypes.length) in Hdata. unfold overwrite in Hdata.
    rewrite !length_app, length_take, length_drop, !length_file_data in Hdata.
    pose proof (ex_size s (wf_extents p s Hwf) j). pose proof (ex_size s1 (wf_extents p s1 W1) j). lia. }
  destruct (fs_lseek_spec p s1 fildes f1 o W1 Hoo1) as [[E2 W2] _]; [blia|change (fd_inode_number f1) with j; lia|].
  set (s2 := set_fds s1 _) in *.
  assert (open_on s2 fildes f) as Hoo2.
  { split; [|by apply Hbad']. apply descriptor_Some. split_and!; [lia..| |done].
    unfold s2; simpl. rewrite Hfds, list_insert_insert_eq, zget_insert, decide_True by done.
    unfold f1, o. by destruct f. }
  destruct (fs_read_spec p s2 fildes f buf (Z.of_nat (length data)) W2 Hoo2)
    as (s3 & E3 & _); try (change (fsize s2) with (fsize s1); fold j o; lia).
  { blia. }
  change (fsize s2) with (fsize s1) in E3. fold j o in E3.
  rewrite Z.min_l in E3 by lia. change (file_data p s2 j) with (file_data p s1 j) in E3.
  exists s2, s3. split; [exact E2|]. rewrite E3. do 2 f_equal.
  rewrite Nat2Z.id, <- Hbuf, drop_all, app_nil_r, Hdata, Hbuf. unfold overwrite.
  rewrite drop_app_ge by (rewrite length_take; lia).
  rewrite length_take, length_file_data, Nat.min_l, Nat.sub_diag, drop_0 by lia.
  by rewrite take_app_length.
Qed.

(** On a well-formed state [fs_get_filesize] gives the size of the file
    behind an open descriptor when some name of the directory still denotes
    it, and -1 when none does; it changes nothing. *)
Theorem fs_get_filesize_correct p s fildes f :
  wf p s → descriptor fildes s = Some f →
  ((∃ i e, zget (directory s) i = Some e ∧ de_is_used e = true ∧
      de_inode_number e = fd_inode_number f) →
     fs_get_filesize fildes s = Ret (fsize s (fd_inode_number f), s)) ∧
  (¬ (∃ i e, zget (directory s) i = Some e ∧ de_is_used e = true ∧
        de_inode_number e = fd_inode_number f) →
     fs_get_filesize fildes s = Ret (-1, s)).
Proof.
  intros Hwf Hd. pose proof Hd as (Hr & Hf & Hu)%descriptor_Some.
  destruct (ex_fd s (wf_extents p s Hwf) _ _ Hf Hu) as (Hj & _ & _ & _).
  pose proof (ex_size s (wf_extents p s Hwf) (fd_inode_number f)) as Hsz.
  destruct (inode_at s _ (wf_shapes p s Hwf) Hj) as (ino & E & Hread & _ & Hfs).
  unfold fs_get_filesize. rewrite Hd. destruct (first_index _ _) as [i|] eqn:Hi.
  - apply first_index_Some in Hi as [(e & He & [Hue Hie%Z.eqb_eq]%andb_true_iff) _].
    rewrite (aread_nat _ _ _ He). rstep. rewrite Hie, Hread. rstep. rewrite Hfs, s32_id by blia.
    split; [done|]. intros []. exists (Z.of_nat i), e. by rewrite zget_nat.
  - rewrite first_index_None in Hi. split; [|done]. intros (k & e & He & Hue & Hie).
    apply zget_Some in He as [_ He]. specialize (Hi _ _ He).
    rewrite Hue, Hie, Z.eqb_refl in Hi. done.
Qed.

(** A descriptor that is out of range or closed, or whose file is gone. *)
Lemma not_open_rejected s fildes buf n :
  (∀ f, ¬ open_on s fildes f) →
  fs_read fildes buf n s = Ret (-1, s, buf) ∧ fs_write fildes buf n s = Ret (-1, s) ∧
  fs_lseek fildes n s = Ret (-1, s) ∧ fs_truncate fildes n s = Ret (-1, s).
Proof.
  intros Hno. unfold fs_read, fs_write, fs_lseek, fs_truncate.
  destruct (descriptor fildes s) as [f|] eqn:Hd; [|done].
  destruct (bad_file (fd_inode_number f) s) eqn:Hb; [|by destruct (Hno f)].
  split_and!; try done. by destruct (n <? 0).
Qed.

Lemma read_amount_past sz o nbyte :
  0 ≤ sz < o → o ≤ MAX_FILESIZE → 0 ≤ nbyte ≤ MAX_FILESIZE →
  s32 (if nbyte <? u64 (s32 (u64 (sz - o))) then nbyte else u64 (s32 (u64 (sz - o)))) = nbyte.
Proof.
  intros Hsz Ho Hn.
  assert (u64 (sz - o) = sz - o + 2 ^ 64) as E.
  { unfold wrap. symmetry. apply (Z.mod_unique _ _ (-1)); blia. }
  assert (s32 (u64 (sz - o)) = sz - o) as ->.
  { rewrite E. unfold to_signed.
    rewrite <- (Z.mod_unique (sz - o + 2 ^ 64) (2 ^ 32) (2 ^ 32 - 1) (sz - o + 2 ^ 32)) by blia.
    rewrite (proj2 (Z.ltb_ge _ _)) by blia. lia. }
  rewrite E, (proj2 (Z.ltb_lt _ _)) by blia. apply s32_id. blia.
Qed.

(** A read whose offset is past the end of the file (the file was
    truncated through another descriptor) does not return 0: the negative
    number of remaining bytes is compared as an unsigned number, so the read
    returns everything that was asked for, out of the blocks the file had
    before. *)
Theorem fs_read_past_end p s fildes f buf nbyte :
  wf p s → open_on s fildes f → fsize s (fd_inode_number f) < fd_offset f →
  0 < nbyte ≤ Z.of_nat (length buf) → fd_offset f + nbyte ≤ MAX_FILESIZE →
  allocated s (fd_inode_number f) (fd_offset f + nbyte) →
  ∃ s', fs_read fildes buf nbyte s =
    Ret (nbyte, s', file_bytes p s (fd_inode_number f) (fd_offset f) nbyte ++
                    drop (Z.to_nat nbyte) buf).
Proof.
  intros Hwf [Hd Hbad] Hpast Hn Hmax Hal. pose proof Hd as (Hr & Hf & Hu)%descriptor_Some.
  set (j := fd_inode_number f) in *.
  destruct (ex_fd s (wf_extents p s Hwf) _ _ Hf Hu) as (Hj & _ & Ho & _).
  pose proof (ex_size s (wf_extents p s Hwf) j) as Hsz.
  destruct (inode_at s j (wf_shapes p s Hwf) Hj) as (ino & E & Hread & _ & Hfs).
  unfold fs_read. rewrite Hd. fold j. rewrite Hbad, Hread. rstep. rewrite Hfs.
  rewrite read_amount_past by lia. rewrite (proj2 (Z.leb_gt _ _)) by lia.
  destruct (read_loop_spec p j loop_fuel (Z.quot (fd_offset f) BLOCK_SIZE)
    (Z.rem (fd_offset f) BLOCK_SIZE) 0 nbyte (replicate (Z.to_nat BLOCK_SIZE) 0) buf (fd_offset f) s)
    as (s1 & -> & Hod); try done; try lia.
  { intros _. rewrite Z.quot_div_nonneg, Z.rem_mod_nonneg by blia. blia. }
  { unfold loop_fuel. lia. }
  { intros _. unfold loop_fuel. rewrite Z.quot_div_nonneg by blia. blia. }
  rstep. rewrite Z.add_0_l, (proj2 (Z.eqb_neq nbyte (-1))) by lia.
  assert (open_file_descriptors s1 = open_file_descriptors s) as ->
    by (by destruct Hod as [_ [d ->] _]).
  rewrite (proj2 (aread_Ret _ _ _) Hf). rstep.
  rewrite awrite_lt by (by eapply zget_range). rstep. by eexists.
Qed.
End io.
