(* ===== verification/FsDir.v ===== *)
(** * The directory

    Names as the C library compares and copies them, the directory as a map
    from names to inodes, and what [fs_create], [fs_open], [fs_close],
    [fs_delete] and [fs_listfiles] do to it. *)

From S2P Require Export FsIO.

(** ** Names *)

(** The name a C string stands for: what is before its terminator, cut at
    [MAX_FILE_NAME]. *)
Definition cname (b : bytes) : bytes := string_of_bytes (take (Z.to_nat MAX_FILE_NAME) b).

Lemma strncmp_eq_spec n : ∀ a b,
  strncmp_eq a b n = true ↔ string_of_bytes (take n a) = string_of_bytes (take n b).
Proof.
  induction n as [|n IH]; intros a b; [by rewrite !take_0|].
  cbn [strncmp_eq]. rewrite andb_true_iff, orb_true_iff, IH, !Z.eqb_eq.
  destruct a as [|x a], b as [|y b]; simpl; rewrite ?take_nil; simpl.
  - tauto.
  - destruct (Z.eqb_spec y 0); split; try done; intuition lia.
  - destruct (Z.eqb_spec x 0); split; try done; intuition lia.
  - destruct (Z.eqb_spec x 0), (Z.eqb_spec y 0); split; try done; try (intuition (congruence || lia)).
Qed.

Lemma string_of_zeros n : string_of_bytes (replicate n 0) = [].
Proof. by destruct n. Qed.

Lemma string_of_strncpy n : ∀ b, string_of_bytes (strncpy b n) = string_of_bytes (take n b).
Proof.
  induction n as [|n IH]; intros [|x b]; try done.
  cbn [strncpy take string_of_bytes]. destruct (Z.eqb_spec x 0) as [->|Hx]; [done|].
  cbn [string_of_bytes]. rewrite (proj2 (Z.eqb_neq x 0)) by done. by rewrite IH.
Qed.

Lemma length_strncpy n : ∀ b, length (strncpy b n) = n.
Proof.
  induction n as [|n IH]; intros [|x b]; cbn [strncpy]; try done.
  - apply length_replicate.
  - destruct (x =? 0); [apply length_replicate|]. simpl. by rewrite IH.
Qed.

Lemma cname_strncpy b : cname (strncpy b (Z.to_nat MAX_FILE_NAME)) = cname b.
Proof.
  unfold cname. rewrite take_ge by (by rewrite length_strncpy). apply string_of_strncpy.
Qed.

Lemma strlen_string_of b : strlen b = Z.of_nat (length (string_of_bytes b)).
Proof.
  induction b as [|x b IH]; [done|]. simpl. destruct (x =? 0); [done|]. simpl. lia.
Qed.

(** ** The directory as a map *)

Definition used_entry (e : dir_entry) : option (bytes * Z) :=
  if de_is_used e then Some (cname (de_name e), de_inode_number e) else None.

Definition dir_list_map (dir : list dir_entry) : gmap bytes Z :=
  list_to_map (omap used_entry dir).

Lemma entry_named_spec name e :
  entry_named name e = true ↔ de_is_used e = true ∧ cname (de_name e) = cname name.
Proof. unfold entry_named. by rewrite andb_true_iff, strncmp_eq_spec. Qed.

(** The search of the code is the lookup of the map. *)
Lemma dir_map_first dir name :
  match first_index (entry_named name) dir with
  | Some i => ∃ e, dir !! i = Some e ∧ de_is_used e = true ∧
      dir_list_map dir !! cname name = Some (de_inode_number e)
  | None => dir_list_map dir !! cname name = None
  end.
Proof.
  unfold dir_list_map. induction dir as [|e dir IH]; [done|].
  destruct (entry_named name e) eqn:E.
  - assert (first_index (entry_named name) (e :: dir) = Some 0%nat) as ->.
    { apply first_index_Some. split; [by exists e|]. lia. }
    apply entry_named_spec in E as [Hu Hn]. exists e. split_and!; [done..|].
    simpl. unfold used_entry at 1. rewrite Hu. simpl. by rewrite Hn, lookup_insert_eq.
  - assert (first_index (entry_named name) (e :: dir) = S <$> first_index (entry_named name) dir) as ->.
    { destruct (first_index (entry_named name) dir) as [i|] eqn:Ei; simpl.
      - apply first_index_Some in Ei as [Hi Hmin]. apply first_index_Some. split; [done|].
        intros [|j] y; simpl; [by intros [= <-]|]. intros Hj Hlt. eapply Hmin; [done|lia].
      - rewrite first_index_None in Ei |- *. intros [|i] x; simpl; [by intros [= <-]|apply Ei]. }
    assert (∀ r, (list_to_map (omap used_entry dir) : gmap bytes Z) !! cname name = r →
       (list_to_map (omap used_entry (e :: dir)) : gmap bytes Z) !! cname name = r) as Hskip.
    { intros r Hr. simpl. unfold used_entry at 1. destruct (de_is_used e) eqn:Hu; [|done].
      simpl. rewrite lookup_insert_ne; [done|]. intros Heq.
      assert (entry_named name e = true) by (by apply entry_named_spec). congruence. }
    destruct (first_index (entry_named name) dir) as [i|]; simpl.
    + destruct IH as (e' & ? & ? & ?). exists e'. auto.
    + auto.
Qed.

Definition names_unique (dir : list dir_entry) : Prop :=
  ∀ i j e e', dir !! i = Some e → dir !! j = Some e' → de_is_used e = true → de_is_used e' = true →
    cname (de_name e) = cname (de_name e') → i = j.

(** With distinct names, the map holds exactly the entries in use. *)
Lemma dir_map_spec dir nm ino : names_unique dir →
  dir_list_map dir !! nm = Some ino ↔
  ∃ i e, dir !! i = Some e ∧ de_is_used e = true ∧ cname (de_name e) = nm ∧ de_inode_number e = ino.
Proof.
  intros Hu. unfold dir_list_map. rewrite <- elem_of_list_to_map'.
  - rewrite list_elem_of_omap. split.
    + intros (e & [i Hi]%list_elem_of_lookup & He). unfold used_entry in He.
      destruct (de_is_used e) eqn:E; [|done]. injection He as <- <-. by exists i, e.
    + intros (i & e & Hi & E & <- & <-). exists e. split; [by eapply list_elem_of_lookup_2|].
      unfold used_entry. by rewrite E.
  - intros x2 (e1 & [i Hi]%list_elem_of_lookup & H1)%list_elem_of_omap
      (e2 & [j Hj]%list_elem_of_lookup & H2)%list_elem_of_omap.
    unfold used_entry in *. destruct (de_is_used e1) eqn:E1, (de_is_used e2) eqn:E2; try done.
    injection H1 as <- <-. injection H2 as Hn <-.
    assert (i = j) as <- by (by eapply Hu). congruence.
Qed.

(** An entry taken into use for a new name. *)
Lemma names_unique_insert dir k e e0 :
  names_unique dir → dir !! k = Some e0 →
  (∀ i e', dir !! i = Some e' → de_is_used e' = true → de_is_used e = true →
     cname (de_name e') = cname (de_name e) → i = k) →
  names_unique (<[k := e]> dir).
Proof.
  intros Hu Hk Hnew i j e1 e2 Hi Hj U1 U2 Hn.
  rewrite lookup_insert_at in Hi, Hj by (by eapply lookup_lt_Some).
  destruct (decide (i = k)) as [->|Hik], (decide (j = k)) as [->|Hjk]; simplify_eq; try done.
  - exfalso. apply Hjk. by eapply Hnew.
  - by eapply Hnew.
  - by eapply Hu.
Qed.

Lemma dir_map_insert dir k e0 name ino :
  names_unique dir → dir !! k = Some e0 → de_is_used e0 = false →
  dir_list_map dir !! cname name = None →
  let e := DirEntry true ino (strncpy name (Z.to_nat MAX_FILE_NAME)) in
  names_unique (<[k := e]> dir) ∧
  dir_list_map (<[k := e]> dir) = <[cname name := ino]> (dir_list_map dir).
Proof.
  intros Hu Hk Hfree Hnone e.
  assert (∀ i e', dir !! i = Some e' → de_is_used e' = true → cname (de_name e') ≠ cname name) as Hnew.
  { intros i e' Hi Hu' Hn. assert (dir_list_map dir !! cname name = Some (de_inode_number e')); [|congruence].
    apply dir_map_spec; [done|]. by exists i, e'. }
  assert (names_unique (<[k := e]> dir)) as Hu'.
  { eapply names_unique_insert; [done..|]. intros i e' Hi Hue _ Hn. exfalso.
    eapply Hnew; [done..|]. rewrite Hn. apply cname_strncpy. }
  split; [done|]. apply map_eq. intros nm. apply option_eq. intros x.
  rewrite lookup_insert, dir_map_spec by done. destruct (decide (cname name = nm)) as [<-|Hne].
  - split.
    + intros (i & e' & Hi & Hue & Hn & <-). rewrite lookup_insert_at in Hi by (by eapply lookup_lt_Some).
      case_decide; simplify_eq; [done|]. exfalso. by eapply Hnew.
    + intros [= <-]. exists k, e. rewrite list_lookup_insert_eq by (by eapply lookup_lt_Some).
      split_and!; try done. apply cname_strncpy.
  - rewrite dir_map_spec by done. split; intros (i & e' & Hi & Hue & Hn & Hino); exists i, e'.
    + rewrite lookup_insert_at in Hi by (by eapply lookup_lt_Some).
      case_decide; simplify_eq; [|done]. exfalso. apply Hne. symmetry. apply cname_strncpy.
    + rewrite lookup_insert_at by (by eapply lookup_lt_Some). case_decide; simplify_eq; [congruence|done].
Qed.

Lemma dir_map_remove dir k e0 e :
  names_unique dir → dir !! k = Some e0 → de_is_used e0 = true → de_is_used e = false →
  names_unique (<[k := e]> dir) ∧
  dir_list_map (<[k := e]> dir) = delete (cname (de_name e0)) (dir_list_map dir).
Proof.
  intros Hu Hk Hused Hfree.
  assert (names_unique (<[k := e]> dir)) as Hu'
    by (eapply names_unique_insert; [done..|]; intros; congruence).
  split; [done|]. apply map_eq. intros nm. apply option_eq. intros x.
  rewrite lookup_delete, dir_map_spec by done. case_decide as C.
  - split; [|done]. intros (i & e' & Hi & Hue & Hn & <-).
    rewrite lookup_insert_at in Hi by (by eapply lookup_lt_Some).
    case_decide; simplify_eq; [congruence|]. by assert (i = k) by (by eapply Hu).
  - rewrite dir_map_spec by done. split; intros (i & e' & Hi & Hue & Hn & Hino); exists i, e'.
    + rewrite lookup_insert_at in Hi by (by eapply lookup_lt_Some).
      case_decide; simplify_eq; [congruence|done].
    + rewrite lookup_insert_at by (by eapply lookup_lt_Some).
      case_decide; simplify_eq; done.
Qed.

(** ** Creating files *)
Section dir.
Context {D : Type} `{BlockDeviceSpec D}.
Implicit Types s : fs D.

Definition dir_map s : gmap bytes Z := dir_list_map (directory s).

(** A name the directory can hold. *)
Definition valid_name (name : bytes) : Prop := 0 < strlen name ≤ MAX_FILE_NAME.

(** The table after [fs_create] takes the inode [i], which was not in use. *)
Lemma fresh_inode p s (i : nat) old ibm :
  wf p s → inode_table s !! i = Some old → file_type old = 0 →
  length ibm = length (inode_bitmap s) →
  let s' := set_inode_bitmap (set_inodes s (<[i :=
    Inode 1 (replicate (length (direct_offset old)) 0) 0 0 0]> (inode_table s))) ibm in
  wf p s' ∧ (∀ j, ftype s' j = if decide (j = Z.of_nat i) then 1 else ftype s j) ∧
  file_data p s' (Z.of_nat i) = [] ∧
  (∀ j, j ≠ Z.of_nat i → file_data p s' j = file_data p s j).
Proof.
  intros Hwf Hi Hfree Hibm. set (new := Inode 1 _ 0 0 0). intros s'.
  pose proof (lookup_lt_Some _ _ _ Hi) as Hlt.
  assert (∀ j, zget (inode_table s') j = if decide (j = Z.of_nat i) then Some new
    else zget (inode_table s) j) as Hz.
  { intros j. unfold s'; simpl. rewrite <- (Nat2Z.id i) at 1. apply zget_insert. lia. }
  assert (∀ j, ftype s' j = if decide (j = Z.of_nat i) then 1 else ftype s j) as Hft
    by (intros j; unfold ftype at 1; rewrite Hz; by case_decide).
  assert (∀ j, fsize s' j = if decide (j = Z.of_nat i) then 0 else fsize s j) as Hsz
    by (intros j; unfold fsize at 1; rewrite Hz; by case_decide).
  assert (∀ j k, entry s' j k = if decide (j = Z.of_nat i) then 0 else entry s j k) as Hent.
  { intros j k. unfold entry at 1. rewrite Hz. case_decide; [|done]. simpl.
    unfold zget. destruct (k <? 0); [done|]. destruct (replicate _ 0 !! _) as [b|] eqn:E; [|done].
    by apply lookup_replicate in E as [-> _]. }
  assert (∀ j, ftype s j ≠ 0 → j ≠ Z.of_nat i) as Hne.
  { intros j Hj ->. apply Hj. unfold ftype. by rewrite zget_nat, Hi. }
  split_and!; try done.
  - destruct Hwf as [Hm Hs [A1 A2 A3 A4] [X1 X2 X3] Hdir []]. split; try done.
    + split; simpl; try apply Hs.
      * rewrite length_insert. apply Hs.
      * intros j ino. change (zget (inode_table s') j = Some ino → Z.of_nat (length (direct_offset ino)) = NUM_DIRECT).
        rewrite Hz. case_decide; [|apply Hs]. intros [= <-]. simpl. rewrite length_replicate.
        apply (sh_direct s Hs (Z.of_nat i)). by rewrite zget_nat.
      * rewrite Hibm. apply Hs.
    + split; [done|..].
      * intros j k. rewrite Hent. case_decide; [blia|apply A2].
      * intros j k. rewrite Hent. case_decide; [done|apply A3].
      * intros j k j' k'. rewrite !Hent. case_decide; [done|]. case_decide; [|apply A4].
        intros ??; congruence.
    + split.
      * intros j. rewrite Hsz. case_decide; [blia|apply X1].
      * intros j k Hk. rewrite Hsz, Hent. case_decide; [blia|]. by apply X2.
      * intros a f Hf Hu. destruct (X3 a f Hf Hu) as (Y1 & Y2 & Y3 & Y4). rewrite Hft.
        split_and!; try lia; [by case_decide|]. intros k Hk Hkl. rewrite Hent.
        rewrite decide_False by (by apply Hne). by apply Y4.
    + intros a e Ha Hu. destruct (Hdir a e Ha Hu). rewrite Hft. split; [done|]. by case_decide.
  - unfold file_data. by rewrite Hsz, decide_True.
  - intros j Hj. apply file_data_ext; [by rewrite Hsz, decide_False|]. intros a _.
    apply byte_at_ext; [by rewrite Hent, decide_False|done].
Qed.

Lemma wf_set_dir p s dir :
  wf p s → length dir = length (directory s) → dir_ok (set_dir s dir) → wf p (set_dir s dir).
Proof.
  intros [Hm [] [] [] Hdir []] Hlen Hok. split; try done. split; simpl; try done. by rewrite Hlen.
Qed.

Lemma fs_create_spec p s name :
  wf p s → names_unique (directory s) →
  ∃ r s', fs_create name s = Ret (r, s') ∧ wf p s' ∧ names_unique (directory s') ∧
    (∀ j, ftype s j ≠ 0 → file_data p s' j = file_data p s j) ∧
    open_file_descriptors s' = open_file_descriptors s ∧
    ((r = 0 ∧ valid_name name ∧ dir_map s !! cname name = None ∧
      ∃ i, 0 ≤ i < MAX_NUM_OF_FILES ∧ ftype s i = 0 ∧
        dir_map s' = <[cname name := i]> (dir_map s) ∧ file_data p s' i = []) ∨
     (r = -1 ∧ directory s' = directory s ∧
      (¬ valid_name name ∨ is_Some (dir_map s !! cname name) ∨
       (∀ i, 0 ≤ i < MAX_NUM_OF_FILES → ftype s i ≠ 0) ∨
       (∀ k e, directory s !! k = Some e → de_is_used e = true)))).
Proof.
  intros Hwf Hu. pose proof (wf_shapes p s Hwf) as Hs. unfold fs_create.
  destruct ((MAX_FILE_NAME <? strlen name) || (strlen name =? 0)) eqn:Hv.
  { exists (-1), s. split_and!; try done. right. split_and!; try done. left. unfold valid_name.
    apply orb_true_iff in Hv as [?%Z.ltb_lt|?%Z.eqb_eq]; lia. }
  apply orb_false_iff in Hv as [Hv1%Z.ltb_ge Hv2%Z.eqb_neq].
  assert (0 ≤ strlen name) by (rewrite strlen_string_of; lia).
  rewrite (wf_mounted p s Hwf). change (0 =? -1) with false. cbv iota.
  pose proof (dir_map_first (directory s) name) as Hfirst.
  destruct (first_index (entry_named name) (directory s)) as [k0|].
  { destruct Hfirst as (e & _ & _ & Hin). exists (-1), s. split_and!; try done. right.
    split_and!; try done. right; left. by exists (de_inode_number e). }
  destruct (first_index (λ i, file_type i =? 0) (inode_table s)) as [i|] eqn:Hi.
  2: { rewrite first_index_None in Hi. exists (-1), s. split_and!; try done. right.
       split_and!; try done. right; right; left. intros i Hir.
       destruct (inode_at s i Hs Hir) as (ino & E & _). unfold ftype. rewrite E.
       apply zget_Some in E as [_ E]. specialize (Hi _ _ E). by apply Z.eqb_neq in Hi. }
  apply first_index_Some in Hi as [(old & Hi & Hfree%Z.eqb_eq) _].
  pose proof (lookup_lt_Some _ _ _ Hi) as Hilt. pose proof (sh_inodes s Hs) as Hli.
  rewrite (aread_nat _ _ _ Hi). rstep. rewrite awrite_nat by done. rstep.
  change (inode_bitmap (set_inodes s ?x)) with (inode_bitmap s).
  destruct (set_bit_spec (inode_bitmap s) (Z.of_nat i)) as (ibm & -> & Hibm & _).
  { unfold bit_index. rewrite (sh_inode_bitmap s Hs). blia. }
  rstep. destruct (fresh_inode p s i old ibm Hwf Hi Hfree Hibm) as (W1 & Hft & Hnil & Hoth).
  set (s1 := set_inode_bitmap _ _) in *. change (directory s1) with (directory s).
  assert (∀ j, ftype s j ≠ 0 → j ≠ Z.of_nat i) as Hne.
  { intros j Hj ->. apply Hj. unfold ftype. by rewrite zget_nat, Hi. }
  destruct (first_index (λ e, negb (de_is_used e)) (directory s)) as [k|] eqn:Hk.
  2: { rewrite first_index_None in Hk. exists (-1), s1. split_and!; try done; [by auto|]. right.
       split_and!; try done. do 3 right. intros k e He. specialize (Hk _ _ He).
       by apply negb_false_iff in Hk. }
  apply first_index_Some in Hk as [(e0 & Hk & Hke%negb_true_iff) _].
  pose proof (lookup_lt_Some _ _ _ Hk) as Hklt. rewrite awrite_nat by done. rstep.
  destruct (dir_map_insert (directory s) k e0 name (Z.of_nat i) Hu Hk Hke Hfirst) as [Hu' Hmap].
  exists 0. eexists. split; [reflexivity|]. split_and!; try done.
  - apply wf_set_dir; [done|by rewrite length_insert|]. intros a e. simpl.
    rewrite <- (Nat2Z.id k), zget_insert by lia. case_decide; [|apply (wf_dir p s1 W1)].
    intros [= <-] _. simpl. change (ftype (set_dir s1 ?d)) with (ftype s1). rewrite Hft, decide_True by done. lia.
  - intros j Hj. apply Hoth. by apply Hne.
  - left. split_and!; try done; [unfold valid_name; lia|]. exists (Z.of_nat i). split_and!; try done; try lia.
    unfold ftype. by rewrite zget_nat, Hi.
Qed.

(** C4: [fs_create] on a well-formed state with distinct names: it returns 0
    exactly when the name is valid and new and an inode and a directory entry
    are free; then the directory gains the name, bound to an inode that no
    name denoted and whose file is empty.  Otherwise it returns -1 and the
    directory is as before.  Either way no file in use changes and the state
    stays well-formed with distinct names. *)
Theorem fs_create_correct p s name :
  wf p s → names_unique (directory s) →
  ∃ r s', fs_create name s = Ret (r, s') ∧ wf p s' ∧ names_unique (directory s') ∧
    (∀ j, ftype s j ≠ 0 → file_data p s' j = file_data p s j) ∧
    open_file_descriptors s' = open_file_descriptors s ∧
    ((r = 0 ∧ valid_name name ∧ dir_map s !! cname name = None ∧
      ∃ i, 0 ≤ i < MAX_NUM_OF_FILES ∧ ftype s i = 0 ∧
        dir_map s' = <[cname name := i]> (dir_map s) ∧ file_data p s' i = []) ∨
     (r = -1 ∧ directory s' = directory s ∧
      (¬ valid_name name ∨ is_Some (dir_map s !! cname name) ∨
       (∀ i, 0 ≤ i < MAX_NUM_OF_FILES → ftype s i ≠ 0) ∨
       (∀ k e, directory s !! k = Some e → de_is_used e = true)))).
Proof. apply fs_create_spec. Qed.

(** ** Opening and closing *)

(** Every name's directory entry is at the index of its inode, and the inodes
    in use are those of the names: what [bad_file] takes for granted. *)
Definition aligned s : Prop :=
  ∀ i e, zget (directory s) i = Some e →
    (de_is_used e = true → de_inode_number e = i) ∧ (de_is_used e = true ↔ ftype s i ≠ 0).

Lemma first_index_is_Some {A} (P : A → bool) l i x :
  l !! i = Some x → P x = true → is_Some (first_index P l).
Proof.
  intros Hx Hp. destruct (first_index P l) as [k|] eqn:E; [by eexists|].
  rewrite first_index_None in E. specialize (E _ _ Hx). congruence.
Qed.

Lemma fs_open_spec p s name :
  wf p s →
  (∃ i fd f, dir_map s !! cname name = Some i ∧
     0 ≤ fd < MAX_FILE_DESCRIPTORS ∧ zget (open_file_descriptors s) fd = Some f ∧
     fd_is_used f = false ∧
     (∀ g h, 0 ≤ g < fd → zget (open_file_descriptors s) g = Some h → fd_is_used h = true) ∧
     let new := FileDescriptor true i 0 in
     let s' := set_fds s (<[Z.to_nat fd := new]> (open_file_descriptors s)) in
     fs_open name s = Ret (fd, s') ∧ wf p s' ∧ (aligned s → open_on s' fd new)) ∨
  ((dir_map s !! cname name = None ∨
    ∀ fd f, zget (open_file_descriptors s) fd = Some f → fd_is_used f = true) ∧
   fs_open name s = Ret (-1, s)).
Proof.
  intros Hwf. pose proof (wf_shapes p s Hwf) as Hs. unfold fs_open.
  rewrite (wf_mounted p s Hwf). change (0 =? -1) with false. cbv iota.
  pose proof (dir_map_first (directory s) name) as Hfirst.
  destruct (first_index (entry_named name) (directory s)) as [k|]; [|by right; auto].
  destruct Hfirst as (e & Hk & Hue & Hin).
  destruct (first_index (λ f, negb (fd_is_used f)) (open_file_descriptors s)) as [n|] eqn:Hn.
  2: { right. split; [right|done]. rewrite first_index_None in Hn. intros fd f [_ Hf]%zget_Some.
       specialize (Hn _ _ Hf). by apply negb_false_iff in Hn. }
  apply first_index_Some in Hn as [(f & Hf & Hfree%negb_true_iff) Hmin].
  pose proof (lookup_lt_Some _ _ _ Hf) as Hlt. pose proof (sh_fds s Hs) as Hlf.
  rewrite (aread_nat _ _ _ Hk). rstep. rewrite awrite_nat by done. rstep.
  left. exists (de_inode_number e), (Z.of_nat n), f. rewrite Nat2Z.id.
  destruct (wf_dir p s Hwf (Z.of_nat k) e) as [Hir Hft]; [by rewrite zget_nat|done|].
  split_and!; try done; try lia.
  - by rewrite zget_nat.
  - intros g h Hg [_ Hh]%zget_Some. specialize (Hmin _ _ Hh).
    apply negb_false_iff, Hmin. lia.
  - destruct Hwf as [Hm [] [] [X1 X2 X3] Hdir []]. split; try done.
    + split; simpl; try done. by rewrite length_insert.
    + split; try done. intros g h. simpl. rewrite <- (Nat2Z.id n), zget_insert by lia.
      case_decide; [|apply X3]. intros [= <-] _. simpl. split_and!; try done; try lia.
      intros k' Hk' Hlt'. blia.
  - intros Hal. split; [apply descriptor_Some|].
    + split_and!; [lia..| |done]. simpl. rewrite zget_nat. by apply list_lookup_insert_eq.
    + unfold bad_file. simpl. rewrite (proj2 (Z.ltb_ge _ _)), (proj2 (Z.leb_gt _ _)) by lia.
      assert (de_inode_number e = Z.of_nat k) as ->.
      { apply (Hal (Z.of_nat k)); [by rewrite zget_nat|done]. }
      by rewrite zget_nat, Hk, Hue.
Qed.

(** C26: [fs_open] of a name in the directory takes the lowest free descriptor
    and opens the name's inode there at offset 0, after which reads and writes
    through it are accepted when the directory is aligned with the inode
    table; without such a name or without a free descriptor it returns -1 and
    changes nothing. *)
Theorem fs_open_correct p s name :
  wf p s →
  (∃ i fd f, dir_map s !! cname name = Some i ∧
     0 ≤ fd < MAX_FILE_DESCRIPTORS ∧ zget (open_file_descriptors s) fd = Some f ∧
     fd_is_used f = false ∧
     (∀ g h, 0 ≤ g < fd → zget (open_file_descriptors s) g = Some h → fd_is_used h = true) ∧
     let new := FileDescriptor true i 0 in
     let s' := set_fds s (<[Z.to_nat fd := new]> (open_file_descriptors s)) in
     fs_open name s = Ret (fd, s') ∧ wf p s' ∧ (aligned s → open_on s' fd new)) ∨
  ((dir_map s !! cname name = None ∨
    ∀ fd f, zget (open_file_descriptors s) fd = Some f → fd_is_used f = true) ∧
   fs_open name s = Ret (-1, s)).
Proof. apply fs_open_spec. Qed.

(** [fs_close] frees an open descriptor and changes nothing else; a
    descriptor that is out of range or closed is rejected. *)
Theorem fs_close_correct p s fildes :
  wf p s →
  match descriptor fildes s with
  | Some _ =>
      let s' := set_fds s (<[Z.to_nat fildes := FileDescriptor false 0 0]> (open_file_descriptors s)) in
      fs_close fildes s = Ret (0, s') ∧ wf p s' ∧ descriptor fildes s' = None ∧
      (∀ g, g ≠ fildes → descriptor g s' = descriptor g s)
  | None => fs_close fildes s = Ret (-1, s)
  end.
Proof.
  intros Hwf. pose proof (sh_fds s (wf_shapes p s Hwf)) as Hl.
  destruct (descriptor fildes s) as [f|] eqn:Hd.
  - pose proof Hd as (Hr & Hf & Hu)%descriptor_Some. unfold fs_close.
    rewrite (proj2 (Z.ltb_ge _ _)), (proj2 (Z.leb_gt _ _)) by lia. simpl orb. cbv iota.
    rewrite (proj2 (aread_Ret _ _ _) Hf). rstep. rewrite Hu. cbn [negb].
    rewrite awrite_lt by lia. rstep. split_and!; try done.
    + destruct Hwf as [Hm [] [] [X1 X2 X3] Hdir []]. split; try done.
      * split; simpl; try done. by rewrite length_insert.
      * split; try done. intros g h. simpl. rewrite zget_insert by lia.
        case_decide; [by intros [= <-]|apply X3].
    + unfold descriptor. simpl. rewrite zget_insert, decide_True by (done || lia). simpl.
      by destruct ((fildes <? 0) || (MAX_FILE_DESCRIPTORS <=? fildes)).
    + intros g Hg. unfold descriptor. simpl. by rewrite zget_insert, decide_False by (done || lia).
  - unfold descriptor in Hd. unfold fs_close.
    destruct ((fildes <? 0) || (MAX_FILE_DESCRIPTORS <=? fildes)) eqn:Hr; [done|].
    apply orb_false_iff in Hr as [Hr1%Z.ltb_ge Hr2%Z.leb_gt].
    destruct (proj2 (zget_is_Some (open_file_descriptors s) fildes)) as [f Hf]; [lia|].
    rewrite Hf in Hd. rewrite (proj2 (aread_Ret _ _ _) Hf). rstep. by destruct (fd_is_used f).
Qed.

(** ** Deleting files *)

(** The byte [fs_delete] tests at index [i]. *)
Definition tested_byte (past : Z → Z) (bm : bytes) (i : Z) : Z :=
  match zget bm i with Some b => b | None => past i end.

Lemma delete_blocks_spec past ino n : ∀ i bm count,
  0 ≤ i → (∀ j, i ≤ j < i + Z.of_nat n → bit_index bm j) →
  ∃ bm' count', delete_blocks n i past ino bm count = Ret (bm', count') ∧
    length bm' = length bm ∧
    ∀ j, 0 ≤ j → bit bm' j =
      bit bm j && negb (bool_decide (i ≤ j < i + Z.of_nat n) && (tested_byte past bm j =? ino)).
Proof.
  induction n as [|n IH]; intros i bm count Hi Hin.
  { exists bm, count. split_and!; [done..|]. intros j Hj.
    rewrite bool_decide_false by lia. by rewrite andb_true_r. }
  cbn [delete_blocks]. fold (tested_byte past bm i).
  destruct (Z.eqb_spec (tested_byte past bm i) ino) as [He|He].
  - destruct (clear_bit_spec bm i) as (bm1 & -> & Hl1 & Hb1 & Hz1); [apply Hin; lia|]. rstep.
    destruct (IH (i + 1) bm1 (u16 (count - 1))) as (bm2 & c2 & -> & Hl2 & Hb2); [lia| |].
    { intros j Hj. unfold bit_index. rewrite Hl1. apply Hin. lia. }
    exists bm2, c2. split_and!; [done|lia|]. intros j Hj. rewrite Hb2, Hb1 by done.
    destruct (decide (j = i)) as [->|Hne].
    + rewrite (bool_decide_true (i ≤ i < _)) by lia. rewrite He, Z.eqb_refl. simpl.
      by rewrite andb_false_r.
    + destruct (decide (i ≤ j < i + Z.of_nat (S n))).
      * rewrite !bool_decide_true by lia. do 3 f_equal. unfold tested_byte. rewrite Hz1; [done|dlia].
      * by rewrite !bool_decide_false by lia.
  - destruct (IH (i + 1) bm count) as (bm2 & c2 & -> & Hl2 & Hb2); [lia|intros; apply Hin; lia|].
    exists bm2, c2. split_and!; [done..|]. intros j Hj. rewrite Hb2 by done.
    destruct (decide (j = i)) as [->|Hne].
    + rewrite bool_decide_false, bool_decide_true by lia. by rewrite (proj2 (Z.eqb_neq _ _) He).
    + destruct (decide (i ≤ j < i + Z.of_nat (S n))).
      * by rewrite !bool_decide_true by lia.
      * by rewrite !bool_decide_false by lia.
Qed.

Lemma fs_delete_spec p past s name :
  wf p s → names_unique (directory s) →
  match dir_map s !! cname name with
  | None => fs_delete past name s = Ret (-1, s)
  | Some i =>
      ((∃ fd f, zget (open_file_descriptors s) fd = Some f ∧ fd_is_used f = true ∧
          fd_inode_number f = i) ∧ fs_delete past name s = Ret (-1, s)) ∨
      (∀ fd f, zget (open_file_descriptors s) fd = Some f → fd_is_used f = true →
         fd_inode_number f ≠ i) ∧
      ∃ s', fs_delete past name s = Ret (0, s') ∧
        dir_map s' = delete (cname name) (dir_map s) ∧ names_unique (directory s') ∧
        inode_table s' = inode_table s ∧ open_file_descriptors s' = open_file_descriptors s ∧
        dev s' = dev s ∧
        ∀ j, 0 ≤ j < TOTAL_BLOCKS → bit (used_block_bitmap s') j =
          bit (used_block_bitmap s) j && negb (tested_byte past (used_block_bitmap s) j =? i)
  end.
Proof.
  intros Hwf Hu. pose proof (wf_shapes p s Hwf) as Hs. unfold fs_delete, dir_map.
  rewrite (wf_mounted p s Hwf). change (0 =? -1) with false. cbv iota.
  pose proof (dir_map_first (directory s) name) as Hfirst.
  destruct (first_index (entry_named name) (directory s)) as [k|] eqn:Hk; [|by rewrite Hfirst].
  apply first_index_Some in Hk as [(e & Hk & [Hue Hname]%entry_named_spec) _].
  destruct Hfirst as (e' & Hk' & _ & ->). simplify_eq. rewrite (aread_nat _ _ _ Hk). rstep.
  destruct (first_index _ (open_file_descriptors s)) as [n|] eqn:Hn.
  { left. split; [|done]. apply first_index_Some in Hn as [(f & Hf & [Hfu Hfi%Z.eqb_eq]%andb_true_iff) _].
    exists (Z.of_nat n), f. by rewrite zget_nat. }
  right. split.
  { rewrite first_index_None in Hn. intros fd f [_ Hf]%zget_Some Hu' Hi'. specialize (Hn _ _ Hf).
    by rewrite Hu', Hi', Z.eqb_refl in Hn. }
  destruct (delete_blocks_spec past (de_inode_number e) (Z.to_nat TOTAL_BLOCKS) 0
    (used_block_bitmap s) (used_block_bitmap_count (superblock s))) as (bm & c & -> & _ & Hb); [done| |].
  { intros j Hj. unfold bit_index. pose proof (sh_bitmap s Hs). blia. }
  rstep. change (directory (set_super ?a ?b)) with (directory a).
  change (directory (set_bitmap s bm)) with (directory s).
  rewrite awrite_nat by (by eapply lookup_lt_Some). rstep.
  destruct (dir_map_remove (directory s) k e (DirEntry false 0 (replicate (Z.to_nat MAX_FILE_NAME) 0))
    Hu Hk Hue eq_refl) as [Hu' Hmap].
  eexists. split; [reflexivity|]. split_and!; try done.
  - rewrite <- Hname. exact Hmap.
  - intros j Hj. simpl. rewrite Hb by lia. by rewrite bool_decide_true by blia.
Qed.

(** C19: [fs_delete] removes a name from the directory unless it is not there
    or its file is open, on any descriptor, in which cases it returns -1 and
    changes nothing.  (Two of the repository's tests expect it to succeed
    while a descriptor of the file is still open.)  The inode table is left as
    it is.  Of the block bitmap it clears the bits [j] for which byte [j] of
    the bitmap (and not an owner of block [j]) equals the file's inode number,
    reading past the end of the bitmap for the indices above its size. *)
Theorem fs_delete_correct p past s name :
  wf p s → names_unique (directory s) →
  match dir_map s !! cname name with
  | None => fs_delete past name s = Ret (-1, s)
  | Some i =>
      ((∃ fd f, zget (open_file_descriptors s) fd = Some f ∧ fd_is_used f = true ∧
          fd_inode_number f = i) ∧ fs_delete past name s = Ret (-1, s)) ∨
      (∀ fd f, zget (open_file_descriptors s) fd = Some f → fd_is_used f = true →
         fd_inode_number f ≠ i) ∧
      ∃ s', fs_delete past name s = Ret (0, s') ∧
        dir_map s' = delete (cname name) (dir_map s) ∧ names_unique (directory s') ∧
        inode_table s' = inode_table s ∧ open_file_descriptors s' = open_file_descriptors s ∧
        dev s' = dev s ∧
        ∀ j, 0 ≤ j < TOTAL_BLOCKS → bit (used_block_bitmap s') j =
          bit (used_block_bitmap s) j && negb (tested_byte past (used_block_bitmap s) j =? i)
  end.
Proof. apply fs_delete_spec. Qed.

(** A file opened twice and closed once is still open, and not deleted. *)
Theorem delete_reopened_rejected p past s name fd1 s1 fd2 s2 s3 :
  wf p s → names_unique (directory s) →
  fs_open name s = Ret (fd1, s1) → fd1 ≠ -1 → fs_open name s1 = Ret (fd2, s2) → fd2 ≠ -1 →
  fs_close fd2 s2 = Ret (0, s3) → fs_delete past name s3 = Ret (-1, s3).
Proof.
  intros Hwf Hu E1 Hfd1 E2 Hfd2 E3.
  destruct (fs_open_spec p s name Hwf) as [(i & fd & f & Hi & _ & Hf & _ & _ & E & W1 & _)|[_ E]];
    [|congruence].
  rewrite E in E1. injection E1 as <- <-.
  destruct (fs_open_spec p _ name W1) as [(i' & fd' & f' & Hi' & Hr' & Hf' & Hu' & _ & E' & W2 & _)|[_ E']];
    [|congruence].
  rewrite E' in E2. injection E2 as <- <-.
  set (s2 := set_fds _ _) in *. pose proof (fs_close_correct p s2 fd' W2) as Hc.
  destruct (descriptor fd' s2) as [g|]; [|congruence].
  destruct Hc as (Ec & W3 & _ & _). rewrite Ec in E3. injection E3 as <-.
  set (s3 := set_fds s2 _) in *.
  assert (zget (open_file_descriptors s3) fd = Some (FileDescriptor true i 0)) as Hopen.
  { pose proof (zget_range _ _ _ Hf) as Hr. assert (fd' ≠ fd) as Hne.
    { intros ->. cbn [open_file_descriptors set_fds] in Hf'. rewrite zget_insert, decide_True in Hf' by done.
      by injection Hf' as <-. }
    unfold s3, s2; cbn [open_file_descriptors set_fds].
    rewrite !zget_insert by (rewrite ?length_insert; pose proof (zget_range _ _ _ Hf') as H';
      cbn [open_file_descriptors set_fds] in H'; rewrite length_insert in H'; lia).
    by rewrite !decide_False, decide_True by done. }
  pose proof (fs_delete_spec p past s3 name W3 Hu) as Hd.
  change (dir_map s3) with (dir_map s) in Hd. rewrite Hi in Hd.
  destruct Hd as [[_ Hd]|[Hno _]]; [done|]. by destruct (Hno fd _ Hopen eq_refl).
Qed.

(** Deleting a file can free a block of another file: any block [b] below
    1024 such that byte [b] of the bitmap happens to equal the deleted file's
    inode number is marked free although a file still maps it. *)
Theorem fs_delete_frees_other_files p past s name i j k :
  wf p s → names_unique (directory s) → dir_map s !! cname name = Some i →
  (∀ fd f, zget (open_file_descriptors s) fd = Some f → fd_is_used f = true →
     fd_inode_number f ≠ i) →
  j ≠ i → entry s j k ≠ 0 →
  zget (used_block_bitmap s) (entry s j k) = Some i →
  ∃ s', fs_delete past name s = Ret (0, s') ∧ entry s' j k = entry s j k ∧
    bit (used_block_bitmap s) (entry s j k) = true ∧
    bit (used_block_bitmap s') (entry s j k) = false ∧ ¬ wf p s'.
Proof.
  intros Hwf Hu Hin Hclosed Hj Hne Hbyte.
  pose proof (fs_delete_spec p past s name Hwf Hu) as Hd. rewrite Hin in Hd.
  destruct Hd as [[(fd & f & Hf & Hfu & Hfi) _]|(_ & s' & E & _ & _ & Htbl & _ & _ & Hb)].
  { by destruct (Hclosed fd f). }
  pose proof (al_range s (wf_alloc p s Hwf) j k) as Hr.
  assert (∀ j' k', entry s' j' k' = entry s j' k') as Hent by (intros; unfold entry; by rewrite Htbl).
  assert (bit (used_block_bitmap s') (entry s j k) = false) as Hfree.
  { rewrite Hb by done. unfold tested_byte. rewrite Hbyte, Z.eqb_refl. apply andb_false_r. }
  exists s'. split_and!; try done.
  - by apply (wf_alloc p s Hwf).
  - intros Hwf'. pose proof (al_used s' (wf_alloc p s' Hwf') j k) as Hused.
    rewrite Hent in Hused. rewrite Hused in Hfree; done.
Qed.

(** ** Listing *)

Lemma string_of_bytes_terminated l : string_of_bytes (l ++ [0]) = string_of_bytes l.
Proof. induction l as [|x l IH]; [done|]. simpl. by rewrite IH. Qed.

Lemma list_names_spec dir n : ∀ i, (i + n ≤ length dir)%nat →
  list_names n (Z.of_nat i) dir = Ret (map (λ e, cname (de_name e)) (take n (drop i dir))).
Proof.
  induction n as [|n IH]; intros i Hi; [done|]. cbn [list_names].
  destruct (lookup_lt_is_Some_2 dir i) as [e He]; [lia|].
  rewrite (aread_nat _ _ _ He). rstep.
  replace (Z.of_nat i + 1) with (Z.of_nat (S i)) by lia. rewrite IH by lia. rstep.
  rewrite string_of_bytes_terminated, string_of_strncpy.
  by rewrite (drop_S dir e i He).
Qed.

Definition used_entries (dir : list dir_entry) : list dir_entry :=
  filter (λ e, de_is_used e = true) dir.

(** The entries in use come first. *)
Definition packed (dir : list dir_entry) : Prop :=
  ∀ i j e e', dir !! i = Some e → dir !! j = Some e' → (i < j)%nat → de_is_used e' = true →
    de_is_used e = true.

Lemma packed_filter dir : packed dir → take (length (used_entries dir)) dir = used_entries dir.
Proof.
  unfold used_entries. induction dir as [|e dir IH]; intros Hp; [done|].
  destruct (de_is_used e) eqn:E.
  - rewrite filter_cons_True by done. simpl. rewrite IH; [done|].
    intros i j e1 e2 Hi Hj Hlt. apply (Hp (S i) (S j)); [done..|lia].
  - rewrite filter_cons_False by congruence.
    destruct (filter (λ e, de_is_used e = true) dir) as [|e' l] eqn:F; [done|].
    assert (e' ∈ filter (λ e, de_is_used e = true) dir) as Hin by (rewrite F; left).
    apply list_elem_of_filter in Hin as [He' [i Hi]%list_elem_of_lookup].
    rewrite (Hp 0%nat (S i) e e') in E; [done|done|done|lia|done].
Qed.

(** C28: [fs_listfiles] never fails; it returns as many names as there are
    files, namely those of the first entries of the directory, in use or not;
    these are the names of the files when the entries in use come first. *)
Theorem fs_listfiles_correct s :
  fs_listfiles s =
    Ret (0, map (λ e, cname (de_name e)) (take (length (used_entries (directory s))) (directory s))) ∧
  (packed (directory s) →
   fs_listfiles s = Ret (0, map (λ e, cname (de_name e)) (used_entries (directory s)))).
Proof.
  assert (fs_listfiles s = Ret (0, map (λ e, cname (de_name e))
    (take (length (used_entries (directory s))) (directory s)))) as E.
  { unfold fs_listfiles. rewrite (list_names_spec (directory s) _ 0); [by rewrite drop_0|].
    apply length_filter. }
  split; [done|]. intros Hp. by rewrite E, packed_filter.
Qed.
End dir.
