(* ===== verification/FsLife.v ===== *)
(** * Sequences of file system calls

    The layout of directory and inode table that [fs_create] keeps and
    [fs_delete] breaks, and what it means for the calls that follow. *)

From S2P Require Export FsDir.

Section life.
Context {D : Type} `{BlockDeviceSpec D}.
Implicit Types s : fs D.

(** ** Inversion of successful calls *)

Lemma fs_create_inv name s s' :
  fs_create name s = Ret (0, s') →
  ∃ (i k : nat) old e0,
    first_index (entry_named name) (directory s) = None ∧
    first_index (λ i, file_type i =? 0) (inode_table s) = Some i ∧ inode_table s !! i = Some old ∧
    first_index (λ e, negb (de_is_used e)) (directory s) = Some k ∧ directory s !! k = Some e0 ∧
    inode_table s' =
      <[i := Inode 1 (replicate (length (direct_offset old)) 0) 0 0 0]> (inode_table s) ∧
    directory s' =
      <[k := DirEntry true (Z.of_nat i) (strncpy name (Z.to_nat MAX_FILE_NAME))]> (directory s) ∧
    open_file_descriptors s' = open_file_descriptors s ∧ open_disk_fd s' = open_disk_fd s ∧
    open_disk_fd s ≠ -1.
Proof.
  unfold fs_create. destruct (_ || _); [done|].
  destruct (Z.eqb_spec (open_disk_fd s) (-1)) as [|Hm]; [done|].
  destruct (first_index (entry_named name) (directory s)) as [|]; [done|].
  destruct (first_index _ (inode_table s)) as [i|] eqn:Hi; [|done].
  pose proof Hi as [(old & Hold & _) _]%first_index_Some.
  rewrite (aread_nat _ _ _ Hold). rstep. rewrite awrite_nat by (by eapply lookup_lt_Some). rstep.
  change (inode_bitmap (set_inodes s ?x)) with (inode_bitmap s).
  destruct (set_bit _ _) as [ibm| |]; [|done..]. rstep.
  change (directory (set_inode_bitmap (set_inodes s ?a) ?b)) with (directory s).
  destruct (first_index (λ e, negb (de_is_used e)) (directory s)) as [k|] eqn:Hk; [|done].
  pose proof Hk as [(e0 & He0 & _) _]%first_index_Some.
  rewrite awrite_nat by (by eapply lookup_lt_Some). rstep. intros [= <-].
  exists i, k, old, e0. by split_and!.
Qed.

Lemma fs_delete_inv past name s s' :
  fs_delete past name s = Ret (0, s') →
  ∃ (k : nat) e, directory s !! k = Some e ∧ de_is_used e = true ∧
    directory s' = <[k := DirEntry false 0 (replicate (Z.to_nat MAX_FILE_NAME) 0)]> (directory s) ∧
    inode_table s' = inode_table s ∧ open_file_descriptors s' = open_file_descriptors s ∧
    open_disk_fd s' = open_disk_fd s.
Proof.
  unfold fs_delete. destruct (open_disk_fd s =? -1); [done|].
  destruct (first_index (entry_named name) (directory s)) as [k|] eqn:Hk; [|done].
  apply first_index_Some in Hk as [(e & Hk & [Hue _]%entry_named_spec) _].
  rewrite (aread_nat _ _ _ Hk). rstep.
  destruct (first_index _ (open_file_descriptors s)); [done|].
  destruct (delete_blocks _ _ _ _ _ _) as [[bm c]| |]; [|done..]. rstep.
  change (directory (set_super ?a ?b)) with (directory a).
  change (directory (set_bitmap s bm)) with (directory s).
  rewrite awrite_nat by (by eapply lookup_lt_Some). rstep. intros [= <-]. by exists k, e.
Qed.

Lemma fs_open_inv name s fd s' :
  fs_open name s = Ret (fd, s') → fd ≠ -1 →
  ∃ (k : nat) e, first_index (entry_named name) (directory s) = Some k ∧
    directory s !! k = Some e ∧ 0 ≤ fd < Z.of_nat (length (open_file_descriptors s)) ∧
    s' = set_fds s (<[Z.to_nat fd := FileDescriptor true (de_inode_number e) 0]>
                      (open_file_descriptors s)).
Proof.
  unfold fs_open. destruct (open_disk_fd s =? -1); [by intros [= <- <-]|].
  destruct (first_index (entry_named name) (directory s)) as [k|] eqn:Hk; [|by intros [= <- <-]].
  pose proof Hk as [(e & He & _) _]%first_index_Some. rewrite (aread_nat _ _ _ He).
  destruct (first_index _ (open_file_descriptors s)) as [n|] eqn:Hn; [|by intros [= <- <-]].
  pose proof (first_index_lt _ _ _ Hn) as Hlt. rstep. rewrite awrite_nat by done. rstep.
  intros [= <- <-] _. exists k, e. rewrite Nat2Z.id. split_and!; done || lia.
Qed.

(** ** The layout that creating files keeps *)

Definition tidy s : Prop := aligned s ∧ packed (directory s).

Lemma aligned_first_free s : shapes s → aligned s →
  first_index (λ i, file_type i =? 0) (inode_table s) =
  first_index (λ e, negb (de_is_used e)) (directory s).
Proof.
  intros Hs Hal. pose proof (sh_inodes s Hs) as Hli. pose proof (sh_dir s Hs) as Hld.
  assert (∀ i ino e, inode_table s !! i = Some ino → directory s !! i = Some e →
    (file_type ino =? 0) = negb (de_is_used e)) as Hsame.
  { intros i ino e Hi He. destruct (Hal (Z.of_nat i) e) as [_ Hiff]; [by rewrite zget_nat|].
    unfold ftype in Hiff. rewrite zget_nat, Hi in Hiff.
    destruct (Z.eqb_spec (file_type ino) 0), (de_is_used e); try done; intuition congruence. }
  destruct (first_index (λ e, negb (de_is_used e)) (directory s)) as [k|] eqn:Hk.
  - apply first_index_Some in Hk as [(e & He & Hu) Hmin]. apply first_index_Some.
    destruct (lookup_lt_is_Some_2 (inode_table s) k) as [ino Hino];
      [apply lookup_lt_Some in He; lia|].
    split; [exists ino; split; [done|]; by rewrite (Hsame k ino e)|].
    intros j ino' Hj Hlt. destruct (lookup_lt_is_Some_2 (directory s) j) as [e' He'];
      [apply lookup_lt_Some in He; lia|].
    rewrite (Hsame j ino' e') by done. by eapply Hmin.
  - rewrite first_index_None in Hk. apply first_index_None. intros i ino Hi.
    destruct (lookup_lt_is_Some_2 (directory s) i) as [e He]; [apply lookup_lt_Some in Hi; lia|].
    rewrite (Hsame i ino e) by done. by eapply Hk.
Qed.

(** While files are only created, directory entries and inodes stay in
    step: after a successful [fs_create] the entries in use still come first,
    each at the index of its inode. *)
Theorem fs_create_tidy p s name s' :
  wf p s → tidy s → fs_create name s = Ret (0, s') → tidy s'.
Proof.
  intros Hwf [Hal Hp] (i & k & old & e0 & _ & Hi & Hold & Hk & He0 & Htbl & Hdir & _)%fs_create_inv.
  rewrite (aligned_first_free s (wf_shapes p s Hwf) Hal) in Hi. rewrite Hk in Hi. injection Hi as <-.
  apply first_index_Some in Hk as [_ Hmin].
  pose proof (lookup_lt_Some _ _ _ He0) as Hlt. pose proof (lookup_lt_Some _ _ _ Hold) as Hlt'.
  split.
  - intros j e. rewrite Hdir. rewrite <- (Nat2Z.id k) at 1. rewrite zget_insert by lia.
    assert (ftype s' j = if decide (j = Z.of_nat k) then 1 else ftype s j) as ->.
    { unfold ftype at 1. rewrite Htbl. rewrite <- (Nat2Z.id k) at 1. rewrite zget_insert by lia.
      by case_decide. }
    case_decide as C; [|apply Hal]. subst j. intros [= <-]. by split.
  - rewrite Hdir. intros a b e e'. rewrite !lookup_insert_at by done.
    destruct (decide (a = k)) as [->|Ha]; [by intros [= <-]|].
    destruct (decide (b = k)) as [->|Hb]; intros Hae Hbe Hab Hu.
    + specialize (Hmin _ _ Hae Hab). by apply negb_false_iff in Hmin.
    + by eapply Hp.
Qed.

(** [fs_open] always returns, and of a name in the directory of a mounted file
    system it returns a descriptor when one is free. *)
Lemma fs_open_total name s :
  ∃ fd s', fs_open name s = Ret (fd, s') ∧
    (open_disk_fd s ≠ -1 →
     (∃ (k : nat) e, directory s !! k = Some e ∧ entry_named name e = true) →
     (∃ g f, zget (open_file_descriptors s) g = Some f ∧ fd_is_used f = false) → fd ≠ -1).
Proof.
  unfold fs_open. destruct (Z.eqb_spec (open_disk_fd s) (-1)); [by eexists _, _|].
  destruct (first_index (entry_named name) (directory s)) as [k|] eqn:Hk.
  2: { eexists _, _. split; [done|]. intros _ (k & e & He & Hn).
       rewrite first_index_None in Hk. by rewrite (Hk _ _ He) in Hn. }
  pose proof Hk as [(e & He & _) _]%first_index_Some. rewrite (aread_nat _ _ _ He).
  destruct (first_index _ (open_file_descriptors s)) as [m|] eqn:Hn.
  - rstep. rewrite awrite_nat by (by eapply first_index_lt). rstep.
    eexists _, _. split; [done|]. intros. lia.
  - eexists _, _. split; [done|]. intros _ _ (g & f & [_ Hf]%zget_Some & Hfree).
    rewrite first_index_None in Hn. specialize (Hn _ _ Hf). by rewrite Hfree in Hn.
Qed.

(** A deletion takes the directory and the inode table out of step, and
    [bad_file] looks at the wrong entry: the name created next is given an entry
    and an inode of different indices, so it can be opened, but not used. *)
Lemma create_after_delete p past s name s1 name' s2 :
  wf p s → tidy s →
  fs_delete past name s = Ret (0, s1) → fs_create name' s1 = Ret (0, s2) →
  ∃ fd s3, fs_open name' s2 = Ret (fd, s3) ∧
    ((∃ g f, zget (open_file_descriptors s2) g = Some f ∧ fd_is_used f = false) → fd ≠ -1) ∧
    (fd ≠ -1 → ∀ f, ¬ open_on s3 fd f).
Proof.
  intros Hwf [Hal Hp] (kd & ed & Hed & Hused & Hdir1 & Htbl1 & Hfd1 & _)%fs_delete_inv.
  intros (i & k & old & e0 & Hnone & Hi & Hold & Hk & He0 & Htbl2 & Hdir2 & Hfd2 & Hm2 & Hm)%fs_create_inv.
  pose proof (wf_shapes p s Hwf) as Hs. rewrite Htbl1 in Hi, Hold.
  rewrite (aligned_first_free s Hs Hal) in Hi.
  apply first_index_Some in Hi as [(ei & Hei & Hfree%negb_true_iff) Hmin].
  pose proof (lookup_lt_Some _ _ _ Hed) as Hkd.
  assert (kd < i)%nat as Hkdi.
  { destruct (decide (i < kd)%nat) as [Hlt|Hge].
    - by rewrite (Hp i kd ei ed Hei Hed Hlt Hused) in Hfree.
    - assert (kd ≠ i) by (intros ->; congruence). lia. }
  assert (k = kd) as ->.
  { apply first_index_Some in Hk as [(ek & Hek & Hkfree%negb_true_iff) Hkmin].
    rewrite Hdir1, lookup_insert_at in Hek by done. case_decide as C; [done|].
    destruct (decide (kd < k)%nat) as [Hlt|Hge].
    - specialize (Hkmin kd (DirEntry false 0 (replicate (Z.to_nat MAX_FILE_NAME) 0))).
      rewrite Hdir1, lookup_insert_at, decide_True in Hkmin by done. by specialize (Hkmin eq_refl Hlt).
    - assert (k < i)%nat as Hki by lia. specialize (Hmin _ _ Hek Hki).
      by apply negb_false_iff in Hmin; congruence. }
  assert (Hkd1 : (kd < length (directory s1))%nat) by (by eapply lookup_lt_Some).
  destruct (fs_open_total name' s2) as (fd & s3 & Ho & Hfd). exists fd, s3. split; [done|]. split.
  { apply Hfd; [congruence|]. eexists kd, _. rewrite Hdir2, lookup_insert_at, decide_True by done.
    split; [done|]. apply entry_named_spec. split; [done|]. apply cname_strncpy. }
  intros Hne f [Hd Hbad]. destruct (fs_open_inv _ _ _ _ Ho Hne) as (k' & e' & Hk' & He' & Hfdr & ->).
  assert (k' = kd) as ->.
  { apply first_index_Some in Hk' as [(e & He & Hn) _]. rewrite Hdir2 in He.
    rewrite lookup_insert_at in He by done. case_decide as C; [done|].
    rewrite first_index_None in Hnone. rewrite (Hnone _ _ He) in Hn. done. }
  rewrite Hdir2, lookup_insert_at, decide_True in He' by done. injection He' as <-.
  apply descriptor_Some in Hd as (_ & Hf & _). simpl in Hf.
  rewrite zget_insert, decide_True in Hf by done. injection Hf as <-.
  unfold bad_file in Hbad. simpl in Hbad. apply orb_false_iff in Hbad as [_ Hbad].
  rewrite zget_nat, Hdir2, lookup_insert_at, decide_False, Hdir1, lookup_insert_at, decide_False, Hei
    in Hbad by (lia || by eapply lookup_lt_Some).
  by rewrite Hfree in Hbad.
Qed.
End life.
