(* ===== verification/FsLayout.v ===== *)
(** * Round trips of the on-disk layouts

    Little-endian integers, the superblock, the directory and the inode table,
    encoded as [umount_fs] writes them and decoded as [mount_fs] reads them. *)

From S2P Require Export FsLife.

(** ** Little-endian integers *)

Lemma length_le_bytes n : ∀ z, length (le_bytes n z) = n.
Proof. induction n as [|n IH]; intros z; [done|]. simpl. by rewrite IH. Qed.

Lemma le_int_bytes n : ∀ z, 0 ≤ z < 256 ^ Z.of_nat n → le_int (le_bytes n z) = z.
Proof.
  induction n as [|n IH]; intros z Hz; [simpl in *; lia|]. cbn [le_bytes le_int].
  rewrite Nat2Z.inj_succ, Z.pow_succ_r in Hz by lia. rewrite IH by dlia. dlia.
Qed.

(** A signed integer of [n] bytes. *)
Lemma le_int_mod n : ∀ z, le_int (le_bytes n z) = z mod 256 ^ Z.of_nat n.
Proof.
  induction n as [|n IH]; intros z; [by rewrite Z.mod_1_r|]. cbn [le_bytes le_int].
  rewrite IH, Nat2Z.inj_succ, Z.pow_succ_r, Z.rem_mul_r by lia. done.
Qed.

Lemma s32_mod z : - 2 ^ 31 ≤ z < 2 ^ 31 → s32 (z mod 2 ^ 32) = z.
Proof.
  intros Hz. unfold to_signed. rewrite Z.mod_mod by lia.
  change (s32 z = z). by apply s32_id.
Qed.

(** ** Arrays of fixed-size elements *)

Lemma split_every_concat n ll rest :
  Forall (λ l, length l = n) ll → split_every n (length ll) (concat ll ++ rest) = ll.
Proof.
  induction ll as [|l ll IH]; intros Hl; [done|]. apply Forall_cons_iff in Hl as [Hn Hl]. simpl.
  rewrite <- app_assoc, take_app_length', drop_app_length' by done. by rewrite IH.
Qed.

Lemma concat_split_every n k : ∀ l, length l = (k * n)%nat → concat (split_every n k l) = l.
Proof.
  induction k as [|k IH]; intros l Hl; [by destruct l|]. simpl.
  rewrite IH by (rewrite length_drop; lia). apply take_drop.
Qed.

Lemma split_every_lookup n k : ∀ l i, (i < k)%nat →
  split_every n k l !! i = Some (take n (drop (i * n) l)).
Proof.
  induction k as [|k IH]; intros l i Hi; [lia|]. destruct i as [|i]; [done|].
  simpl. rewrite IH by lia. rewrite drop_drop. done.
Qed.

Lemma length_split_every n k : ∀ l, length (split_every n k l) = k.
Proof. induction k as [|k IH]; intros l; [done|]. simpl. by rewrite IH. Qed.

Lemma length_concat_map {A} (f : A → list Z) n l :
  (∀ x, x ∈ l → length (f x) = n) → length (concat (map f l)) = (length l * n)%nat.
Proof.
  induction l as [|x l IH]; intros Hf; [done|]. simpl.
  rewrite length_app, Hf, IH by (try intros; set_solver). done.
Qed.

(** ** Words *)

Definition word (z : Z) : Prop := 0 ≤ z < 2 ^ 64.

Lemma bytes_words_bytes ws : Forall word ws → bytes_words (words_bytes ws) = ws.
Proof.
  intros Hws. unfold bytes_words, words_bytes.
  rewrite (length_concat_map _ 8) by (intros; apply length_le_bytes).
  rewrite Nat.div_mul by lia.
  assert (split_every 8 (length (map (le_bytes 8) ws)) (concat (map (le_bytes 8) ws) ++ []) =
    map (le_bytes 8) ws) as E.
  { apply split_every_concat. apply Forall_forall. intros l (z & <- & _)%in_map_iff.
    apply length_le_bytes. }
  rewrite app_nil_r, length_map in E. rewrite E, map_map.
  rewrite <- (map_id ws) at 2. apply map_ext_in. intros z Hz.
  apply le_int_bytes. rewrite Forall_forall in Hws. by apply Hws.
Qed.

Lemma length_words_bytes ws : length (words_bytes ws) = (length ws * 8)%nat.
Proof. apply length_concat_map. intros. apply length_le_bytes. Qed.

(** ** The superblock *)

Definition super_range (sb : super_block) : Prop :=
  0 ≤ used_block_bitmap_count sb < 2 ^ 16 ∧ 0 ≤ used_block_bitmap_offset sb < 2 ^ 16 ∧
  0 ≤ inode_metadata_blocks sb < 2 ^ 16 ∧ 0 ≤ inode_metadata_offset sb < 2 ^ 16.

Lemma bytes_super_bytes sb : super_range sb → bytes_super (super_bytes sb) = sb.
Proof.
  intros (H1 & H2 & H3 & H4). unfold bytes_super, super_bytes.
  destruct sb as [a b c d]; simpl used_block_bitmap_count in *;
    simpl used_block_bitmap_offset in *; simpl inode_metadata_blocks in *;
    simpl inode_metadata_offset in *.
  f_equal.
  - change (le_int (le_bytes 2 a) = a). by apply le_int_bytes.
  - change (le_int (le_bytes 2 b) = b). by apply le_int_bytes.
  - change (le_int (le_bytes 2 c) = c). by apply le_int_bytes.
  - change (le_int (le_bytes 2 d) = d). by apply le_int_bytes.
Qed.

Lemma length_super_bytes sb : length (super_bytes sb) = 8%nat.
Proof. done. Qed.

(** ** The directory *)

Definition entry_ok (e : dir_entry) : Prop :=
  - 2 ^ 31 ≤ de_inode_number e < 2 ^ 31 ∧ length (de_name e) = Z.to_nat MAX_FILE_NAME.

Lemma length_entry_bytes e : entry_ok e → length (entry_bytes e) = 24%nat.
Proof.
  intros [_ Hn]. unfold entry_bytes. rewrite !length_app, length_le_bytes, length_take, Hn. done.
Qed.

Lemma bytes_entry_bytes e : entry_ok e → bytes_entry (entry_bytes e) = e.
Proof.
  intros [Hi Hn]. change (Z.to_nat MAX_FILE_NAME) with 15%nat in Hn.
  unfold bytes_entry, entry_bytes. destruct e as [u i name]. cbn [de_is_used de_inode_number de_name] in *.
  rewrite take_ge by lia. f_equal.
  - by destruct u.
  - change (s32 (le_int (le_bytes 4 i)) = i). rewrite le_int_mod. by apply s32_mod.
  - change (take 15 (name ++ [0]) = name). by rewrite take_app_length'.
Qed.

Lemma bytes_directory_bytes dir rest :
  length dir = Z.to_nat MAX_NUM_OF_FILES → Forall entry_ok dir →
  bytes_directory (directory_bytes dir ++ rest) = dir.
Proof.
  intros Hl Hok. rewrite Forall_forall in Hok. unfold bytes_directory, directory_bytes.
  rewrite <- Hl, <- (length_map entry_bytes dir), split_every_concat.
  - rewrite map_map, <- (map_id dir) at 1. rewrite map_id. rewrite <- (map_id dir) at 2.
    apply map_ext_in. intros e He. by apply bytes_entry_bytes, Hok.
  - apply Forall_forall. intros l (e & <- & He)%in_map_iff. by apply length_entry_bytes, Hok.
Qed.

Lemma length_directory_bytes dir :
  length dir = Z.to_nat MAX_NUM_OF_FILES → Forall entry_ok dir →
  Z.of_nat (length (directory_bytes dir)) = 1536.
Proof.
  intros Hl Hok. unfold directory_bytes. rewrite (length_concat_map _ 24), Hl; [done|].
  intros e He. rewrite Forall_forall in Hok. by apply length_entry_bytes, Hok, list_elem_of_In.
Qed.

(** ** The inode table *)

Definition inode_ok (i : inode) : Prop := Z.of_nat (length (direct_offset i)) = NUM_DIRECT.

Lemma length_inode_words i : inode_ok i → length (inode_to_words i) = Z.to_nat inode_words.
Proof.
  unfold inode_ok, inode_to_words, inode_words. intros Hi. cbn [length].
  rewrite length_app. cbn [length]. lia.
Qed.

Lemma words_to_inode_words i : inode_ok i → words_to_inode (inode_to_words i) = i.
Proof.
  unfold inode_ok, inode_to_words, words_to_inode. intros Hi. destruct i as [t d s1 s2 sz].
  cbn [file_type direct_offset single_indirect_offset double_indirect_offset file_size tail nth] in *.
  by rewrite take_app_length', drop_app_length' by lia.
Qed.

Lemma words_table_words tbl :
  length tbl = Z.to_nat MAX_NUM_OF_FILES → Forall inode_ok tbl → words_table (table_words tbl) = tbl.
Proof.
  intros Hl Hok. rewrite Forall_forall in Hok. unfold words_table, table_words.
  rewrite <- Hl, <- (length_map inode_to_words tbl), <- (app_nil_r (concat _)), split_every_concat.
  - rewrite map_map. rewrite <- (map_id tbl) at 2.
    apply map_ext_in. intros i Hi. by apply words_to_inode_words, Hok.
  - apply Forall_forall. intros l (i & <- & Hi)%in_map_iff. by apply length_inode_words, Hok.
Qed.

Definition table_size : nat := (Z.to_nat MAX_NUM_OF_FILES * Z.to_nat inode_words)%nat.

Lemma length_table_words tbl :
  length tbl = Z.to_nat MAX_NUM_OF_FILES → Forall inode_ok tbl →
  length (table_words tbl) = table_size.
Proof.
  intros Hl Hok. unfold table_words, table_size. rewrite (length_concat_map _ (Z.to_nat inode_words)), Hl; [done|].
  intros i Hi. rewrite Forall_forall in Hok. by apply length_inode_words, Hok, list_elem_of_In.
Qed.

Lemma length_words_table ws : length (words_table ws) = Z.to_nat MAX_NUM_OF_FILES.
Proof. unfold words_table. by rewrite length_map, length_split_every. Qed.

Lemma words_table_ok ws : length ws = table_size → Forall inode_ok (words_table ws).
Proof.
  intros Hl. apply Forall_lookup. intros i ino. unfold words_table.
  rewrite list_lookup_fmap. destruct (decide (i < Z.to_nat MAX_NUM_OF_FILES)%nat) as [Hi|Hi].
  - rewrite split_every_lookup by done. intros [= <-]. unfold inode_ok, words_to_inode.
    cbn [direct_offset]. unfold table_size, inode_words in *.
    change NUM_DIRECT with 256 in *. change MAX_NUM_OF_FILES with 64 in *.
    rewrite length_take, length_tl, length_take, length_drop, Hl. lia.
  - by rewrite lookup_ge_None_2 by (rewrite length_split_every; lia).
Qed.

Lemma words_inode_words ws : length ws = Z.to_nat inode_words →
  inode_to_words (words_to_inode ws) = ws.
Proof.
  intros Hl. unfold inode_to_words, words_to_inode. destruct ws as [|t ws]; [done|].
  cbn [file_type direct_offset single_indirect_offset double_indirect_offset file_size tail nth].
  f_equal. assert (length (drop (Z.to_nat NUM_DIRECT) ws) = 3%nat) as Hd.
  { rewrite length_drop. simpl length in Hl. unfold inode_words in Hl. change NUM_DIRECT with 256 in *. lia. }
  rewrite <- (take_drop (Z.to_nat NUM_DIRECT) ws) at 5. f_equal.
  destruct (drop (Z.to_nat NUM_DIRECT) ws) as [|a [|b [|c [|]]]]; done.
Qed.

Lemma table_words_table ws : length ws = table_size → table_words (words_table ws) = ws.
Proof.
  intros Hl. unfold table_words, words_table. rewrite map_map.
  rewrite <- (concat_split_every (Z.to_nat inode_words) (Z.to_nat MAX_NUM_OF_FILES) ws) at 2 by done.
  f_equal. rewrite <- (map_id (split_every _ _ ws)) at 2. apply map_ext_in.
  intros w [i Hi]%list_elem_of_In%list_elem_of_lookup.
  pose proof (lookup_lt_Some _ _ _ Hi) as Hlt. rewrite length_split_every in Hlt.
  rewrite split_every_lookup in Hi by done. injection Hi as <-.
  apply words_inode_words. rewrite length_take, length_drop, Hl. unfold table_size. nia.
Qed.
