(* ===== verification/FsMount.v ===== *)
(** * Formatting, mounting, unmounting

    [make_fs] followed by [mount_fs] gives an empty well-formed file system;
    [umount_fs] followed by [mount_fs] gives back the superblock, the
    directory and the inodes that fit in the metadata blocks. *)

From S2P Require Export FsLayout.

Section mount.
Context {D : Type} `{BlockDeviceSpec D}.
Implicit Types s t : fs D.

Definition holds s (p : path) (b : Z) (blk : bytes) : Prop := dev_block (dev s) p b = Some blk.

(** ** Blocks of the mounted disk *)

Lemma disk_ok_dev p s t : dev t = dev s → disk_ok p s → disk_ok p t.
Proof. intros E []. split; by rewrite E. Qed.

Lemma read_at p s b blk buf :
  disk_ok p s → holds s p b blk → Z.of_nat (length buf) = BLOCK_SIZE →
  ∃ d, dev_block_read b buf s = (0, set_dev s d, blk) ∧ disk_ok p (set_dev s d) ∧
    ∀ q c, dev_block d q c = dev_block (dev s) q c.
Proof.
  intros [Hok Ho Hb] Hh Hl.
  destruct (block_read_ok (dev s) p b blk buf Hok Ho Hh Hl) as (d & E & Hok' & Ho' & Hsame).
  exists d. unfold dev_block_read. rewrite E. split_and!; [done| |done].
  split; simpl; [done..|]. intros c Hc. rewrite Hsame. by apply Hb.
Qed.

Lemma write_at p s b buf :
  disk_ok p s → 0 ≤ b < DISK_BLOCKS → Z.of_nat (length buf) = BLOCK_SIZE →
  ∃ d, dev_block_write b buf s = (0, set_dev s d) ∧ disk_ok p (set_dev s d) ∧
    ∀ q c, dev_block d q c = if decide (q = p ∧ c = b) then Some buf else dev_block (dev s) q c.
Proof.
  intros [Hok Ho Hb] Hr Hl. destruct (Hb b Hr) as [old Hold].
  destruct (block_write_ok (dev s) p b old buf Hok Ho Hold Hl) as (d & E & Hok' & Ho' & Hd).
  exists d. unfold dev_block_write. rewrite E. split_and!; [done| |done].
  split; simpl; [done..|]. intros c Hc. rewrite Hd. case_decide; [by eexists|by apply Hb].
Qed.

(** ** make_fs *)

(** The disk [p] as [make_fs] leaves it. *)
Record formatted (p : path) (past_super past_bitmap : bytes) (d : D) : Prop := {
  fm_ok : dev_ok d;
  fm_closed : dev_open d = None;
  fm_super : dev_block d p 0 = Some (super_bytes make_super ++ past_super);
  fm_bitmap : dev_block d p 1 =
    Some (replicate (Z.to_nat (TOTAL_BLOCKS / CHAR_BIT)) 0 ++ past_bitmap);
  fm_rest : ∀ b, 2 ≤ b < DISK_BLOCKS →
    dev_block d p b = Some (replicate (Z.to_nat BLOCK_SIZE) 0)
}.

Lemma make_fs_bitmap bm : Z.of_nat (length bm) = TOTAL_BLOCKS / CHAR_BIT →
  ∃ bm', make_fs_loop (Z.to_nat (inode_metadata_offset make_super)) 0 make_super bm = Ret bm' ∧
    length bm' = length bm.
Proof.
  intros Hl. change (Z.to_nat (inode_metadata_offset make_super)) with 2%nat.
  cbn [make_fs_loop]. change (TOTAL_BLOCKS / CHAR_BIT) with 1024 in Hl.
  rewrite awrite_lt by lia. rstep. rewrite awrite_lt by (rewrite length_insert; lia). rstep.
  eexists. split; [done|]. by rewrite !length_insert.
Qed.

(** With no disk open, [make_fs] succeeds and leaves the named disk closed,
    holding the superblock, an empty bitmap and zeroed blocks after them; other
    disks, the inode table, the directory and the descriptors are untouched. *)
Theorem make_fs_correct past_super past_bitmap p s :
  dev_ok (dev s) → dev_open (dev s) = None → shapes s →
  Z.of_nat (length past_super) = BLOCK_SIZE - sizeof_super_block →
  Z.of_nat (length past_bitmap) = BLOCK_SIZE - TOTAL_BLOCKS / CHAR_BIT →
  ∃ s', make_fs past_super past_bitmap (Some p) s = Ret (0, s') ∧
    formatted p past_super past_bitmap (dev s') ∧
    (∀ q b, q ≠ p → dev_block (dev s') q b = dev_block (dev s) q b) ∧
    used_block_bitmap s' = replicate (Z.to_nat (TOTAL_BLOCKS / CHAR_BIT)) 0 ∧
    superblock s' = make_super ∧ inode_table s' = inode_table s ∧ directory s' = directory s ∧
    open_file_descriptors s' = open_file_descriptors s ∧ open_disk_fd s' = open_disk_fd s ∧
    shapes s'.
Proof.
  intros Hok Hclosed Hs Hps Hpb. unfold make_fs, dev_make_disk.
  destruct (make_disk_ok (dev s) p Hok) as (d1 & -> & Hok1 & Ho1 & Hd1).
  change (negb (0 =? 0)) with false. cbv iota. unfold dev_open_disk. cbn [dev set_dev].
  destruct (open_disk_ok d1 p Hok1) as (d2 & -> & Hok2 & Ho2 & Hd2); [congruence| |].
  { rewrite Hd1, !decide_True by done. by eexists. }
  change (negb (0 =? 0)) with false. cbv iota.
  change (used_block_bitmap (set_super (set_dev (set_dev s d1) d2) make_super)) with (used_block_bitmap s).
  destruct (make_fs_bitmap (used_block_bitmap s) (sh_bitmap s Hs)) as (bm & -> & Hbm). rstep.
  set (s2 := set_inode_bitmap _ _).
  assert (disk_ok p s2) as Hdk.
  { split; [done..|]. intros b Hb. change (dev s2) with d2. rewrite Hd2, Hd1, !decide_True by done. by eexists. }
  change (superblock s2) with make_super. change (used_block_bitmap s2) with (replicate (length bm) 0).
  destruct (write_at p s2 0 (super_bytes make_super ++ past_super)) as (d3 & -> & Hdk3 & Hd3); [done|blia| |].
  { rewrite length_app, length_super_bytes. unfold sizeof_super_block in Hps. lia. }
  change (negb (0 =? 0)) with false. cbv iota.
  change (used_block_bitmap_offset (superblock (set_dev s2 d3))) with 1.
  change (used_block_bitmap (set_dev s2 d3)) with (replicate (length bm) 0).
  assert (length bm = Z.to_nat (TOTAL_BLOCKS / CHAR_BIT)) as Hlbm
    by (rewrite Hbm; pose proof (sh_bitmap s Hs); lia).
  rewrite Hlbm.
  destruct (write_at p (set_dev s2 d3) 1 (replicate (Z.to_nat (TOTAL_BLOCKS / CHAR_BIT)) 0 ++ past_bitmap))
    as (d4 & -> & Hdk4 & Hd4); [done|blia| |].
  { rewrite length_app, length_replicate. blia. }
  change (negb (0 =? 0)) with false. cbv iota. unfold dev_close_disk. cbn [dev set_dev].
  destruct (close_disk_ok d4) as (d5 & -> & Hok5 & Ho5 & Hd5); [apply Hdk4| |].
  { exists p. apply (dk_open _ _ Hdk4). }
  change (negb (0 =? 0)) with false. cbv iota.
  assert (∀ q b, dev_block d5 q b =
    if decide (q = p ∧ b = 1) then Some (replicate (Z.to_nat (TOTAL_BLOCKS / CHAR_BIT)) 0 ++ past_bitmap)
    else if decide (q = p ∧ b = 0) then Some (super_bytes make_super ++ past_super)
    else dev_block d1 q b) as Hall.
  { intros q b. rewrite Hd5, Hd4. case_decide; [done|]. cbn [dev set_dev]. rewrite Hd3.
    case_decide; [done|]. apply Hd2. }
  eexists. split; [reflexivity|]. split_and!; try done.
  - split; cbn [dev set_dev]; try done.
    + rewrite Hall, decide_False by (intros [_ ?]; lia). by rewrite decide_True.
    + by rewrite Hall, decide_True.
    + intros b Hb. rewrite Hall, !decide_False by (intros [_ ?]; lia).
      rewrite Hd1, !decide_True by (done || blia). done.
  - intros q b Hq. cbn [dev set_dev]. rewrite Hall, !decide_False by (intros [? _]; done).
    by rewrite Hd1, decide_False.
  - change (replicate (length bm) 0 = replicate (Z.to_nat (TOTAL_BLOCKS / CHAR_BIT)) 0).
    by rewrite Hlbm.
  - destruct Hs. split; try done.
    + change (Z.of_nat (length (replicate (length bm) 0)) = TOTAL_BLOCKS / CHAR_BIT).
      by rewrite length_replicate, Hlbm.
    + change (Z.of_nat (length (replicate (length (inode_bitmap s)) 0)) = MAX_NUM_OF_FILES).
      by rewrite length_replicate.
Qed.

(** ** The inode table on the disk *)

(** The words of the inode table a metadata block holds: [BLOCK_SIZE] bytes
    from the [i]-th inode on. *)
Definition block_words (X : list Z) (i : Z) : list Z :=
  take (Z.to_nat (BLOCK_SIZE / 8))
       (drop (Z.to_nat (i * (BLOCK_SIZE / sizeof_inode) * inode_words)) X).

(** Where the block [i] ends in the table, in words. *)
Definition block_end (i : Z) : Z := i * inode_words + BLOCK_SIZE / 8.

Ltac mlia :=
  unfold block_end in *; change (BLOCK_SIZE / sizeof_inode) with 1 in *;
  change (BLOCK_SIZE / 8) with 512 in *; change inode_words with 260 in *;
  change table_size with (Z.to_nat 16640) in *; blia.

Lemma length_block_words X i : 0 ≤ i → block_end i ≤ Z.of_nat (length X) →
  length (block_words X i) = 512%nat.
Proof. intros. unfold block_words. rewrite length_take, length_drop. mlia. Qed.

Lemma mem_store_lookup W X i :
  0 ≤ i → block_end i ≤ Z.of_nat (length W) → length X = length W →
  ∃ W', mem_store W (i * (BLOCK_SIZE / sizeof_inode) * inode_words) (block_words X i) = Ret W' ∧
    length W' = length W ∧
    ∀ a : nat, W' !! a =
      if decide (i * inode_words ≤ Z.of_nat a < block_end i) then X !! a else W !! a.
Proof.
  intros Hi Hend Hl. pose proof (length_block_words X i Hi ltac:(lia)) as Hbw.
  rewrite mem_store_ok by (rewrite ?Hbw; mlia). eexists. split; [reflexivity|].
  set (o := Z.to_nat _). assert (o = Z.to_nat (i * 260)) as Ho by (unfold o; mlia).
  assert (o + length (block_words X i) ≤ length W)%nat as Hfit by mlia.
  split; [by apply length_splice|]. intros a.
  destruct (decide (a < o)%nat) as [Ha|Ha].
  { rewrite lookup_app_l by (rewrite length_take; lia).
    rewrite lookup_take_lt by done. rewrite decide_False by mlia. done. }
  rewrite lookup_app_r by (rewrite length_take; lia).
  rewrite length_take, Nat.min_l by lia. case_decide as C.
  - rewrite lookup_app_l by mlia. unfold block_words. rewrite lookup_take_lt by mlia.
    rewrite lookup_drop. fold o. f_equal. lia.
  - rewrite lookup_app_r by mlia. rewrite lookup_drop. f_equal. mlia.
Qed.

(** The loop of [mount_fs] over the metadata blocks, when they hold the words
    of [X]. *)
Lemma mount_inodes_spec p X n : ∀ i bh s,
  disk_ok p s → Z.of_nat (length bh) = BLOCK_SIZE → 0 ≤ i →
  length (inode_table s) = Z.to_nat MAX_NUM_OF_FILES → Forall inode_ok (inode_table s) →
  length X = table_size → Forall word X →
  (n = O ∨ block_end (i + Z.of_nat n - 1) ≤ Z.of_nat table_size) →
  (∀ j, i ≤ j < i + Z.of_nat n →
     holds s p (inode_metadata_offset (superblock s) + j) (words_bytes (block_words X j))) →
  ∃ d tbl bh', mount_inodes n i bh s = Ret (0, set_inodes (set_dev s d) tbl, bh') ∧
    disk_ok p (set_dev s d) ∧ Z.of_nat (length bh') = BLOCK_SIZE ∧
    (∀ q b, dev_block d q b = dev_block (dev s) q b) ∧
    length tbl = Z.to_nat MAX_NUM_OF_FILES ∧ Forall inode_ok tbl ∧
    ∀ a : nat, table_words tbl !! a =
      if decide (i * inode_words ≤ Z.of_nat a < block_end (i + Z.of_nat n - 1) ∧ n ≠ O)
      then X !! a else table_words (inode_table s) !! a.
Proof.
  induction n as [|n IH]; intros i bh s Hdk Hbh Hi Hl Hok HlX HX Hend Hblocks.
  { exists (dev s), (inode_table s), bh. split_and!; try done.
    - cbn [mount_inodes]. by destruct s.
    - by destruct s.
    - intros a. rewrite decide_False by (intros [_ ?]; done). done. }
  cbn [mount_inodes]. destruct Hend as [|Hend]; [done|].
  assert (block_end i ≤ Z.of_nat table_size) as Hend0 by mlia.
  destruct (read_at p s _ _ bh Hdk (Hblocks i ltac:(lia)) Hbh) as (d1 & -> & Hdk1 & Hd1).
  change (0 =? -1) with false. cbv iota.
  rewrite bytes_words_bytes.
  2: { by apply Forall_take, Forall_drop. }
  change (inode_table (set_dev s d1)) with (inode_table s).
  pose proof (length_table_words _ Hl Hok) as HlW.
  destruct (mem_store_lookup (table_words (inode_table s)) X i) as (W1 & -> & HlW1 & HW1);
    [done|by rewrite HlW|by rewrite HlW|]. rstep.
  set (s1 := set_inodes (set_dev s d1) (words_table W1)).
  assert (Hlen1 : length W1 = table_size) by congruence.
  destruct (IH (i + 1) (words_bytes (block_words X i)) s1) as (d2 & tbl & bh' & E & Hdk2 & Hbh' & Hd2 & Hlt & Htok & Htw);
    try done.
  - by apply (disk_ok_dev p (set_dev s d1)).
  - rewrite length_words_bytes, length_block_words by (rewrite ?HlX; lia). done.
  - lia.
  - by apply words_table_ok.
  - destruct n; [by left|right]. mlia.
  - intros j Hj. unfold holds. change (dev s1) with d1. rewrite Hd1. apply Hblocks. lia.
  - exists d2, tbl, bh'. split_and!; try done.
    + by apply (disk_ok_dev p (set_dev s1 d2)).
    + intros q b. rewrite Hd2. apply Hd1.
    + intros a. rewrite Htw. change (inode_table s1) with (words_table W1).
      rewrite table_words_table by done. rewrite HW1.
      destruct n as [|n].
      * rewrite decide_False by (intros [_ ?]; done).
        replace (i + Z.of_nat 1 - 1) with i by lia.
        destruct (decide (i * inode_words ≤ Z.of_nat a < block_end i));
          [by rewrite decide_True|by rewrite decide_False by (intros [? _]; done)].
      * replace (i + Z.of_nat (S (S n)) - 1) with (i + 1 + Z.of_nat (S n) - 1) by lia.
        destruct (decide (i * inode_words ≤ Z.of_nat a < block_end (i + 1 + Z.of_nat (S n) - 1))).
        -- rewrite (decide_True (P := _ ∧ S (S n) ≠ 0%nat)) by done.
           destruct (decide ((i + 1) * inode_words ≤ Z.of_nat a < block_end (i + 1 + Z.of_nat (S n) - 1)))
             as [Hc|Hc]; [by rewrite decide_True|].
           rewrite decide_False by (intros [? _]; done). rewrite decide_True; [done|mlia].
        -- rewrite !decide_False; [done|..]; mlia.
Qed.

(** ** mount_fs *)

(** A closed disk whose blocks describe a file system: the superblock [sb],
    the directory [dir], the words [X] of the inode table and the first block
    [bm] of the bitmap. *)
Record described (p : path) (sb : super_block) (dir : list dir_entry) (X : list Z) (bm : bytes)
    (d : D) : Prop := {
  ds_ok : dev_ok d;
  ds_closed : dev_open d = None;
  ds_blocks : ∀ b, 0 ≤ b < DISK_BLOCKS → is_Some (dev_block d p b);
  ds_super_range : super_range sb;
  ds_super : ∃ rest, dev_block d p 0 = Some (super_bytes sb ++ rest);
  ds_dir_ok : length dir = Z.to_nat MAX_NUM_OF_FILES ∧ Forall entry_ok dir;
  ds_dir : ∃ rest, dev_block d p (inode_metadata_offset sb + inode_metadata_blocks sb) =
    Some (directory_bytes dir ++ rest);
  ds_words : length X = table_size ∧ Forall word X;
  ds_table : ∀ j, 0 ≤ j < inode_metadata_blocks sb →
    dev_block d p (inode_metadata_offset sb + j) = Some (words_bytes (block_words X j));
  ds_fits : inode_metadata_blocks sb = 0 ∨
    block_end (inode_metadata_blocks sb - 1) ≤ Z.of_nat table_size;
  ds_bitmap : dev_block d p (used_block_bitmap_offset sb) = Some bm
}.

(** A read of the disk [p], in a state whose disks are those of [d0]. *)
Lemma read_step d0 p s b blk buf :
  dev_ok d0 → disk_ok p s → (∀ q c, dev_block (dev s) q c = dev_block d0 q c) →
  dev_block d0 p b = Some blk → Z.of_nat (length buf) = BLOCK_SIZE →
  ∃ d, dev_block_read b buf s = (0, set_dev s d, blk) ∧ disk_ok p (set_dev s d) ∧
    (∀ q c, dev_block d q c = dev_block d0 q c) ∧ Z.of_nat (length blk) = BLOCK_SIZE.
Proof.
  intros Hok Hdk Hsame Hb Hl.
  destruct (read_at p s b blk buf) as (d & E & Hdk' & Hd); [done|unfold holds; by rewrite Hsame|done|].
  exists d. split_and!; [done|done|intros; by rewrite Hd|by eapply dev_block_size].
Qed.

(** The end of [mount_fs], from the copy of the bitmap on. *)
Definition mount_bitmap (bm : bytes) s : res (Z * fs D) :=
  loaded ← mem_load bm 0 (used_block_bitmap_count (superblock s));
  ubm ← mem_store (used_block_bitmap s) 0 loaded;
  Ret (0, set_disk_fd (set_fds (set_bitmap s ubm)
            (replicate (length (open_file_descriptors s)) unused_fd)) 0).

(** What [mount_fs] has loaded before it copies the bitmap. *)
Record loaded (p : path) (sb : super_block) (dir : list dir_entry) (X : list Z) (bm : bytes) s0 s : Prop := {
  ld_disk : disk_ok p s;
  ld_blocks : ∀ q b, dev_block (dev s) q b = dev_block (dev s0) q b;
  ld_super : superblock s = sb;
  ld_dir : directory s = dir;
  ld_inode_bitmap : inode_bitmap s = inode_bitmap s0;
  ld_fds : open_file_descriptors s = open_file_descriptors s0;
  ld_bitmap : used_block_bitmap s = used_block_bitmap s0;
  ld_size : Z.of_nat (length bm) = BLOCK_SIZE;
  ld_table : length (inode_table s) = Z.to_nat MAX_NUM_OF_FILES ∧ Forall inode_ok (inode_table s);
  ld_words : ∀ a : nat, table_words (inode_table s) !! a =
    if decide (Z.of_nat a < block_end (inode_metadata_blocks sb - 1) ∧ inode_metadata_blocks sb ≠ 0)
    then X !! a else table_words (inode_table s0) !! a
}.

Lemma mount_fs_loaded p sb dir X bm s :
  shapes s → described p sb dir X bm (dev s) →
  ∃ s', mount_fs (Some p) s = mount_bitmap bm s' ∧ loaded p sb dir X bm s s'.
Proof.
  intros Hs [Hok Hcl Hblk Hsr [r0 Hsup] [Hdl Hde] [r1 Hdir] [HXl HXw] Htab Hfit Hbm].
  pose proof Hsr as (Hr1 & Hr2 & Hr3 & Hr4).
  unfold mount_fs, dev_open_disk.
  destruct (open_disk_ok (dev s) p Hok Hcl) as (d0 & -> & Hok0 & Ho0 & Hd0); [by apply Hblk|].
  change (0 =? -1) with false. cbv iota.
  assert (disk_ok p (set_dev s d0)) as Hdk0.
  { split; simpl; [done..|]. intros b Hb. rewrite Hd0. by apply Hblk. }
  destruct (read_step (dev s) p (set_dev s d0) 0 (super_bytes sb ++ r0)
    (replicate (Z.to_nat BLOCK_SIZE) 0)) as (d1 & -> & Hdk1 & Hd1 & Hsz1);
    [done..|by rewrite length_replicate|].
  change (0 =? -1) with false. cbv iota.
  assert (bytes_super (take (Z.to_nat sizeof_super_block) (super_bytes sb ++ r0)) = sb) as ->.
  { rewrite take_app_length' by (by rewrite length_super_bytes). by apply bytes_super_bytes. }
  set (s1 := set_super _ sb). change (superblock s1) with sb.
  destruct (read_step (dev s) p s1 (inode_metadata_offset sb + inode_metadata_blocks sb)
    (directory_bytes dir ++ r1) (super_bytes sb ++ r0)) as (d2 & -> & Hdk2 & Hd2 & Hsz2);
    [done|by apply (disk_ok_dev p (set_dev (set_dev s d0) d1))|done..|].
  change (0 =? -1) with false. cbv iota.
  rewrite bytes_directory_bytes by done.
  set (s2 := set_dir _ dir). change (superblock s2) with sb.
  destruct (mount_inodes_spec p X (Z.to_nat (inode_metadata_blocks sb)) 0
    (directory_bytes dir ++ r1) s2) as (d3 & tbl & bh & -> & Hdk3 & Hlbh3 & Hd3 & Hlt & Htok & Htw);
    [by apply (disk_ok_dev p (set_dev s1 d2))|done|lia| | |done|done| | |].
  { change (length (inode_table s) = Z.to_nat MAX_NUM_OF_FILES). pose proof (sh_inodes s Hs). lia. }
  { apply Forall_lookup. intros j ino Hj. apply (sh_direct s Hs (Z.of_nat j)). by rewrite zget_nat. }
  { destruct Hfit as [->|Hfit]; [by left|right].
    rewrite Z2Nat.id, Z.add_0_l by lia. exact Hfit. }
  { intros j Hj. unfold holds. change (dev s2) with d2. rewrite Hd2. apply Htab. lia. }
  rstep. change (0 =? -1) with false. cbv iota.
  set (s3 := set_inodes _ tbl). change (superblock s3) with sb.
  assert (∀ q c, dev_block d3 q c = dev_block (dev s) q c) as Hd3' by (intros; rewrite Hd3; apply Hd2).
  destruct (read_step (dev s) p s3 (used_block_bitmap_offset sb) bm bh)
    as (d4 & -> & Hdk4 & Hd4 & Hsz4); [done|by apply (disk_ok_dev p (set_dev s2 d3))|done..|].
  change (0 =? -1) with false. cbv iota.
  change (superblock (set_dev s3 d4)) with sb.
  exists (set_dev s3 d4). split; [reflexivity|].
  split; try done.
  intros a. cbn [inode_table set_dev set_inodes]. unfold s3. cbn [inode_table set_dev set_inodes].
  rewrite Htw. rewrite Z2Nat.id, Z.add_0_l by lia.
  destruct (decide (Z.of_nat a < block_end (inode_metadata_blocks sb - 1) ∧ inode_metadata_blocks sb ≠ 0))
    as [[Ha Hn]|Hn].
  + rewrite decide_True; [done|]. split; [lia|lia].
  + rewrite decide_False; [done|]. intros [[_ Ha] Hn']. apply Hn. split; [done|lia].
Qed.

Lemma mount_fs_spec p sb dir X bm s :
  shapes s → described p sb dir X bm (dev s) →
  used_block_bitmap_count sb ≤ TOTAL_BLOCKS / CHAR_BIT →
  ∃ s', mount_fs (Some p) s = Ret (0, s') ∧ open_disk_fd s' = 0 ∧ disk_ok p s' ∧
    (∀ q b, dev_block (dev s') q b = dev_block (dev s) q b) ∧
    superblock s' = sb ∧ directory s' = dir ∧ inode_bitmap s' = inode_bitmap s ∧
    open_file_descriptors s' = replicate (Z.to_nat MAX_FILE_DESCRIPTORS) unused_fd ∧
    used_block_bitmap s' =
      take (Z.to_nat (used_block_bitmap_count sb)) bm ++
      drop (Z.to_nat (used_block_bitmap_count sb)) (used_block_bitmap s) ∧
    length (inode_table s') = Z.to_nat MAX_NUM_OF_FILES ∧ Forall inode_ok (inode_table s') ∧
    ∀ a : nat, table_words (inode_table s') !! a =
      if decide (Z.of_nat a < block_end (inode_metadata_blocks sb - 1) ∧ inode_metadata_blocks sb ≠ 0)
      then X !! a else table_words (inode_table s) !! a.
Proof.
  intros Hs Hds Hcnt. destruct (mount_fs_loaded p sb dir X bm s Hs Hds)
    as (s' & -> & [Hdk Hblk Hsb Hdir Hib Hfd Hubm Hbm [Hlt Hok] Hw]).
  destruct (ds_super_range _ _ _ _ _ _ Hds) as (Hr & _). pose proof (sh_bitmap s Hs) as Hlbm.
  unfold mount_bitmap. rewrite Hsb, Hubm. change (TOTAL_BLOCKS / CHAR_BIT) with 1024 in *.
  rewrite mem_load_ok by blia. rstep. change (Z.to_nat 0) with 0%nat. rewrite drop_0.
  assert (length (take (Z.to_nat (used_block_bitmap_count sb)) bm) =
    Z.to_nat (used_block_bitmap_count sb)) as Hlc by (rewrite length_take; blia).
  rewrite mem_store_ok by (rewrite ?Hlc; blia). rstep. rewrite Hlc.
  eexists. split; [reflexivity|]. split_and!; try done.
  - by apply (disk_ok_dev p s').
  - cbn. rewrite Hfd. f_equal. pose proof (sh_fds s Hs). lia.
Qed.

(** The superblock counts blocks, [mount_fs] copies as many bytes: a count above
    the size of the bitmap makes it write past the end of the array. *)
Lemma mount_fs_overflow p sb dir X bm s :
  shapes s → described p sb dir X bm (dev s) →
  TOTAL_BLOCKS / CHAR_BIT < used_block_bitmap_count sb →
  mount_fs (Some p) s = UB.
Proof.
  intros Hs Hds Hcnt. destruct (mount_fs_loaded p sb dir X bm s Hs Hds)
    as (s' & -> & [_ _ Hsb _ _ _ Hubm Hbm _ _]).
  unfold mount_bitmap. rewrite Hsb, Hubm. pose proof (sh_bitmap s Hs) as Hlbm.
  change (TOTAL_BLOCKS / CHAR_BIT) with 1024 in *. unfold mem_load, mem_store.
  destruct (_ && _) eqn:Hl; rstep; [|done].
  assert (length (take (Z.to_nat (used_block_bitmap_count sb)) (drop (Z.to_nat 0) bm)) =
    Z.to_nat (used_block_bitmap_count sb)) as ->.
  { rewrite length_take, length_drop. rewrite !andb_true_iff, !Z.leb_le in Hl. lia. }
  rewrite (proj2 (Z.leb_gt (0 + _) (Z.of_nat (length (used_block_bitmap s))))) by lia.
  by rewrite andb_false_r.
Qed.

(** ** An empty file system *)

Lemma concat_replicate {A} k n (x : A) : concat (replicate k (replicate n x)) = replicate (k * n) x.
Proof. induction k as [|k IH]; [done|]. simpl. by rewrite IH, <- replicate_add. Qed.

Lemma map_replicate_eq {A B} (f : A → B) n x : map f (replicate n x) = replicate n (f x).
Proof. induction n as [|n IH]; [done|]. simpl. by rewrite IH. Qed.

Definition zero_inode : inode := Inode 0 (replicate (Z.to_nat NUM_DIRECT) 0) 0 0 0.
Definition zero_entry : dir_entry := DirEntry false 0 (replicate (Z.to_nat MAX_FILE_NAME) 0).
Definition zero_table : list inode := replicate (Z.to_nat MAX_NUM_OF_FILES) zero_inode.
Definition zero_directory : list dir_entry := replicate (Z.to_nat MAX_NUM_OF_FILES) zero_entry.

Lemma zero_table_words : table_words zero_table = replicate table_size 0.
Proof.
  unfold table_words, zero_table, table_size. rewrite map_replicate_eq.
  assert (inode_to_words zero_inode = replicate (Z.to_nat inode_words) 0) as -> by reflexivity.
  apply concat_replicate.
Qed.

Lemma zero_directory_bytes :
  replicate (Z.to_nat BLOCK_SIZE) 0 =
  directory_bytes zero_directory ++ replicate (Z.to_nat (BLOCK_SIZE - 1536)) 0.
Proof.
  unfold directory_bytes, zero_directory. rewrite map_replicate_eq.
  assert (entry_bytes zero_entry = replicate 24 0) as -> by reflexivity.
  rewrite concat_replicate, <- replicate_add. f_equal.
Qed.

Lemma zero_block_words j : 0 ≤ j → block_end j ≤ Z.of_nat table_size →
  words_bytes (block_words (replicate table_size 0) j) = replicate (Z.to_nat BLOCK_SIZE) 0.
Proof.
  intros Hj Hend. assert (block_words (replicate table_size 0) j = replicate 512 0) as ->.
  { unfold block_words. rewrite drop_replicate, take_replicate. f_equal. mlia. }
  unfold words_bytes. rewrite map_replicate_eq.
  assert (le_bytes 8 0 = replicate 8 0) as -> by reflexivity.
  rewrite concat_replicate. f_equal.
Qed.

Lemma formatted_described p past_super past_bitmap d :
  formatted p past_super past_bitmap d →
  described p make_super zero_directory (replicate table_size 0)
    (replicate (Z.to_nat (TOTAL_BLOCKS / CHAR_BIT)) 0 ++ past_bitmap) d.
Proof.
  intros [Hok Hcl Hsup Hbm Hrest]. split; try done.
  - intros b Hb. destruct (decide (b = 0)) as [->|]; [by eexists|].
    destruct (decide (b = 1)) as [->|]; [by eexists|]. rewrite Hrest by lia. by eexists.
  - by eexists.
  - split; [done|]. apply Forall_replicate. done.
  - exists (replicate (Z.to_nat (BLOCK_SIZE - 1536)) 0). rewrite <- zero_directory_bytes.
    apply Hrest. done.
  - split; [apply length_replicate|]. apply Forall_replicate. done.
  - intros j Hj. change (inode_metadata_blocks make_super) with 33 in Hj.
    change (inode_metadata_offset make_super) with 2.
    rewrite zero_block_words by mlia. apply Hrest. blia.
  - right. change (inode_metadata_blocks make_super) with 33. mlia.
Qed.

(** A mounted file system without files. *)
Lemma empty_wf p s :
  open_disk_fd s = 0 → shapes s → 1 ≤ used_block_bitmap_offset (superblock s) < TOTAL_BLOCKS →
  disk_ok p s → inode_table s = zero_table → directory s = zero_directory →
  (∀ i f, zget (open_file_descriptors s) i = Some f → fd_is_used f = false) →
  wf p s ∧ tidy s ∧ names_unique (directory s) ∧ dir_map s = ∅.
Proof.
  intros Hm Hs Hst Hdk Ht Hd Hf.
  assert (∀ j ino, zget (inode_table s) j = Some ino → ino = zero_inode) as Hino.
  { intros j ino. rewrite Ht. intros [_ Hj]%zget_Some. by apply lookup_replicate in Hj as [-> _]. }
  assert (∀ j, fsize s j = 0) as Hsz.
  { intros j. unfold fsize. destruct (zget _ j) eqn:E; [|done]. by rewrite (Hino j i). }
  assert (∀ j, ftype s j = 0) as Hty.
  { intros j. unfold ftype. destruct (zget _ j) eqn:E; [|done]. by rewrite (Hino j i). }
  assert (∀ j k, entry s j k = 0) as Hent.
  { intros j k. unfold entry. destruct (zget _ j) eqn:E; [|done]. rewrite (Hino j i) by done.
    destruct (zget _ k) as [b|] eqn:Eb; [|done].
    apply zget_Some in Eb as [_ Eb]. by apply lookup_replicate in Eb as [-> _]. }
  assert (∀ i e, directory s !! i = Some e → e = zero_entry) as Hde.
  { intros i e. rewrite Hd. by intros [-> _]%lookup_replicate. }
  split_and!.
  - split; try done.
    + split; [done|..].
      * intros j k. rewrite Hent. blia.
      * intros j k. by rewrite Hent.
      * intros j k. by rewrite Hent.
    + split.
      * intros j. rewrite Hsz. blia.
      * intros j k Hk. rewrite Hsz. blia.
      * intros i f Hi Hu. rewrite (Hf i f Hi) in Hu. done.
    + intros i e [_ Hi]%zget_Some. by rewrite (Hde _ _ Hi).
  - split.
    + intros i e [_ Hi]%zget_Some. rewrite (Hde _ _ Hi), Hty. done.
    + intros i j e e' Hi Hj _. by rewrite (Hde _ _ Hj).
  - intros i j e e' Hi _. by rewrite (Hde _ _ Hi).
  - unfold dir_map, dir_list_map. rewrite Hd. reflexivity.
Qed.

Lemma make_mount_spec past_super past_bitmap p s :
  dev_ok (dev s) → dev_open (dev s) = None → shapes s → inode_table s = zero_table →
  Z.of_nat (length past_super) = BLOCK_SIZE - sizeof_super_block →
  Z.of_nat (length past_bitmap) = BLOCK_SIZE - TOTAL_BLOCKS / CHAR_BIT →
  ∃ s1 s2, make_fs past_super past_bitmap (Some p) s = Ret (0, s1) ∧
    mount_fs (Some p) s1 = Ret (0, s2) ∧
    wf p s2 ∧ tidy s2 ∧ names_unique (directory s2) ∧ dir_map s2 = ∅.
Proof.
  intros Hok Hcl Hs Htbl Hps Hpb.
  destruct (make_fs_correct past_super past_bitmap p s Hok Hcl Hs Hps Hpb)
    as (s1 & -> & Hfm & _ & Hbm1 & _ & Htbl1 & _ & _ & _ & Hs1).
  destruct (mount_fs_spec p _ _ _ _ s1 Hs1 (formatted_described _ _ _ _ Hfm) ltac:(done))
    as (s2 & E & Hm2 & Hdk2 & _ & Hsb2 & Hd2 & Hib2 & Hfd2 & Hbm2 & Hlt2 & Hok2 & Hw2).
  exists s1, s2. split; [done|]. split; [exact E|].
  assert (inode_table s2 = zero_table) as Ht2.
  { rewrite <- (words_table_words (inode_table s2) Hlt2 Hok2), <- (words_table_words zero_table).
    - f_equal. apply list_eq. intros a. rewrite Hw2, Htbl1, Htbl, zero_table_words. destruct (decide _); reflexivity.
    - apply length_replicate.
    - apply Forall_replicate. reflexivity. }
  apply empty_wf; try done.
  - split.
    + rewrite Hbm2, Hbm1, length_app, length_take, length_drop, length_app, !length_replicate.
      change (used_block_bitmap_count make_super) with 1. blia.
    + by rewrite Hlt2.
    + intros j ino [_ Hj]%zget_Some. rewrite Forall_lookup in Hok2. by eapply Hok2.
    + rewrite Hfd2, length_replicate. done.
    + rewrite Hd2. unfold zero_directory. by rewrite length_replicate.
    + rewrite Hib2. apply Hs1.
  - rewrite Hsb2. done.
  - intros i f. rewrite Hfd2. intros [_ Hi]%zget_Some. by apply lookup_replicate in Hi as [-> _].
Qed.

(** C17: in a process that has not used the file system, [make_fs] followed by
    [mount_fs] of the same disk succeeds and gives a well-formed file system
    with an empty directory, in which names, directory entries and inodes are
    in step. *)
Theorem make_mount_correct past_super past_bitmap p s :
  dev_ok (dev s) → dev_open (dev s) = None → shapes s → inode_table s = zero_table →
  Z.of_nat (length past_super) = BLOCK_SIZE - sizeof_super_block →
  Z.of_nat (length past_bitmap) = BLOCK_SIZE - TOTAL_BLOCKS / CHAR_BIT →
  ∃ s1 s2, make_fs past_super past_bitmap (Some p) s = Ret (0, s1) ∧
    mount_fs (Some p) s1 = Ret (0, s2) ∧
    wf p s2 ∧ tidy s2 ∧ names_unique (directory s2) ∧ dir_map s2 = ∅.
Proof. apply make_mount_spec. Qed.

(** ** umount_fs *)

Lemma umount_inodes_spec p n : ∀ i bh s,
  disk_ok p s → Z.of_nat (length bh) = BLOCK_SIZE → 0 ≤ i →
  length (table_words (inode_table s)) = table_size →
  0 ≤ inode_metadata_offset (superblock s) →
  inode_metadata_offset (superblock s) + i + Z.of_nat n ≤ DISK_BLOCKS →
  (n = O ∨ block_end (i + Z.of_nat n - 1) ≤ Z.of_nat table_size) →
  ∃ d, umount_inodes n i bh s = Ret (0, set_dev s d) ∧ disk_ok p (set_dev s d) ∧
    ∀ q b, dev_block d q b =
      if decide (q = p ∧ i ≤ b - inode_metadata_offset (superblock s) < i + Z.of_nat n)
      then Some (words_bytes (block_words (table_words (inode_table s))
                                          (b - inode_metadata_offset (superblock s))))
      else dev_block (dev s) q b.
Proof.
  induction n as [|n IH]; intros i bh s Hdk Hbh Hi Hl Ho Hr Hend.
  { exists (dev s). split_and!; [by destruct s|by destruct s|].
    intros q b. rewrite decide_False by (intros [_ ?]; lia). done. }
  destruct Hend as [|Hend]; [done|].
  assert (block_end i ≤ Z.of_nat table_size) as Hend0 by mlia.
  cbn [umount_inodes]. rewrite mem_load_ok by mlia. rstep. fold (block_words (table_words (inode_table s)) i).
  assert (length (words_bytes (block_words (table_words (inode_table s)) i)) = Z.to_nat BLOCK_SIZE) as Hlw.
  { rewrite length_words_bytes, length_block_words by lia. reflexivity. }
  rewrite mem_store_ok by lia. rstep. change (Z.to_nat 0) with 0%nat. rewrite take_0, app_nil_l.
  rewrite drop_ge, app_nil_r by lia.
  destruct (write_at p s (inode_metadata_offset (superblock s) + i)
    (words_bytes (block_words (table_words (inode_table s)) i))) as (d1 & -> & Hdk1 & Hd1);
    [done|lia|lia|].
  change (0 =? -1) with false. cbv iota.
  destruct (IH (i + 1) (words_bytes (block_words (table_words (inode_table s)) i)) (set_dev s d1))
    as (d2 & -> & Hdk2 & Hd2); cbn [superblock inode_table set_dev]; try assumption; try lia.
  { destruct n; [by left|right]. replace (i + 1 + Z.of_nat (S n) - 1) with (i + Z.of_nat (S (S n)) - 1) by lia. done. }
  exists d2. split; [reflexivity|]. split; [by apply (disk_ok_dev p (set_dev (set_dev s d1) d2))|].
  intros q b. rewrite Hd2. cbn [superblock inode_table dev set_dev].
  set (off := inode_metadata_offset (superblock s)) in *.
  destruct (decide (q = p ∧ i ≤ b - off < i + Z.of_nat (S n))) as [[-> Hb]|Hb].
  - destruct (decide (b - off = i)) as [He|He].
    + rewrite decide_False by (intros [_ ?]; lia). rewrite Hd1, decide_True by (split; [done|lia]).
      by rewrite He.
    + rewrite decide_True; [done|]. split; [done|lia].
  - rewrite decide_False by (intros [-> ?]; apply Hb; split; [done|lia]). rewrite Hd1, decide_False; [done|].
    intros [-> ->]. apply Hb. split; [done|]. lia.
Qed.

(** What [umount_fs] can put on the disk: the values of the superblock, the
    inode numbers and the words of the inodes fit their fields, and the
    metadata blocks are on the disk. *)
Record storable s : Prop := {
  st_super : super_range (superblock s);
  st_offset : 1 ≤ inode_metadata_offset (superblock s);
  st_bitmap : 1 ≤ used_block_bitmap_offset (superblock s) < inode_metadata_offset (superblock s);
  st_blocks : inode_metadata_offset (superblock s) + inode_metadata_blocks (superblock s) < DISK_BLOCKS;
  st_fits : inode_metadata_blocks (superblock s) = 0 ∨
    block_end (inode_metadata_blocks (superblock s) - 1) ≤ Z.of_nat table_size;
  st_dir : Forall entry_ok (directory s);
  st_words : Forall word (table_words (inode_table s))
}.

Lemma wf_inodes_ok s : shapes s →
  length (inode_table s) = Z.to_nat MAX_NUM_OF_FILES ∧ Forall inode_ok (inode_table s).
Proof.
  intros Hs. split; [pose proof (sh_inodes s Hs); lia|]. apply Forall_lookup. intros j ino Hj.
  apply (sh_direct s Hs (Z.of_nat j)). by rewrite zget_nat.
Qed.

(** Storing at the beginning of a buffer. *)
Lemma store_front (dst src : bytes) : (length src <= length dst)%nat →
  ∃ r, mem_store dst 0 src = Ret (src ++ r) ∧ length (src ++ r) = length dst.
Proof.
  intros Hl. exists (drop (length src) dst). rewrite mem_store_ok by lia. split; [done|].
  rewrite length_app, length_drop. lia.
Qed.

(** The blocks [umount_fs] wrote: the superblock in front of [r0], the directory
    in front of [r1], and the inode table. *)
Definition unmounted_block (p : path) s (r0 r1 : bytes) (q : path) (b : Z) : option bytes :=
  let off := inode_metadata_offset (superblock s) in
  let n := inode_metadata_blocks (superblock s) in
  if decide (q = p ∧ 0 ≤ b - off < n)
  then Some (words_bytes (block_words (table_words (inode_table s)) (b - off)))
  else if decide (q = p ∧ b = off + n) then Some (directory_bytes (directory s) ++ r1)
  else if decide (q = p ∧ b = 0) then Some (super_bytes (superblock s) ++ r0)
  else dev_block (dev s) q b.

Lemma unmounted_described p s r0 r1 d bm :
  shapes s → disk_ok p s → storable s → dev_ok d → dev_open d = None →
  dev_block (dev s) p (used_block_bitmap_offset (superblock s)) = Some bm →
  (∀ q b, dev_block d q b = unmounted_block p s r0 r1 q b) →
  described p (superblock s) (directory s) (table_words (inode_table s)) bm d.
Proof.
  intros Hs Hdk [Hsr Hoff Hbo Hnb Hfit Hde Hww] Hok Ho Hbm Hall.
  destruct (wf_inodes_ok s Hs) as [Hlt Htok]. pose proof (length_table_words _ Hlt Htok) as Hltw.
  assert (length (directory s) = Z.to_nat MAX_NUM_OF_FILES) as Hld by (pose proof (sh_dir s Hs); lia).
  pose proof Hsr as (_ & _ & Hnr & _). unfold unmounted_block in Hall.
  set (off := inode_metadata_offset (superblock s)) in *.
  set (n := inode_metadata_blocks (superblock s)) in *.
  split; try assumption; fold off n.
  - intros b Hb. rewrite Hall. destruct (decide _); [by eexists|].
    destruct (decide _); [by eexists|]. destruct (decide _); [by eexists|]. by apply Hdk.
  - exists r0. rewrite Hall, !decide_False by (intros [_ ?]; lia). by rewrite decide_True.
  - done.
  - exists r1. rewrite Hall, decide_False by (intros [_ ?]; lia). by rewrite decide_True.
  - done.
  - intros j Hj. rewrite Hall, decide_True by (split; [done|lia]). do 3 f_equal. lia.
  - rewrite Hall, !decide_False by (intros [_ ?]; unfold off in *; lia). exact Hbm.
Qed.

Lemma umount_fs_spec p s :
  shapes s → disk_ok p s → storable s →
  ∃ s' bm, umount_fs (Some p) s = Ret (0, s') ∧ open_disk_fd s' = -1 ∧
    dev_block (dev s) p (used_block_bitmap_offset (superblock s)) = Some bm ∧
    described p (superblock s) (directory s) (table_words (inode_table s)) bm (dev s') ∧
    (∀ q b, q ≠ p → dev_block (dev s') q b = dev_block (dev s) q b) ∧
    ∀ b, b ≠ 0 → ¬ (inode_metadata_offset (superblock s) ≤ b
                      ≤ inode_metadata_offset (superblock s) + inode_metadata_blocks (superblock s)) →
      dev_block (dev s') p b = dev_block (dev s) p b.
Proof.
  intros Hs Hdk Hst. pose proof Hst as [Hsr Hoff Hbo Hnb Hfit Hde Hww].
  destruct (wf_inodes_ok s Hs) as [Hlt Htok]. pose proof (length_table_words _ Hlt Htok) as Hltw.
  assert (length (directory s) = Z.to_nat MAX_NUM_OF_FILES) as Hld by (pose proof (sh_dir s Hs); lia).
  pose proof (length_directory_bytes _ Hld Hde) as Hldb. pose proof Hsr as (_ & _ & Hnr & _).
  unfold umount_fs.
  destruct (store_front (replicate (Z.to_nat BLOCK_SIZE) 0) (super_bytes (superblock s)))
    as (r0 & -> & Hl0); [rewrite length_super_bytes, length_replicate; blia|].
  rewrite length_replicate in Hl0. rstep.
  destruct (write_at p s 0 (super_bytes (superblock s) ++ r0) Hdk) as (d0 & -> & Hdk0 & Hd0);
    [blia|by rewrite Hl0|].
  change (0 =? -1) with false. cbv iota.
  change (directory (set_dev s d0)) with (directory s). change (superblock (set_dev s d0)) with (superblock s).
  destruct (store_front (super_bytes (superblock s) ++ r0) (directory_bytes (directory s)))
    as (r1 & -> & Hl1); [blia|]. rewrite Hl0 in Hl1. rstep.
  set (off := inode_metadata_offset (superblock s)) in *.
  set (n := inode_metadata_blocks (superblock s)) in *.
  destruct (write_at p (set_dev s d0) (off + n) (directory_bytes (directory s) ++ r1) Hdk0)
    as (d1 & -> & Hdk1 & Hd1); [lia|by rewrite Hl1|].
  change (0 =? -1) with false. cbv iota.
  destruct (umount_inodes_spec p (Z.to_nat n) 0 (directory_bytes (directory s) ++ r1)
      (set_dev (set_dev s d0) d1))
    as (d2 & E & Hdk2 & Hd2); cbn [superblock inode_table set_dev]; try assumption; fold off; try lia.
  { by rewrite Hl1. }
  { destruct Hfit as [->|]; [by left|right]. by replace (0 + Z.of_nat (Z.to_nat n) - 1) with (n - 1) by lia. }
  cbn [superblock inode_table set_dev] in E, Hd2. fold n. rewrite E. rstep. clear E.
  change (0 =? -1) with false. cbv iota. unfold dev_close_disk. cbn [dev set_fds set_dev].
  destruct (close_disk_ok d2) as (d3 & -> & Hok3 & Ho3 & Hd3); [apply Hdk2|eexists; apply Hdk2|].
  change (0 =? -1) with false. cbv iota. fold off in Hd2. cbn [dev set_dev] in Hd2, Hd1, Hd0.
  assert (∀ q b, dev_block d3 q b = unmounted_block p s r0 r1 q b) as Hall.
  { intros q b. rewrite Hd3, Hd2, Hd1, Hd0. rewrite Z2Nat.id, Z.add_0_l by lia. done. }
  destruct (dk_blocks p s Hdk (used_block_bitmap_offset (superblock s))) as [bm Hbm]; [unfold off in *; lia|].
  eexists _, bm. split; [reflexivity|]. split; [reflexivity|]. split; [exact Hbm|].
  cbn [dev set_disk_fd set_dev]. split; [by eapply unmounted_described|].
  unfold unmounted_block in Hall. fold off n in Hall. split.
  - intros q b Hq. by rewrite Hall, !decide_False by (intros [? _]; done).
  - intros b Hb Hnot. by rewrite Hall, !decide_False by (intros [_ ?]; lia).
Qed.

(** C16: [umount_fs] stores a mounted file system whose metadata blocks are on
    the disk and whose fields hold representable values ([storable]); mounting
    the disk again, whatever the program's variables hold then, gives back the
    superblock, the directory and every inode whose words lie in the metadata
    blocks (the first [inode_metadata_blocks] inodes), no open descriptors, and
    the bytes of the first bitmap block, of which only
    [used_block_bitmap_count] are loaded.  This is so as long as the superblock
    counts at most 1024 used blocks, the number of bytes of
    [used_block_bitmap]; with a larger count (four full files of 1 MiB are
    enough) [umount_fs] still succeeds but [mount_fs] writes past the end of
    the array. *)
Theorem umount_mount_roundtrip p s t :
  shapes s → disk_ok p s → storable s → shapes t →
  let count := used_block_bitmap_count (superblock s) in
  ∃ s' bm, umount_fs (Some p) s = Ret (0, s') ∧
    dev_block (dev s) p (used_block_bitmap_offset (superblock s)) = Some bm ∧
    (count ≤ TOTAL_BLOCKS / CHAR_BIT →
     ∃ t', mount_fs (Some p) (set_dev t (dev s')) = Ret (0, t') ∧
       superblock t' = superblock s ∧ directory t' = directory s ∧
       (∀ j, 0 ≤ j < inode_metadata_blocks (superblock s) →
          zget (inode_table t') j = zget (inode_table s) j) ∧
       (∀ i f, zget (open_file_descriptors t') i = Some f → fd_is_used f = false) ∧
       used_block_bitmap t' = take (Z.to_nat count) bm ++ drop (Z.to_nat count) (used_block_bitmap t)) ∧
    (TOTAL_BLOCKS / CHAR_BIT < count → mount_fs (Some p) (set_dev t (dev s')) = UB).
Proof.
  intros Hs Hdk Hst Ht count.
  destruct (umount_fs_spec p s Hs Hdk Hst) as (s' & bm & E & _ & Hbm & Hds & _ & _).
  assert (shapes (set_dev t (dev s'))) as Ht' by (destruct Ht; by split).
  exists s', bm. split; [exact E|]. split; [exact Hbm|].
  split; [intros Hcnt|by apply (mount_fs_overflow p (superblock s) (directory s)
                                  (table_words (inode_table s)) bm)].
  destruct (mount_fs_spec p _ _ _ _ (set_dev t (dev s')) Ht' Hds Hcnt)
    as (t' & E' & _ & _ & _ & Hsb & Hdir & _ & Hfds & Hubm & Hlt & Hok & Hw).
  exists t'. split; [exact E'|].
  split; [exact Hsb|]. split; [exact Hdir|]. split; [|split; [|exact Hubm]].
  - intros j Hj. destruct (wf_inodes_ok s Hs) as [Hls Hoks].
    pose proof (length_table_words _ Hls Hoks) as Hlsw. pose proof (length_table_words _ Hlt Hok) as Hltw.
    destruct (st_fits s Hst) as [?|Hfit]; [lia|].
    unfold zget. destruct (Z.ltb_spec j 0); [done|].
    rewrite <- (words_table_words (inode_table t') Hlt Hok), <- (words_table_words (inode_table s) Hls Hoks).
    unfold words_table. rewrite !list_lookup_fmap, !split_every_lookup by mlia. do 2 f_equal.
    apply list_eq. intros a. destruct (decide (a < Z.to_nat inode_words)%nat) as [Ha|Ha].
    + rewrite !lookup_take_lt, !lookup_drop, Hw by done. rewrite decide_True; [done|].
      split; [mlia|lia].
    + rewrite !lookup_ge_None_2; [done|..]; rewrite length_take; lia.
  - intros i f. rewrite Hfds. intros [_ Hi]%zget_Some. by apply lookup_replicate in Hi as [-> _].
Qed.

(** ** Data in the metadata blocks *)

Lemma alloc_block_inv j k s s' :
  alloc_block j k s = Ret (0, s') → used_block_bitmap_offset (superblock s) < TOTAL_BLOCKS →
  ∃ b ino, find_free_block (Z.to_nat (TOTAL_BLOCKS - used_block_bitmap_offset (superblock s)))
      (used_block_bitmap_offset (superblock s)) (used_block_bitmap s) = Ret (FoundBlock b) ∧
    zget (inode_table s) j = Some ino ∧ is_Some (zget (direct_offset ino) k) ∧
    inode_table s' = <[Z.to_nat j := set_direct ino (<[Z.to_nat k := b]> (direct_offset ino))]> (inode_table s) ∧
    inode_metadata_offset (superblock s') = inode_metadata_offset (superblock s).
Proof.
  unfold alloc_block. intros E Hst.
  destruct (find_free_block _ _ _) as [[b| |]| |] eqn:Hf; rstep; try done.
  - cbn [mbind res_mbind] in E. destruct (set_bit _ b) as [bm| |]; [|done..]. cbn [mbind res_mbind] in E.
    unfold aread in E. destruct (zget (inode_table s) j) as [ino|] eqn:Hj; [|done].
    cbn [mbind res_mbind] in E. unfold awrite in E.
    destruct (zget (direct_offset ino) k) as [old|] eqn:Hk; [|done].
    cbn [mbind res_mbind] in E. rewrite Hj in E. cbn [mbind res_mbind] in E. injection E as <-.
    exists b, ino. split_and!; try done; by eexists.
  - exfalso. destruct (Z.to_nat _) eqn:Hn in Hf; [lia|]. cbn [find_free_block] in Hf.
    assert (∀ m i bm, (0 < m)%nat → i + Z.of_nat m = TOTAL_BLOCKS →
      find_free_block m i bm ≠ Ret NoBlockScanned) as Hno.
    { induction m as [|m IH]; intros i bm Hm Hi; [lia|]. cbn [find_free_block].
      destruct (get_bit bm i) as [[]| |]; rstep; cbn [negb]; try done.
      destruct (Z.eqb_spec i (TOTAL_BLOCKS - 1)); [done|]. apply IH; lia. }
    eapply (Hno (S n)); [lia| |exact Hf]. lia.
Qed.

(** C37: nothing keeps the allocator out of the metadata blocks: when the blocks
    before the inode table are taken, a growing file is given the first block
    of the inode table, and [umount_fs] then writes the inode table over the
    file's data there. *)
Theorem data_in_metadata_lost p s j k s1 :
  wf p s → 0 ≤ j < MAX_NUM_OF_FILES → 0 ≤ k < NUM_DIRECT → entry s j k = 0 →
  let off := inode_metadata_offset (superblock s) in
  used_block_bitmap_offset (superblock s) ≤ off < TOTAL_BLOCKS →
  (∀ b, used_block_bitmap_offset (superblock s) ≤ b < off → bit (used_block_bitmap s) b = true) →
  bit (used_block_bitmap s) off = false →
  alloc_block j k s = Ret (0, s1) → storable s1 → 0 < inode_metadata_blocks (superblock s1) →
  entry s1 j k = off ∧
  ∃ s2, umount_fs (Some p) s1 = Ret (0, s2) ∧
    dev_block (dev s2) p off = Some (words_bytes (block_words (table_words (inode_table s1)) 0)).
Proof.
  intros Hwf Hj Hk He off Hoff Hused Hfree Ha Hst Hnb. pose proof (wf_shapes p s Hwf) as Hs.
  pose proof (al_start s (wf_alloc p s Hwf)) as Hstart.
  destruct (alloc_block_inv j k s s1 Ha) as (b & ino & Hf & E & _ & Ht & Hmo); [lia|].
  destruct (alloc_block_spec p s j k Hwf Hj Hk He) as [[E1 _]|(s1' & E1 & W1 & _)]; [congruence|].
  assert (s1' = s1) as -> by congruence.
  assert (b = off) as ->.
  { destruct (find_free_block_spec (Z.to_nat (TOTAL_BLOCKS - used_block_bitmap_offset (superblock s)))
      (used_block_bitmap_offset (superblock s)) (used_block_bitmap s))
      as [(b' & E2 & Hb & Hbf & Hmin)|[E2 _]]; [unfold bit_index; pose proof (sh_bitmap s Hs); blia|lia..| |congruence].
    rewrite Hf in E2. injection E2 as <-.
    destruct (Z.lt_trichotomy b off) as [Hlt|[Heq|Hgt]]; [|done|].
    - rewrite Hused in Hbf; [done|lia].
    - rewrite Hmin in Hfree; [done|lia]. }
  split.
  - unfold entry. rewrite Ht, zget_insert, decide_True by (done || by eapply zget_range). simpl.
    rewrite zget_insert, decide_True; [done|done|]. rewrite (sh_direct s Hs _ _ E). lia.
  - destruct (umount_fs_spec p s1 (wf_shapes p s1 W1) (wf_disk p s1 W1) Hst)
      as (s2 & bm & E2 & _ & _ & Hds & _).
    exists s2. split; [done|]. pose proof (ds_table _ _ _ _ _ _ Hds 0) as Hblk.
    rewrite Hmo, Z.add_0_r in Hblk. apply Hblk. lia.
Qed.
End mount.
