(* ===== verification/FsRun.v ===== *)
(** * A file system from its making on

    The states that a process reaches when it makes and mounts a disk and then
    calls the functions of [fs.c], [fs_delete] excepted; they are well-formed,
    with directory and inode table in step.  And what the first deletion does
    to the file created next. *)

From S2P Require Export FsMount.

(** The calls that change the state of a mounted file system, but deletions. *)
Inductive call : Type :=
  | Create (name : bytes)
  | Open (name : bytes)
  | Close (fildes : Z)
  | Read (fildes : Z) (buf : bytes) (nbyte : Z)
  | Write (fildes : Z) (buf : bytes) (nbyte : Z)
  | Lseek (fildes offset : Z)
  | Truncate (fildes length : Z).

Section run.
Context {D : Type} `{BlockDeviceSpec D}.
Implicit Types s : fs D.

Definition run_call (c : call) s : res (Z * fs D) :=
  match c with
  | Create name => fs_create name s
  | Open name => fs_open name s
  | Close fd => fs_close fd s
  | Read fd buf n => '(r, s, _) ← fs_read fd buf n s; Ret (r, s)
  | Write fd buf n => fs_write fd buf n s
  | Lseek fd o => fs_lseek fd o s
  | Truncate fd n => fs_truncate fd n s
  end.

(** Arguments of their C types, buffers as long as the length given, offsets
    that are not past the end of the file, and writes within the size limit. *)
Definition call_ok (c : call) s : Prop :=
  match c with
  | Create _ | Open _ | Close _ => True
  | Read fd buf n => 0 ≤ n < 2 ^ 64 ∧ n ≤ Z.of_nat (length buf) ∧
      ∀ f, open_on s fd f → fd_offset f ≤ fsize s (fd_inode_number f)
  | Write fd buf n => 0 ≤ n ≤ Z.of_nat (length buf) ∧
      ∀ f, open_on s fd f → fd_offset f + n ≤ MAX_FILESIZE ∧ fd_offset f ≤ fsize s (fd_inode_number f)
  | Lseek _ n | Truncate _ n => - 2 ^ 63 ≤ n < 2 ^ 63
  end.

(** A disk is made and mounted in a process that has not used the file system;
    then no file is deleted, and the disk is not mounted again. *)
Inductive undeleted (p : path) : fs D → Prop :=
  | undeleted_mount past_super past_bitmap s s1 s2 :
      dev_ok (dev s) → dev_open (dev s) = None → shapes s → inode_table s = zero_table →
      Z.of_nat (length past_super) = BLOCK_SIZE - sizeof_super_block →
      Z.of_nat (length past_bitmap) = BLOCK_SIZE - TOTAL_BLOCKS / CHAR_BIT →
      make_fs past_super past_bitmap (Some p) s = Ret (0, s1) →
      mount_fs (Some p) s1 = Ret (0, s2) →
      undeleted p s2
  | undeleted_call s c r s' :
      undeleted p s → call_ok c s → run_call c s = Ret (r, s') → undeleted p s'.

(** ** The invariant *)

Record in_step (p : path) s : Prop := {
  is_wf : wf p s;
  is_tidy : tidy s;
  is_unique : names_unique (directory s)
}.

(** Calls that leave the directory and the types of the inodes alone. *)
Lemma in_step_same p s s' : in_step p s → wf p s' → directory s' = directory s →
  (∀ j, ftype s' j = ftype s j) → in_step p s'.
Proof.
  intros [_ [Hal Hp] Hu] Hwf Hd Hft. split; [done| |by rewrite Hd].
  split; [|by rewrite Hd]. intros i e. rewrite Hd, Hft. apply Hal.
Qed.

Lemma open_or_not s fd : (∃ f, open_on s fd f) ∨ ∀ f, ¬ open_on s fd f.
Proof.
  destruct (descriptor fd s) as [f|] eqn:Hd; [|right; intros f [Hf _]; congruence].
  destruct (bad_file (fd_inode_number f) s) eqn:Hb; [right|by left; exists f].
  intros f' [Hf Hb']. congruence.
Qed.

(** In step, an inode is free when a directory entry is: [fs_create] fails
    before it changes anything. *)
Lemma fs_create_failed p s name r s' : in_step p s → fs_create name s = Ret (r, s') → r ≠ 0 → s' = s.
Proof.
  intros [Hwf [Hal _] _]. unfold fs_create. destruct (_ || _); [by intros [= <- <-]|].
  destruct (open_disk_fd s =? -1); [by intros [= <- <-]|].
  destruct (first_index (entry_named name) (directory s)); [by intros [= <- <-]|].
  rewrite (aligned_first_free s (wf_shapes p s Hwf) Hal).
  destruct (first_index _ (directory s)) as [k|] eqn:Hk; [|by intros [= <- <-]].
  destruct (aread _ _) as [old| |]; [|done..]. rstep.
  destruct (awrite (inode_table s) _ _) as [tbl| |]; [|done..]. rstep.
  destruct (set_bit _ _) as [ibm| |]; [|done..]. rstep.
  change (directory (set_inode_bitmap (set_inodes s tbl) ibm)) with (directory s). rewrite Hk.
  destruct (awrite (directory s) _ _) as [dir| |]; [|done..]. rstep. by intros [= <- <-].
Qed.

Lemma call_in_step p c s r s' :
  in_step p s → call_ok c s → run_call c s = Ret (r, s') → in_step p s'.
Proof.
  intros Hin Hok E. pose proof Hin as [Hwf Ht Hu].
  destruct c as [name|name|fd|fd buf n|fd buf n|fd o|fd n]; cbn [run_call call_ok] in *.
  - destruct (fs_create_spec p s name Hwf Hu) as (r' & s1 & E1 & W & U & _).
    rewrite E in E1. injection E1 as <- <-. destruct (Z.eqb_spec r 0) as [->|Hr].
    + split; [done|exact (fs_create_tidy p s name _ Hwf Ht E)|done].
    + by rewrite (fs_create_failed p s name r s').
  - destruct (fs_open_spec p s name Hwf) as [(i & fd & f & _ & _ & _ & _ & _ & E1 & W & _)|[_ E1]];
      rewrite E in E1; injection E1 as -> ->; [by apply (in_step_same p s)|done].
  - pose proof (fs_close_correct p s fd Hwf) as Hc. destruct (descriptor fd s).
    + destruct Hc as (E1 & W & _). rewrite E in E1. injection E1 as -> ->. by apply (in_step_same p s).
    + rewrite E in Hc. by injection Hc as -> ->.
  - destruct Hok as (Hn & Hb & Ho). destruct (open_or_not s fd) as [[f Hf]|Hno].
    + destruct (fs_read_spec p s fd f buf n Hwf Hf Hn (Ho f Hf)) as (s1 & E1 & W & Hd & _ & _ & Hft); [lia|].
      rewrite E1 in E. injection E as <- <-. by apply (in_step_same p s).
    + destruct (not_open_rejected s fd buf n Hno) as (E1 & _). rewrite E1 in E. by injection E as <- <-.
  - destruct Hok as (Hn & Ho). destruct (open_or_not s fd) as [[f Hf]|Hno].
    + destruct (Ho f Hf) as [Hmax Hoff].
      destruct (fs_write_spec p s fd f buf n Hwf Hf Hn Hmax Hoff)
        as (r' & m & s1 & E1 & _ & W & Hd & _ & _ & _ & Hft).
      rewrite E1 in E. injection E as <- <-. by apply (in_step_same p s).
    + destruct (not_open_rejected s fd buf n Hno) as (_ & E1 & _). rewrite E1 in E. by injection E as <- <-.
  - destruct (open_or_not s fd) as [[f Hf]|Hno].
    + destruct (fs_lseek_spec p s fd f o Hwf Hf Hok) as [Hin1 Hout].
      destruct (decide (0 ≤ o ≤ fsize s (fd_inode_number f))) as [Hr|Hr].
      * destruct (Hin1 Hr) as [E1 W]. rewrite E1 in E. injection E as <- <-. by apply (in_step_same p s).
      * rewrite (Hout Hr) in E. by injection E as <- <-.
    + destruct (not_open_rejected s fd [] o Hno) as (_ & _ & E1 & _). rewrite E1 in E. by injection E as <- <-.
  - destruct (open_or_not s fd) as [[f Hf]|Hno].
    + destruct (fs_truncate_spec p s fd f n Hwf Hf Hok) as [Hin1 Hout].
      destruct (decide (0 ≤ n ≤ fsize s (fd_inode_number f))) as [Hr|Hr].
      * destruct (Hin1 Hr) as (s1 & E1 & W & _ & _ & _ & Hd & Hft).
        rewrite E1 in E. injection E as <- <-. by apply (in_step_same p s).
      * rewrite (Hout Hr) in E. by injection E as <- <-.
    + destruct (not_open_rejected s fd [] n Hno) as (_ & _ & _ & E1). rewrite E1 in E. by injection E as <- <-.
Qed.

Theorem undeleted_in_step p s : undeleted p s → in_step p s.
Proof.
  induction 1 as [ps pb s s1 s2 Hok Hcl Hs Ht Hps Hpb E1 E2|s c r s' _ IH Hok E].
  - destruct (make_mount_spec ps pb p s Hok Hcl Hs Ht Hps Hpb) as (t1 & t2 & F1 & F2 & W & T & U & _).
    rewrite E1 in F1. injection F1 as <-. rewrite E2 in F2. injection F2 as <-. by split.
  - by eapply call_in_step.
Qed.

(** C36: on a disk that was made and mounted in this process and from which no
    file was deleted before, the first deletion takes the directory and the
    inode table out of step: the file that the next successful [fs_create]
    makes is opened by [fs_open] when a descriptor is free, but every read,
    write, seek and truncation through that descriptor returns -1 and changes
    nothing.  (After another deletion, or after mounting a disk with more files
    than its metadata blocks hold inodes, the two may meet again.) *)
Theorem create_after_delete_unusable p past s name s1 name' s2 :
  undeleted p s → fs_delete past name s = Ret (0, s1) → fs_create name' s1 = Ret (0, s2) →
  ∃ fd s3, fs_open name' s2 = Ret (fd, s3) ∧
    ((∃ g f, zget (open_file_descriptors s2) g = Some f ∧ fd_is_used f = false) → fd ≠ -1) ∧
    (fd ≠ -1 → ∀ buf n,
       fs_read fd buf n s3 = Ret (-1, s3, buf) ∧ fs_write fd buf n s3 = Ret (-1, s3) ∧
       fs_lseek fd n s3 = Ret (-1, s3) ∧ fs_truncate fd n s3 = Ret (-1, s3)).
Proof.
  intros [Hwf Ht _]%undeleted_in_step Hd Hc.
  destruct (create_after_delete p past s name s1 name' s2 Hwf Ht Hd Hc) as (fd & s3 & Ho & Hfree & Hno).
  exists fd, s3. split; [done|]. split; [done|]. intros Hfd buf n. by apply not_open_rejected, Hno.
Qed.
End run.
