(* ===== verification/FsDemo.v ===== *)
(** * Concrete file systems

    A small mounted file system on the disk in memory, shown well-formed, and
    the theorems on open files applied to it. *)

From S2P Require Import MemDisk.
From S2P Require Export FsRun.

(** The disk named "d", whose block 40 starts with the bytes 104, 105. *)
Definition demo_disk : mem_disk :=
  MemDisk (Some [100]) {[ [100] := {[ 40 := [104; 105] ++ drop 2 md_zero ]} ]}.

Definition demo_inode (sz : Z) : inode :=
  Inode 1 (<[0%nat := 40]> (replicate (Z.to_nat NUM_DIRECT) 0)) 0 0 sz.

Definition empty_inode : inode := Inode 1 (replicate (Z.to_nat NUM_DIRECT) 0) 0 0 0.

(** Two files: the inode 0, named "a", empty and closed; and the inode 1,
    named "b", of size [sz] in block 40, open on the descriptors 0 and 1 at the
    offsets [o0] and [o1].  The blocks 0 and 1 are marked as used. *)
Definition demo (sz o0 o1 : Z) : fs mem_disk :=
  let s := fs_init demo_disk in
  Fs 0 (<[0%nat := 3]> (<[5%nat := 1]> (used_block_bitmap s)))
     (<[0%nat := empty_inode]> (<[1%nat := demo_inode sz]> zero_table))
     (<[0%nat := FileDescriptor true 1 o0]>
       (<[1%nat := FileDescriptor true 1 o1]> (open_file_descriptors s)))
     make_super
     (<[0%nat := DirEntry true 0 (strncpy [97] (Z.to_nat MAX_FILE_NAME))]>
       (<[1%nat := DirEntry true 1 (strncpy [98] (Z.to_nat MAX_FILE_NAME))]> zero_directory))
     (<[0%nat := 3]> (inode_bitmap s)) demo_disk.

Lemma demo_disk_ok : dev_ok demo_disk.
Proof.
  split.
  - intros p [= <-]. by eexists.
  - intros p b blk. unfold md_block; simpl. rewrite lookup_singleton. case_decide; [|done].
    destruct (in_range b); [|done]. rewrite lookup_singleton. intros [= <-].
    case_decide; reflexivity.
Qed.

(** Elements 0 and 1 of an array. *)
Lemma zget_insert2 {A} (l : list A) x y i : 2 ≤ Z.of_nat (length l) →
  zget (<[0%nat := x]> (<[1%nat := y]> l)) i =
    if decide (i = 0) then Some x else if decide (i = 1) then Some y else zget l i.
Proof.
  intros Hl. change (1%nat) with (Z.to_nat 1). change (0%nat) with (Z.to_nat 0).
  rewrite !zget_insert by (rewrite ?length_insert; lia). done.
Qed.

Section demo.
Context (sz o0 o1 : Z).

Lemma demo_inode_at j :
  zget (inode_table (demo sz o0 o1)) j =
    if decide (j = 0) then Some empty_inode else if decide (j = 1) then Some (demo_inode sz)
    else if decide (0 ≤ j < MAX_NUM_OF_FILES) then Some zero_inode else None.
Proof.
  unfold demo; cbn [inode_table]. rewrite zget_insert2 by (unfold zero_table; by rewrite length_replicate).
  unfold zero_table. by rewrite zget_replicate.
Qed.

Lemma demo_entry_at i :
  zget (directory (demo sz o0 o1)) i =
    if decide (i = 0) then Some (DirEntry true 0 (strncpy [97] (Z.to_nat MAX_FILE_NAME)))
    else if decide (i = 1) then Some (DirEntry true 1 (strncpy [98] (Z.to_nat MAX_FILE_NAME)))
    else if decide (0 ≤ i < MAX_NUM_OF_FILES) then Some zero_entry else None.
Proof.
  unfold demo; cbn [directory]. rewrite zget_insert2 by (unfold zero_directory; by rewrite length_replicate).
  unfold zero_directory. by rewrite zget_replicate.
Qed.

Lemma demo_entry j k :
  entry (demo sz o0 o1) j k = if decide (j = 1 ∧ k = 0) then 40 else 0.
Proof.
  unfold entry. rewrite demo_inode_at.
  destruct (decide (j = 0)) as [->|Hj]; [|destruct (decide (j = 1)) as [->|Hj']].
  - rewrite (decide_False (P := 0 = 1 ∧ k = 0)) by lia. unfold empty_inode; cbn [direct_offset].
    rewrite zget_replicate. by case_decide.
  - unfold demo_inode; cbn [direct_offset]. change (0%nat) with (Z.to_nat 0).
    rewrite zget_insert, zget_replicate by by rewrite length_replicate.
    destruct (decide (k = 0)) as [->|Hk]; [by rewrite decide_True|].
    rewrite (decide_False (P := 1 = 1 ∧ k = 0)) by tauto. by case_decide.
  - rewrite (decide_False (P := j = 1 ∧ k = 0)) by tauto. case_decide; [|done].
    unfold zero_inode; cbn [direct_offset]. rewrite zget_replicate. by case_decide.
Qed.

Lemma demo_fsize j : fsize (demo sz o0 o1) j = if decide (j = 1) then sz else 0.
Proof.
  unfold fsize. rewrite demo_inode_at. destruct (decide (j = 0)) as [->|]; [done|].
  repeat case_decide; done.
Qed.

Lemma demo_ftype j : ftype (demo sz o0 o1) j = if decide (j = 0 ∨ j = 1) then 1 else 0.
Proof.
  unfold ftype. rewrite demo_inode_at. destruct (decide (j = 0)) as [->|]; [done|].
  destruct (decide (j = 1)) as [->|]; [done|].
  rewrite (decide_False (P := j = 0 ∨ j = 1)) by tauto. by case_decide.
Qed.

Lemma demo_allocated pos : pos ≤ BLOCK_SIZE → allocated (demo sz o0 o1) 1 pos.
Proof. intros Hpos k Hk Hlt. rewrite demo_entry, decide_True; [done|]. split; [done|blia]. Qed.

Lemma demo_fds i f :
  zget (open_file_descriptors (demo sz o0 o1)) i = Some f → fd_is_used f = true →
  fd_inode_number f = 1 ∧ (fd_offset f = o0 ∨ fd_offset f = o1).
Proof.
  unfold demo; cbn [open_file_descriptors fs_init]. rewrite zget_insert2 by by rewrite length_replicate.
  rewrite zget_replicate. repeat case_decide; intros [= <-]; try done; simpl; auto.
Qed.

Lemma demo_used i e : zget (directory (demo sz o0 o1)) i = Some e → de_is_used e = true →
  (i = 0 ∧ cname (de_name e) = [97]) ∨ (i = 1 ∧ cname (de_name e) = [98]).
Proof.
  rewrite demo_entry_at. destruct (decide (i = 0)); [intros [= <-] _; by left|].
  destruct (decide (i = 1)); [intros [= <-] _; by right|]. case_decide; by intros [= <-].
Qed.

Lemma demo_unique : names_unique (directory (demo sz o0 o1)).
Proof.
  intros i j e e' Hi Hj Hu Hu' Hn. rewrite <- zget_nat in Hi, Hj.
  destruct (demo_used _ _ Hi Hu) as [[? E1]|[? E1]], (demo_used _ _ Hj Hu') as [[? E2]|[? E2]];
    first [lia|congruence].
Qed.

Lemma demo_tidy : tidy (demo sz o0 o1).
Proof.
  split.
  - intros i e. rewrite demo_entry_at, demo_ftype.
    destruct (decide (i = 0)) as [->|]; [intros [= <-]; done|].
    destruct (decide (i = 1)) as [->|]; [intros [= <-]; done|].
    rewrite (decide_False (P := i = 0 ∨ i = 1)) by tauto. case_decide; by intros [= <-].
  - intros i j e e' Hi Hj Hlt Hu'. rewrite <- zget_nat in Hi, Hj.
    destruct (demo_used _ _ Hj Hu') as [[? _]|[? _]]; [lia|]. assert (Z.of_nat i = 0) as E by lia.
    rewrite E, demo_entry_at in Hi. by injection Hi as <-.
Qed.

Lemma demo_open_0 : open_on (demo sz o0 o1) 0 (FileDescriptor true 1 o0).
Proof. by split. Qed.

Lemma demo_open_1 : open_on (demo sz o0 o1) 1 (FileDescriptor true 1 o1).
Proof. by split. Qed.
Context (Hsz : 0 ≤ sz ≤ BLOCK_SIZE) (Ho0 : 0 ≤ o0 ≤ BLOCK_SIZE) (Ho1 : 0 ≤ o1 ≤ BLOCK_SIZE).

Lemma demo_wf : wf [100] (demo sz o0 o1).
Proof.
  split; [done| | | | |].
  - split; try done. intros j ino. rewrite demo_inode_at. repeat case_decide; intros [= <-]; done.
  - split; [done|..].
    + intros j k. rewrite demo_entry. case_decide; blia.
    + intros j k. rewrite demo_entry. case_decide; [reflexivity|done].
    + intros j k j' k'. rewrite !demo_entry. repeat case_decide; try done.
      intros _ _. intuition congruence.
  - split.
    + intros j. rewrite demo_fsize. case_decide; blia.
    + intros j k Hk. rewrite demo_fsize. case_decide as C; [|blia]. subst j.
      apply demo_allocated; [lia|done].
    + intros i f Hf Hu. destruct (demo_fds i f Hf Hu) as [-> Ho].
      split_and!; try (destruct Ho; blia); [done|]. apply demo_allocated. destruct Ho; lia.
  - intros i e. rewrite demo_entry_at. repeat case_decide; intros [= <-]; done.
  - split; [apply demo_disk_ok|done|]. intros b Hb. cbn. unfold md_block. simpl.
    rewrite (proj2 (in_range_spec b)) by done. by eexists.
Qed.

End demo.

Lemma demo_540 : wf [100] (demo 5 4 0).
Proof. apply demo_wf; done. Qed.

(** ** The theorems on open files, applied *)


Lemma fs_write_correct_witness :
  ∃ r n s', fs_write 0 [1; 2; 3] 3 (demo 5 4 0) = Ret (r, s') ∧
    (r = 3 ∧ n = 3 ∨ r = -1 ∧ 0 ≤ n < 3 ∧ full s') ∧ wf [100] s'.
Proof.
  destruct (fs_write_correct [100] (demo 5 4 0) 0 (FileDescriptor true 1 4) [1; 2; 3] 3
    ltac:(by apply demo_wf) ltac:(apply demo_open_0) ltac:(done) ltac:(done) ltac:(done))
    as (r & n & s' & E & R & W & _). exists r, n, s'. exact (conj E (conj R W)).
Defined.

Lemma fs_read_correct_witness :
  ∃ s', fs_read 0 [0; 0; 0; 0] 4 (demo 2 1 0) = Ret (1, s', [105; 0; 0; 0]).
Proof.
  destruct (fs_read_correct [100] (demo 2 1 0) 0 (FileDescriptor true 1 1) [0; 0; 0; 0] 4
    ltac:(by apply demo_wf) ltac:(apply demo_open_0) ltac:(done) ltac:(done) ltac:(done))
    as (s' & E & _). exists s'. exact E.
Defined.

Lemma fs_lseek_correct_witness :
  ∃ s', fs_lseek 1 3 (demo 5 4 0) = Ret (0, s') ∧ fs_lseek 1 6 (demo 5 4 0) = Ret (-1, demo 5 4 0).
Proof.
  pose proof demo_540 as Hwf.
  pose proof (demo_open_1 5 4 0) as Hopen.
  pose proof (λ o H, fs_lseek_correct [100] (demo 5 4 0) 1 (FileDescriptor true 1 0) o Hwf Hopen H) as T.
  change (fsize (demo 5 4 0) (fd_inode_number (FileDescriptor true 1 0))) with 5 in T.
  eexists. split.
  - apply (T 3); lia.
  - apply (T 6); lia.
Defined.

Lemma fs_truncate_correct_witness :
  ∃ s', fs_truncate 0 1 (demo 2 2 0) = Ret (0, s') ∧
    file_data [100] s' 1 = take 1 (file_data [100] (demo 2 2 0) 1).
Proof.
  destruct (fs_truncate_correct [100] (demo 2 2 0) 0 (FileDescriptor true 1 2) 1
    ltac:(by apply demo_wf) ltac:(apply demo_open_0) ltac:(done)) as [(s' & E & _ & F & _) _]; [done|].
  exists s'. split; [exact E|exact F].
Defined.

Lemma fs_get_filesize_correct_witness : fs_get_filesize 1 (demo 5 4 0) = Ret (5, demo 5 4 0).
Proof.
  apply (fs_get_filesize_correct [100] (demo 5 4 0) 1 (FileDescriptor true 1 0));
    [by apply demo_wf|apply demo_open_1|].
  exists 1, (DirEntry true 1 (strncpy [98] (Z.to_nat MAX_FILE_NAME))). by split_and!.
Defined.

(** A file of two bytes truncated to nothing through the descriptor 1 is still
    read through the descriptor 0, beyond its end. *)
Lemma fs_read_past_end_witness :
  ∃ s', fs_read 0 [0; 0] 2 (demo 0 1 0) = Ret (2, s', [105; 0]).
Proof.
  destruct (fs_read_past_end [100] (demo 0 1 0) 0 (FileDescriptor true 1 1) [0; 0] 2
    ltac:(by apply demo_wf) ltac:(apply demo_open_0) ltac:(done) ltac:(done) ltac:(done))
    as (s' & E); [apply demo_allocated; done|]. exists s'. exact E.
Defined.

Lemma write_seek_read_witness :
  ∃ s1 s2 s3, fs_write 0 [1; 2; 3] 3 (demo 5 4 0) = Ret (3, s1) ∧
    fs_lseek 0 4 s1 = Ret (0, s2) ∧ fs_read 0 [0; 0; 0] 3 s2 = Ret (3, s3, [1; 2; 3]).
Proof.
  destruct (fs_write 0 [1; 2; 3] 3 (demo 5 4 0)) as [[r s1]| |] eqn:E; [|by vm_compute in E..].
  assert (r = 3) as ->.
  { apply (f_equal (λ m, match m with Ret (r, _) => r | _ => 0 end)) in E.
    rewrite <- E. vm_compute. reflexivity. }
  destruct (write_seek_read [100] (demo 5 4 0) 0 (FileDescriptor true 1 4) [1; 2; 3] s1 [0; 0; 0]
    ltac:(by apply demo_wf) ltac:(apply demo_open_0) ltac:(done) ltac:(done) E eq_refl)
    as (s2 & s3 & E2 & E3). by exists s1, s2, s3.
Defined.

(** ** The theorems on the directory, applied *)

Lemma fs_create_correct_witness :
  ∃ r s', fs_create [99] (demo 5 4 0) = Ret (r, s') ∧ wf [100] s' ∧
    names_unique (directory s') ∧ r = 0.
Proof.
  destruct (fs_create_correct [100] (demo 5 4 0) [99] ltac:(by apply demo_wf) ltac:(apply demo_unique))
    as (r & s' & E & W & U & _ & _ & R). exists r, s'. split_and!; [exact E|exact W|exact U|].
  destruct R as [(-> & _)|(-> & _ & R)]; [done|]. exfalso.
  apply (f_equal (λ m, match m with Ret (r, _) => r =? 0 | _ => false end)) in E.
  vm_compute in E. discriminate E.
Defined.

Lemma fs_open_correct_witness :
  ∃ fd s', fs_open [98] (demo 5 4 0) = Ret (fd, s') ∧ (fd = -1 ∨ wf [100] s').
Proof.
  destruct (fs_open_correct [100] (demo 5 4 0) [98] ltac:(by apply demo_wf))
    as [(i & fd & f & _ & _ & _ & _ & _ & E & W & _)|[_ E]].
  - eexists fd, _. split; [exact E|by right].
  - eexists (-1), _. split; [exact E|by left].
Defined.

Lemma fs_close_correct_witness :
  ∃ s', fs_close 0 (demo 5 4 0) = Ret (0, s') ∧ wf [100] s' ∧ descriptor 0 s' = None.
Proof.
  destruct (fs_close_correct [100] (demo 5 4 0) 0 ltac:(by apply demo_wf)) as (E & W & N & _).
  eexists. split_and!; [exact E|exact W|exact N].
Defined.

Lemma fs_delete_correct_witness :
  ∃ s', fs_delete (λ _, 7) [97] (demo 5 4 0) = Ret (0, s') ∧
    dir_map s' = delete [97] (dir_map (demo 5 4 0)).
Proof.
  pose proof (fs_delete_correct [100] (λ _, 7) (demo 5 4 0) [97] ltac:(by apply demo_wf)
    ltac:(apply demo_unique)) as T.
  change (dir_map (demo 5 4 0) !! cname [97]) with (Some 0) in T.
  destruct T as [[(fd & f & Hf & Hu & Hi) _]|(_ & s' & E & M & _)].
  - exfalso. destruct (demo_fds 5 4 0 fd f Hf Hu) as [E _]. congruence.
  - exists s'. split; [exact E|exact M].
Defined.

Lemma fs_delete_frees_other_files_witness :
  ∃ s', fs_delete (λ _, 7) [97] (demo 5 4 0) = Ret (0, s') ∧ entry s' 1 0 = 40 ∧
    bit (used_block_bitmap (demo 5 4 0)) 40 = true ∧ bit (used_block_bitmap s') 40 = false ∧
    ¬ wf [100] s'.
Proof.
  apply (fs_delete_frees_other_files [100] (λ _, 7) (demo 5 4 0) [97] 0 1 0);
    [by apply demo_wf|apply demo_unique|reflexivity| |lia|by vm_compute|reflexivity].
  intros fd f Hf Hu. destruct (demo_fds 5 4 0 fd f Hf Hu) as [-> _]. lia.
Defined.

Lemma fs_listfiles_correct_witness : fs_listfiles (demo 5 4 0) = Ret (0, [[97]; [98]]).
Proof.
  destruct (fs_listfiles_correct (demo 5 4 0)) as [_ E]. rewrite (E (proj2 (demo_tidy 5 4 0))). reflexivity.
Defined.

Lemma fs_create_tidy_witness :
  ∃ s', fs_create [99] (demo 5 4 0) = Ret (0, s') ∧ tidy s'.
Proof.
  destruct (fs_create [99] (demo 5 4 0)) as [[r s']| |] eqn:E.
  - assert (r = 0) as ->.
    { apply (f_equal (λ m, match m with Ret (r, _) => r | _ => 1 end)) in E.
      rewrite <- E. reflexivity. }
    exists s'. split; [done|].
    exact (fs_create_tidy [100] (demo 5 4 0) [99] s' ltac:(by apply demo_wf) (demo_tidy 5 4 0) E).
  - apply (f_equal (λ m, match m with UB => true | _ => false end)) in E. discriminate E.
  - apply (f_equal (λ m, match m with NoFuel => true | _ => false end)) in E. discriminate E.
Defined.

Definition is_ret (m : res (Z * fs mem_disk)) (P : Z → fs mem_disk → bool) : bool :=
  match m with Ret (r, s) => P r s | _ => false end.

(** A call whose result is checked by evaluation, in a form to destruct. *)
Lemma is_ret_inv m P : is_ret m P = true → ∃ r s, m = Ret (r, s) ∧ P r s = true.
Proof. destruct m as [[r s]| |]; [|done..]. intros HP. by exists r, s. Qed.

(** ** Mounting *)

Lemma shapes_init {E} (d : E) : shapes (fs_init d).
Proof.
  split; unfold fs_init; cbn; rewrite ?length_replicate; try done.
  intros j ino [_ Hj]%zget_Some. by apply lookup_replicate in Hj as [-> _].
Qed.

Lemma make_mount_correct_witness :
  ∃ s1 s2, make_fs (replicate (Z.to_nat 4088) 0) (replicate (Z.to_nat 3072) 0) (Some [100])
      (fs_init no_disks) = Ret (0, s1) ∧
    mount_fs (Some [100]) s1 = Ret (0, s2) ∧ wf [100] s2 ∧ dir_map s2 = ∅.
Proof.
  destruct (make_mount_correct (replicate (Z.to_nat 4088) 0) (replicate (Z.to_nat 3072) 0) [100]
    (fs_init no_disks) no_disks_ok eq_refl (shapes_init no_disks) eq_refl)
    as (s1 & s2 & E1 & E2 & W & _ & _ & M); [by rewrite length_replicate..|].
  exists s1, s2. split_and!; [exact E1|exact E2|exact W|exact M].
Defined.

Definition word_b (z : Z) : bool := (0 <=? z) && (z <? 2 ^ 64).
Definition entry_ok_b (e : dir_entry) : bool :=
  (- 2 ^ 31 <=? de_inode_number e) && (de_inode_number e <? 2 ^ 31) &&
  (length (de_name e) =? Z.to_nat MAX_FILE_NAME)%nat.

(** [storable] for the superblock of [make_fs] with another count. *)
Definition storable_b (s : fs mem_disk) : bool :=
  bool_decide ((used_block_bitmap_offset (superblock s), inode_metadata_blocks (superblock s),
                inode_metadata_offset (superblock s)) = (1, 33, 2)) &&
  (0 <=? used_block_bitmap_count (superblock s)) &&
  (used_block_bitmap_count (superblock s) <? 2 ^ 16) &&
  forallb entry_ok_b (directory s) && forallb word_b (table_words (inode_table s)).

Lemma storable_b_ok s : storable_b s = true → storable s ∧ inode_metadata_blocks (superblock s) = 33.
Proof.
  unfold storable_b. rewrite !andb_true_iff. intros [[[[E%bool_decide_eq_true C1%Z.leb_le] C2%Z.ltb_lt] D] W].
  injection E as E1 E2 E3. split; [|done].
  split; unfold super_range; rewrite ?E1, ?E2, ?E3; try lia.
  - unfold DISK_BLOCKS. lia.
  - right. unfold block_end. change inode_words with 260. change (BLOCK_SIZE / 8) with 512.
    change table_size with (Z.to_nat 16640). lia.
  - apply Forall_forall. intros e He. rewrite forallb_forall in D. specialize (D e He).
    unfold entry_ok_b in D. rewrite !andb_true_iff, Nat.eqb_eq in D. unfold entry_ok. lia.
  - apply Forall_forall. intros z Hz. rewrite forallb_forall in W. specialize (W z Hz).
    unfold word_b in W. unfold word. lia.
Qed.

Lemma umount_mount_roundtrip_witness :
  ∃ s' t', umount_fs (Some [100]) (demo 5 4 0) = Ret (0, s') ∧
    mount_fs (Some [100]) (set_dev (fs_init no_disks) (dev s')) = Ret (0, t') ∧
    directory t' = directory (demo 5 4 0) ∧ zget (inode_table t') 1 = Some (demo_inode 5).
Proof.
  pose proof demo_540 as W.
  destruct (umount_mount_roundtrip [100] (demo 5 4 0) (fs_init no_disks) (wf_shapes _ _ W)
    (wf_disk _ _ W) (proj1 (storable_b_ok (demo 5 4 0) ltac:(by vm_compute))) (shapes_init no_disks))
    as (s' & bm & E1 & _ & Hsmall & _).
  destruct (Hsmall ltac:(by vm_compute)) as (t' & E2 & _ & E3 & E4 & _).
  exists s', t'. split_and!; [exact E1|exact E2|exact E3|].
  rewrite E4; [|change (0 ≤ 1 < 33); lia]. by rewrite demo_inode_at.
Defined.

Lemma data_in_metadata_lost_witness :
  ∃ s1 s2, alloc_block 1 1 (demo 5 4 0) = Ret (0, s1) ∧ entry s1 1 1 = 2 ∧
    umount_fs (Some [100]) s1 = Ret (0, s2) ∧
    dev_block (dev s2) [100] 2 = Some (words_bytes (block_words (table_words (inode_table s1)) 0)).
Proof.
  destruct (is_ret_inv (alloc_block 1 1 (demo 5 4 0)) (λ r s1, (r =? 0) && storable_b s1))
    as (r & s1 & E & [->%Z.eqb_eq [Hst Hn]%storable_b_ok]%andb_true_iff); [vm_compute; reflexivity|].
  assert (∀ b, 1 ≤ b < 2 → bit (used_block_bitmap (demo 5 4 0)) b = true) as Hused.
  { intros b Hb. assert (b = 1) as -> by lia. reflexivity. }
  destruct (data_in_metadata_lost [100] (demo 5 4 0) 1 1 s1 ltac:(by apply demo_wf) ltac:(done)
    ltac:(done) ltac:(by rewrite demo_entry) ltac:(done) Hused eq_refl E Hst ltac:(lia))
    as (Hent & s2 & E2 & Hb).
  exists s1, s2. split_and!; [exact E|exact Hent|exact E2|exact Hb].
Defined.

(** A disk is made and mounted and two files are created; the first is deleted,
    and a third created. *)
Definition life : bool :=
  is_ret (make_fs (replicate (Z.to_nat 4088) 0) (replicate (Z.to_nat 3072) 0) (Some [100])
            (fs_init no_disks)) (λ r s1, (r =? 0) &&
  is_ret (mount_fs (Some [100]) s1) (λ r s2, (r =? 0) &&
  is_ret (run_call (Create [97]) s2) (λ _ s3,
  is_ret (run_call (Create [98]) s3) (λ _ s4,
  is_ret (fs_delete (λ _, 7) [97] s4) (λ r s5, (r =? 0) &&
  is_ret (fs_create [99] s5) (λ r s6, (r =? 0) &&
  is_ret (fs_open [99] s6) (λ r _, r =? 0))))))).

Lemma life_steps : life = true → ∃ s4 s5 s6 s7, undeleted [100] s4 ∧
  fs_delete (λ _, 7) [97] s4 = Ret (0, s5) ∧ fs_create [99] s5 = Ret (0, s6) ∧
  fs_open [99] s6 = Ret (0, s7).
Proof.
  intros (r & s1 & E1 & [->%Z.eqb_eq (r2 & s2 & E2 & [->%Z.eqb_eq
    (r3 & s3 & E3 & (r4 & s4 & E4 & (r5 & s5 & E5 & [->%Z.eqb_eq
    (r6 & s6 & E6 & [->%Z.eqb_eq (r7 & s7 & E7 & ->%Z.eqb_eq)%is_ret_inv]%andb_true_iff)%is_ret_inv
    ]%andb_true_iff)%is_ret_inv)%is_ret_inv)%is_ret_inv]%andb_true_iff)%is_ret_inv]%andb_true_iff)%is_ret_inv.
  exists s4, s5, s6, s7. split; [|by split_and!].
  eapply (undeleted_call _ s3 (Create [98])); [|exact I|exact E4].
  eapply (undeleted_call _ s2 (Create [97])); [|exact I|exact E3].
  eapply (undeleted_mount _ _ _ (fs_init no_disks));
    [exact no_disks_ok|reflexivity|apply shapes_init|reflexivity| | |exact E1|exact E2];
    by rewrite length_replicate.
Qed.

Lemma create_after_delete_unusable_witness :
  ∃ s1 s2 s3, fs_create [99] s1 = Ret (0, s2) ∧ fs_open [99] s2 = Ret (0, s3) ∧
    fs_write 0 [1] 1 s3 = Ret (-1, s3).
Proof.
  destruct (life_steps ltac:(vm_compute; reflexivity)) as (s4 & s5 & s6 & s7 & U & E5 & E6 & E7).
  destruct (create_after_delete_unusable [100] (λ _, 7) s4 [97] s5 [99] s6 U E5 E6)
    as (fd & s7' & E7' & _ & Hno).
  rewrite E7 in E7'. injection E7' as <- <-.
  exists s5, s6, s7. split; [exact E6|]. split; [exact E7|]. apply (Hno ltac:(lia) [1] 1).
Defined.
