(* ===== verification/Tls.v ===== *)
(** * Thread-local storage with copy on write ([tls.c])

    One definition per function of [tls.c].  The calling thread is the
    argument [self], what [pthread_self] returns.  The structures [page] live
    in a heap, since threads share them; a [TLS] structure is reached only
    through its slot of the table, and is the value there.  [malloc],
    [calloc] and [mmap] succeed (their results are not checked); printing is
    left out.

    A call is one step: the library takes no lock, and what happens when two
    threads run its code at the same time is not modelled. *)

From S2P Require Export Prelude.

Definition MAX_THREAD_COUNT : Z := 128.

(** ** Virtual memory

    The kernel's part: mapping, protection, and the accesses of the program to
    mapped memory ([None]: the access faults). *)
Inductive prot : Type := PROT_NONE | PROT_WRITE | PROT_READ_WRITE.

#[export] Instance prot_eq_dec : EqDecision prot.
Proof. solve_decision. Defined.

Class Vm (M : Type) : Type := {
  getpagesize : Z;
  mmap : prot → M → Z * M;
  munmap : Z → M → M;
  mprotect : Z → prot → M → Z * M;
  load : Z → M → option Z;
  store : Z → Z → M → option M
}.

Definition readable (pr : prot) : bool := bool_decide (pr = PROT_READ_WRITE).
Definition writable (pr : prot) : bool := negb (bool_decide (pr = PROT_NONE)).

(** Their documented behaviour on the pages a program has mapped: [vpage m a]
    is the protection and the bytes of the page mapped at address [a]. *)
Class VmSpec (M : Type) `{Vm M} : Type := {
  vpage : M → Z → option (prot * list Z);
  pagesize_range : 0 < getpagesize < 2 ^ 31;
  pagesize_pow2 : ∃ k, 0 ≤ k ∧ getpagesize = 2 ^ k;
  vpage_aligned m a p : vpage m a = Some p → a mod getpagesize = 0;
  vpage_length m a pr bs : vpage m a = Some (pr, bs) → Z.of_nat (length bs) = getpagesize;
  mmap_fresh m pr : ∃ a m', mmap pr m = (a, m') ∧ vpage m a = None ∧
    ∀ b, vpage m' b =
      if decide (b = a) then Some (pr, replicate (Z.to_nat getpagesize) 0) else vpage m b;
  munmap_page m a p : vpage m a = Some p →
    ∀ b, vpage (munmap a m) b = if decide (b = a) then None else vpage m b;
  mprotect_page m a pr pr' bs : vpage m a = Some (pr, bs) →
    ∃ m', mprotect a pr' m = (0, m') ∧
      ∀ b, vpage m' b = if decide (b = a) then Some (pr', bs) else vpage m b;
  load_page m a pr bs off : vpage m a = Some (pr, bs) → readable pr = true →
    0 ≤ off < getpagesize → load (a + off) m = bs !! Z.to_nat off;
  load_protected m a bs off : vpage m a = Some (PROT_NONE, bs) →
    0 ≤ off < getpagesize → load (a + off) m = None;
  store_protected m a bs off v : vpage m a = Some (PROT_NONE, bs) →
    0 ≤ off < getpagesize → store (a + off) v m = None;
  store_page m a pr bs off v : vpage m a = Some (pr, bs) → writable pr = true →
    0 ≤ off < getpagesize →
    ∃ m', store (a + off) v m = Some m' ∧
      ∀ b, vpage m' b = if decide (b = a) then Some (pr, <[Z.to_nat off := v]> bs) else vpage m b
}.

(** ** Data *)

Record page : Type := Page { address : Z; ref_count : Z }.

Record TLS : Type := MkTLS {
  tls_tid : Z;
  tls_size : Z;
  page_num : Z;
  pages : list Z
}.

Record tid_tls_pair : Type := Pair { tid : Z; tls : option TLS }.

(** [(pthread_t) -1], the thread identifier of a slot that is available. *)
Definition NO_TID : Z := 2 ^ 64 - 1.

Record state (M : Type) : Type := State {
  tid_tls_pairs : list tid_tls_pair;
  initialize : bool;
  heap : gmap Z page;
  next : Z;
  vm : M
}.
Arguments State {M}.
Arguments tid_tls_pairs {M}.
Arguments initialize {M}.
Arguments heap {M}.
Arguments next {M}.
Arguments vm {M}.

(** The program's variables before the first call. *)
Definition tls_start {M} (m : M) : state M :=
  State (replicate (Z.to_nat MAX_THREAD_COUNT) (Pair 0 None)) false ∅ 1 m.

Section tls.
Context {M : Type} `{Vm M}.
Implicit Types s : state M.

Definition set_pairs s v : state M := State v (initialize s) (heap s) (next s) (vm s).
Definition set_init s v : state M := State (tid_tls_pairs s) v (heap s) (next s) (vm s).
Definition set_heap s v : state M := State (tid_tls_pairs s) (initialize s) v (next s) (vm s).
Definition set_next s v : state M := State (tid_tls_pairs s) (initialize s) (heap s) v (vm s).
Definition set_vm s (v : M) : state M := State (tid_tls_pairs s) (initialize s) (heap s) (next s) v.

(** [malloc (sizeof (struct page))] with its two fields set. *)
Definition new_page (p : page) s : Z * state M :=
  (next s, set_next (set_heap s (<[next s := p]> (heap s))) (next s + 1)).

Definition get_page (ptr : Z) s : run page :=
  match heap s !! ptr with Some p => Done p | None => Crashed end.

(** ** Initialisation and protection *)

Definition tls_init s : state M :=
  set_pairs (set_init s true) (map (λ p, Pair NO_TID (tls p)) (tid_tls_pairs s)).

Definition tls_mprotect (ptr : Z) (pr : prot) s : run (state M) :=
  p ← get_page ptr s;
  let '(r, m) := mprotect (address p) pr (vm s) in
  if r =? 0 then Done (set_vm s m) else Stopped (Exited 1).

Definition tls_protect (ptr : Z) s : run (state M) := tls_mprotect ptr PROT_NONE s.
Definition tls_unprotect (ptr : Z) s : run (state M) := tls_mprotect ptr PROT_READ_WRITE s.

(** The loops over the first [n] pages of a TLS. *)
Fixpoint for_pages (f : Z → state M → run (state M)) (n : nat) (i : Z) (ptrs : list Z) s
    : run (state M) :=
  match n with
  | O => Done s
  | S n =>
      ptr ← lift ptrs.[i];
      s ← f ptr s;
      for_pages f n (i + 1) ptrs s
  end.

(** ** The table *)

(** The loops that look for the slot of a thread. *)
Definition find_tid (t : Z) s : option nat := first_index (λ p, tid p =? t) (tid_tls_pairs s).

Definition find_tls (t : Z) s : option TLS :=
  match find_tid t s with
  | Some i => match tid_tls_pairs s !! i with Some p => tls p | None => None end
  | None => None
  end.

Definition set_pair (i : Z) (p : tid_tls_pair) s : run (state M) :=
  tbl ← lift (tid_tls_pairs s).[i <- p]; Done (set_pairs s tbl).

(** ** The handler of page faults *)

(** The loop over the pages of one TLS: whether one is at [p_fault]. *)
Fixpoint owns_page (n : nat) (j : Z) (ptrs : list Z) (p_fault : Z) s : run bool :=
  match n with
  | O => Done false
  | S n =>
      ptr ← lift ptrs.[j];
      p ← get_page ptr s;
      if address p =? p_fault then Done true else owns_page n (j + 1) ptrs p_fault s
  end.

(** The handler never returns to the faulting access: the thread exits, or the
    signal is raised again with its default action.  [tls->page_num] of a slot
    without TLS is an access through a null pointer. *)
Fixpoint handle_slots (slots : list tid_tls_pair) (p_fault : Z) s : run Empty_set :=
  match slots with
  | [] => Stopped Killed
  | sl :: slots =>
      match tls sl with
      | None => Crashed
      | Some t =>
          b ← owns_page (Z.to_nat (page_num t)) 0 (pages t) p_fault s;
          if (b : bool) then Stopped ThreadExited else handle_slots slots p_fault s
      end
  end.

Definition tls_handle_page_fault (si_addr : Z) s : run Empty_set :=
  handle_slots (tid_tls_pairs s) (Z.land si_addr (Z.lnot (getpagesize - 1))) s.

(** An access to memory at [addr]: a fault runs the handler. *)
Definition fault {A} (addr : Z) s : run A :=
  r ← tls_handle_page_fault addr s; match (r : Empty_set) with end.

Definition load_byte (addr : Z) s : run Z :=
  match load addr (vm s) with Some v => Done v | None => fault addr s end.

Definition store_byte (addr v : Z) s : run (state M) :=
  match store addr v (vm s) with Some m => Done (set_vm s m) | None => fault addr s end.

(** ** tls_create *)

Fixpoint create_pages (n : nat) (ptrs : list Z) s : list Z * state M :=
  match n with
  | O => (ptrs, s)
  | S n =>
      let '(a, m) := mmap PROT_NONE (vm s) in
      let '(ptr, s) := new_page (Page a 1) (set_vm s m) in
      create_pages n (ptrs ++ [ptr]) s
  end.

Definition tls_create (self size : Z) s : run (Z * state M) :=
  let s := if initialize s then s else tls_init s in
  if size <=? 0 then Done (-1, s) else
  let new_tls_index := match find_tid NO_TID s with Some i => Z.of_nat i | None => -1 end in
  match find_tid self s with
  | Some _ => Done (-1, s)
  | None =>
      let num := u32 (u32 (size - 1) / getpagesize + 1) in
      let '(ptrs, s) := create_pages (Z.to_nat num) [] s in
      s ← set_pair new_tls_index (Pair self (Some (MkTLS self size num ptrs))) s;
      Done (0, s)
  end.

(** ** tls_destroy *)

Definition release_page (ptr : Z) s : run (state M) :=
  p ← get_page ptr s;
  if ref_count p =? 1 then
    Done (set_heap (set_vm s (munmap (address p) (vm s))) (delete ptr (heap s)))
  else Done (set_heap s (<[ptr := Page (address p) (s32 (ref_count p - 1))]> (heap s))).

Definition tls_destroy (self : Z) s : run (Z * state M) :=
  match find_tls self s with
  | None => Done (-1, s)
  | Some t =>
      s ← for_pages release_page (Z.to_nat (page_num t)) 0 (pages t) s;
      match find_tid self s with
      | Some i => s ← set_pair (Z.of_nat i) (Pair 0 None) s; Done (0, s)
      | None => Done (0, s)
      end
  end.

(** ** tls_read

    [idx] is an [int] compared with an unsigned number; [++idx] at the largest
    [int] is undefined. *)
Definition next_int (i : Z) : run Z := if i =? 2 ^ 31 - 1 then Crashed else Done (i + 1).

Fixpoint read_bytes (fuel : nat) (cnt idx bound : Z) (t : TLS) (buffer : list Z) s
    : run (list Z) :=
  match fuel with
  | O => OutOfFuel
  | S fuel =>
      if negb (u32 idx <? bound) then Done buffer else
      let pn := u32 (Z.quot idx getpagesize) in
      let poff := u32 (Z.rem idx getpagesize) in
      ptr ← lift (pages t).[pn];
      p ← get_page ptr s;
      v ← load_byte (address p + poff) s;
      buffer ← lift buffer.[cnt <- v];
      cnt ← next_int cnt;
      idx ← next_int idx;
      read_bytes fuel cnt idx bound t buffer s
  end.

(** A round of the loop moves [idx] towards the bound by one. *)
Definition byte_fuel (length : Z) : nat := S (Z.to_nat length).

Definition tls_read (self offset length : Z) (buffer : list Z) s : run (Z * state M * list Z) :=
  match find_tls self s with
  | None => Done (-1, s, buffer)
  | Some t =>
      if tls_size t <? u32 (offset + length) then Done (-1, s, buffer) else
      s ← for_pages tls_unprotect (Z.to_nat (page_num t)) 0 (pages t) s;
      buffer ← read_bytes (byte_fuel length) 0 (s32 offset) (u32 (offset + length)) t buffer s;
      s ← for_pages tls_protect (Z.to_nat (page_num t)) 0 (pages t) s;
      Done (0, s, buffer)
  end.

(** ** tls_write *)

(** [memcpy] of a page, byte by byte from the last one. *)
Fixpoint copy_page (n : nat) (dst src : Z) s : run (state M) :=
  match n with
  | O => Done s
  | S n =>
      v ← load_byte (src + Z.of_nat n) s;
      s ← store_byte (dst + Z.of_nat n) v s;
      copy_page n dst src s
  end.

(** The body of [if (p->ref_count > 1)]: a private copy of the page [ptr] in
    place [pn] of the TLS. *)
Definition cow (i pn ptr : Z) (p : page) (t : TLS) s : run (Z * TLS * state M) :=
  let '(a, m) := mmap PROT_WRITE (vm s) in
  let '(copy, s) := new_page (Page a 1) (set_vm s m) in
  s ← copy_page (Z.to_nat getpagesize) a (address p) s;
  ptrs ← lift (pages t).[pn <- copy];
  let t := MkTLS (tls_tid t) (tls_size t) (page_num t) ptrs in
  sl ← lift (tid_tls_pairs s).[i];
  s ← set_pair i (Pair (tid sl) (Some t)) s;
  let s := set_heap s (<[ptr := Page (address p) (s32 (ref_count p - 1))]> (heap s)) in
  s ← tls_protect ptr s;
  Done (copy, t, s).

(** [i] is the slot that holds the TLS [t]. *)
Fixpoint write_bytes (fuel : nat) (i cnt idx bound : Z) (t : TLS) (buffer : list Z) s
    : run (TLS * state M) :=
  match fuel with
  | O => OutOfFuel
  | S fuel =>
      if negb (u32 idx <? bound) then Done (t, s) else
      let pn := u32 (Z.quot idx getpagesize) in
      let poff := u32 (Z.rem idx getpagesize) in
      ptr ← lift (pages t).[pn];
      p ← get_page ptr s;
      '(ptr, t, s) ← (if 1 <? ref_count p then cow i pn ptr p t s else Done (ptr, t, s));
      p ← get_page ptr s;
      v ← lift buffer.[cnt];
      s ← store_byte (address p + poff) v s;
      cnt ← next_int cnt;
      idx ← next_int idx;
      write_bytes fuel i cnt idx bound t buffer s
  end.

Definition tls_write (self offset length : Z) (buffer : list Z) s : run (Z * state M) :=
  match find_tid self s, find_tls self s with
  | Some i, Some t =>
      if tls_size t <? u32 (offset + length) then Done (-1, s) else
      s ← for_pages tls_unprotect (Z.to_nat (page_num t)) 0 (pages t) s;
      '(t, s) ← write_bytes (byte_fuel length) (Z.of_nat i) 0 (s32 offset) (u32 (offset + length)) t buffer s;
      s ← for_pages tls_protect (Z.to_nat (page_num t)) 0 (pages t) s;
      Done (0, s)
  | _, _ => Done (-1, s)
  end.

(** ** tls_clone *)

Definition share_page (ptr : Z) s : run (state M) :=
  p ← get_page ptr s;
  Done (set_heap s (<[ptr := Page (address p) (s32 (ref_count p + 1))]> (heap s))).

Definition tls_clone (self target : Z) s : run (Z * state M) :=
  match find_tls self s with
  | Some _ => Done (-1, s)
  | None =>
      match find_tls target s with
      | None => Done (-1, s)
      | Some t =>
          s ← for_pages share_page (Z.to_nat (page_num t)) 0 (pages t) s;
          match find_tid NO_TID s with
          | Some i =>
              s ← set_pair (Z.of_nat i)
                    (Pair self (Some (MkTLS self (tls_size t) (page_num t) (pages t)))) s;
              Done (0, s)
          | None => Done (0, s)
          end
      end
  end.

End tls.
