(* ===== verification/TlsSpec.v ===== *)
(** * What thread-local storage promises

    The abstract machine: a map from threads to their bytes, every call a pure
    update of the caller's entry; and the representation invariant that ties
    the table, the shared pages and their reference counts to it. *)

From S2P Require Export Tls.

(** ** The abstract machine *)

(** [slots] counts the slots of the table that were never used: [tls_destroy]
    does not give one back. *)
Record abs : Type := Abs { contents : gmap Z (list Z); slots : nat }.

Inductive call : Type :=
  | Create (size : Z)
  | Destroy
  | Read (offset length : Z) (buffer : list Z)
  | Write (offset length : Z) (buffer : list Z)
  | Clone (target : Z).

(** [l] with [d] in place of its elements from [off] on. *)
Definition splice (l : list Z) (off : Z) (d : list Z) : list Z :=
  take (Z.to_nat off) l ++ d ++ drop (Z.to_nat off + length d) l.

Definition slice (l : list Z) (off n : Z) : list Z :=
  take (Z.to_nat n) (drop (Z.to_nat off) l).

(** The result of a call of thread [self], the caller's buffer after it and the
    new contents; [None] when the call is outside the contract: no slot is
    left, or the position does not fit an [int]. *)
Definition spec_call (self : Z) (c : call) (a : abs) : option (Z * list Z * abs) :=
  match c with
  | Create size =>
      if decide (size = 0) then Some (-1, [], a) else
      match contents a !! self, slots a with
      | Some _, _ => Some (-1, [], a)
      | None, O => None
      | None, S n => Some (0, [], Abs (<[self := replicate (Z.to_nat size) 0]> (contents a)) n)
      end
  | Destroy =>
      match contents a !! self with
      | None => Some (-1, [], a)
      | Some _ => Some (0, [], Abs (delete self (contents a)) (slots a))
      end
  | Read offset len buffer =>
      match contents a !! self with
      | None => Some (-1, buffer, a)
      | Some bs =>
          if decide (2 ^ 31 ≤ offset + len) then None
          else if decide (Z.of_nat (length bs) < offset + len) then Some (-1, buffer, a)
          else Some (0, splice buffer 0 (slice bs offset len), a)
      end
  | Write offset len buffer =>
      match contents a !! self with
      | None => Some (-1, buffer, a)
      | Some bs =>
          if decide (2 ^ 31 ≤ offset + len) then None
          else if decide (Z.of_nat (length bs) < offset + len) then Some (-1, buffer, a)
          else Some (0, buffer, Abs (<[self := splice bs offset (slice buffer 0 len)]> (contents a)) (slots a))
      end
  | Clone target =>
      match contents a !! self, contents a !! target with
      | Some _, _ => Some (-1, [], a)
      | None, None => Some (-1, [], a)
      | None, Some bs =>
          match slots a with
          | O => None
          | S n => Some (0, [], Abs (<[self := bs]> (contents a)) n)
          end
      end
  end.

(** Arguments of the right C types, a buffer as long as the length given. *)
Definition call_ok (c : call) : Prop :=
  match c with
  | Create size => 0 ≤ size < 2 ^ 32
  | Destroy => True
  | Read offset len buffer | Write offset len buffer =>
      0 ≤ offset < 2 ^ 32 ∧ 0 ≤ len < 2 ^ 32 ∧ len ≤ Z.of_nat (length buffer)
  | Clone target => True
  end.

(** Thread identifiers the table does not use for itself. *)
Definition real_tid (t : Z) : Prop := t ≠ 0 ∧ t ≠ NO_TID.

Section spec.
Context {M : Type} `{VmSpec M}.
Implicit Types s : state M.

(** The code, call by call. *)
Definition run_call (self : Z) (c : call) s : run (Z * list Z * state M) :=
  match c with
  | Create size => '(r, s) ← tls_create self size s; Done (r, [], s)
  | Destroy => '(r, s) ← tls_destroy self s; Done (r, [], s)
  | Read offset len buffer => '(r, s, buffer) ← tls_read self offset len buffer s; Done (r, buffer, s)
  | Write offset len buffer => '(r, s) ← tls_write self offset len buffer s; Done (r, buffer, s)
  | Clone target => '(r, s) ← tls_clone self target s; Done (r, [], s)
  end.

(** ** The pages of the heap *)

(** The protection and the bytes of the memory of a [struct page]. *)
Definition pinfo s (ptr : Z) : option (prot * list Z) :=
  p ← heap s !! ptr; vpage (vm s) (address p).

Definition rc s (ptr : Z) : option Z := ref_count <$> heap s !! ptr.

Record heap_ok s : Prop := {
  hk_mapped : ∀ ptr p, heap s !! ptr = Some p → is_Some (vpage (vm s) (address p));
  hk_inj : ∀ a b p q, heap s !! a = Some p → heap s !! b = Some q → address p = address q → a = b;
  hk_next : ∀ ptr, is_Some (heap s !! ptr) → ptr < next s
}.

(** ** The table *)

Definition slot_pages (sl : tid_tls_pair) : list Z :=
  match tls sl with Some t => pages t | None => [] end.

(** How many slots hold the page [ptr]. *)
Fixpoint refs (tbl : list tid_tls_pair) (ptr : Z) : Z :=
  match tbl with
  | [] => 0
  | sl :: tbl => (if decide (ptr ∈ slot_pages sl) then 1 else 0) + refs tbl ptr
  end.

(** The number of pages of a TLS of [size] bytes. *)
Definition num_pages (size : Z) : Z := (size - 1) / getpagesize + 1.

Record tls_ok s (t : TLS) : Prop := {
  tk_size : 1 ≤ tls_size t < 2 ^ 32;
  tk_num : page_num t = num_pages (tls_size t);
  tk_pages : Z.of_nat (length (pages t)) = page_num t;
  tk_nodup : NoDup (pages t);
  tk_heap : ∀ ptr, ptr ∈ pages t → is_Some (heap s !! ptr)
}.

Record table_ok s : Prop := {
  tb_length : Z.of_nat (length (tid_tls_pairs s)) = MAX_THREAD_COUNT;
  tb_live : ∀ i sl t, tid_tls_pairs s !! i = Some sl → tls sl = Some t →
    real_tid (tid sl) ∧ tls_ok s t;
  tb_free : ∀ i sl, tid_tls_pairs s !! i = Some sl → tls sl = None → ¬ real_tid (tid sl);
  tb_unique : ∀ i j sl sl', tid_tls_pairs s !! i = Some sl → tid_tls_pairs s !! j = Some sl' →
    real_tid (tid sl) → tid sl = tid sl' → i = j;
  tb_init : initialize s = false →
    tid_tls_pairs s = replicate (Z.to_nat MAX_THREAD_COUNT) (Pair 0 None)
}.

Record inv s : Prop := {
  iv_heap : heap_ok s;
  iv_table : table_ok s;
  iv_refs : ∀ ptr n, rc s ptr = Some n → n = refs (tid_tls_pairs s) ptr ∧ 1 ≤ n;
  iv_prot : ∀ ptr pr bs, pinfo s ptr = Some (pr, bs) → pr = PROT_NONE
}.

(** ** The contents *)

Definition tls_byte s (t : TLS) (i : Z) : Z :=
  match zget (pages t) (i / getpagesize) with
  | Some ptr => match pinfo s ptr with
                | Some (_, bs) => nth (Z.to_nat (i mod getpagesize)) bs 0
                | None => 0
                end
  | None => 0
  end.

Definition tls_data s (t : TLS) : list Z := map (tls_byte s t) (seqZ 0 (tls_size t)).

Definition free_slots s : nat :=
  if initialize s then length (filter (λ p, tid p = NO_TID) (tid_tls_pairs s))
  else Z.to_nat MAX_THREAD_COUNT.

(** The state [s] of the program represents the abstract state [a]. *)
Definition represents s (a : abs) : Prop :=
  inv s ∧ (∀ t, contents a !! t = tls_data s <$> find_tls t s) ∧ slots a = free_slots s.
End spec.
