(* ===== verification/TlsPages.v ===== *)
(** * The steps of [tls.c] on pages

    What protecting, reading, writing, allocating, sharing and releasing one
    page does to the pages of the heap. *)

From S2P Require Export TlsSpec.

Section pages.
Context {M : Type} `{VmSpec M}.
Implicit Types s : state M.

Lemma pinfo_heap s ptr x : pinfo s ptr = Some x →
  ∃ p, heap s !! ptr = Some p ∧ vpage (vm s) (address p) = Some x.
Proof. unfold pinfo. intros (p & Hp & Hx)%bind_Some. by exists p. Qed.

Lemma pinfo_Some s ptr p x :
  heap s !! ptr = Some p → vpage (vm s) (address p) = Some x → pinfo s ptr = Some x.
Proof. intros Hp Hx. unfold pinfo. by rewrite Hp. Qed.

Lemma pinfo_None s ptr : heap s !! ptr = None → pinfo s ptr = None.
Proof. unfold pinfo. by intros ->. Qed.

Lemma heap_pinfo s ptr : heap_ok s → is_Some (heap s !! ptr) → is_Some (pinfo s ptr).
Proof.
  intros Hk [p Hp]. destruct (hk_mapped s Hk ptr p Hp) as [x Hx]. exists x.
  by eapply pinfo_Some.
Qed.

Lemma pinfo_length s ptr pr bs : pinfo s ptr = Some (pr, bs) → Z.of_nat (length bs) = getpagesize.
Proof. intros (p & _ & Hx)%pinfo_heap. by eapply vpage_length. Qed.

Lemma rc_Some s ptr n : rc s ptr = Some n ↔ ∃ p, heap s !! ptr = Some p ∧ ref_count p = n.
Proof. unfold rc. rewrite fmap_Some. split; intros (p & ? & ?); exists p; auto. Qed.

Lemma rc_is_Some s ptr : is_Some (rc s ptr) ↔ is_Some (heap s !! ptr).
Proof. unfold rc. apply fmap_is_Some. Qed.

(** ** Steps that change one page of memory *)

(** The state [s'] is [s] but for the memory of the page [ptr], now [x]. *)
Record page_step s s' (ptr : Z) (x : prot * list Z) : Prop := {
  ps_heap : heap s' = heap s;
  ps_next : next s' = next s;
  ps_pairs : tid_tls_pairs s' = tid_tls_pairs s;
  ps_init : initialize s' = initialize s;
  ps_ok : heap_ok s';
  ps_info : ∀ q, pinfo s' q = if decide (q = ptr) then Some x else pinfo s q
}.

Lemma vm_step s ptr p x m :
  heap_ok s → heap s !! ptr = Some p →
  (∀ b, vpage m b = if decide (b = address p) then Some x else vpage (vm s) b) →
  page_step s (set_vm s m) ptr x.
Proof.
  intros [Hm Hi Hn] Hp Hv. split; try done.
  - split; simpl; [|done|done]. intros q r Hq. rewrite Hv. case_decide; [by eexists|by eapply Hm].
  - intros q. unfold pinfo; simpl. destruct (heap s !! q) as [r|] eqn:Hq; simpl.
    + rewrite Hv. destruct (decide (q = ptr)) as [->|Hne].
      * simplify_eq. by rewrite decide_True.
      * rewrite decide_False; [done|]. intros E. by apply Hne, (Hi q ptr r p).
    + rewrite decide_False by congruence. done.
Qed.

Lemma get_page_ok s ptr p : heap s !! ptr = Some p → get_page ptr s = Done p.
Proof. unfold get_page. by intros ->. Qed.

Lemma mprotect_ok s ptr pr pr' bs : heap_ok s → pinfo s ptr = Some (pr, bs) →
  ∃ s', tls_mprotect ptr pr' s = Done s' ∧ page_step s s' ptr (pr', bs).
Proof.
  intros Hk (p & Hp & Hx)%pinfo_heap. unfold tls_mprotect. rewrite (get_page_ok s ptr p Hp). rstep.
  destruct (mprotect_page (vm s) (address p) pr pr' bs Hx) as (m' & -> & Hv).
  change (0 =? 0) with true. cbv iota. eexists. split; [reflexivity|]. by eapply vm_step.
Qed.

Lemma load_ok s ptr p pr bs off : heap s !! ptr = Some p → pinfo s ptr = Some (pr, bs) →
  readable pr = true → 0 ≤ off < getpagesize →
  load_byte (address p + off) s = Done (nth (Z.to_nat off) bs 0).
Proof.
  intros Hp Hx Hr Hoff. pose proof (pinfo_length _ _ _ _ Hx) as Hl.
  apply pinfo_heap in Hx as (p' & Hp' & Hx). simplify_eq. unfold load_byte.
  rewrite (load_page _ _ _ _ _ Hx Hr Hoff), nth_lookup.
  by destruct (lookup_lt_is_Some_2 bs (Z.to_nat off)) as [v ->]; [lia|].
Qed.

Lemma store_ok s ptr p pr bs off v : heap_ok s → heap s !! ptr = Some p → pinfo s ptr = Some (pr, bs) →
  writable pr = true → 0 ≤ off < getpagesize →
  ∃ s', store_byte (address p + off) v s = Done s' ∧
    page_step s s' ptr (pr, <[Z.to_nat off := v]> bs).
Proof.
  intros Hk Hp (p' & Hp' & Hx)%pinfo_heap Hw Hoff. simplify_eq. unfold store_byte.
  destruct (store_page _ _ _ _ _ v Hx Hw Hoff) as (m' & -> & Hv).
  eexists. split; [reflexivity|]. by eapply vm_step.
Qed.

(** ** A new page *)

Lemma new_page_ok s pr :
  heap_ok s →
  ∃ a m s', mmap pr (vm s) = (a, m) ∧
    new_page (Page a 1) (set_vm s m) = (next s, s') ∧
    heap s' = <[next s := Page a 1]> (heap s) ∧ heap s !! next s = None ∧
    tid_tls_pairs s' = tid_tls_pairs s ∧ initialize s' = initialize s ∧ next s' = next s + 1 ∧
    heap_ok s' ∧
    ∀ q, pinfo s' q = if decide (q = next s) then Some (pr, replicate (Z.to_nat getpagesize) 0)
                      else pinfo s q.
Proof.
  intros [Hm Hi Hn]. destruct (mmap_fresh (vm s) pr) as (a & m & E & Hnone & Hv).
  set (s' := (new_page (Page a 1) (set_vm s m)).2). exists a, m, s'. split; [done|].
  assert (heap s !! next s = None) as Hfresh.
  { destruct (heap s !! next s) eqn:Ep; [|done]. specialize (Hn (next s) ltac:(by eexists)). lia. }
  assert (∀ q p, heap s !! q = Some p → address p ≠ a) as Hna.
  { intros q p Hq Ha. destruct (Hm q p Hq) as [x Hx]. congruence. }
  split_and!; try done.
  - split.
    + intros q p. unfold s'; simpl. rewrite Hv. destruct (decide (q = next s)) as [->|Hne].
      * rewrite lookup_insert_eq. intros [= <-]. simpl. rewrite decide_True by done. by eexists.
      * rewrite lookup_insert_ne by done. intros Hq. case_decide; [by eexists|by eapply Hm].
    + intros q1 q2 p1 p2. unfold s'; simpl. rewrite !lookup_insert.
      repeat case_decide; intros E1 E2; simplify_eq; simpl; try done.
      * intros Ea. by destruct (Hna _ _ E2).
      * intros Ea. by destruct (Hna _ _ E1).
      * by eapply Hi.
    + intros q. unfold s'; simpl. rewrite lookup_insert. case_decide; [lia|].
      intros Hq. specialize (Hn q Hq). lia.
  - intros q. unfold s', pinfo; simpl. rewrite lookup_insert.
    destruct (decide (next s = q)) as [<-|Hne].
    + simpl. rewrite Hv, !decide_True by done. done.
    + rewrite decide_False by done. destruct (heap s !! q) as [p|] eqn:Hq; [|done]. simpl.
      rewrite Hv, decide_False; [done|]. by eapply Hna.
Qed.

(** ** Reference counts *)

Lemma set_count_ok s ptr p n :
  heap_ok s → heap s !! ptr = Some p →
  let s' := set_heap s (<[ptr := Page (address p) n]> (heap s)) in
  heap_ok s' ∧ (∀ q, pinfo s' q = pinfo s q) ∧
  (∀ q, rc s' q = if decide (q = ptr) then Some n else rc s q).
Proof.
  intros [Hm Hi Hn] Hp s'.
  assert (∀ q r, heap s' !! q = Some r → ∃ r', heap s !! q = Some r' ∧ address r' = address r) as Hback.
  { intros q r. unfold s'; simpl. rewrite lookup_insert. case_decide; intros E; simplify_eq; eauto. }
  split_and!.
  - split.
    + intros q r (r' & Hr' & <-)%Hback. by eapply Hm.
    + intros a b r1 r2 (r1' & H1 & <-)%Hback (r2' & H2 & <-)%Hback. by eapply Hi.
    + intros q [r (r' & Hr & _)%Hback]. apply Hn. by eexists.
  - intros q. unfold s', pinfo; simpl. rewrite lookup_insert. case_decide; [|done]. subst. by rewrite Hp.
  - intros q. unfold s', rc; simpl. rewrite lookup_insert.
    destruct (decide (ptr = q)) as [->|]; [by rewrite decide_True|]. by rewrite decide_False by congruence.
Qed.

(** ** Copying a page *)

Lemma copy_page_ok n : ∀ s dst src pd ps prd prs bd bs,
  heap_ok s → dst ≠ src → heap s !! dst = Some pd → heap s !! src = Some ps →
  pinfo s dst = Some (prd, bd) → writable prd = true →
  pinfo s src = Some (prs, bs) → readable prs = true → Z.of_nat n ≤ getpagesize →
  ∃ s', copy_page n (address pd) (address ps) s = Done s' ∧
    page_step s s' dst (prd, take n bs ++ drop n bd).
Proof.
  induction n as [|n IH]; intros s dst src pd ps prd prs bd bs Hk Hne Hd Hs Id Wd Is Rs Hn.
  { exists s. split; [done|]. split; try done. intros q. rewrite take_0, drop_0, app_nil_l.
    case_decide; [by subst|done]. }
  cbn [copy_page]. pose proof (pinfo_length _ _ _ _ Id) as Hld. pose proof (pinfo_length _ _ _ _ Is) as Hls.
  rewrite (load_ok s src ps prs bs (Z.of_nat n)) by (done || lia). rstep. rewrite Nat2Z.id.
  destruct (store_ok s dst pd prd bd (Z.of_nat n) (nth n bs 0)) as (s1 & -> & St); try (done || lia).
  rstep. rewrite Nat2Z.id in St. destruct St as [Eh En Ep Ei Hk1 Hi1].
  destruct (IH s1 dst src pd ps prd prs (<[n := nth n bs 0]> bd) bs) as (s2 & E2 & St2);
    try done; try lia; try by rewrite Eh.
  - by rewrite Hi1, decide_True.
  - by rewrite Hi1, decide_False by done.
  - exists s2. split; [done|]. destruct St2 as [Eh2 En2 Ep2 Ei2 Hk2 Hi2].
    split; try congruence. intros q. rewrite Hi2, Hi1. case_decide; [|done]. do 2 f_equal.
    destruct (lookup_lt_is_Some_2 bs n) as [v Hv]; [lia|].
    rewrite (take_S_r bs n v Hv), <- app_assoc. f_equal.
    rewrite drop_insert_ge by lia. rewrite Nat.sub_diag.
    destruct (lookup_lt_is_Some_2 bd n) as [w Hw]; [lia|].
    rewrite (drop_S bd w n Hw). simpl. by rewrite nth_lookup, Hv.
Qed.

(** ** Loops over pages *)

Fixpoint run_pages (f : Z → state M → run (state M)) (ptrs : list Z) s : run (state M) :=
  match ptrs with
  | [] => Done s
  | ptr :: ptrs => s ← f ptr s; run_pages f ptrs s
  end.

Lemma for_pages_run f ptrs n : ∀ i s, (i + n = length ptrs)%nat →
  for_pages f n (Z.of_nat i) ptrs s = run_pages f (drop i ptrs) s.
Proof.
  induction n as [|n IH]; intros i s Hl.
  { rewrite drop_ge by lia. done. }
  cbn [for_pages]. destruct (lookup_lt_is_Some_2 ptrs i) as [ptr Hp]; [lia|].
  rewrite (aread_nat _ _ _ Hp). rstep. rewrite (drop_S _ _ _ Hp). cbn [run_pages].
  destruct (f ptr s) as [s'| | |]; [|done..]. rstep.
  replace (Z.of_nat i + 1) with (Z.of_nat (S i)) by lia. apply IH. lia.
Qed.

Lemma for_pages_all f t s : Z.of_nat (length (pages t)) = page_num t →
  for_pages f (Z.to_nat (page_num t)) 0 (pages t) s = run_pages f (pages t) s.
Proof. intros Hl. rewrite (for_pages_run f (pages t) _ 0 s) by lia. by rewrite drop_0. Qed.

(** Giving all pages of a list one protection. *)
Lemma run_mprotect pr ptrs : ∀ s,
  heap_ok s → (∀ ptr, ptr ∈ ptrs → is_Some (heap s !! ptr)) →
  ∃ s', run_pages (λ ptr, tls_mprotect ptr pr) ptrs s = Done s' ∧
    heap_ok s' ∧ heap s' = heap s ∧ next s' = next s ∧ tid_tls_pairs s' = tid_tls_pairs s ∧
    initialize s' = initialize s ∧
    ∀ q, pinfo s' q = if decide (q ∈ ptrs) then (λ x, (pr, x.2)) <$> pinfo s q else pinfo s q.
Proof.
  induction ptrs as [|ptr ptrs IH]; intros s Hk Hin.
  { exists s. split_and!; try done. }
  cbn [run_pages]. destruct (heap_pinfo s ptr Hk) as [[pr0 bs] Hx]; [apply Hin; left|].
  destruct (mprotect_ok s ptr pr0 pr bs Hk Hx) as (s1 & -> & [Eh En Ep Ei Hk1 Hi1]). rstep.
  destruct (IH s1 Hk1) as (s2 & -> & Hk2 & Eh2 & En2 & Ep2 & Ei2 & Hi2).
  { intros q Hq. rewrite Eh. apply Hin. by right. }
  exists s2. split_and!; [done|done|congruence..|]. intros q. rewrite Hi2, Hi1.
  destruct (decide (q = ptr)) as [->|Hne].
  - rewrite (decide_True (P := ptr ∈ ptr :: ptrs)) by left. rewrite Hx. by case_decide.
  - destruct (decide (q ∈ ptrs)); [by rewrite decide_True by (by right)|].
    rewrite decide_False; [done|]. by intros [?|?]%elem_of_cons.
Qed.
End pages.
