(* ===== verification/TlsTable.v ===== *)
(** * The table of thread-local storages

    Searching the table, counting references to pages, and what keeps the
    contents of a thread's storage. *)

From S2P Require Export TlsPages.

(** ** Reference counts as counts *)

Definition holds_page (sl : tid_tls_pair) (q : Z) : Z :=
  if decide (q ∈ slot_pages sl) then 1 else 0.

Lemma holds_page_range sl q : 0 ≤ holds_page sl q ≤ 1.
Proof. unfold holds_page. case_decide; lia. Qed.

Lemma refs_range tbl q : 0 ≤ refs tbl q ≤ Z.of_nat (length tbl).
Proof.
  induction tbl as [|sl tbl IH]; [done|]. cbn [refs length].
  pose proof (holds_page_range sl q) as Hr. unfold holds_page in Hr. lia.
Qed.

Lemma refs_insert tbl : ∀ i sl sl' q, tbl !! i = Some sl →
  refs (<[i := sl']> tbl) q = refs tbl q - holds_page sl q + holds_page sl' q.
Proof.
  induction tbl as [|sl0 tbl IH]; intros [|i] sl sl' q Hi; simplify_eq/=.
  - unfold holds_page. lia.
  - rewrite (IH i sl sl' q) by done. lia.
Qed.

Lemma refs_lookup tbl : ∀ i sl q, tbl !! i = Some sl → holds_page sl q ≤ refs tbl q.
Proof.
  induction tbl as [|sl0 tbl IH]; intros [|i] sl q Hi; simplify_eq/=.
  - pose proof (refs_range tbl q). unfold holds_page. lia.
  - specialize (IH i sl q Hi). pose proof (holds_page_range sl0 q). unfold holds_page in *. lia.
Qed.

Lemma refs_one tbl i sl q : tbl !! i = Some sl → q ∈ slot_pages sl → 1 ≤ refs tbl q.
Proof.
  intros Hi Hq. pose proof (refs_lookup tbl i sl q Hi) as Hr. unfold holds_page in Hr.
  by rewrite decide_True in Hr.
Qed.

Lemma refs_two tbl i j sl sl' q : tbl !! i = Some sl → tbl !! j = Some sl' → i ≠ j →
  q ∈ slot_pages sl → q ∈ slot_pages sl' → 2 ≤ refs tbl q.
Proof.
  intros Hi Hj Hne Hq Hq'.
  assert (<[i := Pair 0 None]> tbl !! j = Some sl') as Hj' by (by rewrite list_lookup_insert_ne).
  pose proof (refs_one _ j sl' q Hj' Hq') as H1.
  rewrite (refs_insert tbl i sl _ q Hi) in H1. unfold holds_page in H1.
  rewrite decide_True in H1 by done. rewrite decide_False in H1 by (by intros ?%elem_of_nil). lia.
Qed.

Lemma refs_zero tbl q : (∀ i sl, tbl !! i = Some sl → q ∉ slot_pages sl) → refs tbl q = 0.
Proof.
  induction tbl as [|sl tbl IH]; intros Hq; [done|]. cbn [refs].
  rewrite decide_False by (by apply (Hq 0%nat)). rewrite IH; [done|].
  intros i sl' Hi. by apply (Hq (S i)).
Qed.

(** The slots that were never used, counted. *)
Definition unused_count (tbl : list tid_tls_pair) : nat :=
  length (filter (λ p, tid p = NO_TID) tbl).

Lemma unused_insert tbl : ∀ i sl sl', tbl !! i = Some sl →
  (unused_count (<[i := sl']> tbl) + (if decide (tid sl = NO_TID) then 1 else 0) =
   unused_count tbl + (if decide (tid sl' = NO_TID) then 1 else 0))%nat.
Proof.
  unfold unused_count. induction tbl as [|sl0 tbl IH]; intros [|i] sl sl' Hi; simplify_eq/=.
  - rewrite !list.filter_cons. repeat case_decide; simpl; lia.
  - specialize (IH i sl sl' Hi). rewrite !list.filter_cons.
    destruct (decide (tid sl0 = NO_TID)); cbn [length]; lia.
Qed.

Section table.
Context {M : Type} `{VmSpec M}.
Implicit Types s : state M.

(** ** Searching *)

Lemma find_tid_Some t s i : find_tid t s = Some i →
  ∃ sl, tid_tls_pairs s !! i = Some sl ∧ tid sl = t.
Proof.
  intros [(sl & Hi & E%Z.eqb_eq) _]%first_index_Some. by exists sl.
Qed.

Lemma find_tid_None t s : find_tid t s = None ↔ ∀ i sl, tid_tls_pairs s !! i = Some sl → tid sl ≠ t.
Proof.
  unfold find_tid. rewrite first_index_None.
  split; intros Hn i sl Hi; specialize (Hn i sl Hi); by apply Z.eqb_neq.
Qed.

Lemma find_tid_real s t i sl : table_ok s → real_tid t →
  tid_tls_pairs s !! i = Some sl → tid sl = t → find_tid t s = Some i.
Proof.
  intros Ht Hr Hi <-. apply first_index_Some. split.
  - exists sl. by rewrite Z.eqb_refl.
  - intros j sl' Hj Hlt. apply Z.eqb_neq. intros E.
    assert (i = j) by (eapply (tb_unique s Ht i j sl sl'); done). lia.
Qed.

Lemma find_tls_Some s t x : table_ok s →
  find_tls t s = Some x ↔
  ∃ i sl, tid_tls_pairs s !! i = Some sl ∧ tid sl = t ∧ tls sl = Some x.
Proof.
  intros Ht. unfold find_tls. split.
  - destruct (find_tid t s) as [i|] eqn:E; [|done].
    apply find_tid_Some in E as (sl & Hi & Htid). rewrite Hi. intros Hx. by exists i, sl.
  - intros (i & sl & Hi & Htid & Hx). destruct (tb_live s Ht i sl x Hi Hx) as [Hr _].
    rewrite Htid in Hr. by rewrite (find_tid_real s t i sl), Hi.
Qed.

Lemma find_tls_None s t : table_ok s → real_tid t →
  find_tls t s = None ↔ find_tid t s = None.
Proof.
  intros Ht Hr. unfold find_tls. destruct (find_tid t s) as [i|] eqn:E; [|done].
  apply find_tid_Some in E as (sl & Hi & Htid). rewrite Hi.
  split; [|done]. intros Hn. exfalso. eapply (tb_free s Ht i sl); [done|done|by rewrite Htid].
Qed.

(** ** The contents of a storage depend on its pages only *)

Definition pbytes s (q : Z) : option (list Z) := snd <$> pinfo s q.

Lemma pbytes_pinfo s q pr bs : pinfo s q = Some (pr, bs) → pbytes s q = Some bs.
Proof. unfold pbytes. by intros ->. Qed.

Lemma tls_byte_ext s s' t t' k :
  (∀ q, zget (pages t) (k / getpagesize) = Some q →
     ∃ q', zget (pages t') (k / getpagesize) = Some q' ∧ pbytes s' q' = pbytes s q) →
  is_Some (zget (pages t) (k / getpagesize)) →
  tls_byte s' t' k = tls_byte s t k.
Proof.
  intros Hq [q Eq]. destruct (Hq q Eq) as (q' & Eq' & Hb). unfold tls_byte, pbytes in *.
  rewrite Eq, Eq'. destruct (pinfo s q) as [[pr bs]|], (pinfo s' q') as [[pr' bs']|]; simpl in *;
    congruence.
Qed.

(** The index of a byte of a storage is in its array of pages. *)
Lemma page_index s t k : tls_ok s t → 0 ≤ k < tls_size t →
  ∃ q, zget (pages t) (k / getpagesize) = Some q ∧ q ∈ pages t ∧
    0 ≤ k / getpagesize < page_num t ∧ 0 ≤ k mod getpagesize < getpagesize.
Proof.
  intros [Hsz Hnum Hlen _ _] Hk. pose proof pagesize_range as Hps.
  assert (0 ≤ k / getpagesize < page_num t) as Hi.
  { rewrite Hnum. unfold num_pages. split; [apply Z.div_pos; lia|].
    apply Z.lt_succ_r, Z.div_le_mono; lia. }
  destruct (proj2 (zget_is_Some (pages t) (k / getpagesize))) as [q Hq]; [lia|].
  exists q. split_and!; try done; try lia; try (apply Z.mod_pos_bound; lia).
  apply zget_Some in Hq as [_ Hq]. by eapply list_elem_of_lookup_2.
Qed.

Lemma tls_data_ext s s' t :
  tls_ok s t → (∀ q, q ∈ pages t → pbytes s' q = pbytes s q) → tls_data s' t = tls_data s t.
Proof.
  intros Hok Hb. unfold tls_data. apply map_ext_in. intros k Hk%list_elem_of_In%elem_of_seqZ.
  destruct (page_index s t k Hok) as (q & Hq & Hin & _); [lia|].
  apply tls_byte_ext; [|by eexists]. intros q' Hq'. assert (q' = q) as -> by congruence. exists q. auto.
Qed.

Lemma length_tls_data s t : Z.of_nat (length (tls_data s t)) = Z.max 0 (tls_size t).
Proof. unfold tls_data. rewrite length_map, length_seqZ. lia. Qed.

Lemma tls_data_lookup s t i : (i < Z.to_nat (tls_size t))%nat →
  tls_data s t !! i = Some (tls_byte s t (Z.of_nat i)).
Proof.
  intros Hi. unfold tls_data. rewrite list_lookup_fmap, (proj2 (lookup_seqZ _ _ _ _)) by
    (split; [reflexivity|lia]). done.
Qed.

(** ** Steps that leave every page's contents *)

Lemma tls_ok_heap s s' t :
  (∀ q, q ∈ pages t → is_Some (heap s !! q) → is_Some (heap s' !! q)) → tls_ok s t → tls_ok s' t.
Proof. intros Hh []. split; auto. Qed.

(** The same table and reference counts, and the same pages. *)
Lemma represents_same s s' a :
  represents s a → heap_ok s' → heap s' = heap s → tid_tls_pairs s' = tid_tls_pairs s →
  initialize s' = initialize s → (∀ q, pinfo s' q = pinfo s q) → represents s' a.
Proof.
  intros ([Hk [T1 T2 T3 T4 T5] Hr Hp] & Hc & Hs) Hk' Eh Ep Ei Hi. split_and!.
  - split; [done| | |].
    + split; rewrite ?Ep, ?Ei; try done. intros i sl t Hsl Ht.
      destruct (T2 i sl t Hsl Ht) as [? Hok]. split; [done|]. eapply tls_ok_heap; [|done].
      by rewrite Eh.
    + intros q n. unfold rc. rewrite Eh, Ep. apply Hr.
    + intros q pr bs. rewrite Hi. apply Hp.
  - intros t. rewrite Hc. unfold find_tls, find_tid. rewrite Ep.
    destruct (match _ with Some i => _ | None => None end) as [x|] eqn:E; [|done]. simpl. f_equal.
    unfold tls_data. apply map_ext. intros k. unfold tls_byte.
    destruct (zget _ _); [|done]. by rewrite Hi.
  - rewrite Hs. unfold free_slots. by rewrite Ep, Ei.
Qed.

(** ** One slot of the table replaced *)

Lemma find_tls_update s s' i sl sl' self :
  table_ok s → table_ok s' → tid_tls_pairs s !! i = Some sl →
  tid_tls_pairs s' = <[i := sl']> (tid_tls_pairs s) →
  (tls sl = None ∨ tid sl = self) → (tls sl' = None ∨ tid sl' = self) →
  ∀ u, u ≠ self → find_tls u s' = find_tls u s.
Proof.
  intros Ht Ht' Hi Ep Hsl Hsl' u Hu. apply option_eq. intros x.
  rewrite !find_tls_Some by done. pose proof (lookup_lt_Some _ _ _ Hi) as Hlt.
  split; intros (j & slj & Hj & Htid & Hx); exists j, slj; split_and!; try done.
  - rewrite Ep in Hj. rewrite lookup_insert_at in Hj by done. case_decide; [|done].
    injection Hj as <-. exfalso. destruct Hsl' as [?|?]; congruence.
  - rewrite Ep, lookup_insert_at by done. rewrite decide_False; [done|]. intros ->.
    destruct Hsl as [?|?]; congruence.
Qed.

Lemma find_tls_at s i sl : table_ok s → tid_tls_pairs s !! i = Some sl → is_Some (tls sl) →
  find_tls (tid sl) s = tls sl.
Proof.
  intros Ht Hi [x Hx]. rewrite Hx. apply find_tls_Some; [done|]. by exists i, sl.
Qed.

(** The pages of a live storage are those of its slot. *)
Lemma find_tls_pages s u x : table_ok s → find_tls u s = Some x →
  ∃ i sl, tid_tls_pairs s !! i = Some sl ∧ tid sl = u ∧ slot_pages sl = pages x ∧ tls_ok s x.
Proof.
  intros Ht (i & sl & Hi & Hu & Hx)%find_tls_Some; [|done]. exists i, sl. unfold slot_pages.
  rewrite Hx. destruct (tb_live s Ht i sl x Hi Hx). auto.
Qed.

(** Changing the slot of [self] and no page of another slot leaves the bytes of
    the other threads. *)
Lemma contents_other s s' i sl sl' self u :
  table_ok s → table_ok s' → tid_tls_pairs s !! i = Some sl →
  tid_tls_pairs s' = <[i := sl']> (tid_tls_pairs s) →
  (tls sl = None ∨ tid sl = self) → (tls sl' = None ∨ tid sl' = self) →
  (∀ j slj q, j ≠ i → tid_tls_pairs s !! j = Some slj → q ∈ slot_pages slj →
     pbytes s' q = pbytes s q) →
  u ≠ self → tls_data s' <$> find_tls u s' = tls_data s <$> find_tls u s.
Proof.
  intros Ht Ht' Hi Ep Hsl Hsl' Hpb Hu. rewrite (find_tls_update s s' i sl sl' self) by done.
  destruct (find_tls u s) as [x|] eqn:Ex; [|done]. simpl. f_equal.
  apply find_tls_Some in Ex as (j & slj & Hj & Htid & Hx); [|done].
  destruct (tb_live s Ht j slj x Hj Hx) as [_ Hok]. apply tls_data_ext; [done|].
  intros q Hq. apply (Hpb j slj); [|done|unfold slot_pages; by rewrite Hx].
  intros ->. destruct Hsl; congruence.
Qed.
End table.
