(* ===== verification/TlsReadWrite.v ===== *)
(** * Reading and writing thread-local storage

    [tls_read] and [tls_write] against the abstract machine; the copy on write
    of a shared page and why no other thread sees the write. *)

From S2P Require Export TlsTable.

Section rw.
Context {M : Type} `{VmSpec M}.
Implicit Types s : state M.

(** ** Positions as machine integers *)

Lemma page_number idx : 0 ≤ idx < 2 ^ 31 →
  u32 (Z.quot idx getpagesize) = idx / getpagesize ∧ u32 (Z.rem idx getpagesize) = idx mod getpagesize.
Proof.
  intros Hi. pose proof pagesize_range as Hp. rewrite Z.quot_div_nonneg, Z.rem_mod_nonneg by lia.
  pose proof (Z.mod_pos_bound idx getpagesize). assert (0 ≤ idx / getpagesize ≤ idx).
  { split; [apply Z.div_pos; lia|]. apply Z.div_le_upper_bound; nia. }
  split; apply wrap_id; lia.
Qed.

Lemma next_int_ok i : i < 2 ^ 31 - 1 → next_int i = Done (i + 1).
Proof. intros Hi. unfold next_int. by rewrite (proj2 (Z.eqb_neq _ _)) by lia. Qed.

(** ** Protection around an access *)

Lemma unprotect_pages s t :
  heap_ok s → tls_ok s t →
  ∃ s', for_pages tls_unprotect (Z.to_nat (page_num t)) 0 (pages t) s = Done s' ∧
    heap_ok s' ∧ heap s' = heap s ∧ next s' = next s ∧ tid_tls_pairs s' = tid_tls_pairs s ∧
    initialize s' = initialize s ∧
    ∀ q, pinfo s' q = if decide (q ∈ pages t) then (λ x, (PROT_READ_WRITE, x.2)) <$> pinfo s q
                      else pinfo s q.
Proof.
  intros Hk Ht. rewrite for_pages_all by apply Ht. apply run_mprotect; [done|apply Ht].
Qed.

Lemma protect_pages s t :
  heap_ok s → tls_ok s t →
  ∃ s', for_pages tls_protect (Z.to_nat (page_num t)) 0 (pages t) s = Done s' ∧
    heap_ok s' ∧ heap s' = heap s ∧ next s' = next s ∧ tid_tls_pairs s' = tid_tls_pairs s ∧
    initialize s' = initialize s ∧
    ∀ q, pinfo s' q = if decide (q ∈ pages t) then (λ x, (PROT_NONE, x.2)) <$> pinfo s q
                      else pinfo s q.
Proof.
  intros Hk Ht. rewrite for_pages_all by apply Ht. apply run_mprotect; [done|apply Ht].
Qed.

(** ** tls_read *)

Lemma read_bytes_ok s t bound fuel : ∀ cnt idx buffer,
  tls_ok s t → heap_ok s →
  (∀ q pr bs, q ∈ pages t → pinfo s q = Some (pr, bs) → readable pr = true) →
  0 ≤ cnt ≤ idx → idx ≤ bound ≤ tls_size t → bound < 2 ^ 31 →
  cnt + (bound - idx) ≤ Z.of_nat (length buffer) → bound - idx < Z.of_nat fuel →
  read_bytes fuel cnt idx bound t buffer s =
    Done (splice buffer cnt (map (tls_byte s t) (seqZ idx (bound - idx)))).
Proof.
  induction fuel as [|fuel IH]; intros cnt idx buffer Hok Hk Hread Hc Hb Hmax Hl Hf; [lia|].
  cbn [read_bytes]. rewrite wrap_id by lia. destruct (Z.ltb_spec idx bound) as [Hlt|Hge]; cbn [negb].
  2: { assert (bound - idx = 0) as -> by lia. unfold splice. simpl.
       rewrite Nat.add_0_r, take_drop. done. }
  destruct (page_number idx) as [-> ->]; [lia|].
  destruct (page_index s t idx Hok) as (q & Hq & Hin & _ & Hoff); [lia|].
  rewrite (proj2 (aread_Ret _ _ _) Hq). rstep.
  destruct (tk_heap s t Hok q Hin) as [p Hp]. rewrite (get_page_ok s q p Hp). rstep.
  destruct (heap_pinfo s q Hk (tk_heap s t Hok q Hin)) as [[pr bs] Hx].
  rewrite (load_ok s q p pr bs _ Hp Hx) by (done || by eapply Hread). rstep.
  rewrite awrite_lt by lia. rstep. rewrite !next_int_ok by lia. rstep.
  rewrite IH by (done || rewrite ?length_insert; lia).
  f_equal. rewrite (seqZ_cons idx (bound - idx)) by lia. cbn [map].
  assert (tls_byte s t idx = nth (Z.to_nat (idx mod getpagesize)) bs 0) as Hbyte
    by (unfold tls_byte; by rewrite Hq, Hx).
  rewrite <- Hbyte. replace (Z.succ idx) with (idx + 1) by lia.
  replace (Z.pred (bound - idx)) with (bound - (idx + 1)) by lia.
  set (rest := map (tls_byte s t) (seqZ (idx + 1) (bound - (idx + 1)))).
  assert (length rest = Z.to_nat (bound - (idx + 1))) as Hlr
    by (unfold rest; by rewrite length_map, length_seqZ).
  unfold splice. cbn [length].
  replace (Z.to_nat (cnt + 1)) with (S (Z.to_nat cnt)) by lia.
  rewrite (take_S_r _ _ (tls_byte s t idx)) by (apply list_lookup_insert_eq; lia).
  rewrite take_insert_ge by lia. rewrite drop_insert_lt by lia. rewrite <- app_assoc. cbn [app].
  do 3 f_equal. f_equal. lia.
Qed.

Lemma tls_read_ok self offset len buffer s a :
  represents s a → real_tid self → call_ok (Read offset len buffer) →
  ∀ r b a', spec_call self (Read offset len buffer) a = Some (r, b, a') →
  ∃ s', tls_read self offset len buffer s = Done (r, s', b) ∧ represents s' a'.
Proof.
  intros Hrep Hr (Ho & Hl & Hbuf) r b a'. pose proof Hrep as (Hinv & Hc & _).
  unfold spec_call, tls_read. rewrite Hc. destruct (find_tls self s) as [t|] eqn:E; cbn [fmap option_fmap option_map].
  2: { intros [= <- <- <-]. by exists s. }
  apply (find_tls_Some s self t (iv_table s Hinv)) in E as (i & sl & Hi & _ & Ht).
  destruct (tb_live s (iv_table s Hinv) i sl t Hi Ht) as [_ Hok].
  pose proof (tk_size s t Hok) as Hsz. pose proof (length_tls_data s t) as Hld.
  rewrite Z.max_r in Hld by lia. case_decide as Hcon; [done|].
  rewrite wrap_id by lia. rewrite Hld.
  case_decide as Hcmp; intros [= <- <- <-].
  { rewrite (proj2 (Z.ltb_lt _ _)) by lia. by exists s. }
  rewrite (proj2 (Z.ltb_ge _ _)) by lia.
  destruct (unprotect_pages s t (iv_heap s Hinv) Hok) as (s1 & -> & Hk1 & Eh1 & En1 & Ep1 & Ei1 & Hi1).
  rstep. rewrite s32_id by lia.
  assert (tls_ok s1 t) as Hok1 by (eapply tls_ok_heap; [|done]; by rewrite Eh1).
  rewrite (read_bytes_ok s1 t (offset + len)); try done; try lia.
  2: { intros q pr bs Hq. rewrite Hi1, decide_True by done. by intros (x & _ & [= -> ->])%fmap_Some. }
  2: { unfold byte_fuel. lia. }
  rstep. destruct (protect_pages s1 t Hk1 Hok1) as (s2 & -> & Hk2 & Eh2 & En2 & Ep2 & Ei2 & Hi2).
  rstep. exists s2. split.
  - do 2 f_equal. f_equal. replace (offset + len - offset) with len by lia.
    apply list_eq. intros k. destruct (decide (k < Z.to_nat len)%nat) as [Hk|Hk].
    + rewrite list_lookup_fmap, (proj2 (lookup_seqZ _ _ _ _)) by (split; [reflexivity|lia]).
      unfold slice. rewrite lookup_take_lt, lookup_drop, tls_data_lookup by lia. simpl. f_equal.
      replace (Z.of_nat (Z.to_nat offset + k)) with (offset + Z.of_nat k) by lia.
      destruct (page_index s t (offset + Z.of_nat k) Hok) as (q & Hq & Hin & _); [lia|].
      apply tls_byte_ext; [|by eexists]. intros q' Hq'. exists q'. split; [done|].
      unfold pbytes. rewrite Hi1. case_decide; [|done]. by destruct (pinfo s q') as [[]|].
    + unfold slice. rewrite !lookup_ge_None_2; rewrite ?length_map, ?length_seqZ, ?length_take; try done; lia.
  - apply (represents_same s s2 a Hrep Hk2); [congruence..|]. intros q. rewrite Hi2, Hi1.
    case_decide; [|done]. destruct (pinfo s q) as [[pr bs]|] eqn:Eq; [|done]. simpl.
    by rewrite (iv_prot s Hinv q pr bs Eq).
Qed.

(** ** The state inside [tls_write]

    The pages of the storage [t] of slot [i] are accessible, those that are
    shared also for reading; all others are protected. *)
Record writing s (i : nat) (t : TLS) : Prop := {
  wg_heap : heap_ok s;
  wg_table : table_ok s;
  wg_slot : ∃ sl, tid_tls_pairs s !! i = Some sl ∧ tls sl = Some t;
  wg_refs : ∀ q n, rc s q = Some n → n = refs (tid_tls_pairs s) q ∧ 1 ≤ n;
  wg_prot : ∀ q pr bs, pinfo s q = Some (pr, bs) →
    if decide (q ∈ pages t)
    then writable pr = true ∧ (∀ n, rc s q = Some n → 1 < n → readable pr = true)
    else pr = PROT_NONE
}.

(** From [s] to [s'] the storage [t] of slot [i] became [t'], with the byte
    [f k] at each position [k]; every other slot is as before, and so is the
    memory of its pages. *)
Record effect s s' (i : nat) (t t' : TLS) (f : Z → Z) : Prop := {
  ef_writing : writing s' i t';
  ef_size : tls_size t' = tls_size t;
  ef_init : initialize s' = initialize s;
  ef_pairs : ∀ sl, tid_tls_pairs s !! i = Some sl →
    tid_tls_pairs s' = <[i := Pair (tid sl) (Some t')]> (tid_tls_pairs s);
  ef_others : ∀ j sl q, j ≠ i → tid_tls_pairs s !! j = Some sl → q ∈ slot_pages sl →
    pbytes s' q = pbytes s q;
  ef_bytes : ∀ k, 0 ≤ k < tls_size t → tls_byte s' t' k = f k
}.

Lemma pair_eta sl t : tls sl = Some t → Pair (tid sl) (Some t) = sl.
Proof. destruct sl; simpl. by intros ->. Qed.

Lemma effect_refl s i t f : writing s i t →
  (∀ k, 0 ≤ k < tls_size t → tls_byte s t k = f k) → effect s s i t t f.
Proof.
  intros Hw Hf. split; try done. intros sl Hsl. destruct (wg_slot s i t Hw) as (sl' & Hsl' & Ht).
  simplify_eq. by rewrite pair_eta, list_insert_id.
Qed.

Lemma effect_trans s1 s2 s3 i t1 t2 t3 f g h :
  effect s1 s2 i t1 t2 f → effect s2 s3 i t2 t3 g →
  (∀ k, 0 ≤ k < tls_size t1 → g k = h k) → (∃ sl, tid_tls_pairs s1 !! i = Some sl) →
  effect s1 s3 i t1 t3 h.
Proof.
  intros [W1 Z1 I1 P1 O1 B1] [W2 Z2 I2 P2 O2 B2] Hh [sl Hsl].
  assert (tid_tls_pairs s2 !! i = Some (Pair (tid sl) (Some t2))) as Hsl2.
  { rewrite (P1 sl Hsl). apply list_lookup_insert_eq. by eapply lookup_lt_Some. }
  split; try congruence.
  - intros sl' Hsl'. assert (sl' = sl) as -> by congruence.
    rewrite (P2 _ Hsl2), (P1 sl Hsl), list_insert_insert_eq. done.
  - intros j sl' q Hj Hsl' Hq. rewrite (O2 j sl' q Hj), (O1 j sl' q Hj); try done.
    by rewrite (P1 sl Hsl), list_lookup_insert_ne.
  - intros k Hk. rewrite B2 by (rewrite Z1; lia). by apply Hh.
Qed.

(** A slot's storage replaced by another for the same thread. *)
Lemma table_ok_replace s s' i sl t t' :
  table_ok s → tid_tls_pairs s !! i = Some sl → tls sl = Some t →
  tid_tls_pairs s' = <[i := Pair (tid sl) (Some t')]> (tid_tls_pairs s) →
  initialize s' = initialize s → tls_ok s' t' →
  (∀ q, is_Some (heap s !! q) → is_Some (heap s' !! q)) → table_ok s'.
Proof.
  intros [T1 T2 T3 T4 T5] Hi Ht Ep Ei Hok Hh. pose proof (lookup_lt_Some _ _ _ Hi) as Hlt.
  assert (∀ j sl', tid_tls_pairs s' !! j = Some sl' →
    (j = i ∧ sl' = Pair (tid sl) (Some t')) ∨ (j ≠ i ∧ tid_tls_pairs s !! j = Some sl')) as Hl.
  { intros j sl'. rewrite Ep. destruct (decide (j = i)) as [->|Hne].
    - rewrite list_lookup_insert_eq by done. intros [= <-]. by left.
    - rewrite list_lookup_insert_ne by done. by right. }
  assert (∀ j sl', tid_tls_pairs s' !! j = Some sl' →
    ∃ sl0, tid_tls_pairs s !! j = Some sl0 ∧ tid sl0 = tid sl') as Htid.
  { intros j sl' [[-> ->]|[_ ?]]%Hl; eauto. }
  split.
  - rewrite Ep, length_insert. done.
  - intros j sl' t2 [[-> ->]|[Hne Hj]]%Hl Ht2; simpl in *; simplify_eq.
    + split; [by eapply T2|done].
    + destruct (T2 j sl' t2 Hj Ht2) as [? Hok2]. split; [done|]. eapply tls_ok_heap; [|done]. auto.
  - intros j sl' [[-> ->]|[Hne Hj]]%Hl Hnone; simpl in *; [done|]. by eapply T3.
  - intros j1 j2 sl1 sl2 (sl1' & H1 & E1)%Htid (sl2' & H2 & E2)%Htid Hr E. rewrite <- E1, <- E2 in *. eauto.
  - intros Hinit. rewrite Ei in Hinit. rewrite (T5 Hinit) in Hi.
    apply lookup_replicate in Hi as [-> _]. done.
Qed.

Lemma elem_of_replace (l : list Z) (n : nat) q c x :
  NoDup l → l !! n = Some q → c ∉ l →
  x ∈ <[n := c]> l ↔ x = c ∨ (x ∈ l ∧ x ≠ q).
Proof.
  intros Hnd Hn Hc. pose proof (lookup_lt_Some _ _ _ Hn) as Hlt. rewrite !list_elem_of_lookup. split.
  - intros [j Hj]. destruct (decide (j = n)) as [->|Hne].
    + rewrite list_lookup_insert_eq in Hj by done. left. congruence.
    + rewrite list_lookup_insert_ne in Hj by done. right. split; [by exists j|]. intros ->.
      apply Hne. by eapply NoDup_lookup.
  - intros [->|[[j Hj] Hx]]; [exists n; by apply list_lookup_insert_eq|].
    exists j. rewrite list_lookup_insert_ne; [done|]. intros <-. congruence.
Qed.

Lemma NoDup_replace (l : list Z) (n : nat) c : NoDup l → c ∉ l → NoDup (<[n := c]> l).
Proof.
  intros Hnd Hc. apply NoDup_alt. intros i j x Hi Hj.
  assert (∀ k y, <[n := c]> l !! k = Some y → (k = n ∧ y = c) ∨ (l !! k = Some y ∧ k ≠ n)) as Hl.
  { intros k y Hk. destruct (decide (k = n)) as [->|Hne].
    - left. assert (n < length l)%nat by (apply lookup_lt_Some in Hk; by rewrite length_insert in Hk).
      rewrite list_lookup_insert_eq in Hk by done. split; congruence.
    - right. by rewrite list_lookup_insert_ne in Hk. }
  destruct (Hl i x Hi) as [[Ei E]|[Hi' _]], (Hl j x Hj) as [[Ej E']|[Hj' _]]; [congruence|..].
  - exfalso. apply Hc. rewrite <- E. by eapply list_elem_of_lookup_2.
  - exfalso. apply Hc. rewrite <- E'. by eapply list_elem_of_lookup_2.
  - by eapply NoDup_lookup.
Qed.

(** ** Copy on write *)

Lemma heap_ok_same s s' : heap_ok s → heap s' = heap s → vm s' = vm s → next s' = next s → heap_ok s'.
Proof. intros [] Eh Ev En. split; rewrite ?Eh, ?Ev, ?En; done. Qed.

Lemma pinfo_same s s' q : heap s' = heap s → vm s' = vm s → pinfo s' q = pinfo s q.
Proof. intros Eh Ev. unfold pinfo. by rewrite Eh, Ev. Qed.

(** The code of [cow], step by step: page [q], with the bytes [bs], is at index
    [pn] of the storage, [c] is the copy. *)
Lemma cow_run s i sl t pn q p pr bs :
  heap_ok s → tid_tls_pairs s !! i = Some sl → zget (pages t) pn = Some q →
  heap s !! q = Some p → pinfo s q = Some (pr, bs) → readable pr = true →
  let c := next s in
  let t' := MkTLS (tls_tid t) (tls_size t) (page_num t) (<[Z.to_nat pn := c]> (pages t)) in
  ∃ s', cow (Z.of_nat i) pn q p t s = Done (c, t', s') ∧ heap_ok s' ∧
    heap s !! c = None ∧ initialize s' = initialize s ∧
    tid_tls_pairs s' = <[i := Pair (tid sl) (Some t')]> (tid_tls_pairs s) ∧
    (∀ x, rc s' x = if decide (x = q) then Some (s32 (ref_count p - 1))
                    else if decide (x = c) then Some 1 else rc s x) ∧
    (∀ x, pinfo s' x = if decide (x = q) then Some (PROT_NONE, bs)
                       else if decide (x = c) then Some (PROT_WRITE, bs) else pinfo s x).
Proof.
  intros Hk Hi Hq Hp Hx Hr c t'. pose proof (pinfo_length _ _ _ _ Hx) as Hlb.
  pose proof (pagesize_range (M := M)) as Hps. unfold cow.
  destruct (new_page_ok s PROT_WRITE Hk) as (a & m & s1 & -> & -> & Eh1 & Hfresh & Ep1 & Ei1 & _ & Hk1 & Hi1).
  fold c in Eh1, Hfresh, Hi1 |- *.
  assert (q ≠ c) as Hqc by congruence.
  destruct (copy_page_ok (Z.to_nat getpagesize) s1 c q (Page a 1) p PROT_WRITE pr
    (replicate (Z.to_nat getpagesize) 0) bs) as (s2 & E2 & [Eh2 En2 Ep2 Ei2 Hk2 Hi2]); try done; try lia.
  { by rewrite Eh1, lookup_insert_eq. }
  { by rewrite Eh1, lookup_insert_ne. }
  { by rewrite Hi1, decide_True. }
  { by rewrite Hi1, decide_False. }
  cbn [address] in E2. rewrite E2. rstep. clear E2.
  rewrite take_ge, drop_ge, app_nil_r in Hi2 by (rewrite ?length_replicate; lia).
  rewrite awrite_lt by (by eapply zget_range). rstep.
  rewrite Ep2, Ep1, (aread_nat _ _ _ Hi). rstep. unfold set_pair. rewrite Ep2, Ep1.
  rewrite awrite_nat by (by eapply lookup_lt_Some). rstep. fold t'.
  set (s3 := set_pairs s2 _). assert (heap_ok s3) as Hk3 by (by apply (heap_ok_same s2)).
  assert (heap s3 !! q = Some p) as Hp3.
  { change (heap s3) with (heap s2). by rewrite Eh2, Eh1, lookup_insert_ne. }
  destruct (set_count_ok s3 q p (s32 (ref_count p - 1)) Hk3 Hp3) as (Hk4 & Hi4 & Hr4).
  set (s4 := set_heap s3 _) in *. change (heap s3) with (heap s2) in *.
  change (set_heap s3 (<[q := Page (address p) (s32 (ref_count p - 1))]> (heap s2))) with s4.
  assert (∀ x, pinfo s4 x = if decide (x = c) then Some (PROT_WRITE, bs) else pinfo s x) as Hi4'.
  { intros x. rewrite Hi4, (pinfo_same s2 s3) by done. rewrite Hi2, Hi1. by case_decide. }
  destruct (mprotect_ok s4 q pr PROT_NONE bs Hk4) as (s5 & E5 & [Eh5 En5 Ep5 Ei5 Hk5 Hi5]).
  { by rewrite Hi4', decide_False. }
  unfold tls_protect. rewrite E5. rstep. exists s5. split; [done|]. split; [done|]. split; [done|].
  split; [rewrite Ei5; change (initialize s4) with (initialize s2); congruence|].
  split; [by rewrite Ep5|]. split.
  - intros x. unfold rc at 1. rewrite Eh5. change (ref_count <$> heap s4 !! x) with (rc s4 x).
    rewrite Hr4. case_decide; [done|]. unfold rc. change (heap s3) with (heap s2). rewrite Eh2, Eh1.
    rewrite lookup_insert. destruct (decide (c = x)) as [<-|]; [by rewrite decide_True|].
    by rewrite decide_False by congruence.
  - intros x. rewrite Hi5, Hi4'. done.
Qed.

(** The storage with the copy [c] in place of the page at index [pn]. *)
Definition replaced (t : TLS) (pn c : Z) : TLS :=
  MkTLS (tls_tid t) (tls_size t) (page_num t) (<[Z.to_nat pn := c]> (pages t)).

(** What the code did: [q], shared by [n] storages, lost one owner and is
    protected; the new page [c] has its bytes. *)
Record copied s s' (i : nat) (sl : tid_tls_pair) (t : TLS) (pn q c n : Z) (pr : prot)
    (bs : list Z) : Prop := Copied {
  cp_writing : writing s i t;
  cp_ok : tls_ok s t;
  cp_slot : tid_tls_pairs s !! i = Some sl;
  cp_tls : tls sl = Some t;
  cp_page : zget (pages t) pn = Some q;
  cp_count : rc s q = Some n;
  cp_shared : 1 < n;
  cp_info : pinfo s q = Some (pr, bs);
  cp_fresh : heap s !! c = None;
  cp_heap : heap_ok s';
  cp_init : initialize s' = initialize s;
  cp_pairs : tid_tls_pairs s' = <[i := Pair (tid sl) (Some (replaced t pn c))]> (tid_tls_pairs s);
  cp_rc : ∀ x, rc s' x = if decide (x = q) then Some (s32 (n - 1))
                         else if decide (x = c) then Some 1 else rc s x;
  cp_pinfo : ∀ x, pinfo s' x = if decide (x = q) then Some (PROT_NONE, bs)
                               else if decide (x = c) then Some (PROT_WRITE, bs) else pinfo s x
}.

Section copied.
Variables (s s' : state M) (i : nat) (sl : tid_tls_pair) (t : TLS) (pn q c n : Z) (pr : prot)
  (bs : list Z).
Hypothesis Hcp : copied s s' i sl t pn q c n pr bs.

Lemma copied_old x : is_Some (heap s !! x) → x ≠ c.
Proof. intros [y Hy] ->. rewrite (cp_fresh _ _ _ _ _ _ _ _ _ _ _ Hcp) in Hy. done. Qed.

Lemma copied_slot_page j sl' x :
  tid_tls_pairs s !! j = Some sl' → x ∈ slot_pages sl' → x ≠ c.
Proof.
  intros Hj Hx. apply copied_old. unfold slot_pages in Hx.
  destruct (tls sl') as [t2|] eqn:E2; [|by apply elem_of_nil in Hx].
  destruct Hcp as [[_ Ht _ _ _] _ _ _ _ _ _ _ _ _ _ _ _ _].
  destruct (tb_live s Ht j sl' t2 Hj E2) as [_ Hok2]. by apply (tk_heap s t2 Hok2).
Qed.

Lemma copied_index : pages t !! Z.to_nat pn = Some q ∧ q ∈ pages t ∧ q ≠ c.
Proof.
  destruct Hcp as [_ Hok _ _ Hq _ _ _ _ _ _ _ _ _]. apply zget_Some in Hq as [_ Hq].
  assert (q ∈ pages t) as Hin by (by eapply list_elem_of_lookup_2).
  split; [done|]. split; [done|]. by apply copied_old, (tk_heap s t Hok).
Qed.

Lemma copied_pages x : x ∈ pages (replaced t pn c) ↔ x = c ∨ (x ∈ pages t ∧ x ≠ q).
Proof.
  destruct copied_index as (Hq & _ & _). pose proof (cp_ok _ _ _ _ _ _ _ _ _ _ _ Hcp) as Hok.
  apply elem_of_replace; [apply Hok|done|].
  intros Hx. by apply (copied_old c (tk_heap s t Hok c Hx)).
Qed.

Lemma copied_heap x : is_Some (heap s !! x) → is_Some (heap s' !! x).
Proof.
  intros Hs. rewrite <- rc_is_Some, (cp_rc _ _ _ _ _ _ _ _ _ _ _ Hcp).
  rewrite <- rc_is_Some in Hs. repeat case_decide; by eauto.
Qed.

Lemma copied_tls_ok : tls_ok s' (replaced t pn c).
Proof.
  pose proof copied_pages as Hmem. pose proof copied_heap as Hheap.
  destruct copied_index as (Hq & _ & Hqc).
  destruct Hcp as [_ Hok _ _ _ _ _ _ _ _ _ _ Hrc' _]. pose proof (copied_old c) as Hold.
  destruct Hok as [S1 S2 S3 S4 S5]. split; try done.
  - unfold replaced; simpl. by rewrite length_insert.
  - apply NoDup_replace; [done|]. intros Hc. by apply (Hold (S5 c Hc)).
  - intros x [->|[Hx' _]]%Hmem; [|by apply Hheap, S5].
    rewrite <- rc_is_Some, Hrc', decide_False, decide_True by done. by eexists.
Qed.

(** One reference to [q] became one to [c]. *)
Lemma copied_refs x :
  refs (tid_tls_pairs s') x =
  if decide (x = q) then n - 1 else if decide (x = c) then 1 else refs (tid_tls_pairs s) x.
Proof.
  pose proof copied_pages as Hmem. destruct copied_index as (_ & Hin & Hqc).
  pose proof copied_slot_page as Hnc. pose proof (copied_old c) as Hold.
  destruct Hcp as [[_ _ _ Hrefs _] Hok Hi Hsl _ Hrc _ _ _ _ _ Ep _ _].
  assert (n = refs (tid_tls_pairs s) q) as Hnr by (by destruct (Hrefs q n Hrc)).
  rewrite Ep, (refs_insert _ i sl _ x Hi). unfold holds_page, slot_pages. rewrite Hsl; cbn [tls].
  destruct (decide (x = q)) as [->|Hxq].
  - rewrite (decide_True (P := q ∈ pages t)) by done. rewrite decide_False; [lia|].
    intros [?|[_ ?]]%Hmem; done.
  - destruct (decide (x = c)) as [->|Hxc].
    + rewrite (decide_False (P := c ∈ pages t)) by (intros Hc; by apply (Hold (tk_heap s t Hok c Hc))).
      rewrite decide_True by (apply Hmem; by left).
      rewrite refs_zero; [done|]. intros j sl' Hj Hc. by apply (Hnc j sl' c Hj Hc).
    + destruct (decide (x ∈ pages t)).
      * rewrite decide_True by (apply Hmem; by right). lia.
      * rewrite decide_False; [lia|]. intros [?|[? _]]%Hmem; done.
Qed.

Lemma copied_counts x k : rc s' x = Some k → k = refs (tid_tls_pairs s') x ∧ 1 ≤ k.
Proof.
  rewrite copied_refs. destruct Hcp as [[_ Ht _ Hrefs _] _ _ _ _ Hrc Hgt _ _ _ _ _ Hrc' _].
  pose proof (refs_range (tid_tls_pairs s) q) as Hrange. pose proof (tb_length s Ht) as Hlen.
  unfold MAX_THREAD_COUNT in Hlen. destruct (Hrefs q n Hrc) as [Hnr _].
  rewrite Hrc'. case_decide; [|case_decide].
  - intros [= <-]. rewrite s32_id by lia. lia.
  - intros [= <-]. lia.
  - apply Hrefs.
Qed.

Lemma copied_prot x pr' bs' : pinfo s' x = Some (pr', bs') →
  if decide (x ∈ pages (replaced t pn c))
  then writable pr' = true ∧ (∀ k, rc s' x = Some k → 1 < k → readable pr' = true)
  else pr' = PROT_NONE.
Proof.
  pose proof copied_pages as Hmem. destruct copied_index as (_ & Hin & Hqc).
  destruct Hcp as [[_ _ _ _ Hprot] _ _ _ _ _ _ _ _ _ _ _ Hrc' Hi'].
  rewrite Hi'. destruct (decide (x = q)) as [->|Hxq].
  - intros [= <- <-]. rewrite decide_False; [done|]. intros [?|[_ ?]]%Hmem; done.
  - destruct (decide (x = c)) as [->|Hxc].
    + intros [= <- <-]. rewrite decide_True by (apply Hmem; by left). split; [done|].
      intros k. rewrite Hrc', decide_False, decide_True by done. intros [= <-]. lia.
    + intros Hx'. pose proof (Hprot x pr' bs' Hx') as Hpx. destruct (decide (x ∈ pages t)).
      * rewrite decide_True by (apply Hmem; by right). destruct Hpx as [? Hrd']. split; [done|].
        intros k. rewrite Hrc', !decide_False by done. apply Hrd'.
      * rewrite decide_False; [done|]. intros [?|[? _]]%Hmem; done.
Qed.

Lemma copied_writing : writing s' i (replaced t pn c).
Proof.
  destruct Hcp as [[_ Ht _ _ _] _ Hi Hsl _ _ _ _ _ Hk' Ein Ep _ _].
  split; [done| | |apply copied_counts|apply copied_prot].
  - eapply (table_ok_replace s s'); eauto using copied_tls_ok, copied_heap.
  - exists (Pair (tid sl) (Some (replaced t pn c))). split; [|done]. rewrite Ep.
    apply list_lookup_insert_eq. by eapply lookup_lt_Some.
Qed.

(** The pages of the other storages have the same bytes. *)
Lemma copied_pbytes x : x ≠ c → pbytes s' x = pbytes s x.
Proof.
  destruct Hcp as [_ _ _ _ _ _ _ Hx _ _ _ _ _ Hi']. intros Hxc. unfold pbytes. rewrite Hi'.
  destruct (decide (x = q)) as [->|Hxq]; [by rewrite Hx|]. by rewrite decide_False.
Qed.

Lemma copied_byte k : 0 ≤ k < tls_size t → tls_byte s' (replaced t pn c) k = tls_byte s t k.
Proof.
  intros Hk0. pose proof copied_pbytes as Hpb. pose proof (copied_old) as Hold.
  destruct copied_index as (Hq' & _ & Hqc).
  destruct Hcp as [_ Hok _ _ Hq _ _ Hx _ _ _ _ _ Hi'].
  destruct (page_index s t k Hok Hk0) as (x & Hxk & Hxin & _).
  apply tls_byte_ext; [|by eexists]. intros x' Hx'. assert (x' = x) as -> by congruence.
  unfold replaced; cbn [pages]. rewrite zget_insert by (by eapply zget_range). case_decide as C.
  - exists c. split; [done|]. assert (x = q) as -> by congruence. unfold pbytes.
    by rewrite Hi', decide_False, decide_True, Hx.
  - exists x. split; [done|]. by apply Hpb, Hold, (tk_heap s t Hok).
Qed.

Lemma copied_effect : effect s s' i t (replaced t pn c) (tls_byte s t).
Proof.
  pose proof copied_byte as Hb. pose proof copied_slot_page as Hsp.
  pose proof copied_pbytes as Hpb. pose proof copied_writing as Hw.
  destruct Hcp as [_ _ Hi _ _ _ _ _ _ _ Ein Ep _ _]. split; try done.
  - intros sl' Hsl'. assert (sl' = sl) as -> by congruence. done.
  - intros j sl' x _ Hsl' Hxin. by eapply Hpb, Hsp.
Qed.
End copied.

Lemma cow_ok s i t pn q p n :
  writing s i t → tls_ok s t → zget (pages t) pn = Some q → heap s !! q = Some p →
  ref_count p = n → 1 < n →
  ∃ c t' s', cow (Z.of_nat i) pn q p t s = Done (c, t', s') ∧
    effect s s' i t t' (tls_byte s t) ∧ zget (pages t') pn = Some c ∧ rc s' c = Some 1.
Proof.
  intros Hw Hok Hq Hp Hn Hgt. pose proof Hw as [Hk Ht (sl & Hi & Hsl) Hrefs Hprot].
  assert (q ∈ pages t) as Hin by (apply zget_Some in Hq as [_ Hq]; by eapply list_elem_of_lookup_2).
  assert (rc s q = Some n) as Hrc by (apply rc_Some; by exists p).
  destruct (heap_pinfo s q Hk ltac:(by eexists)) as [[pr bs] Hx].
  pose proof (Hprot q pr bs Hx) as Hpq. rewrite decide_True in Hpq by done. destruct Hpq as [_ Hrd].
  destruct (cow_run s i sl t pn q p pr bs Hk Hi Hq Hp Hx (Hrd n Hrc Hgt))
    as (s' & E & Hk' & Hfresh & Ei & Ep & Hrc' & Hi'). rewrite Hn in Hrc'.
  assert (copied s s' i sl t pn q (next s) n pr bs) as Hcp by (by constructor).
  destruct (copied_index _ _ _ _ _ _ _ _ _ _ _ Hcp) as (_ & _ & Hqc).
  exists (next s), (replaced t pn (next s)), s'. split; [exact E|].
  split; [by eapply copied_effect|]. split.
  - unfold replaced; cbn [pages]. rewrite zget_insert by (by eapply zget_range).
    by rewrite decide_True.
  - by rewrite Hrc', decide_False, decide_True.
Qed.

Lemma rc_same s s' q : heap s' = heap s → rc s' q = rc s q.
Proof. intros E. unfold rc. by rewrite E. Qed.

Lemma writing_tls s i t : writing s i t → tls_ok s t.
Proof.
  intros [_ Ht (sl & Hi & Hsl) _ _]. by destruct (tb_live s Ht i sl t Hi Hsl).
Qed.

(** ** One byte of a page that is not shared *)

Lemma store_effect s i t q k v p :
  writing s i t → 0 ≤ k < tls_size t → zget (pages t) (k / getpagesize) = Some q →
  heap s !! q = Some p → rc s q = Some 1 →
  ∃ s', store_byte (address p + k mod getpagesize) v s = Done s' ∧
    effect s s' i t t (λ j, if decide (j = k) then v else tls_byte s t j).
Proof.
  intros Hw Hk0 Hq Hp Hrc. pose proof (writing_tls s i t Hw) as Hok.
  destruct Hw as [Hk Ht (sl & Hi & Hsl) Hrefs Hprot].
  destruct (page_index s t k Hok Hk0) as (q' & Hq' & Hin & Hpn & Hoff).
  assert (q' = q) as -> by congruence.
  destruct (heap_pinfo s q Hk ltac:(by eexists)) as [[pr bs] Hx].
  pose proof (pinfo_length _ _ _ _ Hx) as Hlb.
  pose proof (Hprot q pr bs Hx) as Hpq. rewrite decide_True in Hpq by done. destruct Hpq as [Hwr _].
  destruct (store_ok s q p pr bs (k mod getpagesize) v Hk Hp Hx Hwr Hoff)
    as (s' & E & [Eh En Ep Ei Hk' Hi']).
  exists s'. split; [exact E|].
  assert (slot_pages sl = pages t) as Hsp by (unfold slot_pages; by rewrite Hsl).
  split; try done.
  - split; [done| | | |].
    + apply (table_ok_replace s s' i sl t t); try done.
      * by rewrite Ep, pair_eta, list_insert_id.
      * eapply tls_ok_heap; [|done]. by rewrite Eh.
      * by rewrite Eh.
    + exists sl. by rewrite Ep.
    + intros x n. rewrite (rc_same s s' x Eh), Ep. apply Hrefs.
    + intros x pr' bs'. rewrite Hi'. destruct (decide (x = q)) as [->|Hxq].
      * intros [= <- <-]. rewrite decide_True by done. split; [done|].
        intros n. rewrite (rc_same s s' q Eh), Hrc. intros [= <-]. lia.
      * intros Hx'. pose proof (Hprot x pr' bs' Hx') as Hpx. case_decide; [|done].
        destruct Hpx as [? Hrd]. split; [done|]. intros n. rewrite (rc_same s s' x Eh). apply Hrd.
  - intros sl' Hsl'. assert (sl' = sl) as -> by congruence. by rewrite Ep, pair_eta, list_insert_id.
  - intros j sl' x Hj Hsl' Hxin. unfold pbytes. rewrite Hi', decide_False; [done|]. intros ->.
    destruct (Hrefs q 1 Hrc) as [Hr1 _].
    assert (2 ≤ refs (tid_tls_pairs s) q) by (eapply (refs_two _ i j); [done..|by rewrite Hsp|done]). lia.
  - intros j Hj. destruct (page_index s t j Hok Hj) as (x & Hxj & Hxin & _ & Hoffj).
    unfold tls_byte. rewrite Hxj, Hi'. destruct (decide (x = q)) as [->|Hxq].
    + rewrite Hx. assert (j / getpagesize = k / getpagesize) as Hpage.
      { apply zget_Some in Hq as [? Hq], Hxj as [? Hxj].
        assert (Z.to_nat (j / getpagesize) = Z.to_nat (k / getpagesize)) by (by eapply NoDup_lookup; [apply Hok|..]).
        lia. }
      rewrite !nth_lookup. pose proof (pagesize_range (M := M)) as Hps.
      assert (j = getpagesize * (j / getpagesize) + j mod getpagesize) by (apply Z.div_mod; lia).
      assert (k = getpagesize * (k / getpagesize) + k mod getpagesize) by (apply Z.div_mod; lia).
      case_decide as C.
      * subst j. rewrite list_lookup_insert_eq by lia. done.
      * rewrite list_lookup_insert_ne; [done|]. intros Em. apply C. nia.
    + case_decide as C; [|done]. subst j. congruence.
Qed.

(** ** The loop of [tls_write] *)

Lemma write_bytes_ok i bound fuel : ∀ cnt idx t buffer s,
  writing s i t → 0 ≤ cnt ≤ idx → idx ≤ bound ≤ tls_size t → bound < 2 ^ 31 →
  cnt + (bound - idx) ≤ Z.of_nat (length buffer) → bound - idx < Z.of_nat fuel →
  ∃ t' s', write_bytes fuel (Z.of_nat i) cnt idx bound t buffer s = Done (t', s') ∧
    effect s s' i t t' (λ k, if decide (idx ≤ k < bound)
      then nth (Z.to_nat (cnt + (k - idx))) buffer 0 else tls_byte s t k).
Proof.
  induction fuel as [|fuel IH]; intros cnt idx t buffer s Hw Hc Hb Hmax Hl Hf; [lia|].
  pose proof (writing_tls s i t Hw) as Hok.
  cbn [write_bytes]. rewrite wrap_id by lia. destruct (Z.ltb_spec idx bound) as [Hlt|Hge]; cbn [negb].
  2: { exists t, s. split; [done|]. apply effect_refl; [done|]. intros k Hk.
       by rewrite decide_False by lia. }
  destruct (page_number idx) as [-> ->]; [lia|].
  destruct (page_index s t idx Hok) as (q & Hq & Hin & _ & Hoff); [lia|].
  rewrite (proj2 (aread_Ret _ _ _) Hq). rstep.
  destruct (tk_heap s t Hok q Hin) as [p Hp]. rewrite (get_page_ok s q p Hp). rstep.
  pose proof (wg_slot s i t Hw) as (sl & Hsl & Hslt).
  destruct (wg_refs s i t Hw q (ref_count p)) as [_ Hpos]; [apply rc_Some; by exists p|].
  assert (∃ c t1 s1, (if 1 <? ref_count p then cow (Z.of_nat i) (idx / getpagesize) q p t s
      else Done (q, t, s)) = Done (c, t1, s1) ∧ effect s s1 i t t1 (tls_byte s t) ∧
      zget (pages t1) (idx / getpagesize) = Some c ∧ rc s1 c = Some 1) as (c & t1 & s1 & -> & Hef1 & Hc1 & Hrc1).
  { destruct (Z.ltb_spec 1 (ref_count p)) as [Hgt|Hle].
    - by apply (cow_ok s i t _ q p (ref_count p)).
    - exists q, t, s. split_and!; [done|by apply effect_refl|done|]. apply rc_Some. exists p. split; [done|lia]. }
  rstep. pose proof (ef_writing _ _ _ _ _ _ Hef1) as Hw1. pose proof (ef_size _ _ _ _ _ _ Hef1) as Hsz1.
  pose proof Hrc1 as (p1 & Hp1 & _)%rc_Some. rewrite (get_page_ok s1 c p1 Hp1). rstep.
  destruct (aread_lt buffer cnt) as (v & Hv & Hv'); [lia|]. rewrite Hv. rstep.
  destruct (store_effect s1 i t1 c idx v p1 Hw1) as (s2 & -> & Hef2); try done; [rewrite Hsz1; lia|]. rstep.
  pose proof (ef_writing _ _ _ _ _ _ Hef2) as Hw2.
  rewrite !next_int_ok by lia. rstep.
  destruct (IH (cnt + 1) (idx + 1) t1 buffer s2 Hw2) as (t3 & s3 & -> & Hef3); try lia.
  exists t3, s3. split; [done|].
  assert (effect s s2 i t t1 (λ k, if decide (k = idx) then v else tls_byte s t k)) as Hef12.
  { eapply effect_trans; [exact Hef1|exact Hef2| |by exists sl]. intros k Hk. cbn beta.
    case_decide; [done|]. by apply (ef_bytes _ _ _ _ _ _ Hef1). }
  eapply effect_trans; [exact Hef12|exact Hef3| |by exists sl]. intros k Hk. cbn beta.
  destruct (decide (k = idx)) as [->|Hne].
  - rewrite decide_False by lia. rewrite decide_True by lia.
    rewrite (ef_bytes _ _ _ _ _ _ Hef12) by done. rewrite decide_True by done.
    replace (cnt + (idx - idx)) with cnt by lia. by rewrite nth_lookup, Hv'.
  - destruct (decide (idx + 1 ≤ k < bound)).
    + rewrite decide_True by lia. do 2 f_equal. lia.
    + rewrite decide_False by lia. rewrite (ef_bytes _ _ _ _ _ _ Hef12) by done.
      by rewrite decide_False.
Qed.

(** ** tls_write *)

Lemma unprotected_writing s i sl t s1 :
  inv s → tid_tls_pairs s !! i = Some sl → tls sl = Some t →
  heap_ok s1 → heap s1 = heap s → tid_tls_pairs s1 = tid_tls_pairs s → initialize s1 = initialize s →
  (∀ q, pinfo s1 q = if decide (q ∈ pages t) then (λ x, (PROT_READ_WRITE, x.2)) <$> pinfo s q
                     else pinfo s q) →
  writing s1 i t ∧ (∀ u, tls_ok s u → tls_data s1 u = tls_data s u).
Proof.
  intros [Hk Ht Hr Hp] Hi Hsl Hk1 Eh Ep Ei Hi1.
  assert (∀ q, pbytes s1 q = pbytes s q) as Hb.
  { intros q. unfold pbytes. rewrite Hi1. case_decide; [|done]. by destruct (pinfo s q) as [[]|]. }
  destruct (tb_live s Ht i sl t Hi Hsl) as [_ Hok]. split.
  - split; [done| | | |].
    + apply (table_ok_replace s s1 i sl t t); try done.
      * by rewrite Ep, pair_eta, list_insert_id.
      * eapply tls_ok_heap; [|done]. by rewrite Eh.
      * by rewrite Eh.
    + exists sl. by rewrite Ep.
    + intros q n. rewrite (rc_same s s1 q Eh), Ep. apply Hr.
    + intros q pr bs. rewrite Hi1. case_decide; [|apply Hp].
      intros (x & _ & [= -> ->])%fmap_Some. done.
  - intros u Hu. apply tls_data_ext; auto.
Qed.

(** The state after the pages of [t] are protected again. *)
Lemma protected_inv s i t s' :
  writing s i t → heap_ok s' → heap s' = heap s → tid_tls_pairs s' = tid_tls_pairs s →
  initialize s' = initialize s →
  (∀ q, pinfo s' q = if decide (q ∈ pages t) then (λ x, (PROT_NONE, x.2)) <$> pinfo s q
                     else pinfo s q) →
  inv s' ∧ (∀ q, pbytes s' q = pbytes s q).
Proof.
  intros Hw Hk' Eh Ep Ei Hi'. pose proof (writing_tls s i t Hw) as Hok.
  destruct Hw as [Hk Ht (sl & Hi & Hsl) Hr Hp]. split.
  - split; [done| | |].
    + apply (table_ok_replace s s' i sl t t); try done.
      * by rewrite Ep, pair_eta, list_insert_id.
      * eapply tls_ok_heap; [|done]. by rewrite Eh.
      * by rewrite Eh.
    + intros q n. rewrite (rc_same s s' q Eh), Ep. apply Hr.
    + intros q pr bs. rewrite Hi'. case_decide as C.
      * by intros (x & _ & [= -> ->])%fmap_Some.
      * intros Hx. pose proof (Hp q pr bs Hx) as Hpq. by rewrite decide_False in Hpq.
  - intros q. unfold pbytes. rewrite Hi'. case_decide; [|done]. by destruct (pinfo s q) as [[]|].
Qed.

(** A list read byte by byte as written is the old one with the buffer's bytes
    spliced in. *)
Lemma splice_lookup (l buffer : list Z) offset len k :
  0 ≤ offset → 0 ≤ len ≤ Z.of_nat (length buffer) → offset + len ≤ Z.of_nat (length l) →
  (k < length l)%nat →
  splice l offset (slice buffer 0 len) !! k =
    Some (if decide (offset ≤ Z.of_nat k < offset + len)
          then nth (Z.to_nat (0 + (Z.of_nat k - offset))) buffer 0 else nth k l 0).
Proof.
  intros Ho Hl Hlen Hk. unfold splice, slice. change (drop (Z.to_nat 0) buffer) with buffer.
  assert (length (take (Z.to_nat len) buffer) = Z.to_nat len) as Hls by (rewrite length_take; lia).
  assert (length (take (Z.to_nat offset) l) = Z.to_nat offset) as Hlt by (rewrite length_take; lia).
  case_decide as C.
  - rewrite lookup_app_r, Hlt, lookup_app_l, lookup_take_lt by lia.
    replace (Z.to_nat (0 + (Z.of_nat k - offset))) with (k - Z.to_nat offset)%nat by lia.
    destruct (lookup_lt_is_Some_2 buffer (k - Z.to_nat offset)) as [x Hx]; [lia|].
    rewrite Hx. f_equal. symmetry. by apply nth_lookup_Some.
  - destruct (lookup_lt_is_Some_2 l k Hk) as [x Hx]. rewrite (nth_lookup_Some _ _ _ _ Hx).
    destruct (decide (k < Z.to_nat offset)%nat).
    + by rewrite lookup_app_l, lookup_take_lt by lia.
    + rewrite lookup_app_r, Hlt, lookup_app_r, Hls, lookup_drop by lia. rewrite <- Hx. f_equal. lia.
Qed.

Lemma length_splice_slice (l buffer : list Z) offset len :
  0 ≤ offset → 0 ≤ len ≤ Z.of_nat (length buffer) → offset + len ≤ Z.of_nat (length l) →
  length (splice l offset (slice buffer 0 len)) = length l.
Proof.
  intros Ho Hl Hlen. unfold splice, slice. change (drop (Z.to_nat 0) buffer) with buffer.
  rewrite !length_app, !length_take, length_drop. lia.
Qed.

Lemma written_splice s1 s2 t t' offset len (buffer : list Z) :
  1 ≤ tls_size t → tls_size t' = tls_size t →
  0 ≤ offset → 0 ≤ len ≤ Z.of_nat (length buffer) → offset + len ≤ tls_size t →
  (∀ k, 0 ≤ k < tls_size t → tls_byte s2 t' k =
     if decide (offset ≤ k < offset + len) then nth (Z.to_nat (0 + (k - offset))) buffer 0
     else tls_byte s1 t k) →
  tls_data s2 t' = splice (tls_data s1 t) offset (slice buffer 0 len).
Proof.
  intros Hsz Hsz' Ho Hl Hend Hb.
  pose proof (length_tls_data s1 t) as Hd. pose proof (length_tls_data s2 t') as Hd'.
  assert (length (tls_data s2 t') = length (splice (tls_data s1 t) offset (slice buffer 0 len))) as Hlen
    by (rewrite length_splice_slice; lia).
  apply (list_eq_same_length _ _ _ eq_refl Hlen). intros k x y Hk Hx Hy.
  rewrite length_splice_slice in Hk by lia.
  rewrite splice_lookup in Hy by lia. rewrite tls_data_lookup in Hx by lia.
  rewrite Hb in Hx by lia. injection Hx as <-. injection Hy as <-. case_decide; [done|].
  rewrite nth_lookup, tls_data_lookup by lia. done.
Qed.

Lemma tls_write_ok self offset len buffer s a :
  represents s a → real_tid self → call_ok (Write offset len buffer) →
  ∀ r b a', spec_call self (Write offset len buffer) a = Some (r, b, a') →
  ∃ s', tls_write self offset len buffer s = Done (r, s') ∧ b = buffer ∧ represents s' a'.
Proof.
  intros Hrep Hr (Ho & Hl & Hbuf) r b a'. pose proof Hrep as (Hinv & Hc & Hfree).
  pose proof (iv_table s Hinv) as Htab. unfold spec_call, tls_write. rewrite Hc.
  destruct (find_tls self s) as [t|] eqn:E; cbn [fmap option_fmap option_map].
  2: { intros [= <- <- <-]. exists s. by destruct (find_tid self s). }
  pose proof E as (i & sl & Hi & Htid & Ht)%find_tls_Some; [|done].
  destruct (tb_live s Htab i sl t Hi Ht) as [_ Hok].
  rewrite (find_tid_real s self i sl) by done.
  pose proof (tk_size s t Hok) as Hsz. pose proof (length_tls_data s t) as Hld.
  rewrite Z.max_r in Hld by lia. case_decide as Hcon; [done|].
  rewrite wrap_id by lia. rewrite Hld.
  case_decide as Hcmp; intros [= <- <- <-].
  { rewrite (proj2 (Z.ltb_lt _ _)) by lia. by exists s. }
  rewrite (proj2 (Z.ltb_ge _ _)) by lia.
  destruct (unprotect_pages s t (iv_heap s Hinv) Hok) as (s1 & -> & Hk1 & Eh1 & En1 & Ep1 & Ei1 & Hi1).
  rstep. rewrite s32_id by lia.
  destruct (unprotected_writing s i sl t s1 Hinv Hi Ht Hk1 Eh1 Ep1 Ei1 Hi1) as [Hw1 Hd1].
  destruct (write_bytes_ok i (offset + len) (byte_fuel len) 0 offset t buffer s1 Hw1)
    as (t' & s2 & -> & Hef); try lia.
  { unfold byte_fuel. lia. }
  rstep. destruct Hef as [Hw2 Hsz2 Ei2 Ep2 Ho2 Hb2]. pose proof (writing_tls s2 i t' Hw2) as Hok2.
  destruct (protect_pages s2 t' (wg_heap _ _ _ Hw2) Hok2) as (s3 & -> & Hk3 & Eh3 & En3 & Ep3 & Ei3 & Hi3).
  rstep. exists s3. split; [done|]. split; [done|].
  destruct (protected_inv s2 i t' s3 Hw2 Hk3 Eh3 Ep3 Ei3 Hi3) as [Hinv3 Hb3].
  rewrite <- Ep1 in Hi. specialize (Ep2 sl Hi). rewrite Htid in Ep2. rewrite Ep1 in Hi, Ep2.
  split_and!; [done| |].
  - cbn [contents]. intros u. rewrite lookup_insert. destruct (decide (self = u)) as [<-|Hne].
    + assert (find_tls self s3 = Some t') as ->.
      { apply find_tls_Some; [apply Hinv3|]. exists i, (Pair self (Some t')). split; [|done].
        rewrite Ep3, Ep2. apply list_lookup_insert_eq. by eapply lookup_lt_Some. }
      simpl. f_equal. rewrite (tls_data_ext s2 s3 t') by auto.
      rewrite <- (Hd1 t Hok). symmetry. apply written_splice; auto; lia.
    + rewrite Hc. symmetry. apply (contents_other s s3 i sl (Pair self (Some t')) self);
        [done|apply Hinv3|done|by rewrite Ep3|by right|by right| |done].
      intros j slj q Hj Hslj Hq. rewrite Hb3, (Ho2 j slj) by (done || by rewrite Ep1).
      unfold pbytes. rewrite Hi1. case_decide; [|done]. by destruct (pinfo s q) as [[]|].
  - simpl. rewrite Hfree. unfold free_slots. rewrite Ei3, Ei2, Ei1. destruct (initialize s); [|done].
    rewrite Ep3, Ep2. pose proof (unused_insert (tid_tls_pairs s) i sl (Pair self (Some t')) Hi) as Hu.
    cbn [tid] in Hu. rewrite Htid in Hu. unfold unused_count in Hu. lia.
Qed.
End rw.
