(* ===== verification/TlsLife.v ===== *)
(** * Creating, destroying and cloning thread-local storage

    [tls_create], [tls_destroy] and [tls_clone] against the abstract machine:
    how the table and the reference counts move together. *)

From S2P Require Export TlsReadWrite.

Section life.
Context {M : Type} `{VmSpec M}.
Implicit Types s : state M.

(** ** A slot of the table set *)

Lemma table_ok_set s s' i sl sl' :
  table_ok s → tid_tls_pairs s !! i = Some sl →
  tid_tls_pairs s' = <[i := sl']> (tid_tls_pairs s) → initialize s' = true →
  (∀ t, tls sl' = Some t → real_tid (tid sl') ∧ tls_ok s' t) →
  (tls sl' = None → ¬ real_tid (tid sl')) →
  (real_tid (tid sl') → ∀ j slj, tid_tls_pairs s !! j = Some slj → j ≠ i → tid slj ≠ tid sl') →
  (∀ j slj t, tid_tls_pairs s !! j = Some slj → j ≠ i → tls slj = Some t → tls_ok s' t) →
  table_ok s'.
Proof.
  intros [T1 T2 T3 T4 T5] Hi Ep Ei Hlive Hfree Huniq Hoth. pose proof (lookup_lt_Some _ _ _ Hi) as Hlt.
  assert (∀ j slj, tid_tls_pairs s' !! j = Some slj →
    (j = i ∧ slj = sl') ∨ (j ≠ i ∧ tid_tls_pairs s !! j = Some slj)) as Hl.
  { intros j slj. rewrite Ep, lookup_insert_at by done. case_decide; [|by right].
    intros [= <-]. by left. }
  split.
  - rewrite Ep, length_insert. done.
  - intros j slj t [[-> ->]|[Hne Hj]]%Hl Ht; [by apply Hlive|].
    split; [by eapply T2|by eapply Hoth].
  - intros j slj [[-> ->]|[Hne Hj]]%Hl; [done|by eapply T3].
  - intros j1 j2 sl1 sl2 [[-> ->]|[Hne1 H1]]%Hl [[-> ->]|[Hne2 H2]]%Hl Hr E; [done| | |by eapply T4].
    + exfalso. by apply (Huniq Hr j2 sl2 H2 Hne2).
    + exfalso. rewrite E in Hr. by apply (Huniq Hr j1 sl1 H1 Hne1).
  - congruence.
Qed.

Lemma set_pair_ok i p s : (i < length (tid_tls_pairs s))%nat →
  set_pair (Z.of_nat i) p s = Done (set_pairs s (<[i := p]> (tid_tls_pairs s))).
Proof. intros Hi. unfold set_pair. by rewrite awrite_nat. Qed.

Lemma set_pairs_heap_ok s tbl : heap_ok s → heap_ok (set_pairs s tbl).
Proof. intros Hk. by apply (heap_ok_same s). Qed.

(** ** tls_init *)

Lemma init_represents s a : represents s a → initialize s = false →
  represents (tls_init s) a ∧ initialize (tls_init s) = true.
Proof.
  intros ([Hk Ht Hr Hp] & Hc & Hs) Hinit. split; [|done].
  pose proof (tb_init s Ht Hinit) as Htab.
  assert (tid_tls_pairs (tls_init s) = replicate (Z.to_nat MAX_THREAD_COUNT) (Pair NO_TID None)) as Htab'.
  { unfold tls_init; cbn [tid_tls_pairs set_pairs set_init]. rewrite Htab.
    generalize (Z.to_nat MAX_THREAD_COUNT). intros n. induction n as [|n IH]; [done|]. simpl. by rewrite IH. }
  assert (∀ i sl, tid_tls_pairs (tls_init s) !! i = Some sl → sl = Pair NO_TID None) as Hsl.
  { intros i sl. rewrite Htab'. by intros [-> _]%lookup_replicate. }
  assert (∀ q, refs (tid_tls_pairs s) q = 0) as Hr0.
  { intros q. apply refs_zero. intros i sl. rewrite Htab. intros [-> _]%lookup_replicate. by intros ?%elem_of_nil. }
  assert (table_ok (tls_init s)) as Ht'.
  { split.
    - by rewrite Htab'.
    - intros i sl t Hi. rewrite (Hsl i sl Hi). done.
    - intros i sl Hi. rewrite (Hsl i sl Hi). by intros _ [_ ?].
    - intros i j sl sl' Hi _. rewrite (Hsl i sl Hi). by intros [_ ?].
    - done. }
  split_and!.
  - split; [by apply (heap_ok_same s)|done| |].
    + intros q n Hn. change (rc (tls_init s) q) with (rc s q) in Hn. destruct (Hr q n Hn) as [Hn' Hpos].
      rewrite Hr0 in Hn'. lia.
    + exact Hp.
  - intros t. rewrite Hc.
    assert (∀ s0, (∀ i sl, tid_tls_pairs s0 !! i = Some sl → tls sl = None) → find_tls t s0 = None) as Hnone.
    { intros s0 Hn. unfold find_tls. destruct (find_tid t s0) as [i|]; [|done].
      destruct (tid_tls_pairs s0 !! i) as [sl|] eqn:E; [|done]. by eapply Hn. }
    rewrite !Hnone; [done|..].
    + intros i sl Hi. by rewrite (Hsl i sl Hi).
    + intros i sl. rewrite Htab. by intros [-> _]%lookup_replicate.
  - rewrite Hs. unfold free_slots. rewrite Hinit, Htab'. done.
Qed.

(** ** tls_create *)

Lemma create_pages_ok n : ∀ ptrs s, heap_ok s →
  ∃ s', create_pages n ptrs s = (ptrs ++ seqZ (next s) (Z.of_nat n), s') ∧ heap_ok s' ∧
    tid_tls_pairs s' = tid_tls_pairs s ∧ initialize s' = initialize s ∧
    (∀ q, next s ≤ q → heap s !! q = None) ∧
    (∀ q, rc s' q = if decide (next s ≤ q < next s + Z.of_nat n) then Some 1 else rc s q) ∧
    (∀ q, pinfo s' q = if decide (next s ≤ q < next s + Z.of_nat n)
                       then Some (PROT_NONE, replicate (Z.to_nat getpagesize) 0) else pinfo s q).
Proof.
  induction n as [|n IH]; intros ptrs s Hk.
  { exists s. split_and!; try done.
    - simpl. by rewrite app_nil_r.
    - intros q Hq. destruct (heap s !! q) eqn:E; [|done]. pose proof (hk_next s Hk q ltac:(by eexists)). lia.
    - intros q. by rewrite decide_False by lia.
    - intros q. by rewrite decide_False by lia. }
  cbn [create_pages]. destruct (new_page_ok s PROT_NONE Hk)
    as (a & m & s1 & -> & -> & Eh1 & Hfresh & Ep1 & Ei1 & En1 & Hk1 & Hi1).
  destruct (IH (ptrs ++ [next s]) s1 Hk1) as (s2 & -> & Hk2 & Ep2 & Ei2 & _ & Hr2 & Hi2).
  exists s2. split_and!; [|done|congruence|congruence| | |].
  - f_equal. rewrite <- app_assoc. f_equal. rewrite En1.
    rewrite (seqZ_cons (next s)) by lia. simpl. do 2 f_equal; lia.
  - intros q Hq. destruct (heap s !! q) eqn:E; [|done]. pose proof (hk_next s Hk q ltac:(by eexists)). lia.
  - intros q. rewrite Hr2, En1. unfold rc at 1. rewrite Eh1, lookup_insert.
    destruct (decide (next s = q)) as [<-|Hne].
    + rewrite decide_False by lia. by rewrite decide_True by lia.
    + destruct (decide (next s + 1 ≤ q < next s + 1 + Z.of_nat n)).
      * by rewrite decide_True by lia.
      * by rewrite decide_False by lia.
  - intros q. rewrite Hi2, Hi1, En1. destruct (decide (q = next s)) as [->|Hne].
    + rewrite decide_False by lia. by rewrite decide_True by lia.
    + destruct (decide (next s + 1 ≤ q < next s + 1 + Z.of_nat n)).
      * by rewrite decide_True by lia.
      * by rewrite decide_False by lia.
Qed.

Lemma unused_slot s n : free_slots s = S n → initialize s = true →
  ∃ i sl, find_tid NO_TID s = Some i ∧ tid_tls_pairs s !! i = Some sl ∧ tid sl = NO_TID.
Proof.
  intros Hf Hi. unfold free_slots in Hf. rewrite Hi in Hf.
  destruct (find_tid NO_TID s) as [i|] eqn:E.
  - pose proof E as (sl & Hsl & Ht)%find_tid_Some. by exists i, sl.
  - exfalso. rewrite find_tid_None in E.
    destruct (filter (λ p, tid p = NO_TID) (tid_tls_pairs s)) as [|sl l] eqn:F; [done|].
    assert (sl ∈ filter (λ p, tid p = NO_TID) (tid_tls_pairs s)) as Hin by (rewrite F; left).
    apply list_elem_of_filter in Hin as [Ht [i Hi']%list_elem_of_lookup]. by apply (E i sl).
Qed.

Lemma tls_init_or s a : represents s a →
  let s0 := if initialize s then s else tls_init s in represents s0 a ∧ initialize s0 = true.
Proof.
  intros Hrep. destruct (initialize s) eqn:E; [done|]. by apply init_represents.
Qed.

(** ** A storage put into an unused slot *)

Lemma install s s' a n i sl self t' :
  represents s a → real_tid self → contents a !! self = None → slots a = S n →
  initialize s = true → tid_tls_pairs s !! i = Some sl → tid sl = NO_TID →
  heap_ok s' → initialize s' = true →
  tid_tls_pairs s' = <[i := Pair self (Some t')]> (tid_tls_pairs s) →
  tls_ok s' t' →
  (∀ q m, rc s' q = Some m → m = refs (tid_tls_pairs s') q ∧ 1 ≤ m) →
  (∀ q, is_Some (heap s !! q) → is_Some (heap s' !! q) ∧ pbytes s' q = pbytes s q) →
  (∀ q pr bs, pinfo s' q = Some (pr, bs) → pr = PROT_NONE) →
  represents s' (Abs (<[self := tls_data s' t']> (contents a)) n).
Proof.
  intros (Hinv & Hc & Hsl) Hr Hnone Hn Hinit Hi Htid Hk' Hinit' Ep Hok' Hrc Hold Hprot.
  pose proof (iv_table s Hinv) as Ht. pose proof (lookup_lt_Some _ _ _ Hi) as Hlt.
  assert (find_tls self s = None) as Hf.
  { specialize (Hc self). rewrite Hnone in Hc. by destruct (find_tls self s). }
  apply find_tls_None in Hf; [|done|done]. rewrite find_tid_None in Hf.
  assert (tls sl = None) as Hslnone.
  { destruct (tls sl) as [t|] eqn:E; [|done]. destruct (tb_live s Ht i sl t Hi E) as [[_ ?] _]. congruence. }
  assert (table_ok s') as Ht'.
  { apply (table_ok_set s s' i sl (Pair self (Some t'))); try done.
    - intros t [= <-]. done.
    - intros _ j slj Hj _. simpl. by apply (Hf j).
    - intros j slj t Hj _ Htj. destruct (tb_live s Ht j slj t Hj Htj) as [_ Hokj].
      eapply tls_ok_heap; [|exact Hokj]. intros q _ Hq. by apply Hold. }
  split_and!; [by split| |].
  - intros u. cbn [contents]. rewrite lookup_insert. destruct (decide (self = u)) as [<-|Hne].
    + assert (find_tls self s' = Some t') as ->; [|done].
      apply find_tls_Some; [done|]. exists i, (Pair self (Some t')). split; [|done].
      rewrite Ep. by apply list_lookup_insert_eq.
    + rewrite Hc. symmetry. apply (contents_other s s' i sl (Pair self (Some t')) self);
        [done..|by left|by right| |done].
      intros j slj q _ Hj Hq. unfold slot_pages in Hq.
      destruct (tls slj) as [x|] eqn:Ex; [|by apply elem_of_nil in Hq].
      destruct (tb_live s Ht j slj x Hj Ex) as [_ Hokx]. by apply Hold, (tk_heap s x Hokx).
  - cbn [slots]. unfold free_slots in *. rewrite Hinit in Hsl. rewrite Hinit', Ep.
    pose proof (unused_insert (tid_tls_pairs s) i sl (Pair self (Some t')) Hi) as Hu.
    cbn [tid] in Hu. rewrite Htid, decide_True, decide_False in Hu by (done || apply Hr).
    unfold unused_count in Hu. lia.
Qed.

Lemma num_pages_range size : 1 ≤ size < 2 ^ 32 →
  1 ≤ num_pages (M := M) size < 2 ^ 32 ∧
  u32 (u32 (size - 1) / getpagesize + 1) = num_pages (M := M) size.
Proof.
  intros Hs. pose proof (pagesize_range (M := M)) as Hp. unfold num_pages.
  assert (0 ≤ (size - 1) / getpagesize ≤ size - 1).
  { split; [apply Z.div_pos; lia|]. apply Z.div_le_upper_bound; nia. }
  split; [lia|]. rewrite (wrap_id 32 (size - 1)) by lia. apply wrap_id. lia.
Qed.

(** A new storage of zeros on new pages, as [tls_create] makes it. *)
Definition new_tls (self size first : Z) : TLS :=
  MkTLS self size (num_pages (M := M) size) (seqZ first (num_pages (M := M) size)).

Lemma new_tls_ok s self size first :
  1 ≤ size < 2 ^ 32 →
  (∀ q, first ≤ q < first + num_pages (M := M) size → is_Some (heap s !! q)) →
  tls_ok s (new_tls self size first).
Proof.
  intros Hs Hheap. destruct (num_pages_range size Hs) as [Hn _].
  split; try done; unfold new_tls; cbn [pages tls_size page_num].
  - rewrite length_seqZ. lia.
  - apply NoDup_seqZ.
  - intros q Hq%elem_of_seqZ. by apply Hheap.
Qed.

Lemma new_tls_data s self size first :
  tls_ok s (new_tls self size first) → 1 ≤ size →
  (∀ q, first ≤ q < first + num_pages (M := M) size →
     pinfo s q = Some (PROT_NONE, replicate (Z.to_nat getpagesize) 0)) →
  tls_data s (new_tls self size first) = replicate (Z.to_nat size) 0.
Proof.
  intros Hok Hs Hi. apply list_eq. intros k. destruct (decide (k < Z.to_nat size)%nat) as [Hk|Hk].
  - rewrite tls_data_lookup by done. rewrite lookup_replicate_2 by done. f_equal. unfold tls_byte.
    destruct (page_index s _ (Z.of_nat k) Hok) as (q & -> & Hq%elem_of_seqZ & _);
      [unfold new_tls; cbn [tls_size]; lia|].
    rewrite Hi by done. rewrite nth_lookup.
    destruct (replicate _ 0 !! _) as [v|] eqn:E; [|done]. by apply lookup_replicate in E as [-> _].
  - rewrite !lookup_ge_None_2; [done|rewrite length_replicate; lia|].
    unfold tls_data, new_tls; cbn [tls_size]. rewrite length_map, length_seqZ. lia.
Qed.

(** An unused slot holds no page, and no slot holds a page that does not
    exist. *)
Lemma unused_holds s i sl q : table_ok s → tid_tls_pairs s !! i = Some sl → tid sl = NO_TID →
  holds_page sl q = 0.
Proof.
  intros Ht Hi Htid. unfold holds_page, slot_pages.
  destruct (tls sl) as [t|] eqn:E; [|by rewrite decide_False by (by intros ?%elem_of_nil)].
  destruct (tb_live s Ht i sl t Hi E) as [[_ ?] _]. congruence.
Qed.

Lemma refs_new s q : table_ok s → heap s !! q = None → refs (tid_tls_pairs s) q = 0.
Proof.
  intros Ht Hn. apply refs_zero. intros j slj Hj Hq. unfold slot_pages in Hq.
  destruct (tls slj) as [t|] eqn:E; [|by apply elem_of_nil in Hq].
  destruct (tb_live s Ht j slj t Hj E) as [_ Hokj].
  destruct (tk_heap s t Hokj q Hq) as [p Hp]. congruence.
Qed.

Lemma tls_create_ok self size s a :
  represents s a → real_tid self → call_ok (Create size) →
  ∀ r b a', spec_call self (Create size) a = Some (r, b, a') →
  ∃ s', tls_create self size s = Done (r, s') ∧ b = [] ∧ represents s' a'.
Proof.
  intros Hrep Hr Hsize r b a'. cbn [call_ok] in Hsize. unfold tls_create.
  destruct (tls_init_or s a Hrep) as [Hrep0 Hinit]. clear Hrep.
  set (s0 := if initialize s then s else tls_init s) in *. clearbody s0.
  pose proof Hrep0 as (Hinv & Hc & Hfree). pose proof (iv_table s0 Hinv) as Ht. cbn [spec_call].
  destruct (decide (size = 0)) as [->|Hne0].
  { intros [= <- <- <-]. by exists s0. }
  rewrite (proj2 (Z.leb_gt _ _)) by lia.
  destruct (contents a !! self) as [bs|] eqn:Hself.
  { intros [= <- <- <-]. rewrite Hc in Hself.
    destruct (find_tls self s0) as [t|] eqn:E; [|done]. unfold find_tls in E.
    destruct (find_tid self s0); [|done]. by exists s0. }
  assert (find_tid self s0 = None) as ->.
  { apply find_tls_None; [done|done|]. specialize (Hc self). rewrite Hself in Hc.
    by destruct (find_tls self s0). }
  destruct (slots a) as [|n] eqn:Hslots; [done|]. intros [= <- <- <-].
  destruct (unused_slot s0 n) as (i & sl & -> & Hi & Htid); [congruence|done|].
  destruct (num_pages_range size) as [Hnum ->]; [lia|].
  destruct (create_pages_ok (Z.to_nat (num_pages (M := M) size)) [] s0 (iv_heap _ Hinv))
    as (s1 & -> & Hk1 & Ep1 & Ei1 & Hnew & Hr1 & Hi1).
  rewrite app_nil_l. rewrite Z2Nat.id in * by lia.
  rewrite set_pair_ok by (rewrite Ep1; by eapply lookup_lt_Some). rstep. rewrite Ep1.
  change (MkTLS self size _ _) with (new_tls self size (next s0)).
  set (s2 := set_pairs s1 _). exists s2. split; [done|]. split; [done|].
  assert (tls_ok s2 (new_tls self size (next s0))) as Hok.
  { apply new_tls_ok; [lia|]. intros q Hq. rewrite <- rc_is_Some. change (rc s2 q) with (rc s1 q).
    rewrite Hr1, decide_True by done. by eexists. }
  rewrite <- (new_tls_data s2 self size (next s0) Hok) by
    (lia || by (intros q Hq; change (pinfo s2 q) with (pinfo s1 q); rewrite Hi1, decide_True)).
  apply (install s0 s2 a n i sl self _); try done.
  - by apply set_pairs_heap_ok.
  - change (initialize s2) with (initialize s1). congruence.
  - intros q m. change (rc s2 q) with (rc s1 q). rewrite Hr1.
    change (tid_tls_pairs s2) with
      (<[i := Pair self (Some (new_tls self size (next s0)))]> (tid_tls_pairs s0)).
    rewrite (refs_insert _ i sl _ q Hi), (unused_holds s0 i sl q Ht Hi Htid).
    unfold holds_page, slot_pages, new_tls; cbn [tls pages]. case_decide as C.
    + rewrite decide_True by (by apply elem_of_seqZ). intros [= <-].
      by rewrite (refs_new s0 q Ht) by (apply Hnew; lia).
    + rewrite decide_False by (by rewrite elem_of_seqZ). intros Hm.
      destruct (iv_refs s0 Hinv q m Hm). lia.
  - intros q Hq. rewrite <- !rc_is_Some in *. change (rc s2 q) with (rc s1 q).
    assert (¬ (next s0 ≤ q < next s0 + num_pages (M := M) size)) as Hold.
    { intros Hq'. rewrite rc_is_Some in Hq. destruct Hq as [p Hp]. rewrite Hnew in Hp by lia. done. }
    split; [by rewrite Hr1, decide_False|].
    unfold pbytes. change (pinfo s2 q) with (pinfo s1 q). by rewrite Hi1, decide_False.
  - intros q pr bs. change (pinfo s2 q) with (pinfo s1 q). rewrite Hi1. case_decide.
    + by intros [= <- _].
    + apply (iv_prot s0 Hinv).
Qed.

(** ** tls_clone *)

Lemma share_pages_ok ptrs : ∀ s,
  heap_ok s → NoDup ptrs → (∀ q, q ∈ ptrs → is_Some (heap s !! q)) →
  (∀ q m, q ∈ ptrs → rc s q = Some m → 1 ≤ m < 2 ^ 31 - 1) →
  ∃ s', run_pages share_page ptrs s = Done s' ∧ heap_ok s' ∧
    tid_tls_pairs s' = tid_tls_pairs s ∧ initialize s' = initialize s ∧
    (∀ q, rc s' q = if decide (q ∈ ptrs) then (λ m, m + 1) <$> rc s q else rc s q) ∧
    (∀ q, pinfo s' q = pinfo s q).
Proof.
  induction ptrs as [|ptr ptrs IH]; intros s Hk Hnd Hin Hb.
  { exists s. split_and!; done. }
  apply list.NoDup_cons in Hnd as [Hni Hnd]. cbn [run_pages].
  destruct (Hin ptr) as [p Hp]; [left|].
  assert (share_page ptr s =
    Done (set_heap s (<[ptr := Page (address p) (s32 (ref_count p + 1))]> (heap s)))) as ->
    by (unfold share_page; by rewrite (get_page_ok s ptr p Hp)).
  rstep.
  assert (rc s ptr = Some (ref_count p)) as Hrc by (apply rc_Some; by exists p).
  pose proof (Hb ptr _ ltac:(left) Hrc) as Hbp. rewrite s32_id by lia.
  destruct (set_count_ok s ptr p (ref_count p + 1) Hk Hp) as (Hk1 & Hi1 & Hr1).
  set (s1 := set_heap s _) in *.
  destruct (IH s1 Hk1 Hnd) as (s2 & -> & Hk2 & Ep2 & Ei2 & Hr2 & Hi2).
  { intros q Hq. rewrite <- rc_is_Some, Hr1. case_decide; [by eexists|].
    apply rc_is_Some, Hin. by right. }
  { intros q m Hq. rewrite Hr1, decide_False by (by intros ->). apply Hb. by right. }
  exists s2. split_and!; try done.
  - intros q. rewrite Hr2, Hr1. destruct (decide (q = ptr)) as [->|Hne].
    + rewrite decide_False by done. rewrite decide_True by left. by rewrite Hrc.
    + destruct (decide (q ∈ ptrs)); [by rewrite decide_True by (by right)|].
      rewrite decide_False; [done|]. by intros [?|?]%elem_of_cons.
  - intros q. by rewrite Hi2, Hi1.
Qed.

Lemma refs_small s q m : inv s → rc s q = Some m → 1 ≤ m ≤ MAX_THREAD_COUNT.
Proof.
  intros Hinv Hm. destruct (iv_refs s Hinv q m Hm) as [-> Hpos].
  pose proof (refs_range (tid_tls_pairs s) q). rewrite <- (tb_length s (iv_table s Hinv)). lia.
Qed.

Lemma tls_clone_ok self target s a :
  represents s a → real_tid self →
  ∀ r b a', spec_call self (Clone target) a = Some (r, b, a') →
  ∃ s', tls_clone self target s = Done (r, s') ∧ b = [] ∧ represents s' a'.
Proof.
  intros Hrep Hr r b a'. pose proof Hrep as (Hinv & Hc & Hfree). pose proof (iv_table s Hinv) as Ht.
  cbn [spec_call]. unfold tls_clone.
  destruct (contents a !! self) as [bs|] eqn:Hself.
  { intros [= <- <- <-]. rewrite Hc in Hself. destruct (find_tls self s); [|done]. by exists s. }
  assert (find_tls self s = None) as -> by (rewrite Hc in Hself; by destruct (find_tls self s)).
  destruct (contents a !! target) as [bs|] eqn:Htarget.
  2: { intros [= <- <- <-]. rewrite Hc in Htarget. destruct (find_tls target s); [done|]. by exists s. }
  rewrite Hc in Htarget. destruct (find_tls target s) as [t|] eqn:Et; [|done].
  injection Htarget as Hbs. destruct (slots a) as [|n] eqn:Hslots; [done|]. intros [= <- <- <-].
  apply find_tls_pages in Et as (j & slj & Hj & Htj & Hpg & Hok); [|done].
  rewrite for_pages_all by apply Hok.
  destruct (share_pages_ok (pages t) s (iv_heap s Hinv) (tk_nodup s t Hok) (tk_heap s t Hok))
    as (s1 & -> & Hk1 & Ep1 & Ei1 & Hr1 & Hi1).
  { intros q m _ Hm. pose proof (refs_small s q m Hinv Hm). unfold MAX_THREAD_COUNT in *. lia. }
  rstep. assert (initialize s = true) as Hinit.
  { destruct (initialize s) eqn:E; [done|]. exfalso. rewrite (tb_init s Ht E) in Hj.
    apply lookup_replicate in Hj as [-> _]. unfold slot_pages in Hpg. cbn [tls] in Hpg.
    pose proof (tk_pages s t Hok) as Hlp. rewrite <- Hpg in Hlp. simpl in Hlp.
    pose proof (tk_num s t Hok). pose proof (proj1 (num_pages_range _ (tk_size s t Hok))). lia. }
  destruct (unused_slot s n) as (i & sl & Hfind & Hi & Htid); [congruence|done|].
  assert (find_tid NO_TID s1 = Some i) as -> by (unfold find_tid in *; by rewrite Ep1).
  rewrite set_pair_ok by (rewrite Ep1; by eapply lookup_lt_Some). rstep. rewrite Ep1.
  set (t' := MkTLS self (tls_size t) (page_num t) (pages t)). set (s2 := set_pairs s1 _).
  exists s2. split; [done|]. split; [done|].
  assert (∀ q, is_Some (heap s !! q) → is_Some (heap s2 !! q)) as Hheap.
  { intros q Hq. rewrite <- rc_is_Some in *. change (rc s2 q) with (rc s1 q). rewrite Hr1.
    case_decide; [by apply fmap_is_Some|done]. }
  assert (tls_ok s2 t') as Hok2 by (destruct Hok; split; auto).
  assert (tls_data s2 t' = bs) as <-.
  { rewrite <- Hbs. change (tls_data s2 t') with (tls_data s2 t). apply tls_data_ext; [done|].
    intros q _. unfold pbytes. change (pinfo s2 q) with (pinfo s1 q). by rewrite Hi1. }
  apply (install s s2 a n i sl self t'); try done.
  - by apply set_pairs_heap_ok.
  - change (initialize s2) with (initialize s1). congruence.
  - intros q m. change (rc s2 q) with (rc s1 q). rewrite Hr1.
    change (tid_tls_pairs s2) with (<[i := Pair self (Some t')]> (tid_tls_pairs s)).
    rewrite (refs_insert _ i sl _ q Hi).
    rewrite (unused_holds s i sl q Ht Hi Htid). unfold holds_page, slot_pages; cbn [tls]. change (pages t') with (pages t).
    case_decide; [intros (m0 & Hm & ->)%fmap_Some|intros Hm]; destruct (iv_refs s Hinv q _ Hm); lia.
  - intros q Hq. split; [by apply Hheap|]. unfold pbytes. change (pinfo s2 q) with (pinfo s1 q). by rewrite Hi1.
  - intros q pr bs0. change (pinfo s2 q) with (pinfo s1 q). rewrite Hi1. apply (iv_prot s Hinv).
Qed.

(** ** tls_destroy *)

(** Releasing one reference: the page goes with its last one. *)
Lemma release_page_ok s ptr m :
  heap_ok s → rc s ptr = Some m → 1 ≤ m < 2 ^ 31 →
  ∃ s', release_page ptr s = Done s' ∧ heap_ok s' ∧
    tid_tls_pairs s' = tid_tls_pairs s ∧ initialize s' = initialize s ∧
    (∀ q, rc s' q = if decide (q = ptr) then (if decide (m = 1) then None else Some (m - 1)) else rc s q) ∧
    (∀ q, pinfo s' q = if decide (q = ptr ∧ m = 1) then None else pinfo s q).
Proof.
  intros Hk (p & Hp & Hm)%rc_Some Hb. unfold release_page. rewrite (get_page_ok s ptr p Hp). rstep.
  rewrite Hm. destruct (Z.eqb_spec m 1) as [->|Hne].
  - destruct (hk_mapped s Hk ptr p Hp) as [x Hx]. pose proof (munmap_page (vm s) _ _ Hx) as Hv.
    eexists. split; [reflexivity|]. destruct Hk as [K1 K2 K3].
    assert (∀ q r, q ≠ ptr → heap s !! q = Some r → address r ≠ address p) as Hna.
    { intros q r Hq Hr E. by apply Hq, (K2 q ptr r p). }
    split_and!; try done.
    + split; cbn [heap vm next set_heap set_vm].
      * intros q r [Hq Hr]%lookup_delete_Some. rewrite Hv, decide_False; [by eapply K1|].
        by apply (Hna q).
      * intros q1 q2 r1 r2 [_ H1]%lookup_delete_Some [_ H2]%lookup_delete_Some. by eapply K2.
      * intros q [r [_ Hr]%lookup_delete_Some]. apply K3. by eexists.
    + intros q. unfold rc; cbn [heap set_heap]. rewrite lookup_delete. destruct (decide (ptr = q)) as [<-|Hq].
      * by rewrite !decide_True.
      * by rewrite decide_False by congruence.
    + intros q. unfold pinfo; cbn [heap vm set_heap set_vm]. rewrite lookup_delete.
      destruct (decide (ptr = q)) as [<-|Hq]; [by rewrite decide_True|].
      rewrite decide_False by (intros [? _]; congruence).
      destruct (heap s !! q) as [r|] eqn:Er; [|done]. simpl.
      rewrite Hv, decide_False; [done|]. apply (Hna q); [by intros ->|done].
  - rewrite s32_id by lia. destruct (set_count_ok s ptr p (m - 1) Hk Hp) as (Hk1 & Hi1 & Hr1).
    eexists. split; [reflexivity|]. split_and!; try done.
    + intros q. rewrite Hr1. case_decide; [|done]. by rewrite decide_False.
    + intros q. rewrite Hi1, decide_False; [done|]. by intros [_ ?].
Qed.

Lemma release_pages_ok ptrs : ∀ s,
  heap_ok s → NoDup ptrs → (∀ q, q ∈ ptrs → ∃ m, rc s q = Some m ∧ 1 ≤ m < 2 ^ 31) →
  ∃ s', run_pages release_page ptrs s = Done s' ∧ heap_ok s' ∧
    tid_tls_pairs s' = tid_tls_pairs s ∧ initialize s' = initialize s ∧
    (∀ q, rc s' q = if decide (q ∈ ptrs)
                    then (m ← rc s q; if decide (m = 1) then None else Some (m - 1)) else rc s q) ∧
    (∀ q, pinfo s' q = if decide (q ∈ ptrs ∧ rc s q = Some 1) then None else pinfo s q).
Proof.
  induction ptrs as [|ptr ptrs IH]; intros s Hk Hnd Hin.
  { exists s. split_and!; done. }
  apply list.NoDup_cons in Hnd as [Hni Hnd]. cbn [run_pages].
  destruct (Hin ptr) as (m & Hm & Hb); [left|].
  destruct (release_page_ok s ptr m Hk Hm Hb) as (s1 & -> & Hk1 & Ep1 & Ei1 & Hr1 & Hi1). rstep.
  destruct (IH s1 Hk1 Hnd) as (s2 & -> & Hk2 & Ep2 & Ei2 & Hr2 & Hi2).
  { intros q Hq. rewrite Hr1, decide_False by (by intros ->). apply Hin. by right. }
  exists s2. split_and!; [done|done|congruence|congruence| |].
  - intros q. rewrite Hr2, Hr1. destruct (decide (q = ptr)) as [->|Hne].
    + rewrite (decide_False (P := ptr ∈ ptrs)) by done.
      rewrite (decide_True (P := ptr ∈ ptr :: ptrs)) by left. by rewrite Hm.
    + destruct (decide (q ∈ ptrs)); [by rewrite decide_True by (by right)|].
      rewrite decide_False; [done|]. by intros [?|?]%elem_of_cons.
  - intros q. rewrite Hi2, Hi1, Hr1. destruct (decide (q = ptr)) as [->|Hne].
    + rewrite (decide_False (P := ptr ∈ ptrs ∧ _)) by (by intros [? _]). rewrite Hm.
      destruct (decide (m = 1)) as [->|Hm1].
      * rewrite (decide_True (P := ptr = ptr ∧ _)) by done.
        by rewrite (decide_True (P := ptr ∈ ptr :: ptrs ∧ _)) by (split; [left|done]).
      * rewrite (decide_False (P := ptr = ptr ∧ _)) by (by intros [_ ?]).
        rewrite (decide_False (P := ptr ∈ ptr :: ptrs ∧ _)) by (intros [_ ?]; congruence).
        done.
    + rewrite (decide_False (P := q = ptr ∧ m = 1)) by (by intros [? _]).
      destruct (decide (q ∈ ptrs ∧ rc s q = Some 1)) as [[? ?]|Hn].
      * rewrite decide_True; [done|]. split; [by right|done].
      * rewrite decide_False; [done|]. intros [[?|?]%elem_of_cons ?]; [done|]. by apply Hn.
Qed.

(** A storage in the table: the table was initialised. *)
Lemma slot_initialized s i sl t : table_ok s → tid_tls_pairs s !! i = Some sl → tls sl = Some t →
  initialize s = true.
Proof.
  intros Ht Hi Hsl. destruct (initialize s) eqn:E; [done|]. exfalso.
  rewrite (tb_init s Ht E) in Hi. by apply lookup_replicate in Hi as [-> _].
Qed.

(** After the storage [t] of slot [i] was released. *)
Section released.
Variables (s s2 : state M) (i : nat) (sl : tid_tls_pair) (t : TLS).
Hypotheses (Hinv : inv s) (Hi : tid_tls_pairs s !! i = Some sl) (Hsl : tls sl = Some t)
  (Hk : heap_ok s2) (Hinit : initialize s2 = initialize s)
  (Hp : tid_tls_pairs s2 = <[i := Pair 0 None]> (tid_tls_pairs s))
  (Hrc : ∀ q, rc s2 q = if decide (q ∈ pages t)
           then (m ← rc s q; if decide (m = 1) then None else Some (m - 1)) else rc s q)
  (Hpi : ∀ q, pinfo s2 q = if decide (q ∈ pages t ∧ rc s q = Some 1) then None else pinfo s q).

Lemma released_pages : slot_pages sl = pages t.
Proof. unfold slot_pages. by rewrite Hsl. Qed.

(** A page of another slot has another owner, so it is still there. *)
Lemma released_other j slj q : tid_tls_pairs s !! j = Some slj → j ≠ i → q ∈ slot_pages slj →
  ¬ (q ∈ pages t ∧ rc s q = Some 1).
Proof.
  intros Hj Hne Hq [Hqt Hone]. destruct (iv_refs s Hinv q 1 Hone) as [H1 _].
  assert (2 ≤ refs (tid_tls_pairs s) q)
    by (eapply (refs_two _ i j); [done..|by rewrite released_pages|done]). lia.
Qed.

Lemma released_pbytes j slj q : j ≠ i → tid_tls_pairs s !! j = Some slj → q ∈ slot_pages slj →
  pbytes s2 q = pbytes s q.
Proof.
  intros Hne Hj Hq. unfold pbytes. rewrite Hpi, decide_False; [done|]. by eapply released_other.
Qed.

Lemma released_table : table_ok s2.
Proof.
  pose proof (iv_table s Hinv) as Ht. pose proof (slot_initialized s i sl t Ht Hi Hsl) as Hin.
  apply (table_ok_set s s2 i sl (Pair 0 None)); try done.
  - congruence.
  - by intros _ [? _].
  - by intros [? _].
  - intros j slj u Hj Hne Hu. destruct (tb_live s Ht j slj u Hj Hu) as [_ Hoku].
    eapply tls_ok_heap; [|exact Hoku]. intros q Hq [m Hm]%rc_is_Some.
    apply rc_is_Some. rewrite Hrc, Hm. simpl. case_decide as C; [|by eexists].
    rewrite decide_False; [by eexists|]. intros ->.
    apply (released_other j slj q Hj Hne); [unfold slot_pages; by rewrite Hu|done].
Qed.

Lemma released_inv : inv s2.
Proof.
  split; [exact Hk|apply released_table| |].
  - intros q n. rewrite Hrc, Hp, (refs_insert _ i sl _ q Hi). unfold holds_page.
    rewrite released_pages.
    rewrite (decide_False (P := q ∈ slot_pages (Pair 0 None))) by (by intros ?%elem_of_nil).
    case_decide as C.
    + intros (m & Hm & Hmn)%bind_Some. destruct (iv_refs s Hinv q m Hm). case_decide; [done|].
      injection Hmn as <-. lia.
    + intros Hn. destruct (iv_refs s Hinv q n Hn). lia.
  - intros q pr bs. rewrite Hpi. case_decide; [done|]. apply (iv_prot s Hinv).
Qed.

Lemma released_gone : real_tid (tid sl) → find_tls (tid sl) s2 = None.
Proof.
  intros Hr. apply find_tls_None; [apply released_table|done|].
  apply find_tid_None. intros j slj Hj. rewrite Hp in Hj.
  rewrite lookup_insert_at in Hj by (by eapply lookup_lt_Some). case_decide as C.
  - injection Hj as <-. simpl. destruct Hr as [Hr0 _]. congruence.
  - intros Ej. apply C. symmetry.
    by eapply (tb_unique s (iv_table s Hinv) i j sl slj); [..|congruence].
Qed.
End released.

Lemma tls_destroy_ok self s a :
  represents s a → real_tid self →
  ∀ r b a', spec_call self Destroy a = Some (r, b, a') →
  ∃ s', tls_destroy self s = Done (r, s') ∧ b = [] ∧ represents s' a'.
Proof.
  intros Hrep Hr r b a'. pose proof Hrep as (Hinv & Hc & Hfree). pose proof (iv_table s Hinv) as Ht.
  cbn [spec_call]. unfold tls_destroy. rewrite Hc.
  destruct (find_tls self s) as [t|] eqn:Et; cbn [fmap option_fmap option_map].
  2: { intros [= <- <- <-]. by exists s. }
  intros [= <- <- <-]. apply find_tls_Some in Et as (i & sl & Hi & Htid & Hsl); [|done].
  destruct (tb_live s Ht i sl t Hi Hsl) as [_ Hok].
  assert (slot_pages sl = pages t) as Hpg by (unfold slot_pages; by rewrite Hsl).
  rewrite for_pages_all by apply Hok.
  destruct (release_pages_ok (pages t) s (iv_heap s Hinv) (tk_nodup s t Hok))
    as (s1 & -> & Hk1 & Ep1 & Ei1 & Hr1 & Hi1).
  { intros q Hq. apply (tk_heap s t Hok), rc_is_Some in Hq as [m Hm]. exists m. split; [done|].
    pose proof (refs_small s q m Hinv Hm). unfold MAX_THREAD_COUNT in *. lia. }
  rstep. assert (find_tid self s1 = Some i) as ->.
  { pose proof (find_tid_real s self i sl Ht Hr Hi Htid) as Hf. unfold find_tid in *. by rewrite Ep1. }
  pose proof (lookup_lt_Some _ _ _ Hi) as Hlt.
  rewrite set_pair_ok by (by rewrite Ep1). rstep. rewrite Ep1.
  set (s2 := set_pairs s1 _). exists s2. split; [done|]. split; [done|].
  pose proof (slot_initialized s i sl t Ht Hi Hsl) as Hinit.
  assert (heap_ok s2) as Hk2 by (by apply set_pairs_heap_ok).
  assert (initialize s2 = initialize s) as Ei2 by done.
  split_and!.
  - by apply (released_inv s s2 i sl t).
  - intros u. cbn [contents]. rewrite lookup_delete. destruct (decide (self = u)) as [<-|Hne].
    + rewrite <- Htid in *. by rewrite (released_gone s s2 i sl t).
    + rewrite Hc. symmetry. apply (contents_other s s2 i sl (Pair 0 None) self);
        [done|by apply (released_table s s2 i sl t)|done|done|by right|by left| |done].
      by apply (released_pbytes s s2 i sl t).
  - cbn [slots]. rewrite Hfree. unfold free_slots. rewrite Hinit.
    change (initialize s2) with (initialize s1). rewrite Ei1, Hinit.
    change (tid_tls_pairs s2) with (<[i := Pair 0 None]> (tid_tls_pairs s)).
    pose proof (unused_insert (tid_tls_pairs s) i sl (Pair 0 None) Hi) as Hu.
    cbn [tid] in Hu. rewrite Htid in Hu. rewrite (decide_False (P := self = NO_TID)) in Hu by apply Hr.
    rewrite decide_False in Hu by done. unfold unused_count in Hu. lia.
Qed.
End life.
