(* ===== verification/TlsTheorems.v ===== *)
(** * Theorems about thread-local storage *)

From S2P Require Export TlsLife.

Section theorems.
Context {M : Type} `{VmSpec M}.
Implicit Types s : state M.

(** ** Refinement of the abstract machine *)

Lemma start_represents (m : M) :
  represents (tls_start m) (Abs ∅ (Z.to_nat MAX_THREAD_COUNT)).
Proof.
  assert (∀ i sl, tid_tls_pairs (tls_start m) !! i = Some sl → sl = Pair 0 None) as Hsl.
  { intros i sl. unfold tls_start; cbn [tid_tls_pairs]. by intros [-> _]%lookup_replicate. }
  split_and!.
  - split.
    + by split; cbn [heap tls_start]; intros *; rewrite ?lookup_empty; try done; intros [].
    + split.
      * unfold tls_start; cbn [tid_tls_pairs]. by rewrite length_replicate.
      * intros i sl t Hi. by rewrite (Hsl i sl Hi).
      * intros i sl Hi. rewrite (Hsl i sl Hi). by intros _ [? _].
      * intros i j sl sl' Hi _. rewrite (Hsl i sl Hi). by intros [? _].
      * done.
    + intros q n. unfold rc; cbn [heap tls_start]. by rewrite lookup_empty.
    + intros q pr bs. unfold pinfo; cbn [heap tls_start]. by rewrite lookup_empty.
  - intros t. cbn [contents]. rewrite lookup_empty. unfold find_tls.
    destruct (find_tid t (tls_start m)) as [i|]; [|done].
    destruct (tid_tls_pairs (tls_start m) !! i) as [sl|] eqn:E; [|done]. by rewrite (Hsl i sl E).
  - done.
Qed.

Lemma refine_call self c s a r b a' :
  represents s a → real_tid self → call_ok c → spec_call self c a = Some (r, b, a') →
  ∃ s', run_call self c s = Done (r, b, s') ∧ represents s' a'.
Proof.
  intros Hrep Hr Hok Hspec. destruct c as [size| |offset len buffer|offset len buffer|target]; cbn [run_call].
  - destruct (tls_create_ok self size s a Hrep Hr Hok r b a' Hspec) as (s' & -> & -> & ?). by exists s'.
  - destruct (tls_destroy_ok self s a Hrep Hr r b a' Hspec) as (s' & -> & -> & ?). by exists s'.
  - destruct (tls_read_ok self offset len buffer s a Hrep Hr Hok r b a' Hspec) as (s' & -> & ?). by exists s'.
  - destruct (tls_write_ok self offset len buffer s a Hrep Hr Hok r b a' Hspec) as (s' & -> & -> & ?). by exists s'.
  - destruct (tls_clone_ok self target s a Hrep Hr r b a' Hspec) as (s' & -> & -> & ?). by exists s'.
Qed.

(** C5: every call of the library, made by any thread in any state that
    represents an abstract one, returns what the abstract machine returns
    (result and buffer), without undefined behaviour and without running out
    of fuel, and the new state represents the new abstract state.  So a write
    after a clone is seen by the writing thread only. *)
Theorem tls_call_refines self c s a r b a' :
  represents s a → real_tid self → call_ok c → spec_call self c a = Some (r, b, a') →
  ∃ s', run_call self c s = Done (r, b, s') ∧ represents s' a'.
Proof. apply refine_call. Qed.

(** A run: the calls of the threads in the order in which they are made. *)
Fixpoint run_calls (cs : list (Z * call)) s : run (list (Z * list Z) * state M) :=
  match cs with
  | [] => Done ([], s)
  | (self, c) :: cs =>
      '(r, b, s) ← run_call self c s;
      '(rs, s) ← run_calls cs s;
      Done ((r, b) :: rs, s)
  end.

Fixpoint spec_calls (cs : list (Z * call)) (a : abs) : option (list (Z * list Z) * abs) :=
  match cs with
  | [] => Some ([], a)
  | (self, c) :: cs =>
      '(r, b, a) ← spec_call self c a;
      '(rs, a) ← spec_calls cs a;
      Some ((r, b) :: rs, a)
  end.

Lemma calls_refine cs : ∀ s a rs a',
  represents s a → Forall (λ x, real_tid x.1 ∧ call_ok x.2) cs → spec_calls cs a = Some (rs, a') →
  ∃ s', run_calls cs s = Done (rs, s') ∧ represents s' a'.
Proof.
  induction cs as [|[self c] cs IH]; intros s a rs a' Hrep Hok Hspec; cbn [spec_calls run_calls] in *.
  { injection Hspec as <- <-. by exists s. }
  apply Forall_cons_iff in Hok as [[Hr Hc] Hok].
  apply bind_Some in Hspec as ([[r b] a1] & H1 & Hspec).
  apply bind_Some in Hspec as ([rs1 a2] & H2 & [= <- <-]).
  destruct (refine_call self c s a r b a1 Hrep Hr Hc H1) as (s1 & -> & Hrep1).
  rstep. destruct (IH s1 a1 rs1 a2 Hrep1 Hok H2) as (s2 & -> & ?). rstep. by exists s2.
Qed.

(** C6: whatever calls the threads make, in whatever order, from the start of
    the program, the results are those of the abstract machine, in which each
    thread has its own bytes; and when at the end no thread has a storage, no
    page is left allocated. *)
Theorem tls_run_refines (m : M) cs rs a :
  Forall (λ x, real_tid x.1 ∧ call_ok x.2) cs →
  spec_calls cs (Abs ∅ (Z.to_nat MAX_THREAD_COUNT)) = Some (rs, a) →
  ∃ s, run_calls cs (tls_start m) = Done (rs, s) ∧ represents s a ∧
    (contents a = ∅ → heap s = ∅).
Proof.
  intros Hok Hspec.
  destruct (calls_refine cs (tls_start m) _ rs a (start_represents m) Hok Hspec) as (s & E & Hrep).
  exists s. split; [done|]. split; [done|]. intros Hempty. destruct Hrep as (Hinv & Hc & _).
  apply map_eq. intros q. rewrite lookup_empty. destruct (heap s !! q) as [p|] eqn:Hp; [|done]. exfalso.
  destruct (iv_refs s Hinv q (ref_count p)) as [Hn Hpos]; [apply rc_Some; by exists p|].
  rewrite Hn, refs_zero in Hpos; [lia|]. intros i sl Hi Hq. unfold slot_pages in Hq.
  destruct (tls sl) as [t|] eqn:E'; [|by apply elem_of_nil in Hq].
  specialize (Hc (tid sl)). rewrite Hempty, lookup_empty in Hc.
  assert (find_tls (tid sl) s = Some t) as Hf
    by (apply find_tls_Some; [apply Hinv|by exists i, sl]).
  by rewrite Hf in Hc.
Qed.

(** ** Page faults *)

Lemma page_base a off : a mod getpagesize = 0 → 0 ≤ off < getpagesize (M := M) →
  Z.land (a + off) (Z.lnot (getpagesize - 1)) = a.
Proof.
  intros Ha Hoff. destruct (pagesize_pow2 (M := M)) as (k & Hk & E). rewrite E in *.
  rewrite Z.sub_1_r, <- Z.ones_equiv.
  rewrite <- Z.ldiff_land, Z.ldiff_ones_r by lia.
  rewrite Z.shiftr_div_pow2, Z.shiftl_mul_pow2 by lia.
  rewrite (Z.div_mod a (2 ^ k)), Ha, Z.add_0_r by lia.
  rewrite (Z.mul_comm (2 ^ k)), Z.div_add_l by lia. rewrite (Z.div_small off) by lia. lia.
Qed.

Lemma owns_page_ok s ptrs fault n : ∀ j, (j + n = length ptrs)%nat →
  (∀ q, q ∈ ptrs → is_Some (heap s !! q)) →
  ∃ b, owns_page n (Z.of_nat j) ptrs fault s = Done b ∧
    (b = true ↔ ∃ q p, q ∈ drop j ptrs ∧ heap s !! q = Some p ∧ address p = fault).
Proof.
  induction n as [|n IH]; intros j Hl Hin.
  { exists false. split; [done|]. rewrite drop_ge by lia. split; [done|].
    by intros (q & p & ?%elem_of_nil & _). }
  cbn [owns_page]. destruct (lookup_lt_is_Some_2 ptrs j) as [q Hq]; [lia|].
  rewrite (aread_nat _ _ _ Hq). rstep. rewrite (drop_S _ _ _ Hq).
  destruct (Hin q) as [p Hp]; [by eapply list_elem_of_lookup_2|].
  rewrite (get_page_ok s q p Hp). rstep. destruct (Z.eqb_spec (address p) fault) as [Ha|Ha].
  { exists true. split; [done|]. split; [|done]. intros _. exists q, p. split; [left|done]. }
  replace (Z.of_nat j + 1) with (Z.of_nat (S j)) by lia.
  destruct (IH (S j)) as (b & -> & Hb); [lia|done|]. exists b. split; [done|]. rewrite Hb.
  split; intros (q' & p' & Hq' & Hp' & Ha'); exists q', p'; split_and!; try done; [by right|].
  apply elem_of_cons in Hq' as [->|?]; [congruence|done].
Qed.

Lemma owns_tls_page s t fault : tls_ok s t →
  ∃ b, owns_page (Z.to_nat (page_num t)) 0 (pages t) fault s = Done b ∧
    (b = true ↔ ∃ q p, q ∈ pages t ∧ heap s !! q = Some p ∧ address p = fault).
Proof.
  intros Hok. pose proof (tk_pages s t Hok).
  destruct (owns_page_ok s (pages t) fault (Z.to_nat (page_num t)) 0) as (b & E & Hb);
    [lia|apply Hok|]. rewrite drop_0 in Hb. by exists b.
Qed.

(** What the handler does, slot by slot: the first slot that has no storage or
    owns the page decides. *)
Lemma handle_slots_ok s fault slots : ∀ n,
  (∀ i sl t, slots !! i = Some sl → tls sl = Some t → tls_ok s t) →
  (∀ i sl, slots !! i = Some sl → (i < n)%nat → ∃ t, tls sl = Some t ∧
     ∀ q p, q ∈ pages t → heap s !! q = Some p → address p ≠ fault) →
  handle_slots slots fault s = handle_slots (drop n slots) fault s.
Proof.
  induction slots as [|sl slots IH]; intros n Hok Hbefore; [by rewrite drop_nil|].
  destruct n as [|n]; [done|]. cbn [drop].
  destruct (Hbefore 0%nat sl eq_refl) as (t & Ht & Hno); [lia|].
  pose proof (Hok 0%nat sl t eq_refl Ht) as Hokt. cbn [handle_slots]. rewrite Ht.
  destruct (owns_tls_page s t fault Hokt) as (b & -> & Hb).
  rstep. destruct b.
  - exfalso. destruct (proj1 Hb eq_refl) as (q & p & Hq & Hp & Ha). by eapply Hno.
  - apply IH.
    + intros i sl' t' Hi. by apply (Hok (S i)).
    + intros i sl' Hi Hlt. apply (Hbefore (S i)); [done|lia].
Qed.

Lemma handle_owned_page s fault sl t q p : ∀ l n,
  (∀ j slj u, l !! j = Some slj → tls slj = Some u → tls_ok s u) →
  (∀ j slj, l !! j = Some slj → (j < n)%nat → is_Some (tls slj)) →
  l !! n = Some sl → tls sl = Some t → q ∈ pages t → heap s !! q = Some p → address p = fault →
  handle_slots l fault s = Stopped ThreadExited.
Proof.
  induction l as [|sl0 l IH]; intros n Hok Hlive Hn Htl Hq Hp Ha; [done|]. cbn [handle_slots].
  assert (∃ u, tls sl0 = Some u) as [u Hu].
  { destruct n as [|n]; [simplify_eq/=; by exists t|]. apply (Hlive 0%nat); [done|lia]. }
  rewrite Hu. pose proof (Hok 0%nat sl0 u eq_refl Hu) as Hoku.
  destruct (owns_tls_page s u fault Hoku) as (b & -> & Hb). rstep. destruct b; [done|].
  destruct n as [|n].
  - exfalso. simplify_eq/=. assert (false = true); [|done]. apply Hb. by exists q, p.
  - apply (IH n); [intros j slj u'; by apply (Hok (S j))| |done..].
    intros j slj Hj Hlt. apply (Hlive (S j)); [done|lia].
Qed.

(** C7: between calls the memory of every storage is protected: when any
    thread reads a byte of a page of a storage, or writes one, outside the
    calls, the handler of page faults ends that thread, when every slot before
    the owner's is in use (a slot that is not makes the handler crash). *)
Theorem tls_fault_ends_thread s a i sl t q p off v :
  represents s a → tid_tls_pairs s !! i = Some sl → tls sl = Some t → q ∈ pages t →
  heap s !! q = Some p → 0 ≤ off < getpagesize →
  (∀ j slj, tid_tls_pairs s !! j = Some slj → (j < i)%nat → is_Some (tls slj)) →
  load_byte (address p + off) s = Stopped ThreadExited ∧
  store_byte (address p + off) v s = Stopped ThreadExited.
Proof.
  intros ([Hk Ht Hr Hp] & _) Hi Htl Hq Hpq Hoff Hlive.
  destruct (heap_pinfo s q Hk ltac:(by eexists)) as [[pr bs] Hx]. pose proof (Hp q pr bs Hx) as ->.
  apply pinfo_heap in Hx as (p' & Hp' & Hv). simplify_eq. unfold load_byte, store_byte, fault.
  rewrite (load_protected _ _ _ _ Hv Hoff), (store_protected _ _ _ _ v Hv Hoff).
  unfold tls_handle_page_fault. rewrite (page_base _ _ (vpage_aligned _ _ _ Hv) Hoff).
  rewrite (handle_owned_page s (address p) sl t q p (tid_tls_pairs s) i); [done| |done..].
  intros j slj u Hj Hu. by destruct (tb_live s Ht j slj u Hj Hu).
Qed.

(** A fault at an address that no storage owns reaches the first slot
    without storage, never used or destroyed, where the handler reads through
    a null pointer: the signal is not raised again with its default action
    unless all slots hold a storage. *)
Theorem fault_handler_null_slot s a i sl addr :
  represents s a → tid_tls_pairs s !! i = Some sl → tls sl = None →
  (∀ j slj, tid_tls_pairs s !! j = Some slj → (j < i)%nat → is_Some (tls slj)) →
  (∀ q p, heap s !! q = Some p → address p ≠ Z.land addr (Z.lnot (getpagesize - 1))) →
  tls_handle_page_fault addr s = Crashed.
Proof.
  intros ([Hk Ht Hr Hp] & _) Hi Hnone Hlive Hno. unfold tls_handle_page_fault.
  rewrite (handle_slots_ok s _ _ i).
  - rewrite (drop_S _ _ _ Hi). cbn [handle_slots]. by rewrite Hnone.
  - intros j slj u Hj Hu. by destruct (tb_live s Ht j slj u Hj Hu).
  - intros j slj Hj Hlt. destruct (Hlive j slj Hj Hlt) as [u Hu]. exists u. split; [done|].
    intros q p _ Hq. by apply (Hno q).
Qed.

(** ** Outside the contract *)

(** Slots are not given back: once every slot has been used, a thread
    without a storage that calls [tls_create] makes the code write the table
    at index -1, also when all storages were destroyed. *)
Theorem tls_create_slots_exhausted self size s a :
  represents s a → initialize s = true → real_tid self → slots a = O →
  contents a !! self = None → 0 < size < 2 ^ 32 →
  tls_create self size s = Crashed.
Proof.
  intros (Hinv & Hc & Hs) Hinit Hr Hfull Hnone Hsize. pose proof (iv_table s Hinv) as Ht.
  unfold tls_create. rewrite Hinit, (proj2 (Z.leb_gt _ _)) by lia.
  assert (find_tid self s = None) as ->.
  { apply find_tls_None; [done|done|]. rewrite Hc in Hnone. by destruct (find_tls self s). }
  assert (find_tid NO_TID s = None) as ->.
  { apply find_tid_None. intros i sl Hi Htid. rewrite Hs in Hfull. unfold free_slots in Hfull. rewrite Hinit in Hfull.
    assert (sl ∈ filter (λ p, tid p = NO_TID) (tid_tls_pairs s)) as Hin.
    { apply list_elem_of_filter. split; [done|by eapply list_elem_of_lookup_2]. }
    destruct (filter _ _); [by apply elem_of_nil in Hin|done]. }
  destruct (create_pages _ _ _) as [ptrs s']. unfold set_pair. rewrite awrite_UB by lia. done.
Qed.

(** When every slot has been used, [tls_clone] of a thread with a storage
    reports success although the caller has no storage afterwards. *)
Theorem tls_clone_slots_exhausted self target s a :
  represents s a → initialize s = true → real_tid self → slots a = O →
  contents a !! self = None → is_Some (contents a !! target) →
  ∃ s', tls_clone self target s = Done (0, s') ∧ find_tls self s' = None.
Proof.
  intros (Hinv & Hc & Hs) Hinit Hr Hfull Hnone [bs Hbs]. pose proof (iv_table s Hinv) as Ht.
  unfold tls_clone. rewrite Hc in Hnone, Hbs.
  assert (find_tls self s = None) as Hf by (by destruct (find_tls self s)). rewrite Hf.
  destruct (find_tls target s) as [t|] eqn:Et; [|done].
  apply find_tls_pages in Et as (j & slj & Hj & Htj & Hpg & Hok); [|done].
  rewrite for_pages_all by apply Hok.
  destruct (share_pages_ok (pages t) s (iv_heap s Hinv) (tk_nodup s t Hok) (tk_heap s t Hok))
    as (s1 & -> & Hk1 & Ep1 & Ei1 & Hr1 & Hi1).
  { intros q m _ Hm. pose proof (refs_small s q m Hinv Hm). unfold MAX_THREAD_COUNT in *. lia. }
  rstep. assert (find_tid NO_TID s1 = None) as ->.
  { apply find_tid_None. intros i sl Hi Htid. rewrite Ep1 in Hi. rewrite Hs in Hfull.
    unfold free_slots in Hfull. rewrite Hinit in Hfull.
    assert (sl ∈ filter (λ p, tid p = NO_TID) (tid_tls_pairs s)) as Hin.
    { apply list_elem_of_filter. split; [done|by eapply list_elem_of_lookup_2]. }
    destruct (filter _ _); [by apply elem_of_nil in Hin|done]. }
  exists s1. split; [done|]. unfold find_tls, find_tid in *. by rewrite Ep1.
Qed.

(** An [offset + length] that does not fit 32 bits wraps around: when the
    wrapped sum is within the storage, [tls_write] reports success although
    the range is out of bounds, and nothing is written. *)
Theorem tls_write_wraps self offset len buffer s a bs :
  represents s a → real_tid self → contents a !! self = Some bs →
  0 ≤ offset < 2 ^ 31 → 0 ≤ len < 2 ^ 32 → 2 ^ 32 ≤ offset + len →
  offset + len - 2 ^ 32 ≤ Z.of_nat (length bs) →
  ∃ s', tls_write self offset len buffer s = Done (0, s') ∧ represents s' a.
Proof.
  intros Hrep Hr Hbs Ho Hl Hwrap Hfit. pose proof Hrep as (Hinv & Hc & Hfree).
  pose proof (iv_table s Hinv) as Htab. rewrite Hc in Hbs. unfold tls_write.
  destruct (find_tls self s) as [t|] eqn:E; [|done]. injection Hbs as <-.
  pose proof E as (i & sl & Hi & Htid & Ht)%find_tls_Some; [|done].
  destruct (tb_live s Htab i sl t Hi Ht) as [_ Hok].
  rewrite (find_tid_real s self i sl) by done.
  pose proof (tk_size s t Hok) as Hsz. rewrite length_tls_data, Z.max_r in Hfit by lia.
  assert (u32 (offset + len) = offset + len - 2 ^ 32) as ->.
  { unfold wrap. symmetry. apply (Z.mod_unique _ _ 1); lia. }
  rewrite (proj2 (Z.ltb_ge _ _)) by lia.
  destruct (unprotect_pages s t (iv_heap s Hinv) Hok) as (s1 & -> & Hk1 & Eh1 & En1 & Ep1 & Ei1 & Hi1).
  rstep. rewrite s32_id by lia. unfold byte_fuel. cbn [write_bytes].
  rewrite wrap_id, (proj2 (Z.ltb_ge _ _)) by lia. cbn [negb]. rstep.
  assert (tls_ok s1 t) as Hok1 by (eapply tls_ok_heap; [|done]; by rewrite Eh1).
  destruct (protect_pages s1 t Hk1 Hok1) as (s2 & -> & Hk2 & Eh2 & En2 & Ep2 & Ei2 & Hi2).
  rstep. exists s2. split; [done|]. apply (represents_same s s2 a Hrep Hk2); [congruence..|].
  intros q. rewrite Hi2, Hi1. case_decide; [|done].
  destruct (pinfo s q) as [[pr bs]|] eqn:Eq; [|done]. simpl. by rewrite (iv_prot s Hinv q pr bs Eq).
Qed.
End theorems.
