(* ===== verification/TlsDemo.v ===== *)
(** * Concrete thread-local storages

    A virtual memory that computes, with pages of two bytes, and the theorems
    applied to runs on it. *)

From S2P Require Export TlsTheorems.

(** The pages by number: protection and two bytes. *)
Abbreviation tiny_vm := (gmap Z (prot * Z * Z)).

Definition tiny_store (off v : Z) (x : prot * Z * Z) : prot * Z * Z :=
  let '(pr, b0, b1) := x in if off =? 0 then (pr, v, b1) else (pr, b0, v).

#[export] Instance tiny_vm_ops : Vm tiny_vm := {
  getpagesize := 2;
  mmap pr m := let n := fresh (dom m) in (2 * n, <[n := (pr, 0, 0)]> m);
  munmap a m := delete (a / 2) m;
  mprotect a pr m :=
    match m !! (a / 2) with
    | Some (_, b0, b1) => (0, <[a / 2 := (pr, b0, b1)]> m)
    | None => (-1, m)
    end;
  load a m :=
    match m !! (a / 2) with
    | Some (pr, b0, b1) => if readable pr then Some (if a mod 2 =? 0 then b0 else b1) else None
    | None => None
    end;
  store a v m :=
    match m !! (a / 2) with
    | Some (pr, b0, b1) =>
        if writable pr then Some (<[a / 2 := tiny_store (a mod 2) v (pr, b0, b1)]> m) else None
    | None => None
    end
}.

Definition tiny_page (m : tiny_vm) (a : Z) : option (prot * list Z) :=
  if a mod 2 =? 0 then (λ x : prot * Z * Z, (x.1.1, [x.1.2; x.2])) <$> m !! (a / 2) else None.

Lemma tiny_page_Some m a pr bs : tiny_page m a = Some (pr, bs) →
  ∃ n b0 b1, a = 2 * n ∧ m !! n = Some (pr, b0, b1) ∧ bs = [b0; b1].
Proof.
  unfold tiny_page. destruct (Z.eqb_spec (a mod 2) 0); [|done].
  intros ([[pr' b0] b1] & Hm & [= -> ->])%fmap_Some. exists (a / 2), b0, b1.
  split_and!; [dlia|done|done].
Qed.

Lemma tiny_page_at m n : tiny_page m (2 * n) = (λ x : prot * Z * Z, (x.1.1, [x.1.2; x.2])) <$> m !! n.
Proof.
  unfold tiny_page. replace ((2 * n) mod 2) with 0 by dlia.
  by replace (2 * n / 2) with n by dlia.
Qed.

Lemma tiny_page_insert m n x b :
  tiny_page (<[n := x]> m) b =
    if decide (b = 2 * n) then Some (x.1.1, [x.1.2; x.2]) else tiny_page m b.
Proof.
  unfold tiny_page. destruct (Z.eqb_spec (b mod 2) 0).
  - rewrite lookup_insert. destruct (decide (n = b / 2)) as [->|].
    + by rewrite decide_True by dlia.
    + by rewrite decide_False by dlia.
  - by rewrite decide_False by dlia.
Qed.

#[export, program] Instance tiny_vm_spec : VmSpec tiny_vm := { vpage := tiny_page }.
Next Obligation. cbn. lia. Qed.
Next Obligation. exists 1. done. Qed.
Next Obligation. intros m a [pr bs] (n & _ & _ & -> & _)%tiny_page_Some. cbn. dlia. Qed.
Next Obligation. intros m a pr bs (n & b0 & b1 & _ & _ & ->)%tiny_page_Some. done. Qed.
Next Obligation.
  intros m pr. eexists _, _. split; [reflexivity|]. split.
  - rewrite tiny_page_at. rewrite (not_elem_of_dom_1 m (fresh (dom m))); [done|]. apply is_fresh.
  - intros b. rewrite tiny_page_insert. done.
Qed.
Next Obligation.
  intros m a [pr bs] (n & b0 & b1 & -> & Hm & ->)%tiny_page_Some b. cbn.
  replace (2 * n / 2) with n by dlia. unfold tiny_page. destruct (Z.eqb_spec (b mod 2) 0).
  - rewrite lookup_delete. destruct (decide (n = b / 2)) as [->|].
    + by rewrite decide_True by dlia.
    + by rewrite decide_False by dlia.
  - by rewrite decide_False by dlia.
Qed.
Next Obligation.
  intros m a pr pr' bs (n & b0 & b1 & -> & Hm & ->)%tiny_page_Some. cbn.
  replace (2 * n / 2) with n by dlia. rewrite Hm. eexists. split; [done|].
  intros b. by rewrite tiny_page_insert.
Qed.
Next Obligation.
  intros m a pr bs off (n & b0 & b1 & -> & Hm & ->)%tiny_page_Some Hr Hoff. cbn in *.
  replace ((2 * n + off) / 2) with n by dlia. rewrite Hm, Hr.
  replace ((2 * n + off) mod 2) with off by dlia.
  assert (off = 0 ∨ off = 1) as [-> | ->] by lia; done.
Qed.
Next Obligation.
  intros m a bs off (n & b0 & b1 & -> & Hm & ->)%tiny_page_Some Hoff. cbn in *.
  replace ((2 * n + off) / 2) with n by dlia. by rewrite Hm.
Qed.
Next Obligation.
  intros m a bs off v (n & b0 & b1 & -> & Hm & ->)%tiny_page_Some Hoff. cbn in *.
  replace ((2 * n + off) / 2) with n by dlia. by rewrite Hm.
Qed.
Next Obligation.
  intros m a pr bs off v (n & b0 & b1 & -> & Hm & ->)%tiny_page_Some Hw Hoff. cbn in *.
  replace ((2 * n + off) / 2) with n by dlia. rewrite Hm, Hw.
  replace ((2 * n + off) mod 2) with off by dlia.
  eexists. split; [done|]. intros b. rewrite tiny_page_insert. case_decide; [|done]. f_equal.
  assert (off = 0 ∨ off = 1) as [-> | ->] by lia; done.
Qed.

Definition no_pages : tiny_vm := ∅.

(** ** The theorems applied *)

Lemma real_tid_7 : real_tid 7. Proof. by split. Qed.
Lemma real_tid_8 : real_tid 8. Proof. by split. Qed.

Lemma tls_call_refines_witness :
  ∃ s', run_call 7 (Create 3) (tls_start no_pages) = Done (0, [], s') ∧
    represents s' (Abs {[7 := [0; 0; 0]]} 127).
Proof.
  exact (tls_call_refines 7 (Create 3) (tls_start no_pages) _ 0 [] (Abs {[7 := [0; 0; 0]]} 127)
    (start_represents no_pages) real_tid_7 ltac:(done) eq_refl).
Defined.

(** Thread 8 clones the storage of thread 7; each then writes its own copy. *)
Definition demo_calls : list (Z * call) :=
  [(7, Create 3); (7, Write 0 3 [1; 2; 3]); (8, Clone 7); (8, Write 2 1 [9]); (7, Write 0 1 [5]);
   (7, Read 0 3 [0; 0; 0]); (8, Read 0 3 [0; 0; 0]); (7, Destroy); (8, Destroy)].

Definition demo_results : list (Z * list Z) :=
  [(0, []); (0, [1; 2; 3]); (0, []); (0, [9]); (0, [5]);
   (0, [5; 2; 3]); (0, [1; 2; 9]); (0, []); (0, [])].

Lemma demo_calls_ok : Forall (λ x, real_tid x.1 ∧ call_ok x.2) demo_calls.
Proof. repeat constructor; cbn; done. Qed.

Lemma tls_run_refines_witness :
  ∃ s, run_calls demo_calls (tls_start no_pages) = Done (demo_results, s) ∧ heap s = ∅.
Proof.
  destruct (tls_run_refines no_pages demo_calls demo_results (Abs ∅ 126) demo_calls_ok
    ltac:(vm_compute; reflexivity)) as (s & E & _ & Hh).
  exists s. split; [exact E|]. apply Hh. reflexivity.
Defined.

Definition demo7 : state tiny_vm :=
  match run_call 7 (Create 3) (tls_start no_pages) with Done (_, _, s) => s | _ => tls_start no_pages end.

Lemma demo7_represents : represents demo7 (Abs {[7 := [0; 0; 0]]} 127).
Proof.
  destruct (refine_call 7 (Create 3) (tls_start no_pages) _ 0 [] (Abs {[7 := [0; 0; 0]]} 127)
    (start_represents no_pages) real_tid_7 ltac:(done) eq_refl) as (s' & E & Hrep).
  unfold demo7. by rewrite E.
Qed.

Lemma tls_fault_ends_thread_witness :
  ∃ p, heap demo7 !! 1 = Some p ∧ load_byte (address p + 1) demo7 = Stopped ThreadExited ∧
    store_byte (address p + 1) 65 demo7 = Stopped ThreadExited.
Proof.
  eexists. split; [reflexivity|].
  eapply (tls_fault_ends_thread demo7 _ 0 _ _ 1 _ 1 65 demo7_represents);
    [reflexivity|reflexivity|vm_compute; left|reflexivity|done|intros; lia].
Defined.

Lemma fault_handler_null_slot_witness :
  tls_handle_page_fault 5 (tls_start no_pages) = Crashed.
Proof.
  eapply (fault_handler_null_slot (tls_start no_pages) _ 0 (Pair 0 None) 5 (start_represents no_pages));
    [reflexivity|reflexivity|intros; lia|done].
Defined.

Lemma tls_write_wraps_witness :
  ∃ s', tls_write 7 2 (2 ^ 32 - 1) [1] demo7 = Done (0, s') ∧ represents s' (Abs {[7 := [0; 0; 0]]} 127).
Proof.
  exact (tls_write_wraps 7 2 (2 ^ 32 - 1) [1] demo7 _ [0; 0; 0] demo7_represents real_tid_7 eq_refl
    ltac:(lia) ltac:(lia) ltac:(lia) ltac:(done)).
Defined.

(** As many threads as slots. *)
Definition all_slots : list (Z * call) := map (λ i, (Z.of_nat i + 10, Create 1)) (seq 0 128).

Lemma all_slots_ok : Forall (λ x, real_tid x.1 ∧ call_ok x.2) all_slots.
Proof.
  apply Forall_forall. intros x (i & <- & Hi%in_seq)%in_map_iff. cbn. unfold real_tid, NO_TID. lia.
Qed.

Definition is_full (o : option (list (Z * list Z) * abs)) : bool :=
  match o with
  | Some (_, a) => bool_decide (slots a = O ∧ contents a !! 7 = None ∧ contents a !! 10 = Some [0])
  | None => false
  end.

Lemma all_slots_used : ∃ s a, represents s a ∧ initialize s = true ∧ slots a = O ∧
  contents a !! 7 = None ∧ contents a !! 10 = Some [0].
Proof.
  assert (is_full (spec_calls all_slots (Abs ∅ (Z.to_nat MAX_THREAD_COUNT))) = true) as Hf
    by (vm_compute; reflexivity).
  destruct (spec_calls all_slots _) as [[rs a]|] eqn:E; [|done].
  apply bool_decide_eq_true in Hf as (H1 & H2 & H3).
  destruct (calls_refine all_slots (tls_start no_pages) _ rs a (start_represents no_pages) all_slots_ok E)
    as (s & _ & Hrep). exists s, a. split; [exact Hrep|]. split; [|exact (conj H1 (conj H2 H3))].
  destruct Hrep as (Hinv & Hc & _). rewrite Hc in H3. destruct (find_tls 10 s) as [t|] eqn:Et; [|done].
  apply find_tls_Some in Et as (i & sl & Hi & _ & Ht); [|apply Hinv].
  destruct (initialize s) eqn:Einit; [done|]. rewrite (tb_init s (iv_table s Hinv) Einit) in Hi.
  apply lookup_replicate in Hi as [-> _]. done.
Qed.

Lemma tls_create_slots_exhausted_witness : ∃ s : state tiny_vm, tls_create 7 1 s = Crashed.
Proof.
  destruct all_slots_used as (s & a & Hrep & Hinit & Hs & Hn & _). exists s.
  exact (tls_create_slots_exhausted 7 1 s a Hrep Hinit real_tid_7 Hs Hn ltac:(lia)).
Defined.

Lemma tls_clone_slots_exhausted_witness :
  ∃ s s' : state tiny_vm, tls_clone 7 10 s = Done (0, s') ∧ find_tls 7 s' = None.
Proof.
  destruct all_slots_used as (s & a & Hrep & Hinit & Hs & Hn & Ht). exists s.
  exact (tls_clone_slots_exhausted 7 10 s a Hrep Hinit real_tid_7 Hs Hn ltac:(by eexists)).
Defined.
