(* ===== verification/Jmpbuf.v ===== *)
(** * Jump buffers and the start of a thread ([ec440threads.h])

    The eight words of a [jmp_buf] with the mangling of the ones that hold
    pointers, and the instructions of [start_thunk]. *)

From S2P Require Export Prelude.

(** The guard the C library keeps at [%fs:0x30], and the addresses of the two
    functions whose addresses the program stores. *)
Class Image : Type := {
  pointer_guard : Z;
  addr_start_thunk : Z;
  addr_pthread_exit : Z
}.

Class ImageSpec `{Image} : Prop := {
  guard_range : 0 ≤ pointer_guard < 2 ^ 64;
  thunk_range : 0 ≤ addr_start_thunk < 2 ^ 64;
  exit_range : 0 ≤ addr_pthread_exit < 2 ^ 64
}.

(** ** Machine words *)

(** [rolq] and [rorq] of a 64-bit word, [0 < n < 64]. *)
Definition rol (n x : Z) : Z := Z.lor (u64 (Z.shiftl x n)) (Z.shiftr x (64 - n)).
Definition ror (n x : Z) : Z := Z.lor (Z.shiftr x n) (u64 (Z.shiftl x (64 - n))).

(** ** Registers in the buffer *)

Definition JBL_RBX : Z := 0.
Definition JBL_RBP : Z := 1.
Definition JBL_R12 : Z := 2.
Definition JBL_R13 : Z := 3.
Definition JBL_R14 : Z := 4.
Definition JBL_R15 : Z := 5.
Definition JBL_RSP : Z := 6.
Definition JBL_PC : Z := 7.

Definition mangled (reg : Z) : bool :=
  (reg =? JBL_RBX) || (reg =? JBL_RBP) || (reg =? JBL_RSP) || (reg =? JBL_PC).

Definition plain (reg : Z) : bool :=
  (reg =? JBL_R12) || (reg =? JBL_R13) || (reg =? JBL_R14) || (reg =? JBL_R15).

Section jmpbuf.
Context `{Image}.

Definition ptr_mangle (p : Z) : Z := rol 17 (Z.lxor p pointer_guard).
Definition ptr_demangle (p : Z) : Z := Z.lxor (ror 17 p) pointer_guard.

(** A register outside the enumeration fails the assertion. *)
Definition set_reg (buf : list Z) (reg val : Z) : run (list Z) :=
  if mangled reg then lift buf.[reg <- ptr_mangle val]
  else if plain reg then lift buf.[reg <- val]
  else Stopped Killed.

Definition get_reg (buf : list Z) (reg : Z) : run Z :=
  if mangled reg then v ← lift buf.[reg]; Done (ptr_demangle v)
  else if plain reg then lift buf.[reg]
  else Stopped Killed.

(** ** The instructions of [start_thunk]

    The registers it uses, and memory as 8-byte words at their addresses. *)
Record cpu : Type := Cpu {
  rip : Z; rsp : Z; rbp : Z; rdi : Z; r12 : Z; r13 : Z;
  words : gmap Z Z
}.

Definition push (v : Z) (c : cpu) : cpu :=
  let sp := u64 (rsp c - 8) in
  Cpu (rip c) sp (rbp c) (rdi c) (r12 c) (r13 c) (<[sp := v]> (words c)).

(** The word at the top of the stack, and the machine with it taken off. *)
Definition pop (c : cpu) : run (Z * cpu) :=
  match words c !! rsp c with
  | Some v => Done (v, Cpu (rip c) (u64 (rsp c + 8)) (rbp c) (rdi c) (r12 c) (r13 c) (words c))
  | None => Crashed
  end.

Definition set_rbp (v : Z) (c : cpu) : cpu :=
  Cpu (rip c) (rsp c) v (rdi c) (r12 c) (r13 c) (words c).
Definition set_rdi (v : Z) (c : cpu) : cpu :=
  Cpu (rip c) (rsp c) (rbp c) v (r12 c) (r13 c) (words c).
Definition set_rip (v : Z) (c : cpu) : cpu :=
  Cpu v (rsp c) (rbp c) (rdi c) (r12 c) (r13 c) (words c).

(** The prologue of the function pushes [%rbp] and copies [%rsp] to it. *)
Definition start_thunk (c : cpu) : run cpu :=
  let c := push (rbp c) c in
  let c := set_rbp (rsp c) c in
  '(v, c) ← pop c;
  let c := set_rbp v c in
  let c := set_rdi (r13 c) c in
  let c := push (r12 c) c in
  '(v, c) ← pop c;
  Done (set_rip v c).

(** [longjmp] to a buffer filled with [set_reg]; what [%rdi] holds then is not
    specified. *)
Definition load_regs (buf : list Z) (rdi0 : Z) (mem : gmap Z Z) : run cpu :=
  pc ← get_reg buf JBL_PC;
  sp ← get_reg buf JBL_RSP;
  bp ← get_reg buf JBL_RBP;
  x12 ← get_reg buf JBL_R12;
  x13 ← get_reg buf JBL_R13;
  Done (Cpu pc sp bp rdi0 x12 x13 mem).

(** ** Properties *)

Lemma testbit_u64 x n : Z.testbit (u64 x) n = (n <? 64) && Z.testbit x n.
Proof.
  unfold wrap. destruct (Z.ltb_spec n 64).
  - destruct (decide (0 ≤ n)); [|by rewrite !Z.testbit_neg_r by lia].
    by rewrite Z.mod_pow2_bits_low by lia.
  - by rewrite Z.mod_pow2_bits_high by lia.
Qed.

Lemma u64_high x n : 0 ≤ x < 2 ^ 64 → 64 ≤ n → Z.testbit x n = false.
Proof.
  intros Hx Hn. rewrite <- (wrap_id 64 x Hx), testbit_u64.
  by rewrite (proj2 (Z.ltb_ge n 64)) by lia.
Qed.

Lemma u64_range x : 0 ≤ x → (∀ n, 64 ≤ n → Z.testbit x n = false) → 0 ≤ x < 2 ^ 64.
Proof.
  intros Hx Hhigh. assert (x = u64 x) as ->; [|apply wrap_bound; lia].
  apply Z.bits_inj'. intros n Hn. rewrite testbit_u64.
  destruct (Z.ltb_spec n 64); [done|]. by rewrite Hhigh.
Qed.

Lemma rol_bits n x i : 0 < n < 64 → 0 ≤ x < 2 ^ 64 → 0 ≤ i < 64 →
  Z.testbit (rol n x) i = Z.testbit x (if i <? n then i + (64 - n) else i - n).
Proof.
  intros Hn Hx Hi. unfold rol.
  rewrite Z.lor_spec, testbit_u64, Z.shiftl_spec, Z.shiftr_spec by lia.
  rewrite (proj2 (Z.ltb_lt i 64)) by lia. destruct (Z.ltb_spec i n); cbn [andb].
  - by rewrite (Z.testbit_neg_r x (i - n)) by lia.
  - rewrite (u64_high x (i + (64 - n))) by lia. apply orb_false_r.
Qed.

Lemma ror_bits n x i : 0 < n < 64 → 0 ≤ x < 2 ^ 64 → 0 ≤ i < 64 →
  Z.testbit (ror n x) i = Z.testbit x (if i <? 64 - n then i + n else i - (64 - n)).
Proof.
  intros Hn Hx Hi. unfold ror.
  rewrite Z.lor_spec, testbit_u64, Z.shiftl_spec, Z.shiftr_spec by lia.
  rewrite (proj2 (Z.ltb_lt i 64)) by lia. destruct (Z.ltb_spec i (64 - n)); cbn [andb].
  - rewrite (Z.testbit_neg_r x (i - (64 - n))) by lia. apply orb_false_r.
  - by rewrite (u64_high x (i + n)) by lia.
Qed.

Lemma rol_range n x : 0 < n < 64 → 0 ≤ x < 2 ^ 64 → 0 ≤ rol n x < 2 ^ 64.
Proof.
  intros Hn Hx. apply u64_range.
  - unfold rol. apply Z.lor_nonneg. split; [apply wrap_bound; lia|].
    apply Z.shiftr_nonneg. lia.
  - intros i Hi. unfold rol. rewrite Z.lor_spec, testbit_u64, Z.shiftr_spec by lia.
    rewrite (proj2 (Z.ltb_ge i 64)) by lia. cbn [andb orb]. apply u64_high; lia.
Qed.

(** Rotating right undoes rotating left. *)
Lemma ror_rol n x : 0 < n < 64 → 0 ≤ x < 2 ^ 64 → ror n (rol n x) = x.
Proof.
  intros Hn Hx. pose proof (rol_range n x Hn Hx) as Hr. apply Z.bits_inj'. intros i Hi.
  destruct (decide (64 ≤ i)).
  - rewrite (u64_high x) by lia. unfold ror.
    rewrite Z.lor_spec, testbit_u64, Z.shiftr_spec by lia.
    rewrite (proj2 (Z.ltb_ge i 64)) by lia. rewrite u64_high by lia. done.
  - rewrite ror_bits by lia. destruct (Z.ltb_spec i (64 - n)); rewrite rol_bits by lia.
    + rewrite (proj2 (Z.ltb_ge (i + n) n)) by lia. f_equal. lia.
    + rewrite (proj2 (Z.ltb_lt (i - (64 - n)) n)) by lia. f_equal. lia.
Qed.

Lemma lxor_range x y : 0 ≤ x < 2 ^ 64 → 0 ≤ y < 2 ^ 64 → 0 ≤ Z.lxor x y < 2 ^ 64.
Proof.
  intros Hx Hy. apply u64_range; [apply Z.lxor_nonneg; lia|].
  intros n Hn. by rewrite Z.lxor_spec, !u64_high by lia.
Qed.

Context `{!ImageSpec}.

Lemma demangle_mangle p : 0 ≤ p < 2 ^ 64 → ptr_demangle (ptr_mangle p) = p.
Proof.
  intros Hp. unfold ptr_demangle, ptr_mangle. pose proof guard_range.
  rewrite ror_rol; [|lia|by apply lxor_range].
  by rewrite Z.lxor_assoc, Z.lxor_nilpotent, Z.lxor_0_r.
Qed.

Definition is_reg (reg : Z) : Prop := 0 ≤ reg < 8.

Lemma reg_kind reg : is_reg reg → mangled reg = negb (plain reg).
Proof.
  intros Hr. unfold is_reg in Hr.
  assert (reg = 0 ∨ reg = 1 ∨ reg = 2 ∨ reg = 3 ∨ reg = 4 ∨ reg = 5 ∨ reg = 6 ∨ reg = 7) as Hc by lia.
  by destruct Hc as [->|[->|[->|[->|[->|[->|[->| ->]]]]]]].
Qed.

(** Storing a register succeeds, and every register then reads as before but
    for the one stored. *)
Lemma set_reg_get buf reg val :
  length buf = 8%nat → is_reg reg → (mangled reg = true → 0 ≤ val < 2 ^ 64) →
  ∃ buf', set_reg buf reg val = Done buf' ∧ length buf' = 8%nat ∧
    ∀ r, is_reg r → get_reg buf' r = if decide (r = reg) then Done val else get_reg buf r.
Proof.
  intros Hl Hr Hv. pose proof (reg_kind reg Hr) as Hk. unfold is_reg in Hr.
  exists (<[Z.to_nat reg := if mangled reg then ptr_mangle val else val]> buf).
  assert (Hin : 0 ≤ reg < Z.of_nat (length buf)) by lia.
  split_and!.
  - unfold set_reg. rewrite !awrite_lt by lia.
    destruct (mangled reg), (plain reg); done.
  - by rewrite length_insert.
  - intros r Hr'. unfold is_reg in Hr'. unfold get_reg, aread. rewrite zget_insert by done.
    case_decide as E; [|done]. subst r. destruct (mangled reg).
    + rstep. rewrite demangle_mangle by auto. done.
    + by destruct (plain reg).
Qed.

(** C31: a value stored in any register of a jump buffer is the value read back,
    through mangling and demangling, and the other registers are unchanged; a
    number that is no register fails the assertion in both functions. *)
Theorem set_get_reg buf reg val r :
  length buf = 8%nat → 0 ≤ val < 2 ^ 64 → is_reg reg → is_reg r →
  ∃ buf', set_reg buf reg val = Done buf' ∧ length buf' = 8%nat ∧
    get_reg buf' r = (if decide (r = reg) then Done val else get_reg buf r) ∧
    ∀ bad, ¬ is_reg bad → set_reg buf bad val = Stopped Killed ∧ get_reg buf bad = Stopped Killed.
Proof.
  intros Hl Hv Hr Hr'. destruct (set_reg_get buf reg val Hl Hr (λ _, Hv)) as (b & E & Hb & Hg).
  exists b. split_and!; [done|done|by apply Hg|]. intros bad Hbad.
  assert (mangled bad = false ∧ plain bad = false) as [Em Ep].
  { unfold is_reg, mangled, plain, JBL_RBX, JBL_RBP, JBL_RSP, JBL_PC, JBL_R12, JBL_R13,
      JBL_R14, JBL_R15 in *.
    repeat match goal with |- context [bad =? ?n] => rewrite (proj2 (Z.eqb_neq bad n)) by lia end.
    done. }
  unfold set_reg, get_reg. by rewrite Em, Ep.
Qed.

(** [start_thunk] enters the routine in [%r12] with its argument in [%rdi] and
    leaves the top of the stack where it was, whatever the stack holds. *)
Lemma start_thunk_ok c : 0 ≤ rsp c < 2 ^ 64 →
  ∃ c', start_thunk c = Done c' ∧ rip c' = r12 c ∧ rdi c' = r13 c ∧ rsp c' = rsp c ∧
    ∀ a, a ≠ u64 (rsp c - 8) → words c' !! a = words c !! a.
Proof.
  intros Hsp. assert (u64 (u64 (rsp c - 8) + 8) = rsp c) as E.
  { unfold wrap. rewrite Zplus_mod_idemp_l. replace (rsp c - 8 + 8) with (rsp c) by lia.
    by apply Z.mod_small. }
  eexists. unfold start_thunk, pop, push, set_rbp, set_rdi, set_rip.
  cbn [words rsp rip rbp rdi r12 r13]. rewrite lookup_insert_eq. rstep.
  cbn [words rsp rip rbp rdi r12 r13]. rewrite E, lookup_insert_eq. rstep.
  split_and!; [reflexivity|done..|].
  intros a Ha. cbn [words]. by rewrite !lookup_insert_ne by done.
Qed.
End jmpbuf.
