(* ===== verification/Threads.v ===== *)
(** * User-level threads: data and the scheduler ([threads.c])

    The threads run one at a time on one processor: a switch saves where the
    running thread is and continues another one where it was saved.  A thread
    is at a [point]: in the program's own code, or in a function of the library
    at a statement from which it can be resumed or interrupted.  [malloc] may
    fail, as the C library's may; a null pointer is 0. *)

From S2P Require Export Jmpbuf.

Definition MAX_THREADS : Z := 128.
Definition THREAD_STACK_SIZE : Z := Z.shiftl 1 15.
Definition NULL : Z := 0.

(** ** Data *)

Inductive thread_status : Type := TS_EXITED | TS_RUNNING | TS_READY | TS_EMPTY | TS_BLOCKED.

#[export] Instance thread_status_eq_dec : EqDecision thread_status.
Proof. solve_decision. Defined.

(** Where a thread is. *)
Inductive point : Type :=
  | User                                (* the program's own code *)
  | Entry (w : list Z)                  (* the beginning, with these registers *)
  | CreateReturn                        (* the [setjmp] of [pthread_create] *)
  | JoinLoop (thread retval : Z)        (* the loop of [pthread_join] *)
  | ExitReturn                          (* [pthread_exit], after [schedule] *)
  | LockReturn                          (* [pthread_mutex_lock], after [schedule] *)
  | UnlockYield                         (* [pthread_mutex_unlock], before [schedule] *)
  | UnlockReturn                        (* the same, after it *)
  | BarrierLoop (b : Z)                 (* the loop of [pthread_barrier_wait] *)
  | BarrierYield (b : Z)                (* the last [schedule] there *)
  | BarrierLeave (b : Z).               (* after it *)

(** A buffer holds the registers stored with [set_reg], or the context saved by
    [setjmp]. *)
Inductive jmp_buf : Type := Words (w : list Z) | Context (p : point).

Record thread_control_block : Type := Tcb {
  tid : Z;
  stack : Z;
  regs : jmp_buf;
  status : thread_status;
  exit_status : Z
}.

Record Node : Type := MkNode { node_tid : Z; node_next : Z }.

Record my_mutex_t : Type := Mutex {
  locked : Z;
  blocked_threads_head : Z;
  blocked_threads_tail : Z
}.

Record my_barrier_t : Type := Barrier {
  count : Z;
  threads_blocked : Z;
  Blocked_one : Z;
  Blocked_two : Z;
  init : Z;
  serialed : bool
}.

(** What [malloc] gives: a stack, a structure, or a block not yet written. *)
Inductive obj : Type :=
  | OStack
  | ORaw
  | ONode (n : Node)
  | OMutex (m : my_mutex_t)
  | OBarrier (b : my_barrier_t).

Definition sizeof_ptr : Z := 8.
Definition sizeof_Node : Z := 16.
Definition sizeof_mutex : Z := 24.
Definition sizeof_barrier : Z := 40.

(** [malloc] on a heap, and the number of bytes a block really has. *)
Class Malloc : Type := {
  malloc_at : gmap Z obj → Z → option Z;
  usable : Z → Z
}.

Class MallocSpec `{Malloc} : Prop := {
  malloc_fresh h n p : malloc_at h n = Some p → h !! p = None ∧ 0 < p ∧ p + n ≤ 2 ^ 64;
  usable_enough n : n ≤ usable n
}.

(** The program's variables, its heap and the words on the threads' stacks, the
    timer ([ualarm]), whether [SIGALRM] is blocked, and where the running
    thread is. *)
Record sys : Type := Sys {
  threads : list thread_control_block;
  current_tid : Z;
  exited_string : Z;
  num_threads : Z;
  is_first_call : bool;
  timer : bool;
  masked : bool;
  heap : gmap Z obj;
  mem : gmap Z Z;
  pc : point
}.

Definition boot : sys :=
  Sys (replicate (Z.to_nat MAX_THREADS) (Tcb 0 NULL (Words (replicate 8 0)) TS_EXITED 0))
    0 0 0 true false false ∅ ∅ User.

Definition set_threads s v := Sys v (current_tid s) (exited_string s) (num_threads s) (is_first_call s) (timer s) (masked s) (heap s) (mem s) (pc s).
Definition set_current s v := Sys (threads s) v (exited_string s) (num_threads s) (is_first_call s) (timer s) (masked s) (heap s) (mem s) (pc s).
Definition set_exited s v := Sys (threads s) (current_tid s) v (num_threads s) (is_first_call s) (timer s) (masked s) (heap s) (mem s) (pc s).
Definition set_num s v := Sys (threads s) (current_tid s) (exited_string s) v (is_first_call s) (timer s) (masked s) (heap s) (mem s) (pc s).
Definition set_first s v := Sys (threads s) (current_tid s) (exited_string s) (num_threads s) v (timer s) (masked s) (heap s) (mem s) (pc s).
Definition set_timer s v := Sys (threads s) (current_tid s) (exited_string s) (num_threads s) (is_first_call s) v (masked s) (heap s) (mem s) (pc s).
Definition set_masked s v := Sys (threads s) (current_tid s) (exited_string s) (num_threads s) (is_first_call s) (timer s) v (heap s) (mem s) (pc s).
Definition set_heap s v := Sys (threads s) (current_tid s) (exited_string s) (num_threads s) (is_first_call s) (timer s) (masked s) v (mem s) (pc s).
Definition set_mem s v := Sys (threads s) (current_tid s) (exited_string s) (num_threads s) (is_first_call s) (timer s) (masked s) (heap s) v (pc s).
Definition set_pc s v := Sys (threads s) (current_tid s) (exited_string s) (num_threads s) (is_first_call s) (timer s) (masked s) (heap s) (mem s) v.

(** ** Thread control blocks *)

Definition with_tid (v : Z) t := Tcb v (stack t) (regs t) (status t) (exit_status t).
Definition with_stack (v : Z) t := Tcb (tid t) v (regs t) (status t) (exit_status t).
Definition with_regs (v : jmp_buf) t := Tcb (tid t) (stack t) v (status t) (exit_status t).
Definition with_status (v : thread_status) t := Tcb (tid t) (stack t) (regs t) v (exit_status t).
Definition with_exit (v : Z) t := Tcb (tid t) (stack t) (regs t) (status t) v.

(** An assignment to a field of [threads[i]]. *)
Definition update (i : Z) (f : thread_control_block → thread_control_block) s : run sys :=
  t ← lift (threads s).[i];
  ths ← lift (threads s).[i <- f t];
  Done (set_threads s ths).

(** ** The heap *)

Definition free (p : Z) s : run sys :=
  if p =? NULL then Done s
  else match heap s !! p with
       | Some _ => Done (set_heap s (delete p (heap s)))
       | None => Crashed
       end.

Definition get_node (p : Z) s : run Node :=
  match heap s !! p with Some (ONode n) => Done n | _ => Crashed end.
Definition get_mutex (p : Z) s : run my_mutex_t :=
  match heap s !! p with Some (OMutex m) => Done m | _ => Crashed end.
Definition get_barrier (p : Z) s : run my_barrier_t :=
  match heap s !! p with Some (OBarrier b) => Done b | _ => Crashed end.

Definition set_obj (p : Z) (o : obj) s : sys := set_heap s (<[p := o]> (heap s)).

(** ** The scheduler *)

(** The search for the next thread; the loop goes round the table as long as
    it finds none. *)
Fixpoint find_next (fuel : nat) (ths : list thread_control_block) (next_tid : Z) : run Z :=
  match fuel with
  | O => OutOfFuel
  | S fuel =>
      let next_tid := if next_tid =? MAX_THREADS - 1 then 0 else next_tid + 1 in
      t ← lift ths.[next_tid];
      if decide (status t = TS_READY) then Done next_tid else find_next fuel ths next_tid
  end.

(** Once round the table. *)
Definition search_fuel : nat := Z.to_nat MAX_THREADS.

(** [longjmp]: the running thread continues where the buffer says. *)
Definition longjmp (b : jmp_buf) s : sys :=
  set_pc s (match b with Context p => p | Words w => Entry w end).

(** [here] is where the caller continues when [schedule] returns to it. *)
Definition schedule (here : point) s : run sys :=
  t ← lift (threads s).[current_tid s];
  s ← (match status t with
       | TS_RUNNING => update (current_tid s) (with_status TS_READY) s
       | TS_EXITED | TS_READY | TS_BLOCKED | TS_EMPTY => Done s
       end);
  next_tid ← find_next search_fuel (threads s) (current_tid s);
  t ← lift (threads s).[current_tid s];
  s ← (if decide (status t = TS_EXITED) then Done s
       else update (current_tid s) (with_regs (Context here)) s);
  let s := set_current s next_tid in
  s ← update (current_tid s) (with_status TS_RUNNING) s;
  t ← lift (threads s).[current_tid s];
  Done (longjmp (regs t) s).

Definition init_slot (i : nat) t : thread_control_block :=
  Tcb (Z.of_nat i) NULL (regs t) TS_EMPTY (exit_status t).

Definition scheduler_init s : run sys :=
  let s := set_threads s (imap init_slot (threads s)) in
  let s := set_num s 1 in
  s ← update 0 (with_status TS_READY) s;
  Done (set_timer s true).

(** What a call gives back to the program. *)
Inductive result : Type :=
  | RInt (r : Z)
  | RCreate (thread r : Z)
  | RPtr (align r : Z)
  | RJoin (value r : Z)
  | RStart (routine arg ret_addr : Z).

(** A call returns, or the thread goes on at another point of the library, or
    another thread runs. *)
Abbreviation outcome := (run (option result * sys)).

Definition ret (r : result) s : outcome := Done (Some r, set_pc s User).
Definition goto (p : point) s : outcome := Done (None, set_pc s p).
Definition yield (here : point) s : outcome := s ← schedule here s; Done (None, s).

(** ** Creating, ending and joining threads *)

Section threads.
Context `{Image} `{Malloc}.

Definition malloc (n : Z) (o : obj) s : run (Z * sys) :=
  match malloc_at (heap s) n with
  | Some p => Done (p, set_obj p o s)
  | None => Done (NULL, s)
  end.

(** [set_reg (&threads[tid].regs, ...)]: only a buffer without a saved context
    is filled. *)
Definition set_thread_reg (i reg val : Z) s : run sys :=
  t ← lift (threads s).[i];
  match regs t with
  | Words w => w ← set_reg w reg val; update i (with_regs (Words w)) s
  | Context _ => Crashed
  end.

(** The loop that looks for a slot without a stack, from 1. *)
Definition free_slot s : Z :=
  match first_index (λ t, stack t =? NULL) (drop 1 (threads s)) with
  | Some i => Z.of_nat i + 1
  | None => MAX_THREADS
  end.

Definition create_thread (start_routine arg : Z) s : outcome :=
  let i := free_slot s in
  if MAX_THREADS <=? num_threads s then ret (RInt (-1)) s else
  s ← set_thread_reg i JBL_PC addr_start_thunk s;
  s ← set_thread_reg i JBL_R13 arg s;
  s ← set_thread_reg i JBL_R12 start_routine s;
  '(p, s) ← malloc THREAD_STACK_SIZE OStack s;
  s ← update i (with_stack p) s;
  if p =? NULL then Crashed else
  let stackPointer := u64 (p + THREAD_STACK_SIZE - 8) in
  let s := set_mem s (<[stackPointer := addr_pthread_exit]> (mem s)) in
  s ← set_thread_reg i JBL_RSP stackPointer s;
  s ← update i (with_status TS_READY) s;
  s ← update i (with_tid (num_threads s)) s;
  let thread := num_threads s in
  ret (RCreate thread 0) (set_num s (num_threads s + 1)).

Definition pthread_create (start_routine arg : Z) s : outcome :=
  s ← (if is_first_call s then
         s ← scheduler_init (set_first s false);
         s ← update 0 (with_status TS_READY) s;
         update 0 (with_regs (Context CreateReturn)) s
       else Done s);
  create_thread start_routine arg s.

(** A thread enters its routine; [%rdi] holds anything, here 0. *)
Definition enter (w : list Z) s : outcome :=
  c ← load_regs w 0 (mem s);
  if negb (rip c =? addr_start_thunk) then Crashed else
  c ← start_thunk c;
  match words c !! rsp c with
  | Some ra => ret (RStart (rip c) (rdi c) ra) (set_mem s (words c))
  | None => Crashed
  end.

Definition pthread_exit (value_ptr : Z) s : outcome :=
  s ← update (current_tid s) (with_status TS_EXITED) s;
  s ← update (current_tid s) (with_exit value_ptr) s;
  let s := set_exited s (exited_string s + 1) in
  let s := set_timer s false in
  yield ExitReturn s.

Definition pthread_self s : outcome :=
  t ← lift (threads s).[current_tid s]; ret (RInt (tid t)) s.

(** One turn of the loop of [pthread_join]. *)
Definition pthread_join (thread retval : Z) s : outcome :=
  t ← lift (threads s).[thread];
  if decide (status t = TS_EXITED) then
    s ← free (stack t) s;
    if retval =? NULL then Crashed else ret (RJoin (exit_status t) 0) s
  else yield (JoinLoop thread retval) s.

(** ** Mutexes *)

Definition lock s : sys := set_masked s true.
Definition unlock s : sys := set_masked s false.

(** The block is as large as a pointer; the structure is written to it. *)
Definition pthread_mutex_init s : outcome :=
  '(m, s) ← malloc sizeof_ptr (OMutex (Mutex 0 NULL NULL)) s;
  if (m =? NULL) || (usable sizeof_ptr <? sizeof_mutex) then Crashed
  else ret (RPtr m 0) s.

Fixpoint free_nodes (fuel : nat) (node_current : Z) s : run sys :=
  match fuel with
  | O => OutOfFuel
  | S fuel =>
      if node_current =? NULL then Done s else
      n ← get_node node_current s;
      s ← free node_current s;
      free_nodes fuel (node_next n) s
  end.

(** Every turn of the loop frees a block. *)
Definition heap_fuel s : nat := S (size (heap s)).

Definition pthread_mutex_destroy (align : Z) s : outcome :=
  m ← get_mutex align s;
  if negb (locked m =? 0) then ret (RInt (-1)) s else
  s ← free_nodes (heap_fuel s) (blocked_threads_head m) s;
  s ← free align s;
  ret (RInt 0) s.

(** The block allocated for [old_tail] is never used. *)
Definition waste s : sys :=
  match malloc_at (heap s) sizeof_Node with Some p => set_obj p ORaw s | None => s end.

(** Appending the node [n] to the list of the threads blocked on a mutex. *)
Definition append_node (align n : Z) (m : my_mutex_t) s : run sys :=
  if blocked_threads_head m =? NULL then
    Done (set_obj align (OMutex (Mutex (locked m) n (blocked_threads_tail m))) s)
  else if blocked_threads_tail m =? NULL then
    h ← get_node (blocked_threads_head m) s;
    let s := set_obj (blocked_threads_head m) (ONode (MkNode (node_tid h) n)) s in
    Done (set_obj align (OMutex (Mutex (locked m) (blocked_threads_head m) n)) s)
  else
    let old_tail := blocked_threads_tail m in
    let s := waste s in
    let s := set_obj align (OMutex (Mutex (locked m) (blocked_threads_head m) n)) s in
    t ← get_node old_tail s;
    Done (set_obj old_tail (ONode (MkNode (node_tid t) n)) s).

Definition pthread_mutex_lock (align : Z) s : outcome :=
  m ← get_mutex align s;
  let s := lock s in
  if locked m =? 0 then
    let s := set_obj align (OMutex (Mutex 1 (blocked_threads_head m) (blocked_threads_tail m))) s in
    s ← update (current_tid s) (with_status TS_READY) s;
    ret (RInt 0) (unlock s)
  else
    s ← update (current_tid s) (with_status TS_BLOCKED) s;
    '(n, s) ← malloc sizeof_Node (ONode (MkNode (current_tid s) NULL)) s;
    if n =? NULL then Crashed else
    s ← append_node align n m s;
    yield LockReturn s.

Definition pthread_mutex_unlock (align : Z) s : outcome :=
  m ← get_mutex align s;
  let s := lock s in
  if blocked_threads_head m =? NULL then
    ret (RInt 0) (unlock (set_obj align
      (OMutex (Mutex 0 (blocked_threads_head m) (blocked_threads_tail m))) s))
  else
    n ← get_node (blocked_threads_head m) s;
    let next := node_next n in
    s ← update (node_tid n) (with_status TS_READY) s;
    s ← free (blocked_threads_head m) s;
    let tail := if next =? NULL then NULL else blocked_threads_tail m in
    let l := if next =? NULL then 0 else locked m in
    goto UnlockYield (unlock (set_obj align (OMutex (Mutex l next tail)) s)).

(** ** Barriers *)

Definition PTHREAD_BARRIER_SERIAL_THREAD : Z := -1.

Definition set_count (b : my_barrier_t) v :=
  Barrier (count b) v (Blocked_one b) (Blocked_two b) (init b) (serialed b).

Definition pthread_barrier_init (cnt : Z) s : outcome :=
  '(b, s) ← malloc sizeof_barrier (OBarrier (Barrier (s32 cnt) 0 NULL NULL 1 false)) s;
  if b =? NULL then Crashed else ret (RPtr b 0) s.

Definition pthread_barrier_destroy (align : Z) s : outcome :=
  b ← get_barrier align s;
  if negb (init b =? 1) || negb (threads_blocked b =? 0) then ret (RInt (-1)) s else
  s ← free align s;
  ret (RInt 0) s.

(** The branch of [pthread_barrier_wait] that blocks the caller. *)
Definition barrier_block (align : Z) (b : my_barrier_t) s : outcome :=
  s ← update (current_tid s) (with_status TS_BLOCKED) (lock s);
  '(n, s) ← malloc sizeof_Node (ONode (MkNode (current_tid s) NULL)) s;
  if n =? NULL then Crashed else
  s ← (if Blocked_one b =? NULL then
         Done (set_obj align (OBarrier (Barrier (count b) (threads_blocked b) n (Blocked_two b) 0 (serialed b))) s)
       else
         t ← get_node (Blocked_two b) s;
         let s := set_obj (Blocked_two b) (ONode (MkNode (node_tid t) n)) s in
         Done (set_obj align (OBarrier (Barrier (count b) (threads_blocked b) (Blocked_one b) n 0 (serialed b))) s));
  yield (BarrierLoop align) (unlock s).

(** [threads_blocked++] is undefined at the largest [int]. *)
Definition pthread_barrier_wait (align : Z) s : outcome :=
  b ← get_barrier align s;
  if threads_blocked b =? 2 ^ 31 - 1 then Crashed else
  let b := set_count b (threads_blocked b + 1) in
  let s := set_obj align (OBarrier b) s in
  if negb (init b =? 1) then barrier_block align b s else goto (BarrierLoop align) s.

(** One turn of the loop, and the statements between it and the last
    [schedule]. *)
Definition barrier_loop (align : Z) s : outcome :=
  b ← get_barrier align s;
  if threads_blocked b <? count b then yield (BarrierLoop align) s else
  let s := lock s in
  s ← (if init b =? 0 then
         n ← get_node (Blocked_one b) s;
         s ← update (node_tid n) (with_status TS_READY) s;
         let s := set_obj align (OBarrier (Barrier (count b) (threads_blocked b) (node_next n) (Blocked_two b) 1 (serialed b))) s in
         free (Blocked_one b) s
       else Done s);
  goto (BarrierYield align) (unlock s).

Definition barrier_leave (align : Z) s : outcome :=
  b ← get_barrier align s;
  let s := set_obj align (OBarrier (Barrier (count b) 0 NULL NULL 1 true)) s in
  ret (RInt (if serialed b then 0 else PTHREAD_BARRIER_SERIAL_THREAD)) s.

(** ** Steps *)

Inductive call : Type :=
  | Create (start_routine arg : Z)
  | Exit (value_ptr : Z)
  | Self
  | Join (thread retval : Z)
  | MutexInit
  | MutexDestroy (m : Z)
  | MutexLock (m : Z)
  | MutexUnlock (m : Z)
  | BarrierInit (cnt : Z)
  | BarrierDestroy (b : Z)
  | BarrierWait (b : Z).

Definition run_call (c : call) s : outcome :=
  match c with
  | Create r a => pthread_create r a s
  | Exit v => pthread_exit v s
  | Self => pthread_self s
  | Join t r => pthread_join t r s
  | MutexInit => pthread_mutex_init s
  | MutexDestroy m => pthread_mutex_destroy m s
  | MutexLock m => pthread_mutex_lock m s
  | MutexUnlock m => pthread_mutex_unlock m s
  | BarrierInit n => pthread_barrier_init n s
  | BarrierDestroy b => pthread_barrier_destroy b s
  | BarrierWait b => pthread_barrier_wait b s
  end.

(** The running thread goes on with the library's code it is in. *)
Definition resume s : outcome :=
  match pc s with
  | User => Done (None, s)
  | Entry w => enter w s
  | CreateReturn => ret (RInt 0) s
  | JoinLoop t r => pthread_join t r s
  | ExitReturn => Stopped (Exited 0)
  | LockReturn => ret (RInt (-1)) s
  | UnlockYield => yield UnlockReturn s
  | UnlockReturn => ret (RInt 0) s
  | BarrierLoop b => barrier_loop b s
  | BarrierYield b => yield (BarrierLeave b) s
  | BarrierLeave b => barrier_leave b s
  end.

(** What may happen next: the running thread calls a function, goes on in one,
    or is interrupted by the timer. *)
Inductive label : Type := Call (c : call) | Go | Tick.

Definition enabled (l : label) s : bool :=
  match l, pc s with
  | Call _, User => true
  | Call _, _ => false
  | Go, User => false
  | Go, _ => true
  | Tick, _ => timer s && negb (masked s)
  end.

Definition exec (l : label) s : outcome :=
  match l with
  | Call c => run_call c s
  | Go => resume s
  | Tick => yield (pc s) s
  end.

(** A thread that returns from its routine jumps to [pthread_exit], with
    whatever [%rdi] holds as its argument: this is a call of [Exit]. *)
Inductive step s : label → option result → sys → Prop :=
  | step_exec l r s' : enabled l s = true → exec l s = Done (r, s') → step s l r s'.

(** A thread is joined while its stack is still allocated: a second join frees
    a block that may have become something else. *)
Definition joins_own_stack (l : label) s : Prop :=
  ∀ thread retval t, l = Call (Join thread retval) ∨ (l = Go ∧ pc s = JoinLoop thread retval) →
    zget (threads s) thread = Some t → status t = TS_EXITED →
    stack t = NULL ∨ heap s !! stack t = Some OStack.

(** The states of programs that join each thread in time. *)
Inductive reachable : sys → Prop :=
  | reachable_boot : reachable boot
  | reachable_step s l r s' :
      reachable s → joins_own_stack l s → step s l r s' → reachable s'.
End threads.
