(* ===== verification/ThreadsSched.v ===== *)
(** * The scheduler: the search, the switch, round robin *)

From S2P Require Export Threads.

(** ** Assignments to the table *)

Lemma update_Done i f s t : zget (threads s) i = Some t →
  update i f s = Done (set_threads s (<[Z.to_nat i := f t]> (threads s))).
Proof.
  intros E. unfold update. rewrite (proj2 (aread_Ret _ _ _) E). rstep.
  rewrite awrite_lt by (by eapply zget_range). done.
Qed.

Lemma update_inv i f s s' : update i f s = Done s' →
  ∃ t, zget (threads s) i = Some t ∧
    s' = set_threads s (<[Z.to_nat i := f t]> (threads s)).
Proof.
  unfold update. intros Hu. rinv Hu as t E. apply lift_Done_inv, aread_Ret in E.
  exists t. split; [done|]. rewrite awrite_lt in Hu by (by eapply zget_range). by injection Hu as <-.
Qed.

(** Reading the table after an assignment. *)
Lemma zget_set {A} (l : list A) i x y j : zget l i = Some y →
  zget (<[Z.to_nat i := x]> l) j = if decide (j = i) then Some x else zget l j.
Proof. intros E. apply zget_insert. by eapply zget_range. Qed.

(** ** The search *)

Definition is_ready (ths : list thread_control_block) (i : Z) : bool :=
  match zget ths i with Some t => bool_decide (status t = TS_READY) | None => false end.

(** The slot [k] places after [i], going round. *)
Definition after (i k : Z) : Z := (i + k) mod MAX_THREADS.

Lemma after_range i k : 0 ≤ after i k < MAX_THREADS.
Proof. apply Z.mod_pos_bound. done. Qed.
#[export] Hint Resolve after_range : c_bounds.

Lemma after_after i j k : after (after i j) k = after i (j + k).
Proof. unfold after. rewrite Zplus_mod_idemp_l. f_equal. lia. Qed.

Lemma after_0 i : 0 ≤ i < MAX_THREADS → after i 0 = i.
Proof. intros Hi. unfold after. rewrite Z.add_0_r. by apply Z.mod_small. Qed.

Lemma after_all i : 0 ≤ i < MAX_THREADS → after i MAX_THREADS = i.
Proof. unfold after, MAX_THREADS. intros. dlia. Qed.

(** Every slot is some places after every other. *)
Lemma after_distance i j : 0 ≤ i < MAX_THREADS → 0 ≤ j < MAX_THREADS →
  ∃ k, 1 ≤ k ≤ MAX_THREADS ∧ j = after i k.
Proof.
  intros Hi Hj. unfold after, MAX_THREADS in *. destruct (Z.ltb_spec i j).
  - exists (j - i). split; [lia|]. replace (i + (j - i)) with j by lia. by rewrite Z.mod_small.
  - exists (j - i + 128). split; [lia|]. replace (i + (j - i + 128)) with (j + 1 * 128) by lia.
    by rewrite Z.mod_add, Z.mod_small.
Qed.

Lemma next_slot i : 0 ≤ i < MAX_THREADS →
  (if i =? MAX_THREADS - 1 then 0 else i + 1) = after i 1.
Proof. unfold after, MAX_THREADS. intros. destruct (Z.eqb_spec i (128 - 1)); dlia. Qed.

Section search.
Context (ths : list thread_control_block) (Hlen : Z.of_nat (length ths) = MAX_THREADS).

Lemma find_next_S fuel i : 0 ≤ i < MAX_THREADS →
  find_next (S fuel) ths i =
    if is_ready ths (after i 1) then Done (after i 1) else find_next fuel ths (after i 1).
Proof.
  intros Hi. cbn [find_next]. rewrite (next_slot i Hi). pose proof (after_range i 1).
  destruct (aread_lt ths (after i 1)) as (t & E & _); [lia|].
  rewrite E. rstep. apply aread_Ret in E. unfold is_ready. rewrite E. by case_decide; case_bool_decide.
Qed.

(** The first ready slot, if one is among the next [fuel]. *)
Lemma find_next_Done fuel i k : 0 ≤ i < MAX_THREADS → 1 ≤ k ≤ Z.of_nat fuel →
  is_ready ths (after i k) = true → (∀ j, 1 ≤ j < k → is_ready ths (after i j) = false) →
  find_next fuel ths i = Done (after i k).
Proof.
  revert i k. induction fuel as [|fuel IH]; intros i k Hi Hk Hr Hmin; [lia|].
  rewrite find_next_S by done. destruct (decide (k = 1)) as [->|Hne]; [by rewrite Hr|].
  rewrite Hmin by lia. rewrite (IH _ (k - 1)), after_after.
  - do 2 f_equal. lia.
  - apply after_range.
  - lia.
  - rewrite after_after. by replace (1 + (k - 1)) with k by lia.
  - intros j Hj. rewrite after_after. apply Hmin. lia.
Qed.

Lemma find_next_loops fuel i : 0 ≤ i < MAX_THREADS →
  (∀ j, 0 ≤ j < MAX_THREADS → is_ready ths j = false) → find_next fuel ths i = OutOfFuel.
Proof.
  revert i. induction fuel as [|fuel IH]; intros i Hi Hno; [done|].
  rewrite find_next_S, Hno by auto with c_bounds. apply IH; auto with c_bounds.
Qed.

(** A bounded search for the smallest [k]. *)
Lemma least_ready i n : (∃ k, 1 ≤ k ≤ Z.of_nat n ∧ is_ready ths (after i k) = true) →
  ∃ k, 1 ≤ k ≤ Z.of_nat n ∧ is_ready ths (after i k) = true ∧
    ∀ j, 1 ≤ j < k → is_ready ths (after i j) = false.
Proof.
  intros (k & Hk & Hr).
  destruct (first_index (λ k, is_ready ths (after i k)) (seqZ 1 (Z.of_nat n))) as [m|] eqn:E.
  - apply first_index_Some in E as [(x & [-> Hx]%lookup_seqZ & Hm) Hmin].
    exists (1 + Z.of_nat m). split_and!; [lia..|done|]. intros j Hj.
    apply (Hmin (Z.to_nat (j - 1)) j); [|lia]. apply lookup_seqZ. lia.
  - rewrite first_index_None in E. rewrite (E (Z.to_nat (k - 1)) k) in Hr; [done|].
    apply lookup_seqZ. lia.
Qed.

Lemma some_ready i : 0 ≤ i < MAX_THREADS →
  (∃ j, is_ready ths j = true) ↔
  (∃ k, 1 ≤ k ≤ Z.of_nat search_fuel ∧ is_ready ths (after i k) = true).
Proof.
  intros Hi. split; [|intros (k & _ & ?); eauto]. intros (j & Hj).
  assert (0 ≤ j < MAX_THREADS) as Hr.
  { unfold is_ready in Hj. destruct (zget ths j) as [t|] eqn:E; [|done]. apply zget_range in E. lia. }
  destruct (after_distance i j Hi Hr) as (k & Hk & ->). exists k. split; [|done].
  unfold search_fuel. lia.
Qed.
End search.

(** ** The switch *)

(** The running thread's control block as [schedule] leaves it: its place is
    saved unless it has exited. *)
Definition park (here : point) t : thread_control_block :=
  let t := if decide (status t = TS_RUNNING) then with_status TS_READY t else t in
  if decide (status t = TS_EXITED) then t else with_regs (Context here) t.

Definition target (b : jmp_buf) : point :=
  match b with Context p => p | Words w => Entry w end.

(** The table with the running thread parked. *)
Definition parked (here : point) s t : list thread_control_block :=
  <[Z.to_nat (current_tid s) := park here t]> (threads s).

(** Thread [n], with control block [u] in the table [ths], runs. *)
Definition switch_to (ths : list thread_control_block) (n : Z) u s : sys :=
  set_pc (set_current (set_threads s (<[Z.to_nat n := with_status TS_RUNNING u]> ths)) n)
    (target (regs u)).

Lemma find_next_ext fuel a b i : (∀ j, status <$> zget a j = status <$> zget b j) →
  find_next fuel a i = find_next fuel b i.
Proof.
  intros Hst. revert i. induction fuel as [|fuel IH]; intros i; [done|]. cbn [find_next].
  unfold aread. specialize (Hst (if i =? MAX_THREADS - 1 then 0 else i + 1)).
  destruct (zget a _) as [t|], (zget b _) as [u|]; try done. injection Hst as Hst.
  rstep. rewrite Hst. by case_decide.
Qed.

Lemma schedule_eq here s t : zget (threads s) (current_tid s) = Some t →
  schedule here s =
    n ← find_next search_fuel (parked here s t) (current_tid s);
    u ← lift (parked here s t).[n];
    Done (switch_to (parked here s t) n u s).
Proof.
  intros Ht. unfold schedule. generalize search_fuel as fuel. intros fuel.
  rewrite (proj2 (aread_Ret _ _ _) Ht). rstep.
  set (t1 := if decide (status t = TS_RUNNING) then with_status TS_READY t else t).
  assert ((match status t with
           | TS_RUNNING => update (current_tid s) (with_status TS_READY) s
           | TS_EXITED | TS_READY | TS_BLOCKED | TS_EMPTY => Done s
           end) = Done (set_threads s (<[Z.to_nat (current_tid s) := t1]> (threads s)))) as ->.
  { subst t1. apply zget_Some in Ht as [Hc Hl]. case_decide as Hd.
    - rewrite Hd. apply update_Done. by apply zget_Some.
    - rewrite list_insert_id by done. by destruct s, (status t). }
  rstep. cbn [threads current_tid set_threads].
  assert (find_next fuel (<[Z.to_nat (current_tid s) := t1]> (threads s)) (current_tid s) =
          find_next fuel (parked here s t) (current_tid s)) as ->.
  { apply find_next_ext. intros j. unfold parked, park. fold t1.
    rewrite !(zget_set _ _ _ _ _ Ht). case_decide; [|done]. by case_decide. }
  destruct (find_next fuel (parked here s t) (current_tid s)) as [n| | |]; try done. rstep.
  assert (zget (<[Z.to_nat (current_tid s) := t1]> (threads s)) (current_tid s) = Some t1) as Ht1
    by (rewrite (zget_set _ _ _ _ _ Ht); by rewrite decide_True).
  rewrite (proj2 (aread_Ret _ _ _) Ht1). rstep.
  assert ((if decide (status t1 = TS_EXITED)
           then Done (set_threads s (<[Z.to_nat (current_tid s) := t1]> (threads s)))
           else update (current_tid s) (with_regs (Context here))
                  (set_threads s (<[Z.to_nat (current_tid s) := t1]> (threads s)))) =
          Done (set_threads s (parked here s t))) as ->.
  { unfold parked, park. fold t1. case_decide; [done|].
    rewrite (update_Done _ _ _ t1) by done. cbn [threads set_threads]. by rewrite list_insert_insert_eq. }
  rstep. destruct (zget (parked here s t) n) as [u|] eqn:Hu.
  - rewrite (proj2 (aread_Ret _ _ _) Hu), (update_Done n _ _ u) by done. rstep. cbn [threads current_tid set_threads set_current].
    assert (zget (<[Z.to_nat n := with_status TS_RUNNING u]> (parked here s t)) n =
            Some (with_status TS_RUNNING u)) as Hu'
      by (rewrite (zget_set _ _ _ _ _ Hu); by rewrite decide_True).
    rewrite (proj2 (aread_Ret _ _ _) Hu'). done.
  - assert ((parked here s t).[n] = UB) as E by (unfold aread; by rewrite Hu).
    unfold update. cbn [threads current_tid set_current set_threads]. by rewrite E.
Qed.

Lemma parked_length here s t : length (parked here s t) = length (threads s).
Proof. unfold parked. by autorewrite with c_arrays. Qed.

(** What a switch does, when one happens. *)
Record switched (here : point) s t s' (k : Z) : Prop := {
  sw_range : 1 ≤ k ≤ MAX_THREADS;
  sw_ready : is_ready (parked here s t) (after (current_tid s) k) = true;
  sw_first : ∀ j, 1 ≤ j < k → is_ready (parked here s t) (after (current_tid s) j) = false;
  sw_state : ∃ u, zget (parked here s t) (after (current_tid s) k) = Some u ∧
    s' = switch_to (parked here s t) (after (current_tid s) k) u s
}.

Lemma schedule_cases here s t : Z.of_nat (length (threads s)) = MAX_THREADS →
  zget (threads s) (current_tid s) = Some t →
  ((∃ j, is_ready (parked here s t) j = true) → ∃ k s', schedule here s = Done s' ∧ switched here s t s' k) ∧
  ((∀ j, is_ready (parked here s t) j = false) →
    schedule here s = OutOfFuel ∧ ∀ fuel, find_next fuel (parked here s t) (current_tid s) = OutOfFuel).
Proof.
  intros Hlen Ht. pose proof (zget_range _ _ _ Ht) as Hc. rewrite Hlen in Hc.
  assert (Z.of_nat (length (parked here s t)) = MAX_THREADS) as Hlp by by rewrite parked_length.
  rewrite (schedule_eq here s t Ht). split.
  - intros Hex. apply (some_ready _ Hlp _ Hc) in Hex.
    destruct (least_ready _ _ _ Hex) as (k & Hk & Hr & Hmin).
    rewrite (find_next_Done _ Hlp search_fuel _ k Hc Hk Hr Hmin). rstep.
    pose proof (after_range (current_tid s) k).
    destruct (aread_lt (parked here s t) (after (current_tid s) k)) as (u & E & _); [lia|].
    rewrite E. rstep. exists k. eexists. split; [done|]. apply aread_Ret in E.
    split; [unfold search_fuel in Hk; lia|done|done|by exists u].
  - intros Hno. assert (∀ fuel, find_next fuel (parked here s t) (current_tid s) = OutOfFuel) as Hl
      by (intros fuel; by apply find_next_loops).
    rewrite Hl. done.
Qed.

Lemma ready_or_not ths : (∃ j, is_ready ths j = true) ∨ (∀ j, is_ready ths j = false).
Proof.
  destruct (first_index (λ x, bool_decide (status x = TS_READY)) ths) as [i|] eqn:E.
  - left. apply first_index_Some in E as [(x & Hi & Hx) _].
    exists (Z.of_nat i). unfold is_ready. by rewrite zget_nat, Hi.
  - right. rewrite first_index_None in E. intros j. unfold is_ready.
    destruct (zget _ j) as [x|] eqn:Ej; [|done]. apply zget_Some in Ej as [_ Ej]. by apply (E _ _ Ej).
Qed.

(** A call of [schedule] that returns to some thread has switched. *)
Lemma schedule_inv here s s' : Z.of_nat (length (threads s)) = MAX_THREADS →
  schedule here s = Done s' →
  ∃ t k, zget (threads s) (current_tid s) = Some t ∧ switched here s t s' k.
Proof.
  intros Hlen Hs. assert (∃ t, zget (threads s) (current_tid s) = Some t) as [t Ht].
  { unfold schedule in Hs. rinv Hs as t E. apply lift_Done_inv, aread_Ret in E. by exists t. }
  exists t. destruct (schedule_cases here s t Hlen Ht) as [Hsome Hnone].
  destruct (ready_or_not (parked here s t)) as [Hex|Hno].
  - destruct (Hsome Hex) as (k & s1 & E & Hsw). rewrite Hs in E. injection E as <-. by exists k.
  - destruct (Hnone Hno) as [E' _]. congruence.
Qed.

(** C12: [schedule] gives the processor to the first ready thread after the
    caller in the circular order of the table (the caller itself last, when it
    can run); that thread runs from where it was saved, the caller is ready if
    it was running and its place is saved unless it has exited; no other
    control block changes.  The search takes one turn of the table at most;
    when no thread is ready it does not end, whatever the number of turns. *)
Theorem schedule_round_robin here s t :
  Z.of_nat (length (threads s)) = MAX_THREADS → zget (threads s) (current_tid s) = Some t →
  (∃ j, is_ready (parked here s t) j = true) ∧
    (∃ k u s', schedule here s = Done s' ∧ 1 ≤ k ≤ MAX_THREADS ∧
      current_tid s' = after (current_tid s) k ∧
      (∀ j, 1 ≤ j < k → is_ready (parked here s t) (after (current_tid s) j) = false) ∧
      zget (parked here s t) (current_tid s') = Some u ∧ status u = TS_READY ∧
      pc s' = target (regs u) ∧
      ∀ j, zget (threads s') j =
        if decide (j = current_tid s') then Some (with_status TS_RUNNING u)
        else if decide (j = current_tid s) then Some (park here t) else zget (threads s) j)
  ∨ (∀ j, is_ready (parked here s t) j = false) ∧ schedule here s = OutOfFuel ∧
    ∀ fuel, find_next fuel (parked here s t) (current_tid s) = OutOfFuel.
Proof.
  intros Hlen Ht. destruct (schedule_cases here s t Hlen Ht) as [Hsome Hnone].
  destruct (ready_or_not (parked here s t)) as [Hex|Hno]; [left|right].
  - split; [done|]. destruct (Hsome Hex) as (k & s' & E & [Hk Hr Hmin (u & Hu & ->)]).
    exists k, u. eexists. split_and!; [done|lia|lia|done|done|done| |done|].
    + unfold is_ready in Hr. rewrite Hu in Hr. by apply bool_decide_eq_true in Hr.
    + intros j. cbn. rewrite (zget_set _ _ _ _ _ Hu). case_decide; [done|].
      unfold parked. by rewrite (zget_set _ _ _ _ _ Ht).
  - by split; [|apply Hnone].
Qed.
