(* ===== verification/ThreadsInv.v ===== *)
(** * The invariant of the threads library

    What holds of every reachable state, and that every step keeps it. *)

From S2P Require Export ThreadsSched.

(** [malloc] returns addresses aligned to 16 bytes. *)
Class MallocAligned `{Malloc} : Prop :=
  malloc_aligned h n p : malloc_at h n = Some p → p mod 16 = 0.

(** ** Mutex queues

    The nodes of a queue, in order, as pairs of an address and a thread. *)
Fixpoint chain (h : gmap Z obj) (p : Z) (ns : list (Z * Z)) : Prop :=
  match ns with
  | [] => p = NULL
  | x :: ns => p = x.1 ∧ ∃ nx, h !! p = Some (ONode (MkNode x.2 nx)) ∧ chain h nx ns
  end.

(** The tail is null while no more than one thread has waited since the queue
    was empty, and the last node afterwards. *)
Definition tail_ok (tail : Z) (ns : list (Z * Z)) : Prop :=
  (tail = NULL ∧ (length ns ≤ 1)%nat) ∨ (∃ x, list.last ns = Some x ∧ tail = x.1).

Record mutex_ok (h : gmap Z obj) (m : my_mutex_t) (ns : list (Z * Z)) : Prop := {
  mx_chain : chain h (blocked_threads_head m) ns;
  mx_tail : tail_ok (blocked_threads_tail m) ns;
  mx_bit : locked m = 0 ∨ locked m = 1;
  mx_free : locked m = 0 → ns = []
}.

(** [q] gives the queue of every mutex; a thread waits in at most one place. *)
Record queues (h : gmap Z obj) (q : Z → list (Z * Z)) : Prop := {
  q_mutex p m : h !! p = Some (OMutex m) → mutex_ok h m (q p);
  q_other p : (∀ m, h !! p ≠ Some (OMutex m)) → q p = [];
  q_once p x p' x' : x ∈ q p → x' ∈ q p' → x.1 = x'.1 ∨ x.2 = x'.2 → p = p' ∧ x = x';
  q_nodup p : NoDup (q p).*1
}.

Definition barrier_ok (b : my_barrier_t) : Prop :=
  init b = 1 ∧ Blocked_one b = NULL ∧ Blocked_two b = NULL.

Record heap_ok (h : gmap Z obj) (q : Z → list (Z * Z)) : Prop := {
  h_null : h !! NULL = None;
  h_queues : queues h q;
  h_barrier p b : h !! p = Some (OBarrier b) → barrier_ok b
}.

(** ** Threads *)

Section inv.
Context `{Image} `{Malloc}.

(** Registers from which a thread starts: the program counter is
    [start_thunk], and the top of the stack holds the address of
    [pthread_exit]. *)
Definition entry_ok (w : list Z) (mm : gmap Z Z) : Prop :=
  length w = 8%nat ∧ get_reg w JBL_PC = Done addr_start_thunk ∧
  ∃ sp, get_reg w JBL_RSP = Done sp ∧ 0 ≤ sp < 2 ^ 64 ∧ sp mod 16 = 8 ∧
    mm !! sp = Some addr_pthread_exit.

(** Places from which a thread can be resumed; the [setjmp] of
    [pthread_create] and the end of [pthread_exit] are never among them. *)
Definition point_ok (mm : gmap Z Z) (p : point) : Prop :=
  match p with
  | Entry w => entry_ok w mm
  | CreateReturn | ExitReturn => False
  | _ => True
  end.

Definition saved_ok (mm : gmap Z Z) (b : jmp_buf) : Prop := point_ok mm (target b).

Definition fresh_slot t : Prop := ∃ w, regs t = Words w ∧ length w = 8%nat.

(** The table once the scheduler is initialised: slots in use up to
    [num_threads], each with its index as identifier, no thread but the current
    one running, every thread that can be resumed saved at a good place. *)
Record table_ok s : Prop := {
  t_num : 1 ≤ num_threads s ≤ MAX_THREADS;
  t_cur : 0 ≤ current_tid s < num_threads s;
  t_slot i t : zget (threads s) i = Some t →
    tid t = i ∧ (stack t = NULL ↔ i = 0 ∨ num_threads s ≤ i) ∧
    (status t = TS_EMPTY ↔ num_threads s ≤ i);
  t_fresh i t : zget (threads s) i = Some t → num_threads s ≤ i → fresh_slot t;
  t_running i t : zget (threads s) i = Some t → i ≠ current_tid s → status t ≠ TS_RUNNING;
  t_saved i t : zget (threads s) i = Some t → i ≠ current_tid s →
    status t = TS_READY ∨ status t = TS_BLOCKED → saved_ok (mem s) (regs t)
}.

(** The table before the first [pthread_create]: the zeroes of the program's
    start, but for the slot of the main thread. *)
Record table_pre s : Prop := {
  p_num : num_threads s = 0;
  p_cur : current_tid s = 0;
  p_timer : timer s = false;
  p_main t : zget (threads s) 0 = Some t → stack t = NULL;
  p_other i t : zget (threads s) i = Some t → i ≠ 0 →
    t = Tcb 0 NULL (Words (replicate 8 0)) TS_EXITED 0
}.

Definition table s : Prop := if is_first_call s then table_pre s else table_ok s.

(** Threads in a queue are blocked. *)
Definition waiting_ok s (q : Z → list (Z * Z)) : Prop :=
  ∀ p x, x ∈ q p → ∃ t, zget (threads s) x.2 = Some t ∧ status t = TS_BLOCKED.

(** The invariant while the running thread is inside [schedule]'s caller: its
    status may be anything. *)
Record winv s (q : Z → list (Z * Z)) : Prop := {
  w_len : Z.of_nat (length (threads s)) = MAX_THREADS;
  w_table : table s;
  w_heap : heap_ok (heap s) q;
  w_wait : waiting_ok s q
}.

(** Between steps: the running thread is running or ready, at a good place. *)
Definition current_ok s : Prop :=
  point_ok (mem s) (pc s) ∧
  ∀ t, zget (threads s) (current_tid s) = Some t →
    status t = TS_RUNNING ∨ status t = TS_READY ∨ (is_first_call s = true ∧ status t = TS_EXITED).

Definition inv_q s q : Prop := winv s q ∧ current_ok s.
Definition inv s : Prop := ∃ q, inv_q s q.
End inv.
