(* ===== verification/ThreadsQueue.v ===== *)
(** * The linked queues of the mutexes in the heap *)

From S2P Require Export ThreadsInv.

(** ** Chains *)

Lemma chain_node h ns : ∀ p x, chain h p ns → x ∈ ns →
  ∃ nx, h !! x.1 = Some (ONode (MkNode x.2 nx)).
Proof.
  induction ns as [|y ns IH]; intros p x Hc Hx; [by apply elem_of_nil in Hx|].
  destruct Hc as (-> & nx & Hy & Hc). apply elem_of_cons in Hx as [->|Hx]; [by exists nx|].
  by eapply IH.
Qed.

Lemma chain_head_null h p ns : h !! NULL = None → chain h p ns → p = NULL ↔ ns = [].
Proof.
  intros Hn. destruct ns as [|x ns]; cbn [chain]; [done|].
  intros (-> & nx & Hx & _). split; [intros E; rewrite E in Hx; congruence|done].
Qed.

(** A chain depends on its own nodes only. *)
Lemma chain_agree h h' ns : ∀ p, (∀ x, x ∈ ns → h' !! x.1 = h !! x.1) →
  chain h p ns → chain h' p ns.
Proof.
  induction ns as [|y ns IH]; intros p Hag; [done|]. intros (-> & nx & Hy & Hc).
  split; [done|]. exists nx. split; [rewrite Hag by left; done|].
  apply IH; [|done]. intros x Hx. apply Hag. by right.
Qed.

(** Linking a new node behind the last one. *)
Lemma chain_link h ns x n t : ∀ p,
  NoDup (ns ++ [x]).*1 → n ∉ (ns ++ [x]).*1 →
  chain h p (ns ++ [x]) → h !! n = Some (ONode (MkNode t NULL)) →
  chain (<[x.1 := ONode (MkNode x.2 n)]> h) p (ns ++ [x; (n, t)]).
Proof.
  induction ns as [|y ns IH]; intros p Hnd Hn; cbn [app chain fmap list_fmap] in *.
  - intros (-> & nx & Hx & _) Hnew. split; [done|]. exists n. split; [by rewrite lookup_insert_eq|].
    split; [done|]. exists NULL. split; [|done]. cbn [fst snd].
    rewrite lookup_insert_ne; [done|]. intros E. apply Hn. rewrite E. left.
  - intros (-> & nx & Hy & Hc) Hnew. apply list.NoDup_cons in Hnd as [Hy' Hnd].
    split; [done|]. exists nx. split.
    + rewrite lookup_insert_ne; [done|]. intros E. apply Hy'. rewrite <- E, fmap_app.
      apply elem_of_app. right. left.
    + apply IH; try done. intros Hin. apply Hn. by right.
Qed.

Lemma chain_last h ns x : ∀ p, chain h p (ns ++ [x]) → h !! x.1 = Some (ONode (MkNode x.2 NULL)).
Proof.
  induction ns as [|y ns IH]; intros p; cbn [app chain].
  - by intros (-> & nx & Hx & ->).
  - intros (-> & nx & _ & Hc). by eapply IH.
Qed.

(** ** The heap with its queues *)

Definition upd {A} (q : Z → A) (p : Z) (a : A) : Z → A := λ p', if decide (p' = p) then a else q p'.

Lemma upd_eq {A} (q : Z → A) p a : upd q p a p = a.
Proof. unfold upd. by rewrite decide_True. Qed.
Lemma upd_ne {A} (q : Z → A) p a p' : p' ≠ p → upd q p a p' = q p'.
Proof. intros. unfold upd. by rewrite decide_False. Qed.

Section heaps.
Context (h : gmap Z obj) (q : Z → list (Z * Z)) (Hh : heap_ok h q).

Lemma queue_node p x : x ∈ q p → ∃ nx, h !! x.1 = Some (ONode (MkNode x.2 nx)).
Proof.
  intros Hx. destruct Hh as [_ [Hm Hother _ _] _].
  assert (∃ m, h !! p = Some (OMutex m)) as [m Hp].
  { destruct (h !! p) as [[| | |m|]|] eqn:E; try (by exists m);
      rewrite Hother in Hx by congruence; by apply elem_of_nil in Hx. }
  destruct (Hm p m Hp) as [Hc _ _ _]. by eapply chain_node.
Qed.

(** Two heaps that agree on the nodes in use give the same chains. *)
Lemma mutex_agree h' p m : mutex_ok h m (q p) → (∀ x, x ∈ q p → h' !! x.1 = h !! x.1) →
  mutex_ok h' m (q p).
Proof. intros [Hc Ht Hb Hf] Hag. split; try done. by eapply chain_agree. Qed.

(** A new block that is not a node in use. *)
Lemma heap_ok_fresh p o : h !! p = None → p ≠ NULL →
  (∀ m, o = OMutex m → m = Mutex 0 NULL NULL) → (∀ b, o = OBarrier b → barrier_ok b) →
  heap_ok (<[p := o]> h) q.
Proof.
  intros Hp Hnull Hmx Hbar. pose proof Hh as [Hn [Hm Hother Honce Hnd] Hb]. split.
  - by rewrite lookup_insert_ne.
  - assert (∀ p' x, x ∈ q p' → <[p := o]> h !! x.1 = h !! x.1) as Hag.
    { intros p' x Hx. destruct (queue_node p' x Hx) as [nx Hnx].
      apply lookup_insert_ne. congruence. }
    split; try done.
    + intros p' m. rewrite lookup_insert. case_decide as E.
      * subst p'. intros [= ->]. rewrite (Hmx m eq_refl).
        assert (q p = []) as -> by (apply Hother; by rewrite Hp).
        split; [done|left; split; [done|cbn; lia]|by left|done].
      * intros Hp'. apply mutex_agree; [by apply Hm|intros x; apply Hag].
    + intros p' Hno. apply Hother. intros m Hm'. apply (Hno m).
      rewrite lookup_insert_ne; [done|congruence].
  - intros p' b. rewrite lookup_insert. case_decide; [|by apply Hb]. intros [= ->]. by apply Hbar.
Qed.

(** A block that is freed, with no thread waiting on it and not a node. *)
Lemma heap_ok_delete p o : h !! p = Some o → (∀ n, o ≠ ONode n) → q p = [] →
  heap_ok (delete p h) q.
Proof.
  intros Hp Hno Hq. pose proof Hh as [Hn [Hm Hother Honce Hnd] Hb]. split.
  - rewrite lookup_delete. by case_decide.
  - assert (∀ p' x, x ∈ q p' → delete p h !! x.1 = h !! x.1) as Hag.
    { intros p' x Hx. destruct (queue_node p' x Hx) as [nx Hnx].
      apply lookup_delete_ne. intros ->. rewrite Hp in Hnx. injection Hnx as ->. by eapply Hno. }
    split; try done.
    + intros p' m. rewrite lookup_delete. case_decide; [done|]. intros Hp'.
      apply mutex_agree; [by apply Hm|intros x; apply Hag].
    + intros p' Hno'. destruct (decide (p' = p)) as [->|]; [done|]. apply Hother.
      intros m Hm'. apply (Hno' m). by rewrite lookup_delete_ne.
  - intros p' b. rewrite lookup_delete. case_decide; [done|]. apply Hb.
Qed.

Lemma heap_ok_barrier p b b' : h !! p = Some (OBarrier b) → barrier_ok b' →
  heap_ok (<[p := OBarrier b']> h) q.
Proof.
  intros Hp Hb'. pose proof Hh as [Hn [Hm Hother Honce Hnd] Hb].
  assert (∀ p' x, x ∈ q p' → <[p := OBarrier b']> h !! x.1 = h !! x.1) as Hag.
  { intros p' x Hx. destruct (queue_node p' x Hx) as [nx Hnx].
    apply lookup_insert_ne. congruence. }
  split.
  - rewrite lookup_insert_ne; [done|congruence].
  - split; try done.
    + intros p' m. rewrite lookup_insert. case_decide; [done|]. intros Hp'.
      apply mutex_agree; [by apply Hm|intros x; apply Hag].
    + intros p' Hno. apply Hother. intros m Hm'. apply (Hno m). rewrite lookup_insert_ne; congruence.
  - intros p' b''. rewrite lookup_insert. case_decide; [by intros [= <-]|apply Hb].
Qed.

(** A change to one mutex and to the nodes of its queue. *)
Lemma heap_ok_mutex h' p m m' ns' :
  h !! p = Some (OMutex m) → h' !! p = Some (OMutex m') →
  (∀ a, a ≠ p → a ∉ (q p).*1 → h' !! a = h !! a) →
  (∀ x, x ∈ q p → h' !! x.1 = None ∨ ∃ n, h' !! x.1 = Some (ONode n)) →
  mutex_ok h' m' ns' → NoDup ns'.*1 →
  (∀ x p' x', x ∈ ns' → x' ∈ q p' → p' ≠ p → x.1 ≠ x'.1 ∧ x.2 ≠ x'.2) →
  (∀ x x', x ∈ ns' → x' ∈ ns' → x.1 = x'.1 ∨ x.2 = x'.2 → x = x') →
  heap_ok h' (upd q p ns').
Proof.
  intros Hp Hp' Hag Hnode Hok Hnd' Hsep Hinj. pose proof Hh as [Hn [Hm Hother Honce Hnd] Hb].
  assert (∀ a o, h' !! a = Some o → (∀ n, o ≠ ONode n) → a ≠ p → h !! a = Some o) as Hback.
  { intros a o Ha Hno Hne. destruct (decide (a ∈ (q p).*1)) as [(x & -> & Hx)%list_elem_of_fmap|Hni].
    - destruct (Hnode x Hx) as [E|[n E]]; rewrite E in Ha; [done|]. injection Ha as <-.
      exfalso. by eapply Hno.
    - by rewrite <- Hag. }
  split.
  - rewrite Hag; [done|congruence|]. intros (x & E & Hx)%list_elem_of_fmap.
    destruct (queue_node p x Hx) as [nx Hnx]. congruence.
  - split.
    + intros a ma Ha. unfold upd. case_decide as E; [subst a; congruence|].
      assert (h !! a = Some (OMutex ma)) as Ha' by (by apply Hback).
      apply mutex_agree; [by apply Hm|]. intros x Hx. apply Hag.
      * destruct (queue_node a x Hx) as [nx Hnx]. congruence.
      * intros (y & Ey & Hy)%list_elem_of_fmap. destruct (Honce a x p y Hx Hy) as [? _]; [by left|done].
    + intros a Ha. unfold upd. case_decide as E; [subst a; by destruct (Ha m')|].
      apply Hother. intros ma Ha'. apply (Ha ma). rewrite Hag; [done..|].
      intros (x & -> & Hx)%list_elem_of_fmap. destruct (queue_node p x Hx) as [nx Hnx]. congruence.
    + intros a x a' x'. unfold upd. case_decide as E1; case_decide as E2; intros Hx Hx' Hor.
      * subst. split; [done|by apply Hinj].
      * destruct (Hsep x a' x' Hx Hx' E2). by destruct Hor.
      * destruct (Hsep x' a x Hx' Hx E1). by destruct Hor as [Hor|Hor]; symmetry in Hor.
      * by apply Honce.
    + intros a. unfold upd. by case_decide.
  - intros a b Ha. apply (Hb a). apply Hback; [done|done|congruence].
Qed.
End heaps.

(** ** Blocking on a mutex and waking the first thread *)

(** The two heaps have the same mutexes but for the one at [p]. *)
Definition same_mutexes (h h' : gmap Z obj) (p : Z) : Prop :=
  ∀ a m, a ≠ p → h' !! a = Some (OMutex m) ↔ h !! a = Some (OMutex m).

Lemma snoc_cases {A} (l : list A) : l = [] ∨ ∃ l' x, l = l' ++ [x].
Proof. destruct l as [|x l] using rev_ind; [by left|right; eauto]. Qed.

Section append.
Context (h : gmap Z obj) (q : Z → list (Z * Z)) (Hh : heap_ok h q).
Context (p n t : Z) (m : my_mutex_t).
Context (Hp : h !! p = Some (OMutex m)) (Hlocked : locked m = 1).
Context (Hn : h !! n = Some (ONode (MkNode t NULL))).
Context (Hfresh : ∀ a, n ∉ (q a).*1) (Hout : ∀ a, t ∉ (q a).*2).

Lemma append_once x p' x' : x ∈ q p ++ [(n, t)] → x' ∈ q p' → p' ≠ p → x.1 ≠ x'.1 ∧ x.2 ≠ x'.2.
Proof.
  intros [Hx| ->%list_elem_of_singleton]%elem_of_app Hx' Hne; cbn [fst snd].
  - destruct Hh as [_ [_ _ Honce _] _]. split; intros E;
      [destruct (Honce p x p' x' Hx Hx'); [by left|congruence]
      |destruct (Honce p x p' x' Hx Hx'); [by right|congruence]].
  - split; intros ->; [apply (Hfresh p')|apply (Hout p')]; by apply list_elem_of_fmap_2.
Qed.

Lemma append_inj x x' : x ∈ q p ++ [(n, t)] → x' ∈ q p ++ [(n, t)] → x.1 = x'.1 ∨ x.2 = x'.2 → x = x'.
Proof.
  intros [Hx| ->%list_elem_of_singleton]%elem_of_app [Hx'| ->%list_elem_of_singleton]%elem_of_app Hor;
    cbn [fst snd] in *.
  - destruct Hh as [_ [_ _ Honce _] _]. by apply (Honce p x p x').
  - exfalso. destruct Hor as [<-|<-]; [apply (Hfresh p)|apply (Hout p)]; by apply list_elem_of_fmap_2.
  - exfalso. destruct Hor as [->| ->]; [apply (Hfresh p)|apply (Hout p)]; by apply list_elem_of_fmap_2.
  - done.
Qed.

Lemma append_nodup : NoDup (q p ++ [(n, t)]).*1.
Proof.
  rewrite fmap_app. apply list.NoDup_app. destruct Hh as [_ [_ _ _ Hnd] _]. split_and!; [done| |].
  - intros x Hx ->%list_elem_of_singleton. by apply (Hfresh p).
  - apply list.NoDup_singleton.
Qed.

(** The heap after the writes of [append_node]. *)
Lemma append_heap h' hd :
  h' !! p = Some (OMutex (Mutex 1 hd (if decide (q p = []) then blocked_threads_tail m else n))) →
  (q p = [] → hd = n ∧ ∀ a, a ≠ p → h' !! a = h !! a) →
  (∀ ns x, q p = ns ++ [x] → hd = blocked_threads_head m ∧
     h' !! x.1 = Some (ONode (MkNode x.2 n)) ∧ ∀ a, a ≠ p → a ≠ x.1 → h' !! a = h !! a) →
  heap_ok h' (upd q p (q p ++ [(n, t)])) ∧ same_mutexes h h' p.
Proof.
  intros Hp' Hnil Hsnoc. pose proof Hh as [Hnull [Hm Hother Honce Hnd] Hb].
  pose proof (Hm p m Hp) as [Hc Ht _ _]. destruct (snoc_cases (q p)) as [Hq|(ns & x & Hq)].
  - destruct (Hnil Hq) as [-> Hag]. rewrite decide_True in Hp' by done. split.
    + eapply heap_ok_mutex; try done.
      * intros a Ha _. by apply Hag.
      * rewrite Hq. by intros x ?%elem_of_nil.
      * rewrite Hq. split; cbn [locked blocked_threads_head blocked_threads_tail]; [|left|by right|done].
        -- split; [done|]. exists NULL. split; [|done]. cbn [fst snd].
           rewrite Hag; [done|]. intros ->. congruence.
        -- destruct Ht as [[Ht _]|(x & Hx & _)]; [split; [done|cbn; lia]|by rewrite Hq in Hx].
      * apply append_nodup.
      * apply append_once.
      * apply append_inj.
    + intros a ma Ha. by rewrite Hag.
  - destruct (Hsnoc ns x Hq) as (-> & Hx' & Hag).
    rewrite decide_False in Hp' by (rewrite Hq; by destruct ns).
    assert (x ∈ q p) as Hx by (rewrite Hq; apply elem_of_app; right; left).
    destruct (queue_node h q Hh p x Hx) as [nx Hnx]. split.
    + eapply heap_ok_mutex; try done.
      * intros a Ha Hni. apply Hag; [done|]. intros ->. apply Hni. by apply list_elem_of_fmap_2.
      * intros y Hy. right. destruct (decide (y.1 = x.1)) as [->|Hne]; [by eexists|].
        destruct (queue_node h q Hh p y Hy) as [ny Hny]. rewrite Hag; [by eexists|congruence|done].
      * split; cbn [locked blocked_threads_head blocked_threads_tail]; [|right|by right|done].
        -- rewrite Hq, <- app_assoc. cbn [app].
           apply (chain_agree (<[x.1 := ONode (MkNode x.2 n)]> h)).
           { intros y Hy. rewrite lookup_insert. case_decide as E; [congruence|].
             apply Hag; [|done]. intros Ey. rewrite Ey in *.
             apply elem_of_app in Hy as [Hy|Hy].
             - destruct (queue_node h q Hh p y) as [ny Hny];
                 [rewrite Hq; apply elem_of_app; by left|]. congruence.
             - apply elem_of_cons in Hy as [->| ->%list_elem_of_singleton]; [done|].
               cbn [fst] in Ey. congruence. }
           rewrite Hq in Hc. apply chain_link; [| |done|done].
           ++ rewrite <- Hq. apply Hnd.
           ++ rewrite <- Hq. apply Hfresh.
        -- exists (n, t). split; [by rewrite last_snoc|done].
      * apply append_nodup.
      * apply append_once.
      * apply append_inj.
    + intros a ma Ha. destruct (decide (a = x.1)) as [->|Hne]; [|by rewrite Hag].
      rewrite Hx', Hnx. done.
Qed.
End append.

Lemma set_heap_set_heap s h h' : set_heap (set_heap s h) h' = set_heap s h'.
Proof. done. Qed.

Lemma set_heap_id s : set_heap s (heap s) = s.
Proof. by destruct s. Qed.

Section nodes.
Context `{Malloc} {MS : MallocSpec}.

Lemma waste_ok s q : heap_ok (heap s) q →
  ∃ h', waste s = set_heap s h' ∧ heap_ok h' q ∧
    (∀ a o, heap s !! a = Some o → h' !! a = Some o) ∧ ∀ p, same_mutexes (heap s) h' p.
Proof.
  intros Hh. unfold waste. destruct (malloc_at (heap s) sizeof_Node) as [p|] eqn:E.
  - destruct (malloc_fresh _ _ _ E) as (Hf & Hpos & _). exists (<[p := ORaw]> (heap s)). split; [done|]. split_and!.
    + apply heap_ok_fresh; [done|done|unfold NULL; lia|done|done].
    + intros a o Ha. rewrite lookup_insert_ne; [done|congruence].
    + intros p' a m _. rewrite lookup_insert. case_decide; [|done]. subst. by rewrite Hf.
  - exists (heap s). split_and!; [by rewrite set_heap_id|done..].
Qed.

(** [append_node] puts the thread at the end of the queue. *)
Lemma append_node_ok p n t m s q : heap_ok (heap s) q →
  heap s !! p = Some (OMutex m) → locked m = 1 → heap s !! n = Some (ONode (MkNode t NULL)) →
  (∀ a, n ∉ (q a).*1) → (∀ a, t ∉ (q a).*2) →
  ∃ h', append_node p n m s = Done (set_heap s h') ∧
    heap_ok h' (upd q p (q p ++ [(n, t)])) ∧ same_mutexes (heap s) h' p ∧
    ∃ m', h' !! p = Some (OMutex m') ∧ locked m' = 1.
Proof.
  intros Hh Hp Hl Hn Hfresh Hout. pose proof Hh as [Hnull [Hm _ _ _] _].
  pose proof (Hm p m Hp) as [Hc Ht _ _]. pose proof (chain_head_null _ _ _ Hnull Hc) as Hhd.
  assert (p ≠ n) as Hpn by congruence. unfold append_node. rewrite Hl.
  destruct (Z.eqb_spec (blocked_threads_head m) NULL) as [Enil|Econs].
  { eexists. split; [done|]. pose proof (proj1 Hhd Enil) as Hq. cbn.
    apply and_assoc. split; [|rewrite lookup_insert_eq; by eexists].
    eapply append_heap; try done.
    - rewrite decide_True by done. by rewrite lookup_insert_eq.
    - intros _. split; [done|]. intros a Ha. by rewrite lookup_insert_ne.
    - intros ns x E. rewrite Hq in E. by destruct ns. }
  assert (q p ≠ []) as Hne by (intros E; apply Econs, Hhd, E).
  destruct (snoc_cases (q p)) as [?|(ns & x & Hq)]; [done|].
  assert (x ∈ q p) as Hx by (rewrite Hq; apply elem_of_app; right; left).
  rewrite Hq in Hc. pose proof (chain_last _ _ _ _ Hc) as Hlast.
  assert (p ≠ x.1) as Hpx by congruence.
  destruct (Z.eqb_spec (blocked_threads_tail m) NULL) as [Etail|Etail].
  - assert (blocked_threads_head m = x.1) as Ehd.
    { destruct Ht as [[_ Hlen]|(y & Hy & Ey)].
      - destruct ns as [|y ns]; [by destruct Hc|].
        rewrite Hq in Hlen. cbn in Hlen. rewrite length_app in Hlen. cbn in Hlen. lia.
      - rewrite Hq, last_snoc in Hy. injection Hy as <-.
        exfalso. rewrite <- Ey, Etail in Hlast. congruence. }
    unfold get_node. rewrite Ehd, Hlast. rstep. eexists. split; [done|]. cbn.
    apply and_assoc. split; [|rewrite lookup_insert_eq; by eexists].
    eapply (append_heap (heap s)) with (hd := x.1); try done.
    + rewrite decide_False by done. by rewrite lookup_insert_eq.
    + intros ns' x' E. rewrite Hq in E. apply app_inj_tail in E as [_ <-].
      split_and!; [done| |].
      * by rewrite lookup_insert_ne, lookup_insert_eq.
      * intros a Ha1 Ha2. by rewrite !lookup_insert_ne.
  - assert (blocked_threads_tail m = x.1) as Etl.
    { destruct Ht as [[? _]|(y & Hy & ->)]; [done|].
      rewrite Hq, last_snoc in Hy. by injection Hy as <-. }
    destruct (waste_ok s q Hh) as (h1 & -> & Hh1 & Hkeep & Hsame).
    unfold get_node. cbn [heap set_obj set_heap]. rewrite Etl, lookup_insert_ne by done.
    rewrite (Hkeep _ _ Hlast). rstep. eexists. split; [done|]. cbn.
    pose proof (Hkeep _ _ Hp) as Hp1. pose proof (Hkeep _ _ Hn) as Hn1.
    assert (heap_ok (<[x.1:=ONode (MkNode x.2 n)]>
        (<[p:=OMutex (Mutex 1 (blocked_threads_head m) n)]> h1)) (upd q p (q p ++ [(n, t)])) ∧
      same_mutexes h1 (<[x.1:=ONode (MkNode x.2 n)]>
        (<[p:=OMutex (Mutex 1 (blocked_threads_head m) n)]> h1)) p) as [H1 H2].
    { eapply (append_heap h1) with (hd := blocked_threads_head m); try done.
      - rewrite decide_False by done. by rewrite lookup_insert_ne, lookup_insert_eq.
      - intros ns' x' E. rewrite Hq in E. apply app_inj_tail in E as [_ <-].
        split_and!; [done| |].
        + by rewrite lookup_insert_eq.
        + intros a Ha1 Ha2. by rewrite !lookup_insert_ne. }
    split_and!; [done| |].
    + intros a ma Ha. rewrite (H2 a ma Ha). by apply (Hsame p).
    + rewrite lookup_insert_ne, lookup_insert_eq by done. by eexists.
Qed.

(** Waking the first thread of the queue. *)
Lemma pop_ok p m x ns h q : heap_ok h q → h !! p = Some (OMutex m) → q p = x :: ns →
  ∃ nx, h !! blocked_threads_head m = Some (ONode (MkNode x.2 nx)) ∧
    (nx = NULL ↔ ns = []) ∧ blocked_threads_head m ≠ NULL ∧ locked m = 1 ∧
    let h' := <[p := OMutex (Mutex (if nx =? NULL then 0 else locked m) nx
                  (if nx =? NULL then NULL else blocked_threads_tail m))]>
                (delete (blocked_threads_head m) h) in
    heap_ok h' (upd q p ns) ∧ same_mutexes h h' p.
Proof.
  intros Hh Hp Hq. pose proof Hh as [Hnull [Hm Hother Honce Hnd] Hb].
  pose proof (Hm p m Hp) as [Hc Ht Hbit Hfree]. rewrite Hq in Hc.
  destruct Hc as (Ehd & nx & Hx & Hc). exists nx. pose proof (chain_head_null _ _ _ Hnull Hc) as Hnx.
  assert (blocked_threads_head m ≠ NULL) as Hne by congruence.
  assert (locked m = 1) as Hl1 by (destruct Hbit as [E|E]; [by rewrite Hfree in Hq|done]).
  assert (∀ y, y ∈ ns → y ∈ q p) as Hsub by (intros y Hy; rewrite Hq; by right).
  pose proof (Hnd p) as Hnd'. rewrite Hq in Hnd'. apply list.NoDup_cons in Hnd' as [Hxns Hnd'].
  split; [exact Hx|]. split; [exact Hnx|]. split; [done|]. split; [done|]. cbn zeta. split.
  - eapply heap_ok_mutex; try done.
    + by rewrite lookup_insert_eq.
    + intros a Ha Hni. rewrite lookup_insert_ne, lookup_delete_ne; [done| |done].
      intros E. apply Hni. rewrite <- E, Hq, Ehd. left.
    + intros y Hy. destruct (queue_node h q Hh p y Hy) as [ny Hny].
      rewrite lookup_insert_ne by congruence. rewrite lookup_delete. case_decide; [by left|right].
      by eexists.
    + assert (chain (<[p := OMutex (Mutex (if nx =? NULL then 0 else locked m) nx
        (if nx =? NULL then NULL else blocked_threads_tail m))]> (delete (blocked_threads_head m) h)) nx ns) as Hc'.
      { eapply chain_agree; [|exact Hc]. intros y Hy.
        destruct (queue_node h q Hh p y (Hsub y Hy)) as [ny Hny].
        rewrite lookup_insert_ne by congruence. apply lookup_delete_ne. rewrite Ehd.
        intros E. apply Hxns. cbn [fst]. rewrite E. by apply list_elem_of_fmap_2. }
      split; cbn [locked blocked_threads_head blocked_threads_tail]; [done| | |].
      * destruct (Z.eqb_spec nx NULL) as [E|E]; [left; split; [done|]; rewrite (proj1 Hnx E); cbn; lia|].
        right. assert (ns ≠ []) as Hns by (intros ->; by apply E, Hnx).
        destruct Ht as [[_ Hlen]|(y & Hy & Ey)].
        -- rewrite Hq in Hlen. destruct ns; [done|cbn in Hlen; lia].
        -- exists y. split; [|done]. rewrite Hq in Hy. by destruct ns.
      * destruct (Z.eqb_spec nx NULL); [by left|by right].
      * destruct (Z.eqb_spec nx NULL) as [E|E]; [intros _; by apply Hnx|lia].
    + intros y p' x' Hy Hx' Hne'. split; intros E.
      * destruct (Honce p y p' x' (Hsub y Hy) Hx'); [by left|congruence].
      * destruct (Honce p y p' x' (Hsub y Hy) Hx'); [by right|congruence].
    + intros y y' Hy Hy' Hor. by apply (Honce p y p y' (Hsub y Hy) (Hsub y' Hy')).
  - intros a ma Ha. rewrite lookup_insert_ne by done. rewrite lookup_delete. case_decide as E; [|done].
    subst a. by rewrite Hx.
Qed.
End nodes.
