(* ===== verification/ThreadsStep.v ===== *)
(** * Every step keeps the invariant *)

From S2P Require Export ThreadsQueue.

Create HintDb threads.

Section step.
Context `{Image} {IS : ImageSpec} `{Malloc} {MS : MallocSpec} {MA : MallocAligned}.

(** ** Changes to parts of the state *)

Lemma winv_same s s' q :
  threads s' = threads s → current_tid s' = current_tid s → num_threads s' = num_threads s →
  is_first_call s' = is_first_call s → (is_first_call s = true → timer s' = false) →
  heap s' = heap s → mem s' = mem s → winv s q → winv s' q.
Proof.
  intros Et Ec En Ef Eti Eh Em [Hl Ht Hh Hw]. split.
  - by rewrite Et.
  - unfold table in *. rewrite Ef. destruct (is_first_call s).
    + destruct Ht. split; rewrite ?Et, ?Ec, ?En; try done. by apply Eti.
    + destruct Ht. split; rewrite ?Et, ?Ec, ?En, ?Em; done.
  - by rewrite Eh.
  - intros p x Hx. rewrite Et. by apply (Hw p).
Qed.

Lemma winv_pc s q p : winv s q → winv (set_pc s p) q.
Proof. intros Hw. eapply winv_same; [..|exact Hw]; try done. intros E. destruct Hw as [_ Ht _ _].
  unfold table in Ht. rewrite E in Ht. by destruct Ht. Qed.

Lemma winv_masked s q b : winv s q → winv (set_masked s b) q.
Proof. intros Hw. eapply winv_same; [..|exact Hw]; try done. intros E. destruct Hw as [_ Ht _ _].
  unfold table in Ht. rewrite E in Ht. by destruct Ht. Qed.

Lemma winv_heap s q h q' : winv s q → heap_ok h q' → waiting_ok s q' → winv (set_heap s h) q'.
Proof.
  intros [Hl Ht _ _] Hh Hw. split; [done| |done|done].
  unfold table in *. cbn [is_first_call set_heap]. destruct (is_first_call s); by destruct Ht.
Qed.

(** The words on the stacks of the threads that have not started. *)
Lemma winv_mem s q mm : winv s q →
  (∀ sp, sp mod 16 = 8 → mem s !! sp = Some addr_pthread_exit → mm !! sp = Some addr_pthread_exit) →
  winv (set_mem s mm) q.
Proof.
  intros [Hl Ht Hh Hw] Hmm. split; [done| |done|done].
  unfold table in *. cbn [is_first_call set_mem]. destruct (is_first_call s); [by destruct Ht|].
  destruct Ht as [Hnum Hcur Hslot Hfresh Hrun Hsaved]. split; try done. cbn [threads current_tid mem set_mem]. intros i t Hi Hne Hst.
  specialize (Hsaved i t Hi Hne Hst). unfold saved_ok, point_ok in *.
  destruct (target (regs t)); try done. destruct Hsaved as (? & ? & sp & ? & ? & ? & ?).
  split; [done|]. split; [done|]. exists sp. split_and!; try done; [lia|lia|by apply Hmm].
Qed.

Lemma winv_set s q i t t' : winv s q → zget (threads s) i = Some t →
  tid t' = tid t → stack t' = stack t → (status t' = TS_EMPTY ↔ status t = TS_EMPTY) →
  (fresh_slot t → num_threads s ≤ i → fresh_slot t') →
  (i ≠ current_tid s → status t' ≠ TS_RUNNING ∧
     (status t' = TS_READY ∨ status t' = TS_BLOCKED → saved_ok (mem s) (regs t'))) →
  (∀ p x, x ∈ q p → x.2 = i → status t' = TS_BLOCKED) →
  (is_first_call s = true → i = 0) →
  winv (set_threads s (<[Z.to_nat i := t']> (threads s))) q.
Proof.
  intros [Hl Ht Hh Hw] Hi Etid Estk Est Hfr Hoth Hq Hpre. split; cbn [threads heap set_threads].
  - by rewrite length_insert.
  - unfold table in *. cbn [is_first_call set_threads]. destruct (is_first_call s).
    + destruct Ht as [Hnum Hcur Htimer Hmain Hother]. split; cbn [threads num_threads current_tid timer set_threads]; try done.
      * intros u. rewrite (zget_set _ _ _ _ _ Hi). case_decide as E; [intros [= <-]|by apply Hmain].
        rewrite Estk. apply Hmain. by rewrite E.
      * intros j u. rewrite (zget_set _ _ _ _ _ Hi). rewrite Hpre by done.
        case_decide; [done|by apply Hother].
    + destruct Ht as [Hnum Hcur Hslot Hfresh Hrun Hsaved]. split; cbn [threads num_threads current_tid mem set_threads]; try done;
        intros j u; rewrite (zget_set _ _ _ _ _ Hi); (case_decide as E; [intros [= <-]; subst j|by eauto]).
      * rewrite Etid, Estk, Est. by apply Hslot.
      * intros Hn. apply Hfr; [by eapply Hfresh|done].
      * intros Hne. by apply Hoth.
      * intros Hne. by apply Hoth.
  - done.
  - intros p x Hx. cbn [threads set_threads]. rewrite (zget_set _ _ _ _ _ Hi). case_decide as E; [|by apply (Hw p)].
    exists t'. split; [done|]. by apply (Hq p x).
Qed.

(** ** The running thread *)

Lemma current_slot s q : winv s q → ∃ t, zget (threads s) (current_tid s) = Some t.
Proof.
  intros [Hl Ht _ _]. apply zget_is_Some. rewrite Hl. unfold table in Ht.
  destruct (is_first_call s); destruct Ht; unfold MAX_THREADS in *; lia.
Qed.

Lemma current_not_empty s q t : winv s q → is_first_call s = false →
  zget (threads s) (current_tid s) = Some t → status t ≠ TS_EMPTY.
Proof.
  intros [_ Ht _ _] Ef Hc E. unfold table in Ht. rewrite Ef in Ht. destruct Ht as [Hnum Hcur Hslot Hfresh Hrun Hsaved].
  destruct (Hslot _ _ Hc) as (_ & _ & He). apply He in E. lia.
Qed.

Lemma current_first s q : winv s q → is_first_call s = true → current_tid s = 0.
Proof. intros [_ Ht _ _] Ef. unfold table in Ht. rewrite Ef in Ht. by destruct Ht. Qed.

(** A running thread waits for nothing. *)
Lemma current_free s q : inv_q s q → ∀ p x, x ∈ q p → x.2 ≠ current_tid s.
Proof.
  intros [Hw [_ Hst]] p x Hx E. destruct (w_wait _ _ Hw p x Hx) as (t & Ht & Hb).
  rewrite E in Ht. destruct (Hst t Ht) as [?|[?|[_ ?]]]; congruence.
Qed.

(** An assignment to the status of the running thread. *)
Lemma winv_status s q st t : inv_q s q → zget (threads s) (current_tid s) = Some t → st ≠ TS_EMPTY →
  winv (set_threads s (<[Z.to_nat (current_tid s) := with_status st t]> (threads s))) q.
Proof.
  intros Hi Ht Hst. pose proof Hi as [Hw [_ Hcur]]. eapply winv_set; try done.
  - cbn [status with_status]. destruct (Hcur t Ht) as [E|[E|[_ E]]]; rewrite E; done.
  - intros p x Hx E. by destruct (current_free s q Hi p x Hx).
  - intros ?. by apply (current_first s q).
Qed.

Lemma ret_inv r s q : winv s q →
  (∀ t, zget (threads s) (current_tid s) = Some t →
    status t = TS_RUNNING ∨ status t = TS_READY ∨ (is_first_call s = true ∧ status t = TS_EXITED)) →
  ∀ o s', ret r s = Done (o, s') → inv_q s' q.
Proof. intros Hw Hst o s' [= <- <-]. split; [by apply winv_pc|]. by split. Qed.

Lemma goto_inv p s q : winv s q → point_ok (mem s) p →
  (∀ t, zget (threads s) (current_tid s) = Some t →
    status t = TS_RUNNING ∨ status t = TS_READY ∨ (is_first_call s = true ∧ status t = TS_EXITED)) →
  ∀ o s', goto p s = Done (o, s') → inv_q s' q.
Proof. intros Hw Hp Hst o s' [= <- <-]. split; [by apply winv_pc|]. by split. Qed.

(** ** A switch *)

Lemma park_tid here t : tid (park here t) = tid t.
Proof. unfold park. by repeat case_decide. Qed.
Lemma park_stack here t : stack (park here t) = stack t.
Proof. unfold park. by repeat case_decide. Qed.
Lemma park_status here t :
  status (park here t) = if decide (status t = TS_RUNNING) then TS_READY else status t.
Proof. unfold park. by repeat case_decide. Qed.
Lemma park_regs here t : status t ≠ TS_EXITED → regs (park here t) = Context here.
Proof. intros E. unfold park. repeat case_decide; done. Qed.

Lemma parked_get here s t j : zget (threads s) (current_tid s) = Some t →
  zget (parked here s t) j = if decide (j = current_tid s) then Some (park here t) else zget (threads s) j.
Proof. intros Ht. unfold parked. by eapply zget_set. Qed.

(** The running thread [t] is parked and the ready thread [n], with control
    block [u], runs. *)
Section switch.
Variables (here : point) (s : sys) (q : Z → list (Z * Z)) (t u : thread_control_block) (n : Z).
Hypotheses (Hw : winv s q) (Ht : zget (threads s) (current_tid s) = Some t)
  (Hhere : status t ≠ TS_EXITED → point_ok (mem s) here)
  (Hu : zget (parked here s t) n = Some u) (Hr : status u = TS_READY).

Definition switched_table : list thread_control_block :=
  <[Z.to_nat n := with_status TS_RUNNING u]> (parked here s t).
Definition switched_sys : sys := set_threads (set_current s n) switched_table.

Lemma switched_get j : zget switched_table j =
  if decide (j = n) then Some (with_status TS_RUNNING u) else
  if decide (j = current_tid s) then Some (park here t) else zget (threads s) j.
Proof. unfold switched_table. rewrite (zget_set _ _ _ _ _ Hu), (parked_get _ _ _ _ Ht). done. Qed.

Lemma switched_cases :
  (n = current_tid s ∧ u = park here t ∧ status t ≠ TS_EXITED ∧ status t ≠ TS_BLOCKED) ∨
  (n ≠ current_tid s ∧ zget (threads s) n = Some u).
Proof.
  rewrite (parked_get _ _ _ _ Ht) in Hu. case_decide as E; [left|by right].
  injection Hu as <-. rewrite park_status in Hr. split_and!; [done|done|..]; case_decide; congruence.
Qed.

Lemma switched_only : is_first_call s = true → n = current_tid s ∧ u = park here t.
Proof.
  intros Ef. destruct switched_cases as [(? & ? & _)|[Hne Hn]]; [done|exfalso].
  destruct Hw as [_ Htab _ _]. unfold table in Htab. rewrite Ef in Htab.
  destruct Htab as [_ Hcur _ _ Hother]. rewrite Hcur in Hne. by rewrite (Hother n u Hn Hne) in Hr.
Qed.

Lemma switched_saved : saved_ok (mem s) (regs u).
Proof.
  destruct switched_cases as [(_ & Eu & Hex & _)|[Hne Hn]].
  - rewrite Eu, park_regs by done. by apply Hhere.
  - destruct (is_first_call s) eqn:Ef; [by destruct (switched_only Ef)|].
    destruct Hw as [_ Htab _ _]. unfold table in Htab. rewrite Ef in Htab.
    eapply (t_saved _ Htab); eauto.
Qed.

Lemma switched_pre : table_pre s → is_first_call s = true → table_pre switched_sys.
Proof.
  intros [Hnum Hcur Htimer Hmain Hother] Ef. destruct (switched_only Ef) as [En Eu].
  split; cbn [switched_sys threads num_threads current_tid timer set_threads set_current];
    try done; [congruence| |].
  - intros v. rewrite switched_get, En, Hcur, decide_True by done. intros [= <-].
    cbn [stack with_status]. rewrite Eu, park_stack. apply Hmain. by rewrite <- Hcur.
  - intros j v. rewrite switched_get, En, Hcur. intros Hj Hne.
    rewrite !decide_False in Hj by done. by apply (Hother j).
Qed.

Lemma switched_slot : table_ok s →
  tid u = n ∧ (stack u = NULL ↔ n = 0 ∨ num_threads s ≤ n) ∧ 0 ≤ n < num_threads s.
Proof.
  intros [Hnum Hcur Hslot _ _ _]. destruct switched_cases as [(E & Eu & _)|[_ Hn]].
  - rewrite E, Eu, park_tid, park_stack. destruct (Hslot _ _ Ht) as (? & ? & _).
    split_and!; (done || lia).
  - destruct (Hslot n u Hn) as (? & ? & He). apply zget_range in Hn as [? _].
    split_and!; [done..|]. destruct (Z.lt_ge_cases n (num_threads s)) as [|Hge]; [done|].
    apply He in Hge. congruence.
Qed.

Lemma switched_ok : is_first_call s = false → table_ok s → table_ok switched_sys.
Proof.
  intros Ef Htab. destruct (switched_slot Htab) as (Hut & Hus & Hun).
  pose proof (current_not_empty s q t Hw Ef Ht).
  destruct Htab as [Hnum Hcur Hslot Hfresh Hrun Hsaved].
  split; cbn [switched_sys threads num_threads current_tid mem set_threads set_current];
    try done; intros j v; rewrite switched_get; intros Hv;
    (case_decide as E1; [injection Hv as <-; subst j|
      case_decide as E2; [injection Hv as <-; subst j|]]).
  - split_and!; [done|done|]. cbn. split; [done|lia].
  - rewrite park_tid, park_stack, park_status. destruct (Hslot _ _ Ht) as (? & ? & ?).
    split_and!; [done|done|]. destruct (decide (status t = TS_RUNNING)); [split; [done|lia]|done].
  - by apply Hslot.
  - lia.
  - lia.
  - by apply (Hfresh j).
  - done.
  - intros _. rewrite park_status. by destruct (decide (status t = TS_RUNNING)).
  - intros _. by eapply Hrun.
  - done.
  - intros _. rewrite park_status. intros Hst.
    assert (status t ≠ TS_EXITED) as Hex
      by (destruct (decide (status t = TS_RUNNING)); [congruence|by destruct Hst; congruence]).
    rewrite park_regs by done. by apply Hhere.
  - intros _ Hst. by eapply Hsaved.
Qed.

Lemma switched_waiting : waiting_ok switched_sys q.
Proof.
  intros p x Hx. destruct Hw as [_ _ _ Hwait]. destruct (Hwait p x Hx) as (v & Hv & Hb).
  cbn [switched_sys threads set_threads]. rewrite switched_get. assert (x.2 ≠ n) as Hne.
  { intros En. destruct switched_cases as [(E & _ & _ & Hnb)|[_ Hn]]; congruence. }
  rewrite decide_False by done. destruct (decide (x.2 = current_tid s)) as [E|E]; [|by exists v].
  assert (v = t) as -> by congruence. exists (park here t).
  by rewrite park_status, decide_False by congruence.
Qed.

Lemma switched_inv : inv_q (switch_to (parked here s t) n u s) q.
Proof.
  split; [|split; [exact switched_saved|]].
  - unfold switch_to. apply winv_pc. change (winv switched_sys q).
    pose proof Hw as [Hl Htab Hh _]. split; cbn [switched_sys threads heap set_threads set_current].
    + unfold switched_table. by rewrite length_insert, parked_length.
    + unfold table in *. change (is_first_call switched_sys) with (is_first_call s).
      destruct (is_first_call s) eqn:Ef; [by apply switched_pre|by apply switched_ok].
    + done.
    + exact switched_waiting.
  - cbn. intros v. change (<[Z.to_nat n := _]> _) with switched_table.
    rewrite switched_get, decide_True by done. intros [= <-]. by left.
Qed.
End switch.

Lemma schedule_winv here s q s' : winv s q →
  (∀ t, zget (threads s) (current_tid s) = Some t → status t ≠ TS_EXITED → point_ok (mem s) here) →
  schedule here s = Done s' → inv_q s' q.
Proof.
  intros Hw Hhere Hs. destruct (schedule_inv here s s' (w_len _ _ Hw) Hs)
    as (t & k & Ht & [_ Hr _ (u & Hu & ->)]).
  unfold is_ready in Hr. rewrite Hu in Hr. apply bool_decide_eq_true in Hr.
  by apply switched_inv; eauto.
Qed.
End step.
