(* ===== verification/ThreadsOps.v ===== *)
(** * The operations keep the invariant *)

From S2P Require Export ThreadsStep.

Section ops.
Context `{Image} {IS : ImageSpec} `{Malloc} {MS : MallocSpec} {MA : MallocAligned}.

Definition status_ok s : Prop := ∀ t, zget (threads s) (current_tid s) = Some t →
  status t = TS_RUNNING ∨ status t = TS_READY ∨ (is_first_call s = true ∧ status t = TS_EXITED).

Lemma inv_winv s q : inv_q s q → winv s q.
Proof. by intros [? _]. Qed.
Lemma inv_status s q : inv_q s q → status_ok s.
Proof. by intros [_ [_ ?]]. Qed.
#[local] Hint Resolve inv_winv inv_status winv_masked winv_pc : threads.

Lemma inv_heap s q : inv_q s q → heap_ok (heap s) q.
Proof. intros [Hw _]. apply Hw. Qed.

Lemma yield_inv here s q o s' : winv s q →
  (∀ t, zget (threads s) (current_tid s) = Some t → status t ≠ TS_EXITED → point_ok (mem s) here) →
  yield here s = Done (o, s') → inv_q s' q.
Proof.
  intros Hw Hh Hy. unfold yield in Hy. rinv Hy as s1 E. injection Hy as <- <-. by eapply schedule_winv.
Qed.

(** A change of the heap alone. *)
Lemma inv_set_heap s q h q' : inv_q s q → heap_ok h q' → waiting_ok s q' → inv_q (set_heap s h) q'.
Proof. intros [Hw [Hp Hst]] Hh Hwait. split; [by eapply winv_heap|done]. Qed.

Lemma ret_ok r s q o s' : winv s q → status_ok s → ret r s = Done (o, s') → inv_q s' q.
Proof. intros Hw Hst E. by eapply ret_inv. Qed.

Lemma goto_ok p s q o s' : winv s q → status_ok s → point_ok (mem s) p →
  goto p s = Done (o, s') → inv_q s' q.
Proof. intros Hw Hst Hp E. by eapply (goto_inv p s q). Qed.

Lemma wait_queue s q : winv s q → waiting_ok s q.
Proof. apply w_wait. Qed.

#[local] Hint Resolve inv_heap wait_queue : threads.

(** ** Exit, self, join *)

Lemma exit_inv v s q o s' : inv_q s q → pthread_exit v s = Done (o, s') → inv_q s' q.
Proof.
  intros Hi He. unfold pthread_exit in He. rinv He as s1 E1.
  apply update_inv in E1 as (t & Ht & ->).
  pose proof (winv_status s q TS_EXITED t Hi Ht ltac:(done)) as Hw1. rinv He as s2 E2.
  apply update_inv in E2 as (t2 & Ht2 & ->). cbn [current_tid threads set_threads] in *.
  assert (t2 = with_status TS_EXITED t) as ->.
  { rewrite (zget_set _ _ _ _ _ Ht), decide_True in Ht2 by done. by injection Ht2. }
  assert (winv (set_threads s (<[Z.to_nat (current_tid s) := with_exit v (with_status TS_EXITED t)]>
    (<[Z.to_nat (current_tid s) := with_status TS_EXITED t]> (threads s)))) q) as Hw2.
  { eapply (winv_set _ _ _ _ _ Hw1 Ht2); try done.
    - intros p x Hx E. by destruct (current_free s q Hi p x Hx).
    - intros Ef. by eapply (current_first s q (inv_winv s q Hi)). }
  eapply yield_inv; [| |exact He].
  - eapply winv_same; [..|exact Hw2]; done.
  - cbn. intros t3. rewrite (zget_set _ _ _ _ _ Ht2), decide_True by done. by intros [= <-].
Qed.

Lemma self_inv s q o s' : inv_q s q → pthread_self s = Done (o, s') → inv_q s' q.
Proof.
  intros Hi Hs. unfold pthread_self in Hs. rinv Hs as t E.
  eapply ret_ok; [| |exact Hs]; eauto with threads.
Qed.

Lemma free_stack_inv p s q s' : inv_q s q → (p = NULL ∨ heap s !! p = Some OStack) →
  free p s = Done s' → inv_q s' q.
Proof.
  intros Hi Hp Hf. unfold free in Hf. destruct (Z.eqb_spec p NULL); [by injection Hf as <-|].
  destruct Hp as [?|Hp]; [done|]. rewrite Hp in Hf. injection Hf as <-.
  pose proof (inv_heap s q Hi) as Hh. eapply inv_set_heap; [done| |by eauto with threads].
  eapply heap_ok_delete; [done|exact Hp|done|]. destruct Hh as [_ [_ Hother _ _] _].
  apply Hother. congruence.
Qed.

Lemma join_inv thread retval s q o s' : inv_q s q →
  (∀ t, zget (threads s) thread = Some t → status t = TS_EXITED →
    stack t = NULL ∨ heap s !! stack t = Some OStack) →
  pthread_join thread retval s = Done (o, s') → inv_q s' q.
Proof.
  intros Hi Hown Hj. unfold pthread_join in Hj. rinv Hj as t E. apply lift_Done_inv, aread_Ret in E.
  case_decide as Hst.
  - rinv Hj as s1 E1. pose proof (free_stack_inv _ _ _ _ Hi (Hown t E Hst) E1) as Hi1.
    destruct (retval =? NULL); [done|]. eapply ret_ok; [| |exact Hj]; eauto with threads.
  - eapply yield_inv; [| |exact Hj]; eauto with threads. done.
Qed.

(** ** Mutexes *)

Lemma mutex_init_inv s q o s' : inv_q s q → pthread_mutex_init s = Done (o, s') → inv_q s' q.
Proof.
  intros Hi Hm. unfold pthread_mutex_init, malloc in Hm.
  destruct (malloc_at (heap s) sizeof_ptr) as [p|] eqn:E; [|done]. rstep.
  cbn [mbind run_mbind] in Hm. destruct (malloc_fresh _ _ _ E) as (Hf & Hpos & _).
  destruct ((p =? NULL) || _); [done|].
  assert (inv_q (set_obj p (OMutex (Mutex 0 NULL NULL)) s) q) as Hi1.
  { eapply inv_set_heap; [done| |by eauto with threads].
    apply heap_ok_fresh; [by apply inv_heap|done|unfold NULL; lia| |done]. by intros m [= <-]. }
  eapply ret_ok; [| |exact Hm]; eauto with threads.
Qed.

(** A mutex that is not locked has an empty queue, so nothing else is freed. *)
Lemma mutex_destroy_inv p s q o s' : inv_q s q → pthread_mutex_destroy p s = Done (o, s') → inv_q s' q.
Proof.
  intros Hi Hm. pose proof (inv_heap s q Hi) as Hh. unfold pthread_mutex_destroy in Hm. rinv Hm as m E.
  unfold get_mutex in E. destruct (heap s !! p) as [[| | |m'|]|] eqn:Hp; try done. injection E as ->.
  destruct (Z.eqb_spec (locked m) 0) as [E|E]; cbn [negb] in Hm.
  - destruct Hh as [Hn Hq Hb]. pose proof (q_mutex _ _ Hq p m Hp) as [Hc _ _ Hfree].
    pose proof (Hfree E) as Hnil. rewrite Hnil in Hc. cbn [chain] in Hc. rewrite Hc in Hm.
    unfold heap_fuel in Hm. cbn [free_nodes] in Hm. rewrite Z.eqb_refl in Hm.
    cbn [mbind run_mbind] in Hm. rinv Hm as s1 E1. unfold free in E1.
    destruct (Z.eqb_spec p NULL); [congruence|]. rewrite Hp in E1. injection E1 as <-.
    assert (inv_q (set_heap s (delete p (heap s))) q) as Hi1.
    { eapply inv_set_heap; [done| |by eauto with threads].
      eapply heap_ok_delete; [by apply inv_heap|exact Hp|done|done]. }
    eapply ret_ok; [| |exact Hm]; eauto with threads.
  - eapply ret_ok; [| |exact Hm]; eauto with threads.
Qed.

(** ** Barriers: the branch that blocks the caller is never taken *)

Lemma barrier_write s q p b b' : inv_q s q → heap s !! p = Some (OBarrier b) → barrier_ok b' →
  inv_q (set_obj p (OBarrier b') s) q.
Proof.
  intros Hi Hp Hb. eapply inv_set_heap; [done| |by eauto with threads].
  eapply heap_ok_barrier; [by apply inv_heap|done|done].
Qed.

Lemma get_barrier_inv p s b : get_barrier p s = Done b → heap s !! p = Some (OBarrier b).
Proof.
  unfold get_barrier. destruct (heap s !! p) as [[| | | |b']|]; try done. by intros [= ->].
Qed.

Lemma barrier_init_inv n s q o s' : inv_q s q → pthread_barrier_init n s = Done (o, s') → inv_q s' q.
Proof.
  intros Hi Hm. unfold pthread_barrier_init, malloc in Hm.
  destruct (malloc_at (heap s) sizeof_barrier) as [p|] eqn:E; [|done].
  cbn [mbind run_mbind] in Hm. destruct (malloc_fresh _ _ _ E) as (Hf & Hpos & _).
  destruct (p =? NULL); [done|].
  assert (inv_q (set_obj p (OBarrier (Barrier (s32 n) 0 NULL NULL 1 false)) s) q) as Hi1.
  { eapply inv_set_heap; [done| |by eauto with threads].
    apply heap_ok_fresh; [by apply inv_heap|done|unfold NULL; lia|done|]. by intros b [= <-]. }
  eapply ret_ok; [| |exact Hm]; eauto with threads.
Qed.

Lemma barrier_destroy_inv p s q o s' : inv_q s q → pthread_barrier_destroy p s = Done (o, s') → inv_q s' q.
Proof.
  intros Hi Hm. pose proof (inv_heap s q Hi) as Hh. unfold pthread_barrier_destroy in Hm. rinv Hm as b E.
  apply get_barrier_inv in E. destruct (negb (init b =? 1) || _).
  - eapply ret_ok; [| |exact Hm]; eauto with threads.
  - rinv Hm as s1 E1. unfold free in E1. destruct (Z.eqb_spec p NULL) as [->|].
    { by rewrite (h_null _ _ Hh) in E. }
    rewrite E in E1. injection E1 as <-.
    assert (inv_q (set_heap s (delete p (heap s))) q) as Hi1.
    { eapply inv_set_heap; [done| |by eauto with threads].
      eapply heap_ok_delete; [done|exact E|done|]. destruct Hh as [_ [_ Hother _ _] _].
      apply Hother. congruence. }
    eapply ret_ok; [| |exact Hm]; eauto with threads.
Qed.

Lemma barrier_wait_inv p s q o s' : inv_q s q → pthread_barrier_wait p s = Done (o, s') → inv_q s' q.
Proof.
  intros Hi Hm. pose proof (inv_heap s q Hi) as Hh. unfold pthread_barrier_wait in Hm. rinv Hm as b E.
  apply get_barrier_inv in E. destruct (h_barrier _ _ Hh p b E) as (Hinit & H1 & H2).
  destruct (threads_blocked b =? 2 ^ 31 - 1); [done|]. unfold set_count in Hm. cbn [init] in Hm.
  rewrite Hinit in Hm. cbn [Z.eqb negb] in Hm.
  assert (inv_q (set_obj p (OBarrier (Barrier (count b) (threads_blocked b + 1) (Blocked_one b)
    (Blocked_two b) 1 (serialed b))) s) q) as Hi1 by (by eapply barrier_write).
  eapply goto_ok; [| | |exact Hm]; eauto with threads. done.
Qed.

Lemma barrier_loop_inv p s q o s' : inv_q s q → barrier_loop p s = Done (o, s') → inv_q s' q.
Proof.
  intros Hi Hm. pose proof (inv_heap s q Hi) as Hh. unfold barrier_loop in Hm. rinv Hm as b E.
  apply get_barrier_inv in E. destruct (h_barrier _ _ Hh p b E) as (Hinit & _ & _).
  destruct (threads_blocked b <? count b).
  - eapply yield_inv; [| |exact Hm]; eauto with threads. done.
  - rewrite Hinit in Hm. cbn [Z.eqb mbind run_mbind] in Hm.
    eapply goto_ok; [| | |exact Hm]; eauto with threads; [|done].
    exact (inv_status s q Hi).
Qed.

Lemma barrier_leave_inv p s q o s' : inv_q s q → barrier_leave p s = Done (o, s') → inv_q s' q.
Proof.
  intros Hi Hm. unfold barrier_leave in Hm. rinv Hm as b E. apply get_barrier_inv in E.
  assert (inv_q (set_obj p (OBarrier (Barrier (count b) 0 NULL NULL 1 true)) s) q) as Hi1
    by (eapply barrier_write; [done|exact E|done]).
  eapply ret_ok; [| |exact Hm]; eauto with threads.
Qed.
End ops.

#[export] Hint Resolve inv_winv inv_status winv_masked winv_pc inv_heap wait_queue : threads.
