(* ===== verification/ThreadsMutex.v ===== *)
(** * Locking and unlocking: what they do to the queue *)

From S2P Require Export ThreadsOps.

Section mutex.
Context `{Image} {IS : ImageSpec} `{Malloc} {MS : MallocSpec} {MA : MallocAligned}.

Lemma get_mutex_inv p s m : get_mutex p s = Done m → heap s !! p = Some (OMutex m).
Proof. unfold get_mutex. destruct (heap s !! p) as [[| | |m'|]|]; try done. by intros [= ->]. Qed.

Lemma get_mutex_ok p s m : heap s !! p = Some (OMutex m) → get_mutex p s = Done m.
Proof. unfold get_mutex. by intros ->. Qed.

(** What [schedule] leaves as it was. *)
Lemma schedule_keeps here s s' : Z.of_nat (length (threads s)) = MAX_THREADS → schedule here s = Done s' →
  heap s' = heap s ∧ mem s' = mem s ∧ num_threads s' = num_threads s ∧
  is_first_call s' = is_first_call s ∧ timer s' = timer s ∧ masked s' = masked s.
Proof.
  intros Hl Hs. destruct (schedule_inv here s s' Hl Hs) as (t & k & _ & [_ _ _ (u & _ & ->)]). done.
Qed.

(** The queue of a mutex that is not locked is empty, and so is what the code
    finds in its head. *)
Lemma mutex_head s q p m : heap_ok (heap s) q → heap s !! p = Some (OMutex m) →
  blocked_threads_head m = NULL ↔ q p = [].
Proof.
  intros [Hn Hq _] Hp. eapply chain_head_null; [done|]. by apply (q_mutex _ _ Hq p m).
Qed.

(** Writing the lock word of a mutex whose queue stays. *)
Lemma mutex_bit h q p m b : heap_ok h q → h !! p = Some (OMutex m) → q p = [] → b = 0 ∨ b = 1 →
  heap_ok (<[p := OMutex (Mutex b (blocked_threads_head m) (blocked_threads_tail m))]> h) (upd q p []).
Proof.
  intros Hh Hp Hq Hb. pose proof Hh as [Hn [Hm _ _ _] _]. destruct (Hm p m Hp) as [Hc Ht _ _].
  rewrite Hq in *. eapply (heap_ok_mutex h q Hh _ p m); try done.
  - by rewrite lookup_insert_eq.
  - intros a Ha _. by rewrite lookup_insert_ne.
  - rewrite Hq. by intros x ?%elem_of_nil.
  - by split.
  - by apply list.NoDup_nil.
  - by intros x p' x' ?%elem_of_nil.
  - by intros x x' ?%elem_of_nil.
Qed.

Lemma waiting_same s q q' : waiting_ok s q → (∀ p x, x ∈ q' p → x ∈ q p) → waiting_ok s q'.
Proof. intros Hw Hs p x Hx. apply (Hw p). by apply Hs. Qed.

Lemma upd_sub {A} (q : Z → list A) p ns : (∀ x, x ∈ ns → x ∈ q p) →
  ∀ p' x, x ∈ upd q p ns p' → x ∈ q p'.
Proof. intros Hs p' x. unfold upd. case_decide as E; [subst; apply Hs|done]. Qed.

Lemma status_set s t st : zget (threads s) (current_tid s) = Some t → st = TS_READY ∨ st = TS_RUNNING →
  status_ok (set_threads s (<[Z.to_nat (current_tid s) := with_status st t]> (threads s))).
Proof.
  intros Ht Hst v. cbn [threads current_tid set_threads]. rewrite (zget_set _ _ _ _ _ Ht), decide_True by done.
  intros [= <-]. destruct Hst as [->| ->]; [right; by left|by left].
Qed.

(** A free mutex is taken. *)
Lemma lock_free p s q m o s' : inv_q s q → heap s !! p = Some (OMutex m) → locked m = 0 →
  pthread_mutex_lock p s = Done (o, s') →
  o = Some (RInt 0) ∧ inv_q s' (upd q p []) ∧ q p = [] ∧ current_tid s' = current_tid s ∧
  heap s' = <[p := OMutex (Mutex 1 (blocked_threads_head m) (blocked_threads_tail m))]> (heap s).
Proof.
  intros Hi Hp Hl Hm. pose proof (inv_heap s q Hi) as Hh.
  assert (q p = []) as Hq by (destruct Hh as [_ Hq _]; by apply (q_mutex _ _ Hq p m)).
  unfold pthread_mutex_lock in Hm. rewrite (get_mutex_ok _ _ _ Hp) in Hm.
  cbn [mbind run_mbind] in Hm. rewrite Hl in Hm. cbn [Z.eqb] in Hm.
  rinv Hm as s1 E1. apply update_inv in E1 as (t & Ht & ->). injection Hm as <- <-.
  split; [done|]. split; [|done].
  pose proof (winv_status s q TS_READY t Hi Ht ltac:(done)) as Hw1.
  eapply (ret_ok (RInt 0)); [| |reflexivity].
  - change (winv (set_masked (set_heap (set_threads s (<[Z.to_nat (current_tid s):=with_status TS_READY t]>
      (threads s))) (<[p:=OMutex (Mutex 1 (blocked_threads_head m) (blocked_threads_tail m))]> (heap s))) false)
      (upd q p [])).
    apply winv_masked. eapply winv_heap; [exact Hw1| |].
    + apply mutex_bit; [done..|by right].
    + eapply waiting_same; [by apply wait_queue|]. apply upd_sub. by intros x ?%elem_of_nil.
  - apply (status_set s t TS_READY Ht). by left.
Qed.

(** A locked one blocks the caller at the end of the queue. *)
Lemma lock_wait p s q m o s' : inv_q s q → heap s !! p = Some (OMutex m) → locked m = 1 →
  pthread_mutex_lock p s = Done (o, s') →
  o = None ∧ ∃ n m', inv_q s' (upd q p (q p ++ [(n, current_tid s)])) ∧
    same_mutexes (heap s) (heap s') p ∧ heap s' !! p = Some (OMutex m') ∧ locked m' = 1.
Proof.
  intros Hi Hp Hl Hm. pose proof (inv_heap s q Hi) as Hh.
  unfold pthread_mutex_lock in Hm. rewrite (get_mutex_ok _ _ _ Hp) in Hm.
  cbn [mbind run_mbind] in Hm. rewrite Hl in Hm. cbn [Z.eqb] in Hm.
  rinv Hm as s1 E1. apply update_inv in E1 as (t & Ht & ->). cbn [threads current_tid lock set_masked] in Ht.
  unfold malloc in Hm. cbn [heap set_threads lock set_masked] in Hm.
  destruct (malloc_at (heap s) sizeof_Node) as [n|] eqn:En; [|done]. cbn [mbind run_mbind] in Hm.
  destruct (malloc_fresh _ _ _ En) as (Hf & Hpos & _).
  destruct (Z.eqb_spec n NULL); [done|]. cbn [current_tid set_threads lock set_masked] in Hm.
  set (h1 := <[n := ONode (MkNode (current_tid s) NULL)]> (heap s)).
  assert (heap_ok h1 q) as Hh1 by (by apply heap_ok_fresh).
  set (s1 := set_obj n (ONode (MkNode (current_tid s) NULL)) _) in Hm.
  assert (heap s1 = h1) as Eh by done.
  destruct (append_node_ok p n (current_tid s) m s1 q) as (h2 & E2 & Hh2 & Hsame & m' & Hp' & Hl').
  - by rewrite Eh.
  - rewrite Eh. unfold h1. rewrite lookup_insert_ne; [done|congruence].
  - done.
  - rewrite Eh. unfold h1. by rewrite lookup_insert_eq.
  - intros a (x & -> & Hx)%list_elem_of_fmap. destruct (queue_node _ _ Hh a x Hx) as [nx Hnx]. congruence.
  - intros a (x & Ex & Hx)%list_elem_of_fmap. by apply (current_free s q Hi a x).
  - rewrite E2 in Hm. cbn [mbind run_mbind] in Hm. unfold yield in Hm. rinv Hm as s2 E3.
    injection Hm as <- <-. split; [done|]. exists n, m'.
    pose proof (winv_status s q TS_BLOCKED t Hi Ht ltac:(done)) as Hw1.
    assert (winv (set_heap s1 h2) (upd q p (q p ++ [(n, current_tid s)]))) as Hw2.
    { change (winv (set_heap (set_masked (set_threads s
        (<[Z.to_nat (current_tid s) := with_status TS_BLOCKED t]> (threads s))) true) h2)
        (upd q p (q p ++ [(n, current_tid s)]))).
      eapply winv_heap; [by apply winv_masked|done|].
      intros a x Hx. cbn [threads set_masked set_threads].
      assert (x.2 = current_tid s ∨ x ∈ q a) as [E|Hx'].
      { unfold upd in Hx. case_decide; [|by right]. subst a.
        apply elem_of_app in Hx as [?| ->%list_elem_of_singleton]; [by right|by left]. }
      - rewrite (zget_set _ _ _ _ _ Ht), decide_True by done. by eexists.
      - by apply (w_wait _ _ Hw1 a x Hx'). }
    destruct (schedule_keeps _ _ _ (w_len _ _ Hw2) E3) as (Eh3 & _). rewrite Eh3.
    split; [eapply (schedule_winv LockReturn); [exact Hw2|done|exact E3]|]. split_and!; [|done|done].
    intros a ma Ha. cbn [heap set_heap]. rewrite (Hsame a ma Ha), Eh. unfold h1.
    rewrite lookup_insert. case_decide; [|done]. subst a. by rewrite Hf.
Qed.

(** Unlocking with no thread waiting. *)
Lemma unlock_free p s q m o s' : inv_q s q → heap s !! p = Some (OMutex m) → q p = [] →
  pthread_mutex_unlock p s = Done (o, s') →
  o = Some (RInt 0) ∧ inv_q s' (upd q p []) ∧ current_tid s' = current_tid s ∧
  heap s' = <[p := OMutex (Mutex 0 (blocked_threads_head m) (blocked_threads_tail m))]> (heap s).
Proof.
  intros Hi Hp Hq Hm. pose proof (inv_heap s q Hi) as Hh.
  pose proof (proj2 (mutex_head s q p m Hh Hp) Hq) as Hhd.
  unfold pthread_mutex_unlock in Hm. rewrite (get_mutex_ok _ _ _ Hp) in Hm.
  cbn [mbind run_mbind] in Hm. rewrite Hhd, Z.eqb_refl in Hm. injection Hm as <- <-.
  split; [done|]. rewrite Hhd. split; [|done].
  assert (inv_q (set_heap s (<[p := OMutex (Mutex 0 NULL (blocked_threads_tail m))]> (heap s))) (upd q p [])) as Hi1.
  { eapply inv_set_heap; [done| |].
    - rewrite <- Hhd. apply mutex_bit; [done..|by left].
    - eapply waiting_same; [by eauto with threads|]. apply upd_sub. by intros x ?%elem_of_nil. }
  eapply (ret_ok (RInt 0)); [| |reflexivity].
  - apply winv_masked.
    change (winv (set_masked (set_heap s (<[p := OMutex (Mutex 0 NULL (blocked_threads_tail m))]> (heap s))) true) (upd q p [])).
    apply winv_masked. by eauto with threads.
  - exact (inv_status _ _ Hi1).
Qed.

(** The thread [x] at the head of the queue of [p] is made ready and leaves the
    queue. *)
Lemma wake_winv p s q x ns t h' : inv_q s q → q p = x :: ns → zget (threads s) x.2 = Some t →
  heap_ok h' (upd q p ns) →
  winv (set_threads (set_heap s h') (<[Z.to_nat x.2 := with_status TS_READY t]> (threads s)))
    (upd q p ns).
Proof.
  intros Hi Hq Ht Hh'. pose proof (inv_heap s q Hi) as Hh. pose proof (inv_winv _ _ Hi) as Hw.
  assert (x ∈ q p) as Hxin by (rewrite Hq; left).
  destruct (w_wait _ _ Hw p x Hxin) as (t' & Ht' & Hblk). assert (t' = t) as -> by congruence.
  pose proof (current_free s q Hi p x Hxin) as Hne.
  assert (∀ p' x', x' ∈ upd q p ns p' → x'.2 ≠ x.2) as Hout.
  { intros p' x' Hx' E. assert (x' ∈ q p') as Hx'' by (eapply upd_sub; [|exact Hx']; rewrite Hq; by right).
    destruct Hh as [_ [_ _ Honce Hnd] _]. destruct (Honce p' x' p x Hx'' Hxin) as [-> ->]; [by right|].
    rewrite upd_eq in Hx'. specialize (Hnd p). rewrite Hq in Hnd.
    apply list.NoDup_cons in Hnd as [Hni _]. apply Hni. by apply list_elem_of_fmap_2. }
  assert (winv (set_heap s h') (upd q p ns)) as Hw1.
  { eapply winv_heap; [by eauto with threads|done|].
    eapply waiting_same; [by eauto with threads|]. apply upd_sub. rewrite Hq. by right. }
  pose proof (w_table _ _ Hw) as Htab. unfold table in Htab.
  assert (is_first_call s = false) as Ef.
  { destruct (is_first_call s); [|done]. destruct Htab as [_ Hcur _ _ Hoth].
    rewrite Hcur in Hne. rewrite (Hoth _ _ Ht Hne) in Hblk. done. }
  rewrite Ef in Htab. eapply (winv_set _ _ x.2 t (with_status TS_READY t) Hw1); try done.
  - cbn [status with_status]. by rewrite Hblk.
  - intros _. split; [done|]. intros _. apply (t_saved s Htab x.2 t Ht Hne). by right.
  - intros p' x' Hx' E. by destruct (Hout p' x' Hx').
  - cbn. by rewrite Ef.
Qed.

(** Unlocking wakes the first thread of the queue; the mutex stays locked only
    if others wait. *)
Lemma unlock_wake p s q m x ns o s' : inv_q s q → heap s !! p = Some (OMutex m) → q p = x :: ns →
  pthread_mutex_unlock p s = Done (o, s') →
  o = None ∧ ∃ m', inv_q s' (upd q p ns) ∧ current_tid s' = current_tid s ∧
    same_mutexes (heap s) (heap s') p ∧ heap s' !! p = Some (OMutex m') ∧
    locked m' = (if decide (ns = []) then 0 else 1) ∧
    (∃ t, zget (threads s') x.2 = Some t ∧ status t = TS_READY) ∧ pc s' = UnlockYield.
Proof.
  intros Hi Hp Hq Hm. pose proof (inv_heap s q Hi) as Hh.
  destruct (pop_ok p m x ns (heap s) q Hh Hp Hq) as (nx & Hx & Hnx & Hhd & Hl & Hok).
  cbn zeta in Hok. destruct Hok as [Hh' Hsame].
  unfold pthread_mutex_unlock in Hm. rewrite (get_mutex_ok _ _ _ Hp) in Hm.
  cbn [mbind run_mbind] in Hm. destruct (Z.eqb_spec (blocked_threads_head m) NULL); [done|].
  unfold get_node in Hm. cbn [heap lock set_masked] in Hm. rewrite Hx in Hm.
  cbn [mbind run_mbind node_next node_tid] in Hm.
  rinv Hm as s1 E1. apply update_inv in E1 as (t & Ht & ->). cbn [threads lock set_masked] in Ht.
  unfold free in Hm. destruct (Z.eqb_spec (blocked_threads_head m) NULL); [done|].
  cbn [heap set_threads lock set_masked] in Hm. rewrite Hx in Hm. cbn [mbind run_mbind] in Hm.
  injection Hm as <- <-. split; [done|].
  set (h' := <[p := _]> (delete _ _)) in Hh', Hsame.
  exists (Mutex (if nx =? NULL then 0 else locked m) nx (if nx =? NULL then NULL else blocked_threads_tail m)).
  pose proof (current_free s q Hi p x ltac:(rewrite Hq; left)) as Hne.
  pose proof (wake_winv p s q x ns t h' Hi Hq Ht Hh') as Hw2.
  split_and!.
  - eapply (goto_ok UnlockYield); [| | |reflexivity].
    + apply winv_masked. change (winv (set_masked (set_threads (set_heap s h')
        (<[Z.to_nat x.2 := with_status TS_READY t]> (threads s))) true) (upd q p ns)).
      by apply winv_masked.
    + intros v. cbn. rewrite (zget_set _ _ _ _ _ Ht), decide_False by done.
      apply (inv_status _ _ Hi).
    + done.
  - done.
  - exact Hsame.
  - cbn. by rewrite lookup_insert_eq.
  - cbn [locked]. rewrite Hl. destruct (Z.eqb_spec nx NULL) as [E|E].
    + by rewrite decide_True by (by apply Hnx).
    + rewrite decide_False; [done|]. intros E'. by apply E, Hnx.
  - exists (with_status TS_READY t). cbn. rewrite (zget_set _ _ _ _ _ Ht), decide_True by done. done.
  - done.
Qed.
End mutex.
