(* ===== verification/ThreadsCreate.v ===== *)
(** * Creating a thread, and its first step *)

From S2P Require Export ThreadsMutex.

Section create.
Context `{Image} {IS : ImageSpec} `{Malloc} {MS : MallocSpec} {MA : MallocAligned}.

(** ** Registers in the table *)

Lemma set_thread_reg_ok i r val s t w :
  zget (threads s) i = Some t → regs t = Words w → length w = 8%nat → is_reg r →
  (mangled r = true → 0 ≤ val < 2 ^ 64) →
  ∃ w', set_thread_reg i r val s =
      Done (set_threads s (<[Z.to_nat i := with_regs (Words w') t]> (threads s))) ∧
    length w' = 8%nat ∧
    ∀ r', is_reg r' → get_reg w' r' = if decide (r' = r) then Done val else get_reg w r'.
Proof.
  intros Hi Hr Hl Hreg Hv. destruct (set_reg_get w r val Hl Hreg Hv) as (w' & E & Hl' & Hg).
  exists w'. split; [|done]. unfold set_thread_reg. rewrite (proj2 (aread_Ret _ _ _) Hi). rstep.
  rewrite Hr, E. rstep. by apply update_Done.
Qed.

(** ** The slot *)

Lemma free_slot_ok s : Z.of_nat (length (threads s)) = MAX_THREADS → table_ok s →
  num_threads s < MAX_THREADS → free_slot s = num_threads s.
Proof.
  intros Hl [Hnum Hcur Hslot _ _ _] Hlt. unfold free_slot.
  assert (first_index (λ t, stack t =? NULL) (drop 1 (threads s)) =
    Some (Z.to_nat (num_threads s - 1))) as ->; [|lia].
  apply first_index_Some. split.
  - destruct (lookup_lt_is_Some_2 (threads s) (Z.to_nat (num_threads s))) as [t Ht]; [lia|].
    exists t. rewrite lookup_drop. replace (1 + Z.to_nat (num_threads s - 1))%nat
      with (Z.to_nat (num_threads s)) by lia. split; [done|]. apply Z.eqb_eq.
    apply (Hslot (num_threads s)); [apply zget_Some; split; [lia|done]|right; lia].
  - intros j t. rewrite lookup_drop. intros Hj Hlt'. apply Z.eqb_neq. intros E.
    destruct (Hslot (Z.of_nat (1 + j)) t) as (_ & Hs & _); [by rewrite zget_nat|].
    apply Hs in E. lia.
Qed.

Definition stack_top (p : Z) : Z := p + THREAD_STACK_SIZE - 8.

Lemma stack_top_ok h p : malloc_at h THREAD_STACK_SIZE = Some p →
  0 ≤ stack_top p < 2 ^ 64 ∧ stack_top p mod 16 = 8 ∧ p ≠ NULL ∧ h !! p = None.
Proof.
  intros E. destruct (malloc_fresh _ _ _ E) as (Hf & Hpos & Hmax).
  pose proof (malloc_aligned _ _ _ E). unfold stack_top, NULL, THREAD_STACK_SIZE in *.
  change (Z.shiftl 1 15) with 32768 in *. split_and!; [lia..|dlia|lia|done].
Qed.

(** The state after a creation that succeeds. *)
Definition created s p w e : sys :=
  Sys (<[Z.to_nat (num_threads s) := Tcb (num_threads s) p (Words w) TS_READY e]> (threads s))
    (current_tid s) (exited_string s) (num_threads s + 1) (is_first_call s) (timer s) (masked s)
    (<[p := OStack]> (heap s)) (<[stack_top p := addr_pthread_exit]> (mem s)) User.

(** The registers of a thread that is to run [start_routine (arg)]. *)
Definition prepared (w : list Z) (p start_routine arg : Z) : Prop :=
  length w = 8%nat ∧ get_reg w JBL_PC = Done addr_start_thunk ∧
  get_reg w JBL_RSP = Done (stack_top p) ∧ get_reg w JBL_R12 = Done start_routine ∧
  get_reg w JBL_R13 = Done arg.

Lemma create_thread_ok start_routine arg s q p :
  winv s q → is_first_call s = false → num_threads s < MAX_THREADS →
  malloc_at (heap s) THREAD_STACK_SIZE = Some p →
  ∃ w e, create_thread start_routine arg s = Done (Some (RCreate (num_threads s) 0), created s p w e) ∧
    prepared w p start_routine arg.
Proof.
  intros [Hl Ht Hh Hw] Ef Hn Hp. unfold table in Ht. rewrite Ef in Ht.
  pose proof (stack_top_ok _ _ Hp) as (Htop & _ & Hnull & _).
  set (n := num_threads s) in *. pose proof Ht as [Hnum Hcur Hslot Hfresh Hrun Hsaved]. fold n in Hnum, Hcur.
  destruct (proj2 (zget_is_Some (threads s) n)) as [t Hi]; [lia|].
  destruct (Hfresh n t Hi) as (w0 & Hr0 & Hl0); [lia|].
  unfold create_thread. rewrite (free_slot_ok s Hl Ht Hn). fold n.
  rewrite (proj2 (Z.leb_gt _ _)) by lia.
  assert (∀ x j, zget (<[Z.to_nat n := x]> (threads s)) j = if decide (j = n) then Some x else zget (threads s) j) as Hget
    by (intros; by eapply zget_set).
  assert (∀ x, zget (<[Z.to_nat n := x]> (threads s)) n = Some x) as Hgetn
    by (intros; by rewrite Hget, decide_True).
  destruct (set_thread_reg_ok n JBL_PC addr_start_thunk s t w0) as (w1 & -> & Hl1 & Hg1);
    [done|done|done|done|intros; apply thunk_range|].
  rstep. destruct (set_thread_reg_ok n JBL_R13 arg (set_threads s (<[Z.to_nat n := with_regs (Words w1) t]> (threads s)))
    (with_regs (Words w1) t) w1) as (w2 & -> & Hl2 & Hg2); [apply Hgetn|done|done|done|done|].
  rstep. cbn [threads set_threads]. rewrite list_insert_insert_eq.
  destruct (set_thread_reg_ok n JBL_R12 start_routine (set_threads s (<[Z.to_nat n := with_regs (Words w2) t]> (threads s)))
    (with_regs (Words w2) t) w2) as (w3 & E3 & Hl3 & Hg3); [apply Hgetn|done|done|done|done|].
  change (with_regs (Words w2) (with_regs (Words w1) t)) with (with_regs (Words w2) t).
  change (set_threads (set_threads s ?a) ?b) with (set_threads s b). rewrite E3. clear E3.
  rstep. cbn [threads set_threads]. rewrite list_insert_insert_eq. unfold malloc. cbn [heap set_threads]. rewrite Hp. rstep.
  change (with_regs (Words w3) (with_regs (Words w2) t)) with (with_regs (Words w3) t).
  rewrite (update_Done n _ _ (with_regs (Words w3) t)) by (cbn [threads set_obj set_heap set_threads]; apply Hgetn).
  rstep. rewrite (proj2 (Z.eqb_neq p NULL)) by done.
  cbn [threads set_obj set_heap set_threads mem]. rewrite list_insert_insert_eq. rewrite (wrap_id 64) by exact Htop.
  fold (stack_top p).
  match goal with |- context [set_thread_reg n JBL_RSP (stack_top p) ?s4] =>
    destruct (set_thread_reg_ok n JBL_RSP (stack_top p) s4 (with_stack p (with_regs (Words w3) t)) w3)
      as (w4 & -> & Hl4 & Hg4); [apply Hgetn|done|done|done|done|] end.
  rstep. cbn [threads set_mem set_threads]. rewrite list_insert_insert_eq.
  erewrite update_Done by apply Hgetn. rstep. cbn [threads set_threads]. rewrite list_insert_insert_eq.
  erewrite update_Done by apply Hgetn. rstep. cbn [threads set_threads]. rewrite list_insert_insert_eq.
  exists w4, (exit_status t). split; [reflexivity|].
  unfold prepared. split; [done|].
  split_and!; rewrite Hg4 by done.
  - by rewrite decide_False, Hg3, decide_False, Hg2, decide_False, Hg1, decide_True by done.
  - by rewrite decide_True by done.
  - by rewrite decide_False, Hg3, decide_True by done.
  - by rewrite decide_False, Hg3, decide_False, Hg2, decide_True by done.
Qed.

Lemma set_thread_reg_heap i r v s s' : set_thread_reg i r v s = Done s' → heap s' = heap s.
Proof.
  unfold set_thread_reg. intros E. rinv E as t F. destruct (regs t) as [w|]; [|done]. rinv E as w' G.
  by apply update_inv in E as (? & _ & ->).
Qed.

Lemma create_thread_no_memory start_routine arg s o s' : num_threads s < MAX_THREADS →
  malloc_at (heap s) THREAD_STACK_SIZE = None → create_thread start_routine arg s ≠ Done (o, s').
Proof.
  intros Hn Hp Hc. unfold create_thread in Hc. rewrite (proj2 (Z.leb_gt _ _)) in Hc by lia.
  rinv Hc as s1 E1. apply set_thread_reg_heap in E1. rinv Hc as s2 E2. apply set_thread_reg_heap in E2.
  rinv Hc as s3 E3. apply set_thread_reg_heap in E3. unfold malloc in Hc.
  rewrite E3, E2, E1, Hp in Hc. cbn [mbind run_mbind] in Hc. by rinv Hc as s4 E4.
Qed.

Lemma create_thread_full start_routine arg s : MAX_THREADS ≤ num_threads s →
  create_thread start_routine arg s = Done (Some (RInt (-1)), set_pc s User).
Proof. intros Hn. unfold create_thread. by rewrite (proj2 (Z.leb_le _ _)) by done. Qed.


Lemma created_inv s q p w e start_routine arg : winv s q → status_ok s → is_first_call s = false →
  num_threads s < MAX_THREADS → malloc_at (heap s) THREAD_STACK_SIZE = Some p →
  prepared w p start_routine arg → inv_q (created s p w e) q.
Proof.
  intros [Hl Ht Hh Hw] Hst Ef Hn Hp (Hlw & Hpc & Hsp & _). unfold table in Ht. rewrite Ef in Ht.
  pose proof (stack_top_ok _ _ Hp) as (Htop & Hmod & Hnull & Hf).
  pose proof Ht as [Hnum Hcur Hslot Hfresh Hrun Hsaved].
  assert (entry_ok w (mem (created s p w e))) as Hentry.
  { split; [done|]. split; [done|]. exists (stack_top p). split_and!; try done; [lia|lia|].
    cbn [mem created]. by rewrite lookup_insert_eq. }
  destruct (proj2 (zget_is_Some (threads s) (num_threads s))) as [t Hi]; [lia|].
  assert (∀ j, zget (threads (created s p w e)) j = if decide (j = num_threads s)
    then Some (Tcb (num_threads s) p (Words w) TS_READY e) else zget (threads s) j) as Hget
    by (intros; by eapply zget_set).
  split; [|split; [done|]].
  - split.
    + cbn [threads created]. by rewrite length_insert.
    + unfold table. cbn [is_first_call created]. rewrite Ef.
      split; cbn [num_threads current_tid created]; [lia|lia| | | |]; intros j u; rewrite Hget; intros Hj;
        (destruct (decide (j = num_threads s)) as [->|E]; [injection Hj as <-|]).
      * cbn [tid stack status]. split_and!; [done|split; [done|lia]|split; [done|lia]].
      * destruct (Hslot j u Hj) as (? & Hs & He). rewrite Hs, He. split_and!; [done|lia..].
      * lia.
      * intros Hge. apply (Hfresh j u Hj). lia.
      * done.
      * by apply Hrun.
      * by intros _ _.
      * intros Hne Hor. specialize (Hsaved j u Hj Hne Hor). unfold saved_ok, point_ok in *.
        destruct (target (regs u)); try done. destruct Hsaved as (? & ? & sp & ? & ? & ? & ?).
        split; [done|]. split; [done|]. exists sp. split_and!; try done; [lia|lia|].
        cbn [mem created]. rewrite lookup_insert. by case_decide.
    + cbn [heap created]. by apply heap_ok_fresh.
    + intros p' x Hx. destruct (Hw p' x Hx) as (u & Hu & Hb). rewrite Hget.
      rewrite decide_False; [by exists u|]. intros E. rewrite E in Hu.
      destruct (Hslot _ _ Hu) as (_ & _ & He). rewrite (proj2 He) in Hb by lia. done.
  - intros u. rewrite Hget. cbn [current_tid created is_first_call].
    rewrite decide_False by lia. apply Hst.
Qed.

(** ** The first call sets the scheduler up *)

Definition first_call s : run sys :=
  s ← scheduler_init (set_first s false);
  s ← update 0 (with_status TS_READY) s;
  update 0 (with_regs (Context CreateReturn)) s.

(** The state after the first call set up the scheduler; [t0] was the main
    thread's control block. *)
Definition main_block t0 : thread_control_block :=
  Tcb 0 NULL (Context CreateReturn) TS_READY (exit_status t0).
Definition first_sys s t0 : sys :=
  Sys (<[0%nat := main_block t0]> (imap init_slot (threads s))) 0 (exited_string s) 1 false true
    (masked s) (heap s) (mem s) (pc s).

Lemma init_slots s j :
  zget (imap init_slot (threads s)) j = (λ t, init_slot (Z.to_nat j) t) <$> zget (threads s) j.
Proof.
  unfold zget. destruct (j <? 0); [done|]. rewrite list_lookup_imap.
  by destruct (threads s !! Z.to_nat j).
Qed.

Lemma first_call_eq s t0 : zget (threads s) 0 = Some t0 → current_tid s = 0 →
  first_call s = Done (first_sys s t0).
Proof.
  intros Ht0 Hcur. set (ths := imap init_slot (threads s)).
  assert (zget ths 0 = Some (init_slot 0 t0)) as E0 by (unfold ths; rewrite init_slots, Ht0; done).
  unfold first_call, scheduler_init. cbn [threads set_first set_threads set_num num_threads]. fold ths.
  erewrite update_Done by exact E0. rstep. cbn [threads set_first set_threads set_num set_timer].
  erewrite update_Done by (cbn [threads set_threads set_timer]; rewrite (zget_set _ _ _ _ _ E0), decide_True by done; reflexivity).
  rstep. cbn [threads set_first set_threads set_num set_timer]. rewrite list_insert_insert_eq.
  erewrite update_Done by (cbn [threads set_threads set_timer]; rewrite (zget_set _ _ _ _ _ E0), decide_True by done; reflexivity).
  cbn [threads set_first set_threads set_num set_timer]. rewrite list_insert_insert_eq.
  unfold first_sys, set_threads, set_timer, set_num, set_first. fold ths.
  cbn [threads current_tid exited_string num_threads is_first_call timer masked heap mem pc].
  by rewrite Hcur.
Qed.

Lemma first_get s t0 j u : table_pre s → zget (threads s) 0 = Some t0 →
  zget (threads (first_sys s t0)) j = Some u →
  (j = 0 ∧ u = main_block t0) ∨
  (j ≠ 0 ∧ 0 ≤ j ∧ u = Tcb j NULL (Words (replicate 8 0)) TS_EMPTY 0).
Proof.
  intros [_ _ _ _ Hother] Ht0. cbn [threads first_sys].
  pose proof (zget_range _ _ _ Ht0) as Hr.
  assert (zget (<[0%nat := main_block t0]> (imap init_slot (threads s))) j =
    if decide (j = 0) then Some (main_block t0) else zget (imap init_slot (threads s)) j) as ->
    by (apply (zget_insert _ 0 j); by rewrite length_imap).
  case_decide as E0; [intros [= <-]; by left|]. rewrite init_slots.
  intros (v & Hv & ->)%fmap_Some. right. pose proof (zget_range _ _ _ Hv).
  rewrite (Hother j v Hv E0). unfold init_slot; cbn.
  rewrite Z2Nat.id by lia. split_and!; [done|lia|done].
Qed.

Lemma first_table s t0 : table_pre s → zget (threads s) 0 = Some t0 → table_ok (first_sys s t0).
Proof.
  intros Hpre Ht0. split; [done|cbn; lia|..]; intros j u Hj;
    destruct (first_get s t0 j u Hpre Ht0 Hj) as [[-> ->]|(Hne & Hpos & ->)];
    cbn [num_threads current_tid mem first_sys main_block tid stack status].
  - split_and!; [done|split; [by left|done]|split; [done|lia]].
  - split_and!; [done|split; [right; lia|done]|split; [lia|done]].
  - lia.
  - intros _. by exists (replicate 8 0).
  - done.
  - done.
  - done.
  - intros _ [?|?]; done.
Qed.

Lemma first_call_inv s q : inv_q s q → is_first_call s = true →
  ∃ s', first_call s = Done s' ∧ winv s' q ∧ status_ok s' ∧ is_first_call s' = false ∧
    num_threads s' = 1 ∧ current_tid s' = 0 ∧ heap s' = heap s ∧ mem s' = mem s.
Proof.
  intros Hi Ef. pose proof Hi as [[Hl Ht Hh Hw] _]. unfold table in Ht. rewrite Ef in Ht.
  pose proof Ht as [Hnum Hcur Htimer Hmain Hother].
  assert (∀ p x, x ∉ q p) as Hnone.
  { intros p x Hx. destruct (Hw p x Hx) as (u & Hu & Hb).
    pose proof (current_free s q Hi p x Hx) as Hne. rewrite Hcur in Hne.
    rewrite (Hother _ _ Hu Hne) in Hb. done. }
  destruct (proj2 (zget_is_Some (threads s) 0)) as [t0 Ht0]; [rewrite Hl; done|].
  exists (first_sys s t0). split; [by apply first_call_eq|]. split_and!; try done.
  - split; [|by apply first_table|done|].
    + cbn [threads first_sys]. by rewrite length_insert, length_imap.
    + intros p x Hx. by destruct (Hnone p x).
  - intros u Hu. destruct (first_get s t0 0 u Ht Ht0 Hu) as [[_ ->]|(Hj & _)]; [right; by left|done].
Qed.

Lemma pthread_create_first start_routine arg s :
  pthread_create start_routine arg s =
    s ← (if is_first_call s then first_call s else Done s); create_thread start_routine arg s.
Proof. done. Qed.

(** After the set-up of the first call. *)
Lemma create_setup s q : inv_q s q →
  ∃ s1, (if is_first_call s then first_call s else Done s) = Done s1 ∧ winv s1 q ∧ status_ok s1 ∧
    is_first_call s1 = false ∧ heap s1 = heap s ∧ mem s1 = mem s ∧ current_tid s1 = current_tid s ∧
    num_threads s1 = if is_first_call s then 1 else num_threads s.
Proof.
  intros Hi. destruct (is_first_call s) eqn:Ef.
  - destruct (first_call_inv s q Hi Ef) as (s1 & E & Hw & Hst & Ef1 & En & Ec & Eh & Em).
    exists s1. split_and!; try done. rewrite Ec. by rewrite (current_first s q) by eauto with threads.
  - exists s. split_and!; try done; eauto with threads.
Qed.

Lemma create_inv start_routine arg s q o s' : inv_q s q →
  pthread_create start_routine arg s = Done (o, s') →
  inv_q s' q ∧ (heap s' = heap s ∨ ∃ p, heap s !! p = None ∧ heap s' = <[p := OStack]> (heap s)) ∧
  current_tid s' = current_tid s.
Proof.
  intros Hi Hc. rewrite pthread_create_first in Hc.
  destruct (create_setup s q Hi) as (s1 & E & Hw & Hst & Ef & Eh & Em & Ec & En).
  rewrite E in Hc. cbn [mbind run_mbind] in Hc.
  destruct (Z.lt_ge_cases (num_threads s1) MAX_THREADS) as [Hlt|Hge].
  - destruct (malloc_at (heap s1) THREAD_STACK_SIZE) as [p|] eqn:Hp.
    + destruct (create_thread_ok start_routine arg s1 q p Hw Ef Hlt Hp) as (w & e & E1 & Hprep).
      rewrite E1 in Hc. injection Hc as <- <-.
      destruct (stack_top_ok _ _ Hp) as (_ & _ & _ & Hf).
      split; [by eapply created_inv|]. cbn [heap created current_tid]. rewrite Eh in *. split; [|done].
      right. by exists p.
    + by apply create_thread_no_memory in Hc.
  - rewrite create_thread_full in Hc by lia. injection Hc as <- <-. split; [|by split; [left|]].
    eapply (ret_ok (RInt (-1))); [exact Hw|exact Hst|done].
Qed.

(** ** Entering the routine *)

Lemma get_reg_total w r : length w = 8%nat → is_reg r → ∃ v, get_reg w r = Done v.
Proof.
  intros Hl Hr. pose proof (reg_kind r Hr) as Hk. unfold is_reg in Hr.
  destruct (aread_lt w r) as (v & E & _); [lia|]. unfold get_reg. rewrite E. rstep.
  destruct (mangled r); [by eexists|]. destruct (plain r); [by eexists|done].
Qed.

Lemma enter_ok w s : entry_ok w (mem s) →
  ∃ routine arg mm, get_reg w JBL_R12 = Done routine ∧ get_reg w JBL_R13 = Done arg ∧
    enter w s = Done (Some (RStart routine arg addr_pthread_exit), set_pc (set_mem s mm) User) ∧
    ∀ sp, sp mod 16 = 8 → mm !! sp = mem s !! sp.
Proof.
  intros (Hl & Hpc & sp & Hsp & Hrange & Hmod & Htop).
  destruct (get_reg_total w JBL_R12 Hl) as [r Hr]; [done|].
  destruct (get_reg_total w JBL_R13 Hl) as [a Ha]; [done|].
  destruct (get_reg_total w JBL_RBP Hl) as [bp Hbp]; [done|].
  unfold enter, load_regs. rewrite Hpc, Hsp, Hbp, Hr, Ha. rstep. cbn [rip]. rewrite Z.eqb_refl. cbn [negb].
  destruct (start_thunk_ok (Cpu addr_start_thunk sp bp 0 r a (mem s)) Hrange) as (c & -> & Er & Ed & Es & Ew).
  cbn [rip rdi rsp r12 r13 words] in *. rstep.
  assert (∀ x, x mod 16 = 8 → words c !! x = mem s !! x) as Hkeep.
  { intros x Hx. apply Ew. unfold wrap. intros ->. revert Hx.
    pose proof (Z.mod_le sp 16 (proj1 Hrange) ltac:(done)).
    assert ((sp - 8) mod 16 = 0) by (clear - Hmod; dlia). rewrite (Z.mod_small (sp - 8) (2 ^ 64)) by lia. lia. }
  rewrite Es, (Hkeep sp Hmod), Htop. exists r, a, (words c). by rewrite Er, Ed.
Qed.

Lemma enter_inv w s q o s' : inv_q s q → entry_ok w (mem s) → enter w s = Done (o, s') →
  inv_q s' q ∧ heap s' = heap s ∧ current_tid s' = current_tid s ∧
  ∃ routine arg, o = Some (RStart routine arg addr_pthread_exit).
Proof.
  intros Hi Hw He. destruct (enter_ok w s Hw) as (r & a & mm & _ & _ & E & Hkeep).
  rewrite E in He. injection He as <- <-. split; [|split_and!; [done|done|by exists r, a]].
  pose proof Hi as [Hwi [_ Hst]]. split; [|by split].
  apply winv_pc, winv_mem; [done|]. intros sp Hsp Hm. by rewrite Hkeep.
Qed.
End create.
