(* ===== verification/ThreadsView.v ===== *)
(** * Steps and mutexes: the library refines a lock with a first-in first-out
      queue *)

From S2P Require Export ThreadsCreate.

(** ** The abstract locks

    A map from the addresses of mutexes to whether each is held and the threads
    waiting for it, first come first. *)
Definition mutexes : Type := Z → option (bool * list Z).

Definition same_mutexes_as : relation mutexes := pointwise_relation Z eq.
Infix "≡ₘ" := same_mutexes_as (at level 70, no associativity).

#[export] Instance same_mutexes_equiv : Equivalence same_mutexes_as.
Proof. unfold same_mutexes_as. apply _. Qed.

#[export] Instance upd_proper p : Proper (same_mutexes_as ==> eq ==> same_mutexes_as) (λ A, upd A p).
Proof. intros A B E x y -> a. unfold upd. case_decide; [done|apply E]. Qed.

(** What a step of thread [self] does to the locks. *)
Definition spec_step (self : Z) (l : label) (r : option result) (A A' : mutexes) : Prop :=
  match l with
  | Call MutexInit => ∃ p, r = Some (RPtr p 0) ∧ A p = None ∧ A' ≡ₘ upd A p (Some (false, []))
  | Call (MutexDestroy p) =>
      match A p with
      | Some (true, _) => r = Some (RInt (-1)) ∧ A' ≡ₘ A
      | Some (false, ts) => ts = [] ∧ r = Some (RInt 0) ∧ A' ≡ₘ upd A p None
      | None => False
      end
  | Call (MutexLock p) =>
      match A p with
      | Some (false, ts) => ts = [] ∧ r = Some (RInt 0) ∧ A' ≡ₘ upd A p (Some (true, []))
      | Some (true, ts) => r = None ∧ A' ≡ₘ upd A p (Some (true, ts ++ [self]))
      | None => False
      end
  | Call (MutexUnlock p) =>
      match A p with
      | Some (_, []) => r = Some (RInt 0) ∧ A' ≡ₘ upd A p (Some (false, []))
      | Some (_, t :: ts) => r = None ∧ A' ≡ₘ upd A p (Some (bool_decide (ts ≠ []), ts))
      | None => False
      end
  | _ => A' ≡ₘ A
  end.

Lemma spec_step_proper self l r A B A' B' :
  A ≡ₘ B → A' ≡ₘ B' → spec_step self l r A A' → spec_step self l r B B'.
Proof.
  intros E E'. assert (∀ C, A' ≡ₘ C → B' ≡ₘ C) as Htr by (intros C HC; by rewrite <- E').
  assert (∀ p x, A' ≡ₘ upd A p x → B' ≡ₘ upd B p x) as Hu
    by (intros p x HC; rewrite <- E'; rewrite HC; by apply upd_proper).
  assert (A' ≡ₘ A → B' ≡ₘ B) as Hs by (intros HC; by rewrite <- E', HC, E).
  pose proof (λ p, E p) as Ep. destruct l as [[]| |]; cbn [spec_step]; try by apply Hs.
  - intros (p & ? & Hp & ?). exists p. rewrite <- Ep. by split_and!; try apply Hu.
  - rewrite <- Ep. destruct (A m) as [[[] ts]|]; [| |done]; [intros [? ?]|intros (? & ? & ?)]; auto.
  - rewrite <- Ep. destruct (A m) as [[[] ts]|]; [| |done]; [intros [? ?]|intros (? & ? & ?)]; auto.
  - rewrite <- Ep. destruct (A m) as [[b [|t ts]]|]; [| |done]; intros [? ?]; auto.
Qed.

(** The locks of a heap with its queues. *)
Definition view (h : gmap Z obj) (q : Z → list (Z * Z)) : mutexes := λ p,
  match h !! p with
  | Some (OMutex m) => Some (negb (locked m =? 0), (q p).*2)
  | _ => None
  end.

Definition same_view (h h' : gmap Z obj) : Prop :=
  ∀ a m, h' !! a = Some (OMutex m) ↔ h !! a = Some (OMutex m).

Definition is_mutex (o : option obj) : Prop := ∃ m, o = Some (OMutex m).

Lemma view_same h h' q : same_view h h' → view h' q ≡ₘ view h q.
Proof.
  intros Hs p. unfold view.
  destruct (h' !! p) as [[| | |m'|]|] eqn:E'; destruct (h !! p) as [[| | |m|]|] eqn:E; try done;
    try (apply Hs in E'; congruence); try (apply (Hs p) in E; congruence).
Qed.

Lemma same_view_refl h : same_view h h.
Proof. done. Qed.

Lemma same_view_insert h p o : ¬ is_mutex (h !! p) → ¬ is_mutex (Some o) → same_view h (<[p := o]> h).
Proof.
  intros Hp Ho a m. rewrite lookup_insert. case_decide as E; [|done]. subst a. split.
  - intros [= ->]. exfalso. apply Ho. by eexists.
  - intros Ha. exfalso. apply Hp. by eexists.
Qed.

Lemma same_view_delete h p : ¬ is_mutex (h !! p) → same_view h (delete p h).
Proof.
  intros Hp a m. rewrite lookup_delete. case_decide as E; [|done]. subst a. split; [done|].
  intros Ha. exfalso. apply Hp. by eexists.
Qed.

(** The locks after a change to one mutex. *)
Lemma view_upd h h' q p m' ns : same_mutexes h h' p → h' !! p = Some (OMutex m') →
  view h' (upd q p ns) ≡ₘ upd (view h q) p (Some (negb (locked m' =? 0), ns.*2)).
Proof.
  intros Hs Hp a. unfold upd at 2. case_decide as E.
  - subst a. unfold view. by rewrite Hp, upd_eq.
  - unfold view. rewrite upd_ne by done.
    destruct (h' !! a) as [[| | |ma|]|] eqn:E'; destruct (h !! a) as [[| | |mb|]|] eqn:E''; try done;
      try (apply (Hs a) in E'; [congruence|done]); try (apply (Hs a) in E''; [congruence|done]).
Qed.

Lemma same_mutexes_insert h p o : same_mutexes h (<[p := o]> h) p.
Proof. intros a m Ha. by rewrite lookup_insert_ne. Qed.

Section views.
Context `{Image} {IS : ImageSpec} `{Malloc} {MS : MallocSpec} {MA : MallocAligned}.

Lemma malloc_not_mutex h n p : malloc_at h n = Some p → ¬ is_mutex (h !! p).
Proof. intros E [m Hm]. destruct (malloc_fresh _ _ _ E) as (Hf & _). congruence. Qed.

Lemma not_mutex_obj o : (∀ m, o ≠ OMutex m) → ¬ is_mutex (Some o).
Proof. intros Ho [m [= ->]]. by apply (Ho m). Qed.

Lemma yield_view here s q o s' : winv s q → yield here s = Done (o, s') → heap s' = heap s.
Proof.
  intros Hw Hy. unfold yield in Hy. rinv Hy as s1 E. injection Hy as <- <-.
  by destruct (schedule_keeps _ _ _ (w_len _ _ Hw) E) as (-> & _).
Qed.

Lemma free_view p s s' : free p s = Done s' → ¬ is_mutex (heap s !! p) → same_view (heap s) (heap s').
Proof.
  unfold free. destruct (p =? NULL); [by intros [= ->]|]. destruct (heap s !! p) eqn:E; [|done].
  intros [= <-] Hn. apply same_view_delete. by rewrite E.
Qed.

(** ** Operations that touch no lock *)

Definition quiet s q s' : Prop := inv_q s' q ∧ same_view (heap s) (heap s').

Lemma exit_quiet v s q o s' : inv_q s q → pthread_exit v s = Done (o, s') → quiet s q s'.
Proof.
  intros Hi He. split; [by eapply exit_inv|]. unfold pthread_exit in He. rinv He as s1 E1.
  apply update_inv in E1 as (t & _ & ->). rinv He as s2 E2. apply update_inv in E2 as (t2 & _ & ->).
  unfold yield in He. rinv He as s3 E3. injection He as <- <-.
  apply schedule_keeps in E3 as (-> & _); [done|]. cbn. rewrite !length_insert. apply Hi.
Qed.

Lemma self_quiet s q o s' : inv_q s q → pthread_self s = Done (o, s') → quiet s q s'.
Proof.
  intros Hi He. split; [by eapply self_inv|]. unfold pthread_self in He. rinv He as t E.
  by injection He as <- <-.
Qed.

Lemma join_quiet thread retval s q o s' : inv_q s q →
  (∀ t, zget (threads s) thread = Some t → status t = TS_EXITED →
    stack t = NULL ∨ heap s !! stack t = Some OStack) →
  pthread_join thread retval s = Done (o, s') → quiet s q s'.
Proof.
  intros Hi Hown Hj. split; [by eapply join_inv|]. unfold pthread_join in Hj. rinv Hj as t E.
  apply lift_Done_inv, aread_Ret in E. case_decide as Hst.
  - rinv Hj as s1 E1. destruct (retval =? NULL); [done|]. injection Hj as <- <-.
    destruct (Hown t E Hst) as [Hs|Hs].
    + unfold free in E1. rewrite Hs in E1. by injection E1 as <-.
    + eapply (free_view _ _ _ E1). rewrite Hs. by apply not_mutex_obj.
  - by rewrite (yield_view _ s q _ _ (inv_winv _ _ Hi) Hj).
Qed.

Lemma barrier_not_mutex (h : gmap Z obj) p b : h !! p = Some (OBarrier b) → ¬ is_mutex (h !! p).
Proof. intros -> [m [=]]. Qed.
#[local] Hint Resolve barrier_not_mutex malloc_not_mutex : threads.

Lemma barrier_insert (h : gmap Z obj) p b b' : h !! p = Some (OBarrier b) → same_view h (<[p := OBarrier b']> h).
Proof. intros E. apply same_view_insert; [by eauto with threads|by apply not_mutex_obj]. Qed.

Lemma barrier_init_quiet n s q o s' : inv_q s q → pthread_barrier_init n s = Done (o, s') → quiet s q s'.
Proof.
  intros Hi Hm. split; [by eapply barrier_init_inv|]. unfold pthread_barrier_init, malloc in Hm.
  destruct (malloc_at (heap s) sizeof_barrier) as [p|] eqn:E; [|done]. cbn [mbind run_mbind] in Hm.
  destruct (p =? NULL); [done|]. injection Hm as <- <-. apply same_view_insert; [by eauto with threads|].
  by apply not_mutex_obj.
Qed.

Lemma barrier_destroy_quiet p s q o s' : inv_q s q → pthread_barrier_destroy p s = Done (o, s') → quiet s q s'.
Proof.
  intros Hi Hm. split; [by eapply barrier_destroy_inv|]. unfold pthread_barrier_destroy in Hm. rinv Hm as b E.
  apply get_barrier_inv in E. destruct (negb (init b =? 1) || _); [by injection Hm as <- <-|].
  rinv Hm as s1 E1. injection Hm as <- <-. by eapply (free_view _ _ _ E1), barrier_not_mutex.
Qed.

Lemma barrier_wait_quiet p s q o s' : inv_q s q → pthread_barrier_wait p s = Done (o, s') → quiet s q s'.
Proof.
  intros Hi Hm. split; [by eapply barrier_wait_inv|]. pose proof (inv_heap s q Hi) as Hh.
  unfold pthread_barrier_wait in Hm. rinv Hm as b E.
  apply get_barrier_inv in E. destruct (h_barrier _ _ Hh p b E) as (Hinit & _ & _).
  destruct (threads_blocked b =? 2 ^ 31 - 1); [done|]. unfold set_count in Hm. cbn [init] in Hm.
  rewrite Hinit in Hm. injection Hm as <- <-. by eapply barrier_insert.
Qed.

Lemma barrier_loop_quiet p s q o s' : inv_q s q → barrier_loop p s = Done (o, s') → quiet s q s'.
Proof.
  intros Hi Hm. split; [by eapply barrier_loop_inv|]. pose proof (inv_heap s q Hi) as Hh.
  unfold barrier_loop in Hm. rinv Hm as b E.
  apply get_barrier_inv in E. destruct (h_barrier _ _ Hh p b E) as (Hinit & _ & _).
  destruct (threads_blocked b <? count b).
  - by rewrite (yield_view _ s q _ _ (inv_winv _ _ Hi) Hm).
  - rewrite Hinit in Hm. by injection Hm as <- <-.
Qed.

Lemma barrier_leave_quiet p s q o s' : inv_q s q → barrier_leave p s = Done (o, s') → quiet s q s'.
Proof.
  intros Hi Hm. split; [by eapply barrier_leave_inv|]. unfold barrier_leave in Hm. rinv Hm as b E.
  apply get_barrier_inv in E. injection Hm as <- <-. by eapply barrier_insert.
Qed.

Lemma create_quiet r a s q o s' : inv_q s q → pthread_create r a s = Done (o, s') → quiet s q s'.
Proof.
  intros Hi Hc. destruct (create_inv _ _ _ _ _ _ Hi Hc) as (Hi' & Hh & _). split; [done|].
  destruct Hh as [->|(p & Hp & ->)]; [done|]. apply same_view_insert; [|by apply not_mutex_obj].
  rewrite Hp. by intros [m [=]].
Qed.

Lemma yield_quiet here s q o s' : inv_q s q → point_ok (mem s) here →
  yield here s = Done (o, s') → quiet s q s'.
Proof.
  intros Hi Hp Hy. split; [by eapply (yield_inv here s); [eauto with threads| |exact Hy]|].
  by rewrite (yield_view _ s q _ _ (inv_winv _ _ Hi) Hy).
Qed.

(** Going on in the library, or being interrupted. *)
Lemma resume_quiet s q o s' : inv_q s q → joins_own_stack Go s → resume s = Done (o, s') → quiet s q s'.
Proof.
  intros Hi Hown Hr. pose proof Hi as [Hw [Hp Hst]].
  assert (∀ r, ret r s = Done (o, s') → quiet s q s') as Hret.
  { intros r [= <- <-]. split; [|done]. eapply (ret_ok r); eauto with threads. }
  unfold resume in Hr. destruct (pc s) eqn:Epc; cbn [point_ok] in Hp; try done; try by eapply Hret.
  - injection Hr as <- <-. by split.
  - destruct (enter_inv _ _ _ _ _ Hi Hp Hr) as (? & E & _). split; [done|]. by rewrite E.
  - eapply join_quiet; [done| |exact Hr]. intros t Ht Hex. apply (Hown thread retval t); [|done..].
    right. by split.
  - by apply (yield_quiet UnlockReturn s q o).
  - by eapply barrier_loop_quiet.
  - by apply (yield_quiet (BarrierLeave b) s q o).
  - by eapply barrier_leave_quiet.
Qed.

Lemma quiet_refines s q s' A : quiet s q s' → A ≡ₘ view (heap s) q →
  ∃ q', inv_q s' q' ∧ view (heap s') q' ≡ₘ A.
Proof. intros [Hi Hs] E. exists q. split; [done|]. rewrite E. by apply view_same. Qed.

(** The state represents the locks [A]. *)
Definition represents s (A : mutexes) : Prop := ∃ q, inv_q s q ∧ A ≡ₘ view (heap s) q.

Lemma boot_slot i t : zget (threads boot) i = Some t → t = Tcb 0 NULL (Words (replicate 8 0)) TS_EXITED 0.
Proof.
  unfold boot; cbn [threads]. rewrite zget_replicate. case_decide; [by intros [= <-]|done].
Qed.

Lemma boot_represents : represents boot (λ _, None).
Proof.
  exists (λ _, []). split; [|by intros p]. split; [split|].
  - unfold boot; cbn [threads]. by rewrite length_replicate.
  - unfold table; cbn [is_first_call boot]. split; try done; [by intros t ->%boot_slot|by intros i t ?%boot_slot].
  - split; [done| |done]. split; [done|done|by intros p x p' x' ?%elem_of_nil|intros; by apply list.NoDup_nil].
  - by intros p x ?%elem_of_nil.
  - split; [done|]. intros t ->%boot_slot. right. by right.
Qed.
End views.
