(* ===== verification/ThreadsTheorems.v ===== *)
(** * Theorems about the threads library *)

From S2P Require Export ThreadsView.

Section theorems.
Context `{Image} {IS : ImageSpec} `{Malloc} {MS : MallocSpec} {MA : MallocAligned}.

(** ** Every step *)

(** After an unlock, the thread that waited longest is ready. *)
Definition wakes (l : label) (A : mutexes) s' : Prop :=
  ∀ p b t ts, l = Call (MutexUnlock p) → A p = Some (b, t :: ts) →
    ∃ u, zget (threads s') t = Some u ∧ status u = TS_READY.

Lemma represents_at s q A p : A ≡ₘ view (heap s) q → A p = view (heap s) q p.
Proof. intros E. apply E. Qed.

Lemma view_at h q p m : h !! p = Some (OMutex m) →
  view h q p = Some (negb (locked m =? 0), (q p).*2).
Proof. unfold view. by intros ->. Qed.

Lemma lock_refines p s q A o s' : inv_q s q → A ≡ₘ view (heap s) q →
  pthread_mutex_lock p s = Done (o, s') →
  ∃ A', represents s' A' ∧ spec_step (current_tid s) (Call (MutexLock p)) o A A'.
Proof.
  intros Hi E Hm. pose proof Hm as Hm'. unfold pthread_mutex_lock in Hm'. rinv Hm' as m Em. clear Hm'.
  apply get_mutex_inv in Em. cbn [spec_step].
  assert (A p = Some (negb (locked m =? 0), (q p).*2)) as Ep by (rewrite E; by apply view_at).
  destruct (inv_heap s q Hi) as [_ Hq _]. pose proof (q_mutex _ _ Hq p m Em) as [_ _ Hbit _].
  destruct Hbit as [Hl|Hl].
  - destruct (lock_free p s q m o s' Hi Em Hl Hm) as (-> & Hi' & Hnil & _ & Hh).
    rewrite Ep, Hl, Hnil. cbn [Z.eqb negb]. exists (upd A p (Some (true, []))). split; [|by split_and!].
    exists (upd q p []). split; [done|]. rewrite Hh.
    rewrite (view_upd (heap s) _ q p _ [] (same_mutexes_insert _ _ _) (lookup_insert_eq _ _ _)).
    by apply upd_proper.
  - destruct (lock_wait p s q m o s' Hi Em Hl Hm) as (-> & n & m' & Hi' & Hs & Hp' & Hl').
    rewrite Ep, Hl. cbn [Z.eqb negb]. eexists. split; [|by split].
    exists (upd q p (q p ++ [(n, current_tid s)])). split; [done|].
    rewrite (view_upd (heap s) _ q p m' _ Hs Hp'), Hl', fmap_app. by apply upd_proper.
Qed.

Lemma unlock_refines p s q A o s' : inv_q s q → A ≡ₘ view (heap s) q →
  pthread_mutex_unlock p s = Done (o, s') →
  ∃ A', represents s' A' ∧ spec_step (current_tid s) (Call (MutexUnlock p)) o A A' ∧
    wakes (Call (MutexUnlock p)) A s'.
Proof.
  intros Hi E Hm. pose proof Hm as Hm'. unfold pthread_mutex_unlock in Hm'. rinv Hm' as m Em. clear Hm'.
  apply get_mutex_inv in Em. cbn [spec_step].
  assert (A p = Some (negb (locked m =? 0), (q p).*2)) as Ep by (rewrite E; by apply view_at).
  destruct (q p) as [|x ns] eqn:Hq.
  - destruct (unlock_free p s q m o s' Hi Em Hq Hm) as (-> & Hi' & _ & Hh).
    rewrite Ep. cbn [fmap list_fmap]. exists (upd A p (Some (false, []))). split_and!.
    + exists (upd q p []). split; [done|]. rewrite Hh.
      rewrite (view_upd (heap s) _ q p _ [] (same_mutexes_insert _ _ _) (lookup_insert_eq _ _ _)).
      by apply upd_proper.
    + done.
    + done.
    + intros p' b t ts [= <-] Ep'. rewrite Ep in Ep'. discriminate Ep'.
  - destruct (unlock_wake p s q m x ns o s' Hi Em Hq Hm) as (-> & m' & Hi' & _ & Hs & Hp' & Hl' & Hw & _).
    rewrite Ep. cbn [fmap list_fmap]. eexists. split_and!; [|done|reflexivity|].
    + exists (upd q p ns). split; [done|].
      rewrite (view_upd (heap s) _ q p m' _ Hs Hp'), Hl'. apply upd_proper; [done|].
      f_equal. f_equal. destruct ns as [|y ns]; [by rewrite decide_True|].
      by rewrite decide_False.
    + intros p' b t ts [= <-] Ep'. rewrite Ep in Ep'. injection Ep' as _ <- _. exact Hw.
Qed.

Lemma init_refines s q A o s' : inv_q s q → A ≡ₘ view (heap s) q → pthread_mutex_init s = Done (o, s') →
  ∃ A', represents s' A' ∧ spec_step (current_tid s) (Call MutexInit) o A A'.
Proof.
  intros Hi E Hm. pose proof (mutex_init_inv _ _ _ _ Hi Hm) as Hi'.
  unfold pthread_mutex_init, malloc in Hm. destruct (malloc_at (heap s) sizeof_ptr) as [p|] eqn:Ep; [|done].
  cbn [mbind run_mbind] in Hm. destruct (malloc_fresh _ _ _ Ep) as (Hf & _).
  destruct ((p =? NULL) || _); [done|]. injection Hm as <- <-. cbn [spec_step].
  exists (upd A p (Some (false, []))). split.
  - exists q. split; [exact Hi'|]. rewrite (upd_proper p A _ E (Some (false, [])) _ eq_refl).
    intros a. unfold upd, view. cbn [heap set_pc set_obj set_heap]. rewrite lookup_insert.
    destruct (decide (a = p)) as [->|Hne].
    + rewrite decide_True by done. destruct (inv_heap s q Hi) as [_ Hq _].
      rewrite (q_other _ _ Hq p); [done|]. by rewrite Hf.
    + by rewrite decide_False by done.
  - exists p. split_and!; [done| |done]. rewrite (E p). unfold view. by rewrite Hf.
Qed.

Lemma destroy_refines p s q A o s' : inv_q s q → A ≡ₘ view (heap s) q →
  pthread_mutex_destroy p s = Done (o, s') →
  ∃ A', represents s' A' ∧ spec_step (current_tid s) (Call (MutexDestroy p)) o A A'.
Proof.
  intros Hi E Hm. pose proof (mutex_destroy_inv _ _ _ _ _ Hi Hm) as Hi'.
  pose proof (inv_heap s q Hi) as [Hn Hq Hb].
  unfold pthread_mutex_destroy in Hm. rinv Hm as m Em. apply get_mutex_inv in Em.
  assert (A p = Some (negb (locked m =? 0), (q p).*2)) as Ep by (rewrite E; by apply view_at).
  pose proof (q_mutex _ _ Hq p m Em) as [Hc _ _ Hfree]. cbn [spec_step]. rewrite Ep.
  destruct (Z.eqb_spec (locked m) 0) as [El|El]; cbn [negb] in *.
  - rewrite (Hfree El) in *. cbn [chain] in Hc. rewrite Hc in Hm. unfold heap_fuel in Hm.
    cbn [free_nodes] in Hm. rewrite Z.eqb_refl in Hm. cbn [mbind run_mbind] in Hm. rinv Hm as s1 E1.
    unfold free in E1. destruct (Z.eqb_spec p NULL); [congruence|]. rewrite Em in E1. injection E1 as <-.
    injection Hm as <- <-. exists (upd A p None). split; [|by split_and!].
    exists q. split; [exact Hi'|]. rewrite (upd_proper p A _ E None _ eq_refl).
    intros a. unfold upd, view. cbn [heap set_pc set_heap]. rewrite lookup_delete.
    destruct (decide (a = p)) as [->|]; [by rewrite decide_True|by rewrite decide_False].
  - injection Hm as <- <-. exists A. split; [|by split]. by exists q.
Qed.

(** Every step keeps the invariant and follows the abstract locks. *)
Lemma step_refines s A l r s' : represents s A → joins_own_stack l s → step s l r s' →
  ∃ A', represents s' A' ∧ spec_step (current_tid s) l r A A' ∧ wakes l A s'.
Proof.
  intros (q & Hi & E) Hown Hstep. destruct Hstep as [l' r' s1 Hen Hex]. pose proof Hi as [Hw [Hp _]].
  assert (∀ c, (∀ p, c ≠ Call (MutexUnlock p)) → wakes c A s1) as Hnw.
  { intros c Hc p b t ts Ec _. by destruct (Hc p). }
  assert (∀ c, (∀ p, c ≠ Call (MutexUnlock p)) → (∃ A', represents s1 A' ∧ spec_step (current_tid s) c r' A A') →
    ∃ A', represents s1 A' ∧ spec_step (current_tid s) c r' A A' ∧ wakes c A s1) as Hnw'.
  { intros c Hc (A' & HA & Hs). exists A'. auto. }
  assert (quiet s q s1 → (∀ c, l' = Call c → match c with MutexInit | MutexDestroy _ | MutexLock _ | MutexUnlock _ => False | _ => True end) →
    ∃ A', represents s1 A' ∧ spec_step (current_tid s) l' r' A A' ∧ wakes l' A s1) as Hquiet.
  { intros Hqt Hc. destruct (quiet_refines s q s1 A Hqt E) as (q' & Hi' & E'). exists A. split; [by exists q'|].
    split; [|apply Hnw; intros p ->; by destruct (Hc _ eq_refl)].
    destruct l' as [[]| |]; cbn [spec_step]; try done; by destruct (Hc _ eq_refl). }
  destruct l' as [c| |]; cbn [exec] in Hex.
  - destruct c; cbn [run_call] in Hex.
    + apply Hquiet; [by eapply create_quiet|by intros c [= <-]].
    + apply Hquiet; [by eapply exit_quiet|by intros c [= <-]].
    + apply Hquiet; [by eapply self_quiet|by intros c [= <-]].
    + apply Hquiet; [|by intros c [= <-]]. eapply join_quiet; [done| |exact Hex].
      intros t Ht Hst. apply (Hown thread retval t); [by left|done..].
    + apply Hnw'; [done|]. by eapply init_refines.
    + apply Hnw'; [done|]. by eapply destroy_refines.
    + apply Hnw'; [done|]. by eapply lock_refines.
    + by eapply unlock_refines.
    + apply Hquiet; [by eapply barrier_init_quiet|by intros c [= <-]].
    + apply Hquiet; [by eapply barrier_destroy_quiet|by intros c [= <-]].
    + apply Hquiet; [by eapply barrier_wait_quiet|by intros c [= <-]].
  - apply Hquiet; [|done]. by eapply resume_quiet.
  - apply Hquiet; [|done]. by eapply yield_quiet.
Qed.

Lemma reachable_represents s : reachable s → ∃ A, represents s A.
Proof.
  induction 1 as [|s l r s' _ [A HA] Hown Hstep]; [eexists; apply boot_represents|].
  destruct (step_refines s A l r s' HA Hown Hstep) as (A' & ? & _). by exists A'.
Qed.

Lemma reachable_inv s : reachable s → ∃ q, inv_q s q.
Proof. intros Hr. destruct (reachable_represents s Hr) as (A & q & Hi & _). by exists q. Qed.
End theorems.
