(* ===== verification/ThreadsShape.v ===== *)
(** * The shape of a step: what it does to the other threads

    A step changes the running thread, may ready a blocked thread or fill an
    unused slot, and may end in [schedule]. *)

From S2P Require Export ThreadsTheorems.

(** [s1] has the running thread of [s], and the others have at most been
    readied or created; the timer is not set. *)
Definition others (s s1 : sys) : Prop :=
  current_tid s1 = current_tid s ∧ Z.of_nat (length (threads s1)) = MAX_THREADS ∧
  is_first_call s1 = false ∧ (timer s = false → timer s1 = false) ∧
  (∀ j t, zget (threads s) j = Some t → j ≠ current_tid s → ∃ t', zget (threads s1) j = Some t' ∧
    (t' = t ∨ (status t = TS_BLOCKED ∧ t' = with_status TS_READY t) ∨
      (status t = TS_EMPTY ∧ ∃ w, regs t' = Words w))).

(** The place [here] a step that ends in [schedule] leaves its thread at. *)
Inductive shape (s s' : sys) : option point → Prop :=
  | shape_stay : others s s' → shape s s' None
  | shape_switch s1 here : others s s1 → schedule here s1 = Done s' → shape s s' (Some here).

Section shape.
Context `{Image} {IS : ImageSpec} `{Malloc} {MS : MallocSpec} {MA : MallocAligned}.

Lemma others_refl s : Z.of_nat (length (threads s)) = MAX_THREADS → is_first_call s = false → others s s.
Proof. intros Hl Hf. split_and!; [done..|]. intros j t Hj _. exists t. split; [done|by left]. Qed.

(** Parts of the state that do not matter here. *)
Lemma others_same s s1 s2 : others s s1 → threads s2 = threads s1 → current_tid s2 = current_tid s1 →
  is_first_call s2 = is_first_call s1 → (timer s1 = false → timer s2 = false) → others s s2.
Proof. intros (Hc & Hl & Hf & Hti & Ho) Et Ec Ef Eti. unfold others. rewrite Et, Ec, Ef. split_and!; auto. Qed.

(** An assignment to the running thread. *)
Lemma others_current s s1 t t' : others s s1 → zget (threads s1) (current_tid s) = Some t →
  others s (set_threads s1 (<[Z.to_nat (current_tid s) := t']> (threads s1))).
Proof.
  intros (Hc & Hl & Hf & Hti & Ho) Ht. split_and!; [done|cbn [threads set_threads]; by rewrite length_insert|done|done|].
  intros j u Hj Hne. cbn [threads set_threads]. rewrite (zget_set _ _ _ _ _ Ht), decide_False by done. eauto.
Qed.

Lemma others_update s s1 s2 f : others s s1 → update (current_tid s1) f s1 = Done s2 → others s s2.
Proof.
  intros Ho Hu. apply update_inv in Hu as (t & Ht & ->). pose proof Ho as (Hc & _). rewrite Hc in *.
  by eapply others_current.
Qed.

Lemma free_same p s1 s2 : free p s1 = Done s2 →
  threads s2 = threads s1 ∧ current_tid s2 = current_tid s1 ∧ is_first_call s2 = is_first_call s1 ∧ timer s2 = timer s1.
Proof.
  unfold free. destruct (p =? NULL); [by intros [= ->]|]. destruct (heap s1 !! p); [|done]. by intros [= <-].
Qed.

Lemma free_nodes_same n : ∀ nd s1 s2, free_nodes n nd s1 = Done s2 →
  threads s2 = threads s1 ∧ current_tid s2 = current_tid s1 ∧ is_first_call s2 = is_first_call s1 ∧
  timer s2 = timer s1.
Proof.
  induction n as [|n IH]; intros nd s1 s2; cbn [free_nodes]; [done|].
  destruct (nd =? NULL); [by intros [= ->]|]. intros E. rinv E as x E1. rinv E as s3 E3.
  destruct (free_same _ _ _ E3) as (? & ? & ? & ?). destruct (IH _ _ _ E) as (? & ? & ? & ?).
  split_and!; congruence.
Qed.

Section op.
Context (s : sys) (q : Z → list (Z * Z)) (Hi : inv_q s q) (Hf : is_first_call s = false).

Lemma self_others : others s s.
Proof. apply others_refl; [apply Hi|done]. Qed.

#[local] Hint Resolve self_others : threads.

Lemma stay_same s' : threads s' = threads s → current_tid s' = current_tid s →
  is_first_call s' = is_first_call s → (timer s = false → timer s' = false) → shape s s' None.
Proof. intros. constructor. eapply others_same; eauto with threads. Qed.

Lemma yield_shape here s1 o s' : others s s1 → yield here s1 = Done (o, s') → shape s s' (Some here).
Proof.
  intros Ho Hy. unfold yield in Hy. rinv Hy as s2 E. injection Hy as <- <-. by econstructor.
Qed.

Lemma create_shape r a o s' : pthread_create r a s = Done (o, s') → shape s s' None.
Proof.
  intros Hc. rewrite pthread_create_first, Hf in Hc. cbn [mbind run_mbind] in Hc.
  destruct (Z.lt_ge_cases (num_threads s) MAX_THREADS) as [Hlt|Hge].
  - destruct (malloc_at (heap s) THREAD_STACK_SIZE) as [p|] eqn:Hp.
    + destruct (create_thread_ok r a s q p (inv_winv _ _ Hi) Hf Hlt Hp) as (w & e & E1 & Hprep).
      rewrite E1 in Hc. injection Hc as <- <-. constructor.
      pose proof self_others as (_ & Hl & _ & _).
      split_and!; [done|cbn [threads created]; by rewrite length_insert|done|done|].
      intros j t Hj Hne. pose proof (inv_winv _ _ Hi) as [_ Ht _ _]. unfold table in Ht. rewrite Hf in Ht.
      destruct Ht as [Hnum _ Hslot _ _ _].
      destruct (proj2 (zget_is_Some (threads s) (num_threads s))) as [t0 Hi0]; [lia|].
      cbn [threads created]. rewrite (zget_set _ _ _ _ _ Hi0). case_decide as E; [|exists t; split; [done|by left]].
      eexists. split; [done|]. right. right. split; [apply (Hslot j t Hj); lia|by exists w].
    + by apply create_thread_no_memory in Hc.
  - rewrite create_thread_full in Hc by lia. injection Hc as <- <-. by apply stay_same.
Qed.

Lemma exit_shape v o s' : pthread_exit v s = Done (o, s') → shape s s' (Some ExitReturn).
Proof.
  intros He. unfold pthread_exit in He. rinv He as s1 E1. rinv He as s2 E2.
  eapply yield_shape; [|exact He].
  assert (others s s1) as H1 by (eapply others_update; [apply self_others|exact E1]).
  assert (others s s2) as H2 by (eapply others_update; [exact H1|exact E2]).
  eapply others_same; [exact H2|done..].
Qed.

Lemma join_shape t r o s' : pthread_join t r s = Done (o, s') →
  (shape s s' None ∧ pc s' = User) ∨ shape s s' (Some (JoinLoop t r)).
Proof.
  intros Hj. unfold pthread_join in Hj. rinv Hj as u E. case_decide.
  - left. rinv Hj as s1 E1. destruct (r =? NULL); [done|]. injection Hj as <- <-.
    destruct (free_same _ _ _ E1) as (? & ? & ? & ?). split; [apply stay_same; cbn; congruence|done].
  - right. eapply yield_shape; [apply self_others|exact Hj].
Qed.

Lemma lock_shape p o s' : pthread_mutex_lock p s = Done (o, s') →
  (shape s s' None ∧ pc s' = User) ∨ shape s s' (Some LockReturn).
Proof.
  intros Hm. unfold pthread_mutex_lock in Hm. rinv Hm as m Em. destruct (locked m =? 0).
  - left. rinv Hm as s1 E1. injection Hm as <- <-. split; [|done]. constructor.
    eapply others_same; [eapply others_update; [|exact E1]|done..].
    eapply others_same; [apply self_others|done..].
  - right. rinv Hm as s1 E1. rinv Hm as ns E2. destruct ns as [n s2].
    destruct (n =? NULL); [done|]. rinv Hm as s3 E3. eapply yield_shape; [|exact Hm].
    assert (others s s1) as H1.
    { eapply others_update; [|exact E1]. eapply others_same; [apply self_others|done..]. }
    assert (threads s2 = threads s1 ∧ current_tid s2 = current_tid s1 ∧ is_first_call s2 = is_first_call s1 ∧ timer s2 = timer s1) as (? & ? & ? & ?).
    { unfold malloc in E2. destruct (malloc_at _ _); by injection E2 as <- <-. }
    assert (threads s3 = threads s2 ∧ current_tid s3 = current_tid s2 ∧ is_first_call s3 = is_first_call s2 ∧ timer s3 = timer s2) as (? & ? & ? & ?).
    { unfold append_node in E3. destruct (_ =? NULL); [by injection E3 as <-|].
      destruct (_ =? NULL).
      - rinv E3 as h E4. by injection E3 as <-.
      - rinv E3 as h E4. injection E3 as <-. unfold waste. by destruct (malloc_at _ _). }
    eapply others_same; [exact H1|congruence..].
Qed.

Lemma unlock_shape p o s' : pthread_mutex_unlock p s = Done (o, s') →
  shape s s' None ∧ (pc s' = User ∨ pc s' = UnlockYield).
Proof.
  intros Hm. pose proof Hm as Hm'. unfold pthread_mutex_unlock in Hm'. rinv Hm' as m Em. clear Hm'.
  apply get_mutex_inv in Em. destruct (q p) as [|x ns] eqn:Hq.
  - pose proof (mutex_head s q p m (inv_heap _ _ Hi) Em) as Hhd.
    unfold pthread_mutex_unlock in Hm. rewrite (get_mutex_ok _ _ _ Em) in Hm. cbn [mbind run_mbind] in Hm.
    rewrite (proj2 Hhd Hq), Z.eqb_refl in Hm. injection Hm as <- <-. split; [by apply stay_same|by left].
  - unfold pthread_mutex_unlock in Hm. rewrite (get_mutex_ok _ _ _ Em) in Hm. cbn [mbind run_mbind] in Hm.
    pose proof (inv_heap _ _ Hi) as Hh.
    destruct (pop_ok p m x ns (heap s) q Hh Em Hq) as (nx & Hx & _ & Hhd & _).
    destruct (Z.eqb_spec (blocked_threads_head m) NULL); [done|].
    unfold get_node in Hm. cbn [heap lock set_masked] in Hm. rewrite Hx in Hm. cbn [mbind run_mbind node_tid] in Hm.
    rinv Hm as s1 E1. rinv Hm as s2 E2. injection Hm as <- <-. split; [|by right]. constructor.
    apply free_same in E2 as (Et & Ec & Ef & Eti).
    apply update_inv in E1 as (t & Ht & ->). cbn [threads current_tid is_first_call timer set_threads lock set_masked] in *.
    split_and!; [by rewrite <- Ec|cbn; rewrite Et, length_insert; apply Hi|cbn; congruence|cbn; congruence|].
    intros j u Hj Hne. cbn [threads set_pc unlock set_masked set_obj set_heap]. rewrite Et, (zget_set _ _ _ _ _ Ht).
    destruct (w_wait _ _ (inv_winv _ _ Hi) p x) as (t' & Ht' & Hb); [rewrite Hq; left|].
    assert (t' = t) as -> by congruence.
    case_decide as E; [|exists u; split; [done|by left]]. subst j. assert (u = t) as -> by congruence.
    eexists. split; [done|]. right. by left.
Qed.

(** The point a step leaves its thread at. *)
Definition left_at (h : option point) s' : point := match h with None => pc s' | Some here => here end.

(** How a thread gets to the points of [pthread_barrier_wait] behind the loop. *)
Definition leaves_loop (l : label) (np : point) : Prop := ∀ p,
  (np = BarrierYield p → (l = Tick ∧ pc s = BarrierYield p) ∨
     (l = Go ∧ pc s = BarrierLoop p ∧ ∃ b, heap s !! p = Some (OBarrier b) ∧ count b ≤ threads_blocked b)) ∧
  (np = BarrierLeave p → (l = Tick ∧ pc s = BarrierLeave p) ∨ (l = Go ∧ pc s = BarrierYield p)).

Lemma elsewhere l np : (∀ p, np ≠ BarrierYield p ∧ np ≠ BarrierLeave p) → leaves_loop l np.
Proof. intros Hn p. destruct (Hn p). by split. Qed.

Definition shaped (l : label) s' : Prop := ∃ h, shape s s' h ∧ leaves_loop l (left_at h s').

Lemma shaped_stay l s' : shape s s' None → (∀ p, pc s' ≠ BarrierYield p ∧ pc s' ≠ BarrierLeave p) → shaped l s'.
Proof. intros Hs Hp. exists None. split; [done|]. by apply elsewhere. Qed.

Lemma shaped_switch l s' here : shape s s' (Some here) → (∀ p, here ≠ BarrierYield p ∧ here ≠ BarrierLeave p) →
  shaped l s'.
Proof. intros Hs Hp. exists (Some here). split; [done|]. by apply elsewhere. Qed.

Lemma ret_shaped l r o s' : ret r s = Done (o, s') → shaped l s'.
Proof. intros [= <- <-]. apply shaped_stay; [by apply stay_same|done]. Qed.

Lemma yield_shaped l here o s' : yield here s = Done (o, s') → leaves_loop l here → shaped l s'.
Proof. intros Hy Hl. exists (Some here). split; [|done]. eapply yield_shape; [apply self_others|exact Hy]. Qed.

Lemma call_shaped c o s' : run_call c s = Done (o, s') → shaped (Call c) s'.
Proof.
  intros Hc. pose proof (inv_heap _ _ Hi) as Hh. destruct c; cbn [run_call] in Hc.
  - pose proof (create_shape _ _ _ _ Hc) as Hs. apply shaped_stay; [done|].
    rewrite pthread_create_first, Hf in Hc. cbn [mbind run_mbind] in Hc.
    destruct (Z.lt_ge_cases (num_threads s) MAX_THREADS).
    + destruct (malloc_at (heap s) THREAD_STACK_SIZE) as [p|] eqn:Hp;
        [|by apply create_thread_no_memory in Hc].
      destruct (create_thread_ok start_routine arg s q p (inv_winv _ _ Hi) Hf) as (w & e & E1 & _); [done..|].
      rewrite E1 in Hc. by injection Hc as <- <-.
    + rewrite create_thread_full in Hc by lia. by injection Hc as <- <-.
  - eapply shaped_switch; [by eapply exit_shape|done].
  - unfold pthread_self in Hc. rinv Hc as t E. by eapply ret_shaped.
  - destruct (join_shape _ _ _ _ Hc) as [[Hs Ep]|Hs]; [apply shaped_stay; [done|by rewrite Ep]|].
    by eapply shaped_switch.
  - unfold pthread_mutex_init, malloc in Hc. destruct (malloc_at (heap s) sizeof_ptr); [|done].
    cbn [mbind run_mbind] in Hc. destruct ((_ =? NULL) || _); [done|]. injection Hc as <- <-.
    apply shaped_stay; [by apply stay_same|done].
  - unfold pthread_mutex_destroy in Hc. rinv Hc as x E. destruct (negb _); [by eapply ret_shaped|].
    rinv Hc as s1 E1. rinv Hc as s2 E2. injection Hc as <- <-.
    assert (threads s1 = threads s ∧ current_tid s1 = current_tid s ∧ is_first_call s1 = is_first_call s ∧
      timer s1 = timer s) as (? & ? & ? & ?).
    { by eapply free_nodes_same. }
    destruct (free_same _ _ _ E2) as (? & ? & ? & ?).
    apply shaped_stay; [|done]. apply stay_same; cbn; congruence.
  - destruct (lock_shape _ _ _ Hc) as [[Hs Ep]|Hs]; [apply shaped_stay; [done|by rewrite Ep]|].
    by eapply shaped_switch.
  - destruct (unlock_shape _ _ _ Hc) as [Hs [Ep|Ep]]; (apply shaped_stay; [done|by rewrite Ep]).
  - unfold pthread_barrier_init, malloc in Hc. destruct (malloc_at (heap s) sizeof_barrier); [|done].
    cbn [mbind run_mbind] in Hc. destruct (_ =? NULL); [done|]. injection Hc as <- <-.
    apply shaped_stay; [by apply stay_same|done].
  - unfold pthread_barrier_destroy in Hc. rinv Hc as x E. destruct (negb _ || _); [by eapply ret_shaped|].
    rinv Hc as s2 E2. injection Hc as <- <-. destruct (free_same _ _ _ E2) as (? & ? & ? & ?).
    apply shaped_stay; [apply stay_same; cbn; congruence|done].
  - unfold pthread_barrier_wait in Hc. rinv Hc as x E. apply get_barrier_inv in E.
    destruct (h_barrier _ _ Hh b x E) as (Hinit & _ & _). destruct (_ =? _); [done|].
    unfold set_count in Hc. cbn [init] in Hc. rewrite Hinit in Hc. injection Hc as <- <-.
    apply shaped_stay; [by apply stay_same|done].
Qed.

Lemma resume_shaped o s' : pc s ≠ User → resume s = Done (o, s') → shaped Go s'.
Proof.
  intros Hu Hr. pose proof Hi as [Hw [Hp _]]. unfold resume in Hr.
  destruct (pc s) eqn:Epc; cbn [point_ok] in Hp; try done; try by eapply ret_shaped.
  - destruct (enter_ok w s Hp) as (x & a & mm & _ & _ & E & _). rewrite E in Hr. injection Hr as <- <-.
    apply shaped_stay; [by apply stay_same|done].
  - destruct (join_shape _ _ _ _ Hr) as [[Hs Ep]|Hs]; [apply shaped_stay; [done|by rewrite Ep]|].
    by eapply shaped_switch.
  - eapply yield_shaped; [exact Hr|]. by apply elsewhere.
  - pose proof Hr as Hl. unfold barrier_loop in Hr. rinv Hr as x E. apply get_barrier_inv in E.
    destruct (Z.ltb_spec (threads_blocked x) (count x)) as [Hlt|Hge].
    + eapply yield_shaped; [exact Hr|]. by apply elsewhere.
    + destruct (h_barrier _ _ (inv_heap _ _ Hi) b x E) as (Hinit & _ & _). rewrite Hinit in Hr.
      cbn [Z.eqb mbind run_mbind] in Hr. injection Hr as <- <-. exists None. split; [by apply stay_same|].
      intros p. split; [|done]. intros [= <-]. right. split_and!; [done|done|by exists x].
  - eapply yield_shaped; [exact Hr|]. intros p. split; [done|]. intros [= <-]. by right.
  - unfold barrier_leave in Hr. rinv Hr as x E. injection Hr as <- <-. apply shaped_stay; [by apply stay_same|done].
Qed.

Lemma step_shaped l o s' : step s l o s' → shaped l s'.
Proof.
  intros Hs. destruct Hs as [l o s' Hen Hex]. destruct l as [c| |]; cbn [exec] in Hex.
  - by eapply call_shaped.
  - eapply resume_shaped; [|exact Hex]. intros E. cbn [enabled] in Hen. by rewrite E in Hen.
  - eapply yield_shaped; [exact Hex|]. intros p. split; intros E; by left.
Qed.
End op.
End shape.
