(* ===== verification/ThreadsFair.v ===== *)
(** * Round robin: every ready thread gets its turn *)

From S2P Require Export ThreadsShape.

(** How many places thread [t] is behind the running one. *)
Definition behind (cur t : Z) : Z := (t - cur) mod MAX_THREADS.

Lemma behind_range cur t : 0 ≤ behind cur t < MAX_THREADS.
Proof. by apply Z.mod_pos_bound. Qed.

Lemma after_behind cur t : 0 ≤ t < MAX_THREADS → after cur (behind cur t) = t.
Proof.
  intros Ht. unfold after, behind. rewrite Zplus_mod_idemp_r.
  replace (cur + (t - cur)) with t by lia. by apply Z.mod_small.
Qed.

Lemma behind_pos cur t : 0 ≤ cur < MAX_THREADS → 0 ≤ t < MAX_THREADS → t ≠ cur → 0 < behind cur t.
Proof. intros. unfold behind, MAX_THREADS in *. dlia. Qed.

Lemma behind_after cur t k : 0 ≤ k ≤ behind cur t → behind (after cur k) t = behind cur t - k.
Proof.
  intros Hk. pose proof (behind_range cur t). unfold behind, after in *.
  rewrite Zminus_mod_idemp_r. replace (t - (cur + k)) with ((t - cur) - k) by lia.
  rewrite <- Zminus_mod_idemp_l. apply Z.mod_small. lia.
Qed.

Section fair.
Context `{Image} {IS : ImageSpec} `{Malloc} {MS : MallocSpec} {MA : MallocAligned}.

Lemma others_ready s s1 t : others s s1 → t ≠ current_tid s → is_ready (threads s) t = true →
  is_ready (threads s1) t = true.
Proof.
  intros (_ & _ & _ & _ & Ho) Hne Hr. unfold is_ready in *. destruct (zget (threads s) t) as [u|] eqn:Hu; [|done].
  apply bool_decide_eq_true in Hr. destruct (Ho t u Hu Hne) as (u' & -> & [->|[[? _]|[? _]]]); [|congruence..].
  by apply bool_decide_eq_true.
Qed.

Lemma ready_slot ths t : is_ready ths t = true → 0 ≤ t < Z.of_nat (length ths).
Proof. unfold is_ready. destruct (zget ths t) eqn:E; [|done]. intros _. by eapply zget_range. Qed.

(** A switch brings the processor nearer to a thread that is ready. *)
Lemma switch_fair here s s' t : Z.of_nat (length (threads s)) = MAX_THREADS →
  t ≠ current_tid s → is_ready (threads s) t = true → schedule here s = Done s' →
  current_tid s' ≠ current_tid s ∧
  (current_tid s' = t ∨
   is_ready (threads s') t = true ∧ behind (current_tid s') t < behind (current_tid s) t).
Proof.
  intros Hl Hne Hr Hs. pose proof (ready_slot _ _ Hr) as Ht. rewrite Hl in Ht.
  destruct (schedule_inv here s s' Hl Hs) as (v & k & Hv & [Hk Hrk Hmin (u & Hu & ->)]).
  pose proof (zget_range _ _ _ Hv) as Hcur. rewrite Hl in Hcur.
  pose proof (behind_pos _ _ Hcur Ht Hne) as Hpos. pose proof (behind_range (current_tid s) t) as Hb.
  assert (k ≤ behind (current_tid s) t) as Hle.
  { destruct (Z.le_gt_cases k (behind (current_tid s) t)) as [|Hgt]; [done|]. exfalso.
    specialize (Hmin (behind (current_tid s) t)). rewrite after_behind in Hmin by done.
    unfold is_ready in Hmin, Hr. rewrite (parked_get _ _ _ _ Hv), decide_False in Hmin by done.
    rewrite Hr in Hmin. discriminate Hmin. lia. }
  cbn [current_tid switch_to set_pc set_current].
  assert (after (current_tid s) k ≠ current_tid s) as Hch.
  { unfold after, MAX_THREADS in *. intros E. assert (k = 0 ∨ k = 128) by dlia. lia. }
  split; [done|]. destruct (decide (after (current_tid s) k = t)) as [|Hnt]; [by left|right].
  rewrite behind_after by lia. split; [|lia].
  unfold is_ready. cbn [threads switch_to set_pc set_current set_threads].
  rewrite (zget_set _ _ _ _ _ Hu), decide_False by congruence.
  rewrite (parked_get _ _ _ _ Hv), decide_False by done. exact Hr.
Qed.

Lemma step_fair s q l o s' t : inv_q s q → is_first_call s = false → step s l o s' →
  t ≠ current_tid s → is_ready (threads s) t = true →
  is_first_call s' = false ∧
  (current_tid s' = t ∨
   is_ready (threads s') t = true ∧
   (if decide (current_tid s' = current_tid s) then True
    else behind (current_tid s') t < behind (current_tid s) t)).
Proof.
  intros Hi Hf Hs Hne Hr. destruct (step_shaped s q Hi Hf l o s' Hs) as (h & Hsh & _).
  destruct Hsh as [Ho|s1 here Ho Hsch].
  - pose proof Ho as (Hc & _ & Hf' & _). split; [done|]. right.
    split; [by eapply others_ready|]. by rewrite Hc, decide_True.
  - pose proof Ho as (Hc & Hl & Hf' & _). pose proof (others_ready _ _ _ Ho Hne Hr) as Hr1.
    destruct (schedule_keeps _ _ _ Hl Hsch) as (_ & _ & _ & -> & _). split; [done|].
    rewrite <- Hc in Hne |- *. destruct (switch_fair here s1 s' t Hl Hne Hr1 Hsch) as (Hch & [->|[? ?]]); [by left|].
    right. split; [done|]. by rewrite decide_False.
Qed.

(** Runs in which thread [t] does not get the processor, with the number of
    switches. *)
Inductive passes_over (t : Z) : sys → nat → sys → Prop :=
  | passes_nil s : passes_over t s 0 s
  | passes_cons s l o s1 n s2 :
      joins_own_stack l s → step s l o s1 → current_tid s1 ≠ t → passes_over t s1 n s2 →
      passes_over t s (if decide (current_tid s1 = current_tid s) then n else S n) s2.

Lemma passes_bound t s n s' : passes_over t s n s' →
  ∀ A, represents s A → is_first_call s = false → t ≠ current_tid s → is_ready (threads s) t = true →
  Z.of_nat n < behind (current_tid s) t ∧ is_ready (threads s') t = true.
Proof.
  induction 1 as [s|s l o s1 n s2 Hown Hs Hne1 Hrun IH]; intros A HA Hf Hne Hr.
  - split; [|done]. pose proof (ready_slot _ _ Hr). destruct HA as (q & [Hw _] & _).
    destruct (current_slot s q Hw) as [u Hu]. pose proof (zget_range _ _ _ Hu).
    pose proof (w_len _ _ Hw). apply behind_pos; [lia|lia|done].
  - pose proof HA as (q & Hi & _). destruct (step_refines s A l o s1 HA Hown Hs) as (A1 & HA1 & _).
    destruct (step_fair s q l o s1 t Hi Hf Hs Hne Hr) as (Hf1 & [?|[Hr1 Hb]]); [done|].
    destruct (IH A1 HA1 Hf1 (not_eq_sym Hne1) Hr1) as [Hn Hr']. split; [|done].
    case_decide as E; [by rewrite <- E|]. lia.
Qed.

(** C10: a ready thread is not passed over: in any run of the program (its
    threads may call anything, and the timer may interrupt them anywhere), it
    stays ready until it gets the processor, and the processor changes hands
    fewer times before than the thread is places behind the running one in the
    table, so at most 126 times. *)
Theorem round_robin_fair s t n s' : reachable s → is_first_call s = false →
  t ≠ current_tid s → is_ready (threads s) t = true → passes_over t s n s' →
  Z.of_nat n < behind (current_tid s) t ∧ is_ready (threads s') t = true.
Proof.
  intros Hr Hf Hne Ht Hrun. destruct (reachable_represents s Hr) as [A HA]. by eapply passes_bound.
Qed.

(** C11: in every reachable state after the first [pthread_create], no thread
    but the current one is running, and the current one is running or ready;
    a thread's identifier is its slot, and the slots in use are the first
    [num_threads]; every other thread that is ready or blocked is saved at a
    place from which it can be resumed (a new thread with the registers that
    start it), so the processor never goes to a place that was not saved. *)
Theorem reachable_threads s i t : reachable s → is_first_call s = false →
  zget (threads s) i = Some t →
  tid t = i ∧ (status t = TS_EMPTY ↔ num_threads s ≤ i) ∧
  (status t = TS_RUNNING → i = current_tid s) ∧
  (i = current_tid s → status t = TS_RUNNING ∨ status t = TS_READY) ∧
  (i ≠ current_tid s → status t = TS_READY ∨ status t = TS_BLOCKED → saved_ok (mem s) (regs t)) ∧
  point_ok (mem s) (pc s).
Proof.
  intros Hr Hf Ht. destruct (reachable_inv s Hr) as (q & [Hl Htab Hh Hw] & Hp & Hst).
  unfold table in Htab. rewrite Hf in Htab. destruct Htab as [Hnum Hcur Hslot Hfresh Hrun Hsaved].
  destruct (Hslot i t Ht) as (? & ? & ?). split_and!; try done.
  - intros Es. destruct (decide (i = current_tid s)); [done|]. by destruct (Hrun i t Ht).
  - intros ->. destruct (Hst t Ht) as [?|[?|[? _]]]; [by left|by right|congruence].
  - by apply Hsaved.
Qed.

(** ** The timer *)

Lemma step_timer s q l o s' : inv_q s q → is_first_call s = false → step s l o s' →
  is_first_call s' = false ∧ (timer s = false → timer s' = false).
Proof.
  intros Hi Hf Hs. destruct (step_shaped s q Hi Hf l o s' Hs) as (h & [Ho|s1 here Ho Hsch] & _).
  - by destruct Ho as (_ & _ & ? & ? & _).
  - destruct Ho as (_ & Hl & ? & ? & _). by destruct (schedule_keeps _ _ _ Hl Hsch) as (_ & _ & _ & -> & -> & _).
Qed.

(** Runs of the program. *)
Inductive runs : sys → sys → Prop :=
  | runs_nil s : runs s s
  | runs_cons s l o s1 s2 : joins_own_stack l s → step s l o s1 → runs s1 s2 → runs s s2.

Lemma runs_timer s s' : runs s s' → ∀ A, represents s A → is_first_call s = false → timer s = false →
  timer s' = false.
Proof.
  induction 1 as [|s l o s1 s2 Hown Hs Hrun IH]; intros A HA Hf Ht; [done|].
  destruct (step_refines s A l o s1 HA Hown Hs) as (A1 & HA1 & _). destruct HA as (q & Hi & _).
  destruct (step_timer s q l o s1 Hi Hf Hs) as [Hf1 Ht1]. eauto.
Qed.

Lemma exit_timer v s o s' q : inv_q s q → pthread_exit v s = Done (o, s') → timer s' = false.
Proof.
  intros Hi He. unfold pthread_exit in He. rinv He as s1 E1. rinv He as s2 E2.
  apply update_inv in E1 as (? & _ & ->). apply update_inv in E2 as (? & _ & ->).
  unfold yield in He. rinv He as s3 E3. injection He as <- <-.
  apply schedule_keeps in E3 as (_ & _ & _ & _ & -> & _); [done|]. cbn. rewrite !length_insert. apply Hi.
Qed.

End fair.
