(* ===== verification/ThreadsLocks.v ===== *)
(** * Theorems about mutexes and thread creation *)

From S2P Require Export ThreadsFair.

Section locks.
Context `{Image} {IS : ImageSpec} `{Malloc} {MS : MallocSpec} {MA : MallocAligned}.

(** C8: the linked lists of the mutexes implement locks with first-in first-out
    queues: the program starts with no lock, and each step of a program in a
    state that represents some locks leads to a state that represents the locks
    of the abstract step: a call of lock takes a free lock and returns 0, or
    puts the caller at the end of the queue; an unlock frees the lock, or takes
    the first thread off the queue and makes it ready, the lock staying taken
    only when others still wait; a destroyed lock was free; and no other step
    of the library touches a lock. *)
Theorem mutexes_refine_queues :
  represents boot (λ _, None) ∧
  ∀ s A l r s', represents s A → joins_own_stack l s → step s l r s' →
    ∃ A', represents s' A' ∧ spec_step (current_tid s) l r A A' ∧ wakes l A s'.
Proof. split; [apply boot_represents|]. intros. by eapply step_refines. Qed.

(** ** Mutual exclusion *)

(** The threads for which [pthread_mutex_lock] returned 0 and that have not
    called [pthread_mutex_unlock] since. *)
Definition track (self : Z) (l : label) (r : option result) (held : Z → list Z) : Z → list Z :=
  match l, r with
  | Call (MutexLock p), Some (RInt 0) => upd held p (self :: held p)
  | Call (MutexUnlock p), _ => upd held p (filter (λ t, t ≠ self) (held p))
  | _, _ => held
  end.

(** Only a thread that holds a mutex unlocks it. *)
Definition owner_unlocks (self : Z) (l : label) (held : Z → list Z) : Prop :=
  ∀ p, l = Call (MutexUnlock p) → self ∈ held p.

Inductive holding : sys → (Z → list Z) → Prop :=
  | holding_boot : holding boot (λ _, [])
  | holding_step s held l r s' : holding s held → joins_own_stack l s →
      owner_unlocks (current_tid s) l held → step s l r s' →
      holding s' (track (current_tid s) l r held).

Definition holders_ok (A : mutexes) (held : Z → list Z) : Prop :=
  ∀ p, held p = [] ∨ ∃ t ts, held p = [t] ∧ A p = Some (true, ts).

Lemma holders_same A A' held : holders_ok A held → A' ≡ₘ A → holders_ok A' held.
Proof. intros Hh E p. destruct (Hh p) as [?|(t & ts & ? & Hp)]; [by left|]. right. exists t, ts. by rewrite (E p). Qed.

Lemma holders_upd A A' held p x hs : holders_ok A held → A' ≡ₘ upd A p x →
  (hs = [] ∨ ∃ t ts, hs = [t] ∧ x = Some (true, ts)) → holders_ok A' (upd held p hs).
Proof.
  intros Hh E Hx a. rewrite (E a). unfold upd. case_decide; [done|apply Hh].
Qed.

(** The same, the holders staying as they are. *)
Lemma holders_keep A A' held p x : holders_ok A held → A' ≡ₘ upd A p x →
  (held p = [] ∨ ∃ t ts, held p = [t] ∧ x = Some (true, ts)) → holders_ok A' held.
Proof.
  intros Hh E Hx a. rewrite (E a). unfold upd. case_decide as D; [by subst a|apply Hh].
Qed.

Lemma holders_step self l r A A' held : spec_step self l r A A' → owner_unlocks self l held →
  holders_ok A held → holders_ok A' (track self l r held).
Proof.
  intros Hs Hown Hh. destruct l as [[]| |]; cbn [spec_step track] in *;
    try (by eapply holders_same).
  - destruct Hs as (p & -> & Hp & E). eapply holders_keep; [done..|].
    destruct (Hh p) as [?|(t & ts & _ & Hp')]; [by left|congruence].
  - destruct (Hh m) as [Hm|(t & ts & Hm & Hp')].
    + destruct (A m) as [[[] ts]|]; [by destruct Hs; eapply holders_same| |done].
      destruct Hs as (_ & _ & E). eapply holders_keep; [done..|by left].
    + rewrite Hp' in Hs. destruct Hs. by eapply holders_same.
  - destruct (Hh m) as [Hm|(t & ts & Hm & Hp')].
    + destruct (A m) as [[[] ts]|]; [| |done].
      * destruct Hs as (-> & E). eapply holders_keep; [done..|by left].
      * destruct Hs as (_ & -> & E). cbn. eapply holders_upd; [done..|]. right.
        rewrite Hm. by exists self, [].
    + rewrite Hp' in Hs. destruct Hs as (-> & E). eapply holders_keep; [done..|]. right. eauto.
  - assert (holders_ok A' (upd held m (filter (λ t, t ≠ self) (held m)))) as Hok; [|by destruct r as [[[]| | | |]|]].
    specialize (Hown m eq_refl). destruct (Hh m) as [Hm|(t & ts & Hm & Hp')].
    { rewrite Hm in Hown. by apply elem_of_nil in Hown. }
    rewrite Hm in Hown |- *. apply list_elem_of_singleton in Hown as <-.
    assert (filter (λ u, u ≠ self) [self] = []) as ->.
    { rewrite list.filter_cons. by rewrite decide_False by (intros Hx; by apply Hx). }
    rewrite Hp' in Hs. destruct ts as [|u ts]; destruct Hs as [_ E]; (eapply holders_upd; [done..|by left]).
Qed.

Lemma holding_ok s held : holding s held → ∃ A, represents s A ∧ holders_ok A held.
Proof.
  induction 1 as [|s held l r s' _ (A & HA & Hh) Hown Hunl Hstep].
  - exists (λ _, None). split; [apply boot_represents|]. intros p. by left.
  - destruct (step_refines s A l r s' HA Hown Hstep) as (A' & HA' & Hs & _). exists A'.
    split; [done|]. by eapply holders_step.
Qed.

(** C9: mutual exclusion: in every run of a program in which only holders
    unlock, at most one thread at a time holds a mutex, where a thread holds it
    from a call of [pthread_mutex_lock] that returned 0 to its next call of
    [pthread_mutex_unlock]. *)
Theorem mutual_exclusion s held p : holding s held → (length (held p) ≤ 1)%nat.
Proof.
  intros Hh. destruct (holding_ok s held Hh) as (A & _ & Hok).
  destruct (Hok p) as [->|(t & ts & -> & _)]; cbn; lia.
Qed.

(** ** Creation *)

(** C13: [pthread_create] gives the new thread the next free slot, which is
    also its identifier, and returns 0 while fewer than 128 threads were ever
    created (and memory for the stack can be allocated); the new thread is
    ready, and when it gets the processor it enters its routine with its
    argument and with the address of [pthread_exit] as the return address.
    Afterwards [pthread_create] returns -1. *)
Theorem pthread_create_correct s start_routine arg q : inv_q s q →
  let n := if is_first_call s then 1 else num_threads s in
  (MAX_THREADS ≤ n → ∃ s', pthread_create start_routine arg s = Done (Some (RInt (-1)), s')) ∧
  (n < MAX_THREADS → ∀ p, malloc_at (heap s) THREAD_STACK_SIZE = Some p →
    ∃ s' t, pthread_create start_routine arg s = Done (Some (RCreate n 0), s') ∧
      num_threads s' = n + 1 ∧ current_tid s' = current_tid s ∧
      zget (threads s') n = Some t ∧ tid t = n ∧ status t = TS_READY ∧ stack t = p ∧
      ∃ w, regs t = Words w ∧ ∀ s2, mem s2 !! stack_top p = mem s' !! stack_top p →
        ∃ s3, enter w s2 = Done (Some (RStart start_routine arg addr_pthread_exit), s3)).
Proof.
  intros Hi n. destruct (create_setup s q Hi) as (s1 & E & Hw & Hst & Ef & Eh & Em & Ec & En).
  fold n in En. rewrite pthread_create_first, E. rstep. split.
  - intros Hge. rewrite create_thread_full by lia. by eexists.
  - intros Hlt p Hp. rewrite <- En, <- Eh in *.
    destruct (create_thread_ok start_routine arg s1 q p Hw Ef Hlt Hp) as (w & e & -> & Hprep).
    pose proof (stack_top_ok _ _ Hp) as (Htop & Hmod & _ & _).
    pose proof Hw as [Hl Ht _ _]. unfold table in Ht. rewrite Ef in Ht. destruct Ht as [Hnum _ _ _ _ _].
    exists (created s1 p w e), (Tcb (num_threads s1) p (Words w) TS_READY e). split_and!; try done.
    + cbn [threads created]. destruct (proj2 (zget_is_Some (threads s1) (num_threads s1))) as [t0 Ht0]; [lia|].
      rewrite (zget_set _ _ _ _ _ Ht0). by rewrite decide_True.
    + exists w. split; [done|]. intros s2 Hm. cbn [mem created] in Hm. rewrite lookup_insert_eq in Hm.
      destruct Hprep as (Hlw & Hpc & Hsp & H12 & H13).
      destruct (enter_ok w s2) as (r & a & mm & Hr & Ha & Ee & _).
      { split; [done|]. split; [done|]. exists (stack_top p). split_and!; try done; lia. }
      rewrite Ee. rewrite H12 in Hr. rewrite H13 in Ha. injection Hr as <-. injection Ha as <-. by eexists.
Qed.

(** ** Joining and the last exit *)

Lemma slot_stack s q i t : inv_q s q → is_first_call s = false → zget (threads s) i = Some t →
  1 ≤ i < num_threads s → stack t ≠ NULL.
Proof.
  intros [[_ Ht _ _] _] Hf Hi Hr. unfold table in Ht. rewrite Hf in Ht.
  destruct (t_slot s Ht i t Hi) as (_ & Hs & _). rewrite Hs. lia.
Qed.

(** C14: [pthread_join] on a thread that has exited frees its stack and gives
    its exit status; with a null [retval] it crashes.  The stack pointer stays
    in the table, so a second join of the same thread frees the block again.
    On a thread that has not exited it returns nothing and gives up the
    processor. *)
Theorem pthread_join_correct s q i t retval : inv_q s q → is_first_call s = false →
  zget (threads s) i = Some t → 1 ≤ i < num_threads s →
  (status t = TS_EXITED → heap s !! stack t = Some OStack →
     pthread_join i NULL s = Crashed ∧
     (retval ≠ NULL → ∃ s', pthread_join i retval s = Done (Some (RJoin (exit_status t) 0), s') ∧
        inv_q s' q ∧ heap s' = delete (stack t) (heap s) ∧ threads s' = threads s ∧
        pthread_join i retval s' = Crashed)) ∧
  (status t ≠ TS_EXITED → ∀ o s', pthread_join i retval s = Done (o, s') →
     o = None ∧ ∃ k, switched (JoinLoop i retval) s
       (default t (zget (threads s) (current_tid s))) s' k).
Proof.
  intros Hi Hf Ht Hr. pose proof (slot_stack s q i t Hi Hf Ht Hr) as Hstk.
  pose proof (proj2 (aread_Ret _ _ _) Ht) as Hrd. split.
  - intros Hst Hown.
    assert (free (stack t) s = Done (set_heap s (delete (stack t) (heap s)))) as Hfree.
    { unfold free. rewrite (proj2 (Z.eqb_neq _ _)) by done. by rewrite Hown. }
    assert (∀ r, pthread_join i r s = if r =? NULL then Crashed else
      ret (RJoin (exit_status t) 0) (set_heap s (delete (stack t) (heap s)))) as E.
    { intros r. unfold pthread_join. rewrite Hrd. rstep. rewrite decide_True by done. by rewrite Hfree. }
    split; [by rewrite E|]. intros Hret. rewrite E, (proj2 (Z.eqb_neq _ _)) by done.
    eexists. split; [done|]. split_and!; [|done|done|].
    + eapply (join_inv i retval); [done| |].
      * intros u Hu _. right. by assert (u = t) as -> by congruence.
      * rewrite E, (proj2 (Z.eqb_neq _ _)) by done. done.
    + unfold pthread_join. cbn [threads set_pc set_heap]. rewrite Hrd. rstep. rewrite decide_True by done.
      unfold free. rewrite (proj2 (Z.eqb_neq (stack t) NULL)) by done. cbn [heap set_pc set_heap].
      by rewrite lookup_delete_eq.
  - intros Hst o s' Hj. unfold pthread_join in Hj. rewrite Hrd in Hj. cbn [mbind run_mbind lift] in Hj.
    rewrite decide_False in Hj by done. unfold yield in Hj. rinv Hj as s1 E. injection Hj as <- <-.
    split; [done|]. destruct (schedule_inv _ _ _ (w_len _ _ (inv_winv _ _ Hi)) E) as (u & k & Hu & Hsw).
    exists k. by rewrite Hu.
Qed.

(** When no other thread is ready, a thread that exits leaves the process
    searching for a ready thread for ever: [exit (0)] behind the call of
    [schedule] is not reached. *)
Theorem last_exit_hangs s v : reachable s →
  (∀ j, j ≠ current_tid s → is_ready (threads s) j = false) →
  pthread_exit v s = OutOfFuel ∧
  ∃ ths, (∀ j t, zget (threads s) j = Some t → j ≠ current_tid s → zget ths j = Some t) ∧
    (∀ t, zget (threads s) (current_tid s) = Some t →
       zget ths (current_tid s) = Some (with_exit v (with_status TS_EXITED t))) ∧
    ∀ fuel, find_next fuel ths (current_tid s) = OutOfFuel.
Proof.
  intros Hr Hno. destruct (reachable_inv s Hr) as [q Hi]. pose proof (inv_winv _ _ Hi) as Hw.
  destruct (current_slot s q Hw) as [t Ht]. pose proof (zget_range _ _ _ Ht) as Hc.
  set (t' := with_exit v (with_status TS_EXITED t)).
  set (ths := <[Z.to_nat (current_tid s) := t']> (threads s)).
  assert (∀ j, zget ths j = if decide (j = current_tid s) then Some t' else zget (threads s) j) as Hget
    by (intros; by eapply zget_set).
  set (s1 := set_timer (set_exited (set_threads s ths) (exited_string s + 1)) false).
  assert (pthread_exit v s = yield ExitReturn s1) as E.
  { unfold pthread_exit. rewrite (update_Done _ _ _ t) by done. rstep. cbn [current_tid threads set_threads].
    erewrite update_Done by (cbn [threads set_threads]; rewrite (zget_set _ _ _ _ _ Ht), decide_True by done; reflexivity).
    rstep. cbn [threads set_threads]. rewrite list_insert_insert_eq. done. }
  assert (parked ExitReturn s1 t' = ths) as Hpark.
  { unfold parked. cbn [threads current_tid s1 set_timer set_exited set_threads]. unfold ths.
    by rewrite list_insert_insert_eq. }
  destruct (schedule_cases ExitReturn s1 t') as [_ Hnone].
  - cbn [threads s1 set_timer set_exited set_threads]. unfold ths. rewrite length_insert. apply Hw.
  - cbn [threads current_tid s1 set_timer set_exited set_threads]. rewrite Hget. by rewrite decide_True.
  - rewrite Hpark in Hnone. destruct Hnone as [Hs Hf].
    { intros j. unfold is_ready. rewrite Hget. case_decide; [done|]. by apply Hno. }
    split; [rewrite E; unfold yield; by rewrite Hs|]. exists ths. split_and!; [| |exact Hf].
    + intros j u Hj Hne. by rewrite Hget, decide_False.
    + intros u Hu. rewrite Hget, decide_True by done. by assert (u = t) as -> by congruence.
Qed.
End locks.
