(* ===== verification/ThreadsBarrier.v ===== *)
(** * Barriers: nobody passes before everybody came *)

From S2P Require Export ThreadsFair.

(** ** Barriers in the heap *)

Definition keeps_barriers (h h' : gmap Z obj) : Prop :=
  ∀ a b, h !! a = Some (OBarrier b) → h' !! a = Some (OBarrier b).

#[export] Instance keeps_barriers_preorder : PreOrder keeps_barriers.
Proof. split; [by intros h a b|intros h1 h2 h3 H1 H2 a b ?; by apply H2, H1]. Qed.

Definition not_barrier (o : option obj) : Prop := ∀ b, o ≠ Some (OBarrier b).

Lemma keep_insert h x o : not_barrier (h !! x) → keeps_barriers h (<[x := o]> h).
Proof. intros Hx a b Ha. rewrite lookup_insert_ne; [done|]. intros ->. by apply (Hx b). Qed.

Lemma keep_delete h x : not_barrier (h !! x) → keeps_barriers h (delete x h).
Proof. intros Hx a b Ha. rewrite lookup_delete_ne; [done|]. intros ->. by apply (Hx b). Qed.

#[export] Instance call_eq_dec : EqDecision call.
Proof. solve_decision. Defined.
#[export] Instance label_eq_dec : EqDecision label.
Proof. solve_decision. Defined.

Section barrier.
Context `{Image} {IS : ImageSpec} `{Malloc} {MS : MallocSpec} {MA : MallocAligned}.

Lemma keep_malloc n o s p s' : malloc n o s = Done (p, s') → keeps_barriers (heap s) (heap s').
Proof.
  unfold malloc. destruct (malloc_at (heap s) n) as [x|] eqn:E; intros [= <- <-]; [|done].
  apply keep_insert. destruct (malloc_fresh _ _ _ E) as (Hf & _). intros b. by rewrite Hf.
Qed.

Lemma keep_update i f s s' : update i f s = Done s' → heap s' = heap s.
Proof. intros E. by apply update_inv in E as (? & _ & ->). Qed.

Lemma keep_free p s s' : free p s = Done s' → not_barrier (heap s !! p) → keeps_barriers (heap s) (heap s').
Proof.
  unfold free. destruct (p =? NULL); [by intros [= ->]|]. destruct (heap s !! p) eqn:E; [|done].
  intros [= <-] Hn. apply keep_delete. by rewrite E.
Qed.

Lemma get_node_inv p s n : get_node p s = Done n → heap s !! p = Some (ONode n).
Proof. unfold get_node. destruct (heap s !! p) as [[| |n'| |]|]; try done. by intros [= ->]. Qed.

Lemma keep_waste s : keeps_barriers (heap s) (heap (waste s)).
Proof.
  unfold waste. destruct (malloc_at (heap s) sizeof_Node) as [x|] eqn:E; [|done].
  apply keep_insert. destruct (malloc_fresh _ _ _ E) as (Hf & _). intros b. by rewrite Hf.
Qed.

Lemma keep_append p n m s s' : append_node p n m s = Done s' → not_barrier (heap s !! p) →
  keeps_barriers (heap s) (heap s').
Proof.
  unfold append_node. intros Ha Hp. destruct (_ =? NULL); [injection Ha as <-; by apply keep_insert|].
  destruct (_ =? NULL); rinv Ha as h E; apply get_node_inv in E; injection Ha as <-.
  - etransitivity; [apply (keep_insert _ (blocked_threads_head m)); by rewrite E|].
    apply keep_insert. cbn [heap set_obj set_heap]. intros b. rewrite lookup_insert. case_decide; [done|apply Hp].
  - etransitivity; [|apply keep_insert; intros b; by rewrite E].
    etransitivity; [apply keep_waste|]. cbn [heap set_obj set_heap]. apply keep_insert.
    intros b Hb. unfold waste in Hb. destruct (malloc_at (heap s) sizeof_Node) as [x|]; [|by apply (Hp b)].
    cbn [heap set_obj set_heap] in Hb. rewrite lookup_insert in Hb. case_decide; [done|by apply (Hp b)].
Qed.

Lemma keep_yield here s o s' : Z.of_nat (length (threads s)) = MAX_THREADS →
  yield here s = Done (o, s') → heap s' = heap s.
Proof.
  intros Hl Hy. unfold yield in Hy. rinv Hy as s1 E. injection Hy as <- <-.
  by destruct (schedule_keeps _ _ _ Hl E) as (-> & _).
Qed.

Lemma keep_lock p s q o s' : inv_q s q → pthread_mutex_lock p s = Done (o, s') →
  keeps_barriers (heap s) (heap s').
Proof.
  intros Hi Hm. unfold pthread_mutex_lock in Hm. rinv Hm as m E. apply get_mutex_inv in E.
  assert (not_barrier (heap s !! p)) as Hp by (intros b; by rewrite E). destruct (locked m =? 0).
  - rinv Hm as s1 E1. apply keep_update in E1. injection Hm as <- <-. cbn [heap set_pc unlock set_masked].
    rewrite E1. by apply keep_insert.
  - rinv Hm as s1 E1. pose proof E1 as Eh1. apply keep_update in Eh1. cbn [heap lock set_masked] in Eh1.
    rinv Hm as ns E2. destruct ns as [n s2]. pose proof (keep_malloc _ _ _ _ _ E2) as K2. rewrite Eh1 in K2.
    destruct (n =? NULL); [done|]. rinv Hm as s3 E3.
    assert (not_barrier (heap s2 !! p)) as Hp2.
    { unfold malloc in E2. destruct (malloc_at (heap s1) sizeof_Node); injection E2 as <- <-; intros b;
        cbn [heap set_obj set_heap]; rewrite ?lookup_insert, Eh1; [case_decide; [done|]|]; apply Hp. }
    pose proof (keep_append _ _ _ _ _ E3 Hp2) as K3.
    apply keep_yield in Hm; [rewrite Hm; by etransitivity|].
    apply update_inv in E1 as (t & _ & ->). 
    assert (threads s2 = threads (set_threads (lock s) (<[Z.to_nat (current_tid (lock s)):=with_status TS_BLOCKED t]> (threads (lock s))))) as Et2.
    { unfold malloc in E2. destruct (malloc_at _ _); by injection E2 as <- <-. }
    assert (threads s3 = threads s2) as ->.
    { unfold append_node in E3. destruct (_ =? NULL); [by injection E3 as <-|].
      destruct (_ =? NULL); rinv E3 as x Ex; injection E3 as <-; [done|].
      unfold waste. by destruct (malloc_at _ _). }
    rewrite Et2. cbn. rewrite length_insert. apply Hi.
Qed.

Lemma keep_unlock p s o s' : pthread_mutex_unlock p s = Done (o, s') → keeps_barriers (heap s) (heap s').
Proof.
  intros Hm. unfold pthread_mutex_unlock in Hm. rinv Hm as m E. apply get_mutex_inv in E.
  assert (not_barrier (heap s !! p)) as Hp by (intros b; by rewrite E).
  destruct (_ =? NULL); [injection Hm as <- <-; by apply keep_insert|].
  rinv Hm as n En. apply get_node_inv in En. cbn [heap lock set_masked] in En.
  rinv Hm as s1 E1. apply keep_update in E1. cbn [heap lock set_masked] in E1.
  rinv Hm as s2 E2. injection Hm as <- <-. cbn [heap set_pc unlock set_masked set_obj set_heap].
  pose proof E2 as K2. apply keep_free in K2; [|intros b; by rewrite E1, En]. rewrite E1 in K2.
  etransitivity; [exact K2|]. apply keep_insert. intros b. unfold free in E2.
  destruct (_ =? NULL); [injection E2 as <-; rewrite E1; apply Hp|].
  destruct (heap s1 !! _); [|done]. injection E2 as <-. cbn [heap set_heap]. rewrite lookup_delete.
  case_decide; [done|]. rewrite E1. apply Hp.
Qed.

Lemma keep_free_nodes n : ∀ nd s s', free_nodes n nd s = Done s' → keeps_barriers (heap s) (heap s').
Proof.
  induction n as [|n IH]; intros nd s s'; cbn [free_nodes]; [done|].
  destruct (nd =? NULL); [by intros [= ->]|]. intros E. rinv E as x Ex. apply get_node_inv in Ex.
  rinv E as s1 E1. etransitivity; [|by eapply IH]. eapply keep_free; [exact E1|]. intros b. by rewrite Ex.
Qed.

Lemma keep_destroy p s q o s' : inv_q s q → pthread_mutex_destroy p s = Done (o, s') →
  keeps_barriers (heap s) (heap s').
Proof.
  intros Hi Hm. unfold pthread_mutex_destroy in Hm. rinv Hm as m E. apply get_mutex_inv in E.
  destruct (Z.eqb_spec (locked m) 0) as [El|]; cbn [negb] in Hm; [|by injection Hm as <- <-].
  destruct (inv_heap s q Hi) as [_ Hq _]. pose proof (q_mutex _ _ Hq p m E) as [Hc _ _ Hfree].
  rewrite (Hfree El) in Hc. cbn [chain] in Hc. rewrite Hc in Hm. unfold heap_fuel in Hm.
  cbn [free_nodes] in Hm. rewrite Z.eqb_refl in Hm. cbn [mbind run_mbind] in Hm.
  rinv Hm as s1 E1. injection Hm as <- <-. apply (keep_free _ _ _ E1). intros b. by rewrite E.
Qed.

(** What the step does to the barrier at [p] itself. *)
Definition next_barrier (l : label) (s : sys) (p : Z) (b : my_barrier_t) : my_barrier_t :=
  match l, pc s with
  | Call (BarrierWait p'), _ => if decide (p' = p) then set_count b (threads_blocked b + 1) else b
  | Go, BarrierLeave p' => if decide (p' = p) then Barrier (count b) 0 NULL NULL 1 true else b
  | _, _ => b
  end.

Lemma barrier_insert_other h p p' b b' : h !! p = Some (OBarrier b) → p' ≠ p →
  (<[p' := OBarrier b']> h : gmap Z obj) !! p = Some (OBarrier b).
Proof. intros Hp Hne. by rewrite lookup_insert_ne. Qed.

Lemma join_barrier t r s q o s' p b : inv_q s q →
  (∀ u, zget (threads s) t = Some u → status u = TS_EXITED → stack u = NULL ∨ heap s !! stack u = Some OStack) →
  pthread_join t r s = Done (o, s') → heap s !! p = Some (OBarrier b) → heap s' !! p = Some (OBarrier b).
Proof.
  intros Hi Hown Hex Hp. unfold pthread_join in Hex. rinv Hex as u E. apply lift_Done_inv, aread_Ret in E.
  case_decide as Hst.
  - rinv Hex as s1 E1. destruct (r =? NULL); [done|]. injection Hex as <- <-.
    apply (keep_free _ _ _ E1); [|done].
    destruct (Hown u E Hst) as [Hn|Hn]; [|intros b'; by rewrite Hn].
    rewrite Hn, (h_null _ _ (inv_heap _ _ Hi)). by intros b'.
  - apply keep_yield in Hex; [by rewrite Hex|apply Hi].
Qed.

Lemma call_barrier c s q o s' p b : inv_q s q → joins_own_stack (Call c) s → run_call c s = Done (o, s') →
  heap s !! p = Some (OBarrier b) → c ≠ BarrierDestroy p →
  heap s' !! p = Some (OBarrier (next_barrier (Call c) s p b)).
Proof.
  intros Hi Hown Hex Hp Hnd. pose proof (w_len _ _ (inv_winv _ _ Hi)) as Hlen.
  pose proof (inv_heap _ _ Hi) as Hh. destruct c; cbn [run_call next_barrier] in Hex |- *.
  - destruct (create_inv _ _ _ _ _ _ Hi Hex) as (_ & [->|(x & Hx & ->)] & _); [done|].
    apply keep_insert; [|done]. intros b'. by rewrite Hx.
  - unfold pthread_exit in Hex. rinv Hex as s1 E1. rinv Hex as s2 E2.
    apply update_inv in E1 as (? & _ & ->). apply update_inv in E2 as (? & _ & ->).
    apply keep_yield in Hex; [by rewrite Hex|]. cbn. by rewrite !length_insert.
  - unfold pthread_self in Hex. rinv Hex as t E. by injection Hex as <- <-.
  - eapply join_barrier; [done| |exact Hex|done]. intros u Hu Hst. apply (Hown thread retval u); [by left|done..].
  - unfold pthread_mutex_init in Hex. rinv Hex as ns E. destruct ns as [n s1].
    destruct ((n =? NULL) || _); [done|]. injection Hex as <- <-. by apply (keep_malloc _ _ _ _ _ E).
  - by eapply keep_destroy.
  - by eapply keep_lock.
  - by eapply keep_unlock.
  - unfold pthread_barrier_init in Hex. rinv Hex as ns E. destruct ns as [n s1].
    destruct (n =? NULL); [done|]. injection Hex as <- <-. by apply (keep_malloc _ _ _ _ _ E).
  - unfold pthread_barrier_destroy in Hex. rinv Hex as x E. apply get_barrier_inv in E.
    destruct (negb _ || _); [by injection Hex as <- <-|]. rinv Hex as s1 E1. injection Hex as <- <-.
    unfold free in E1. destruct (_ =? NULL); [by injection E1 as <-|]. rewrite E in E1. injection E1 as <-.
    cbn [heap set_pc set_heap]. rewrite lookup_delete_ne; [done|congruence].
  - unfold pthread_barrier_wait in Hex. rinv Hex as x E. apply get_barrier_inv in E.
    destruct (h_barrier _ _ Hh _ x E) as (Hinit & _ & _). destruct (_ =? _); [done|].
    unfold set_count in Hex. cbn [init] in Hex. rewrite Hinit in Hex. injection Hex as <- <-.
    cbn [heap set_pc set_obj set_heap]. case_decide as D.
    + subst. rewrite lookup_insert_eq. assert (x = b) as -> by congruence. unfold set_count. by rewrite Hinit.
    + by apply barrier_insert_other.
Qed.

Lemma resume_barrier s q o s' p b : inv_q s q → joins_own_stack Go s → resume s = Done (o, s') →
  heap s !! p = Some (OBarrier b) → heap s' !! p = Some (OBarrier (next_barrier Go s p b)).
Proof.
  intros Hi Hown Hex Hp. pose proof (w_len _ _ (inv_winv _ _ Hi)) as Hlen. pose proof (inv_heap _ _ Hi) as Hh.
  pose proof Hi as [_ [Hpo _]]. unfold resume in Hex. cbn [next_barrier].
  destruct (pc s) as [|w| |t r| | | | |b0|b0|b0] eqn:Epc; cbn [point_ok] in Hpo; try done;
    try (by injection Hex as <- <-).
  - destruct (enter_inv _ _ _ _ _ Hi Hpo Hex) as (_ & -> & _). done.
  - eapply join_barrier; [done| |exact Hex|done]. intros u Hu Hst. apply (Hown t r u); [by right|done..].
  - apply keep_yield in Hex; [by rewrite Hex|done].
  - unfold barrier_loop in Hex. rinv Hex as x E. apply get_barrier_inv in E.
    destruct (_ <? _); [apply keep_yield in Hex; [by rewrite Hex|done]|].
    destruct (h_barrier _ _ Hh _ x E) as (Hinit & _ & _). rewrite Hinit in Hex.
    cbn [Z.eqb mbind run_mbind] in Hex. by injection Hex as <- <-.
  - apply keep_yield in Hex; [by rewrite Hex|done].
  - unfold barrier_leave in Hex. rinv Hex as x E. apply get_barrier_inv in E. injection Hex as <- <-.
    cbn [heap set_pc set_obj set_heap]. case_decide as D.
    + subst. rewrite lookup_insert_eq. by assert (x = b) as -> by congruence.
    + by apply barrier_insert_other.
Qed.

Lemma step_barrier s q l o s' p b : inv_q s q → joins_own_stack l s → step s l o s' →
  heap s !! p = Some (OBarrier b) → l ≠ Call (BarrierDestroy p) →
  heap s' !! p = Some (OBarrier (next_barrier l s p b)).
Proof.
  intros Hi Hown Hs Hp Hnd. destruct Hs as [l o s' Hen Hex]. destruct l as [c| |]; cbn [exec] in Hex.
  - eapply call_barrier; [done..|]. congruence.
  - by eapply resume_barrier.
  - apply keep_yield in Hex; [rewrite Hex|apply Hi]. by destruct (pc s).
Qed.

(** ** Where the threads are *)

(** Thread [i] is at the point [pt] of the library: it runs there, or it will
    be resumed there. *)
Definition at_point s (i : Z) (pt : point) : Prop :=
  (i = current_tid s ∧ pc s = pt) ∨
  (i ≠ current_tid s ∧ ∃ t, zget (threads s) i = Some t ∧ regs t = Context pt ∧
     (status t = TS_READY ∨ status t = TS_BLOCKED)).

Lemma others_point s s1 i t pt : Z.of_nat (length (threads s)) = MAX_THREADS → others s s1 →
  i ≠ current_tid s → zget (threads s1) i = Some t → regs t = Context pt →
  status t = TS_READY ∨ status t = TS_BLOCKED → at_point s i pt.
Proof.
  intros Hl (Hc & Hl1 & _ & _ & Ho) Hne Ht Hr Hst. pose proof (zget_range _ _ _ Ht).
  destruct (proj2 (zget_is_Some (threads s) i)) as [u Hu]; [lia|].
  destruct (Ho i u Hu Hne) as (u' & Hu' & Hcase). assert (u' = t) as -> by congruence.
  right. split; [done|]. exists u. split; [done|]. destruct Hcase as [->|[[Hb ->]|[_ [w Hw]]]].
  - done.
  - split; [done|by right].
  - congruence.
Qed.

(** After a step the other threads are where they were, and the thread that
    made it is where the step left it. *)
Lemma shape_points s s' h i pt : Z.of_nat (length (threads s)) = MAX_THREADS → shape s s' h →
  (∀ w, pt ≠ Entry w) → at_point s' i pt →
  (i ≠ current_tid s ∧ at_point s i pt) ∨ (i = current_tid s ∧ pt = left_at h s').
Proof.
  intros Hl Hsh Hent Hat. destruct Hsh as [Ho|s1 here Ho Hsch].
  - pose proof Ho as (Hc & _). destruct Hat as [[-> Hpc]|(Hne & t & Ht & Hr & Hst)].
    + right. rewrite Hc. by split.
    + left. rewrite Hc in Hne. split; [done|]. by eapply others_point.
  - pose proof Ho as (Hc & Hl1 & _). cbn [left_at].
    destruct (schedule_inv here s1 s' Hl1 Hsch) as (v & k & Hv & [_ Hr _ (u & Hu & ->)]).
    set (n := after (current_tid s1) k) in *. clearbody n.
    unfold is_ready in Hr. rewrite Hu in Hr. apply bool_decide_eq_true in Hr.
    rewrite (parked_get _ _ _ _ Hv) in Hu.
    assert (∀ t, zget (parked here s1 v) i = Some t → regs t = Context pt →
      status t = TS_READY ∨ status t = TS_BLOCKED →
      (i ≠ current_tid s ∧ at_point s i pt) ∨ (i = current_tid s ∧ pt = here)) as Hslot.
    { intros t Ht Hrt Hst. rewrite (parked_get _ _ _ _ Hv), Hc in Ht.
      destruct (decide (i = current_tid s)) as [E|E].
      - right. split; [done|]. injection Ht as <-. rewrite park_status in Hst.
        rewrite park_regs in Hrt; [congruence|]. intros Hex. rewrite Hex in Hst. by destruct Hst.
      - left. split; [done|]. by eapply others_point. }
    destruct Hat as [[-> Hpc]|(Hne & t & Ht & Hrt & Hst)];
      cbn [current_tid pc threads switch_to set_pc set_current set_threads] in *.
    + apply (Hslot u); [by rewrite (parked_get _ _ _ _ Hv)| |by left].
      destruct (regs u) as [w|p]; cbn [target] in Hpc; [by destruct (Hent w)|congruence].
    + assert (zget (parked here s1 v) n = Some u) as Hu' by by rewrite (parked_get _ _ _ _ Hv).
      rewrite (zget_set _ _ _ _ _ Hu'), decide_False in Ht by done. by eapply Hslot.
Qed.

(** ** The first round of a barrier *)

(** No thread is behind the loop of the barrier at [p]. *)
Definition nobody_through s (p : Z) : Prop :=
  ∀ i, ¬ at_point s i (BarrierYield p) ∧ ¬ at_point s i (BarrierLeave p).

(** Runs with [n] calls of [pthread_barrier_wait] on [p], before the first of
    them returns; nobody destroys the barrier. *)
Inductive first_round (p : Z) (s : sys) : nat → sys → Prop :=
  | round_nil : first_round p s 0 s
  | round_cons n s1 l o s2 : first_round p s n s1 → joins_own_stack l s1 → step s1 l o s2 →
      l ≠ Call (BarrierDestroy p) → ¬ (l = Go ∧ pc s1 = BarrierLeave p) →
      first_round p s (if decide (l = Call (BarrierWait p)) then S n else n) s2.


Section round.
Context (p c : Z) (s0 : sys) (A0 : mutexes).
Context (HA0 : represents s0 A0) (Hf0 : is_first_call s0 = false).
Context (Hb0 : heap s0 !! p = Some (OBarrier (Barrier c 0 NULL NULL 1 false))).
Context (Hn0 : nobody_through s0 p).

(** The counter is the number of calls, and nobody is through before it reaches
    the barrier's count. *)
Lemma round_ok n s : first_round p s0 n s →
  (∃ A, represents s A) ∧ is_first_call s = false ∧
  heap s !! p = Some (OBarrier (Barrier c (Z.of_nat n) NULL NULL 1 false)) ∧
  (c ≤ Z.of_nat n ∨ nobody_through s p).
Proof using All.
  induction 1 as [|n s1 l o s2 _ IH Hown Hs Hnd Hnl].
  { split_and!; [by exists A0|done|done|by right]. }
  destruct IH as ([A HA] & Hf & Hb & Hgate).
  destruct (step_refines s1 A l o s2 HA Hown Hs) as (A2 & HA2 & _). pose proof HA as (q & Hi & _).
  destruct (step_timer s1 q l o s2 Hi Hf Hs) as [Hf2 _].
  pose proof (step_barrier s1 q l o s2 p _ Hi Hown Hs Hb Hnd) as Hb2.
  split; [by exists A2|]. split; [done|]. split.
  - rewrite Hb2. unfold next_barrier. case_decide as El.
    + subst l. rewrite decide_True by done. unfold set_count. cbn. do 3 f_equal. lia.
    + destruct l as [[]| |]; try done.
      * case_decide; [congruence|done].
      * destruct (pc s1) eqn:Epc; try done. case_decide; [subst; by destruct Hnl|done].
  - destruct Hgate as [Hge|Hnobody]; [left; case_decide; lia|].
    destruct (Z.le_gt_cases c (Z.of_nat n)) as [Hge|Hlt]; [left; case_decide; lia|]. right.
    destruct (step_shaped s1 q Hi Hf l o s2 Hs) as (h & Hsh & Hleft). destruct (Hleft p) as [Hy Hl].
    pose proof (w_len _ _ (inv_winv _ _ Hi)) as Hlen. destruct (Hnobody (current_tid s1)) as [Hcy Hcl].
    intros i. destruct (Hnobody i) as [Hiy Hil]. split; intros Hat.
    + destruct (shape_points s1 s2 h i (BarrierYield p) Hlen Hsh) as [[_ ?]|[-> E]]; [done..|].
      destruct (Hy (eq_sym E)) as [[_ Epc]|(_ & _ & b & Hb' & Hge)]; [by apply Hcy; left|].
      rewrite Hb in Hb'. injection Hb' as <-. cbn in Hge. lia.
    + destruct (shape_points s1 s2 h i (BarrierLeave p) Hlen Hsh) as [[_ ?]|[-> E]]; [done..|].
      destruct (Hl (eq_sym E)) as [[_ Epc]|[_ Epc]]; [by apply Hcl; left|by apply Hcy; left].
Qed.
End round.

(** C15: in the first round of a barrier no thread gets through before as many
    threads have called [pthread_barrier_wait] as the barrier was initialised
    for: in every run from a state with a new barrier, the first thread that is
    about to return from the call finds at least that many calls made.  (A
    round may begin while threads are anywhere but behind the loop of the same
    barrier.) *)
Theorem barrier_first_round p c s0 n s : reachable s0 → is_first_call s0 = false →
  heap s0 !! p = Some (OBarrier (Barrier c 0 NULL NULL 1 false)) → nobody_through s0 p →
  first_round p s0 n s → (∃ i, at_point s i (BarrierLeave p)) → c ≤ Z.of_nat n.
Proof.
  intros Hr Hf Hb Hn Hrun [i Hat]. destruct (reachable_represents s0 Hr) as [A HA].
  destruct (round_ok p c s0 A HA Hf Hb Hn n s Hrun) as (_ & _ & _ & [?|Hno]); [done|].
  by destruct (Hno i).
Qed.
End barrier.
