(* ===== verification/ThreadsStuck.v ===== *)
(** * Runs: scripts of steps, and barriers that nobody leaves *)

From S2P Require Export ThreadsLocks ThreadsBarrier.

Section scripts.
Context `{Image} `{Malloc}.

(** A step that joins nobody. *)
Definition joins_nobody (l : label) s : bool :=
  match l, pc s with
  | Call (Join _ _), _ => false
  | Go, JoinLoop _ _ => false
  | _, _ => true
  end.

(** The steps of [ls], with the results given to the program and the threads
    they are given to. *)
Fixpoint play (ls : list label) s : run (list (Z * result) * sys) :=
  match ls with
  | [] => Done ([], s)
  | l :: ls =>
      if enabled l s && joins_nobody l s then
        '(o, s1) ← exec l s;
        '(rs, s2) ← play ls s1;
        Done (match o with Some r => (current_tid s, r) :: rs | None => rs end, s2)
      else Crashed
  end.

Lemma joins_nobody_ok l s : joins_nobody l s = true → joins_own_stack l s.
Proof.
  intros Hj t r u [->|[-> Hpc]] _ _; cbn [joins_nobody] in Hj; [done|]. by rewrite Hpc in Hj.
Qed.

Lemma play_step l ls s rs s2 : play (l :: ls) s = Done (rs, s2) →
  ∃ o s1 rs1, joins_own_stack l s ∧ step s l o s1 ∧ play ls s1 = Done (rs1, s2).
Proof.
  cbn [play]. destruct (enabled l s) eqn:He; [|done]. destruct (joins_nobody l s) eqn:Hj; [|done].
  cbn [andb]. intros E. rinv E as x E1. destruct x as [o s1]. rinv E as y E2. destruct y as [rs1 s3].
  injection E as _ <-. exists o, s1, rs1. split_and!; [by apply joins_nobody_ok|by constructor|done].
Qed.

Lemma play_reachable ls : ∀ s rs s', play ls s = Done (rs, s') → reachable s → reachable s'.
Proof.
  induction ls as [|l ls IH]; intros s rs s' Hp Hr; [by injection Hp as _ <-|].
  destruct (play_step _ _ _ _ _ Hp) as (o & s1 & rs1 & Hown & Hs & Hp1).
  eapply IH; [exact Hp1|]. by eapply reachable_step.
Qed.

(** The state after a script from the start of the program. *)
Definition after_script (ls : list label) : sys :=
  match play ls boot with Done (_, s) => s | _ => boot end.

Lemma after_script_reachable ls : reachable (after_script ls).
Proof.
  unfold after_script. destruct (play ls boot) as [[rs s]| | |] eqn:E; try apply reachable_boot.
  eapply play_reachable; [exact E|apply reachable_boot].
Qed.
End scripts.

Section stuck.
Context `{Image} {IS : ImageSpec} `{Malloc} {MS : MallocSpec} {MA : MallocAligned}.

(** Every thread that can run is in the loop of the barrier at [p], which lacks
    threads. *)
Definition stuck s (p : Z) : Prop :=
  pc s = BarrierLoop p ∧ Z.of_nat (length (threads s)) = MAX_THREADS ∧
  (∃ b, heap s !! p = Some (OBarrier b) ∧ threads_blocked b < count b) ∧
  ∀ i t, zget (threads s) i = Some t → i ≠ current_tid s → status t = TS_READY →
    target (regs t) = BarrierLoop p.

Lemma schedule_stuck s p s' : stuck s p → schedule (BarrierLoop p) s = Done s' → stuck s' p.
Proof.
  intros (Hpc & Hl & Hb & Hrest) Hs.
  destruct (schedule_inv _ s s' Hl Hs) as (t & k & Ht & [_ Hr _ (u & Hu & ->)]).
  set (n := after (current_tid s) k) in *. clearbody n.
  unfold is_ready in Hr. rewrite Hu in Hr. apply bool_decide_eq_true in Hr.
  assert (∀ i v, zget (parked (BarrierLoop p) s t) i = Some v → status v = TS_READY →
    target (regs v) = BarrierLoop p) as Hall.
  { intros i v Hv Hst. rewrite (parked_get _ _ _ _ Ht) in Hv.
    destruct (decide (i = current_tid s)); [|by eapply Hrest].
    injection Hv as <-. rewrite park_status in Hst. rewrite park_regs; [done|].
    intros E. rewrite E in Hst. done. }
  split_and!; cbn [pc threads heap current_tid switch_to set_pc set_current set_threads].
  - by eapply Hall.
  - by rewrite length_insert, parked_length.
  - done.
  - intros i v. rewrite (zget_set _ _ _ _ _ Hu). intros Hv Hne. rewrite decide_False in Hv by done. by apply (Hall i).
Qed.

Lemma step_stuck s p l o s' : stuck s p → step s l o s' → o = None ∧ stuck s' p.
Proof.
  intros Hst Hs. pose proof Hst as (Hpc & _ & (b & Hb & Hlt) & _).
  destruct Hs as [l o s' Hen Hex]. destruct l as [c| |]; cbn [enabled exec] in *.
  - by rewrite Hpc in Hen.
  - unfold resume in Hex. rewrite Hpc in Hex. unfold barrier_loop, get_barrier in Hex. rewrite Hb in Hex.
    cbn [mbind run_mbind] in Hex. rewrite (proj2 (Z.ltb_lt _ _) Hlt) in Hex. unfold yield in Hex.
    rinv Hex as s1 E. injection Hex as <- <-. split; [done|]. by eapply schedule_stuck.
  - unfold yield in Hex. rinv Hex as s1 E. injection Hex as <- <-. split; [done|].
    rewrite Hpc in E. by eapply schedule_stuck.
Qed.

(** Nobody ever returns from a stuck barrier. *)
Lemma stuck_forever s p s' : runs s s' → stuck s p → stuck s' p.
Proof.
  induction 1 as [|s l o s1 s2 _ Hs _ IH]; intros Hst; [done|].
  apply IH. by destruct (step_stuck s p l o s1 Hst Hs).
Qed.
(** A thread that leaves the barrier at [p] and enters it again at once, while
    every other thread that can run waits there. *)
Lemma reenter_stuck s p b :
  pc s = BarrierLeave p → Z.of_nat (length (threads s)) = MAX_THREADS →
  heap s !! p = Some (OBarrier b) → 2 ≤ count b →
  (∀ i t, zget (threads s) i = Some t → i ≠ current_tid s → status t = TS_READY →
     target (regs t) = BarrierLoop p) →
  ∃ s1 s2 r, step s Go (Some r) s1 ∧ step s1 (Call (BarrierWait p)) None s2 ∧ stuck s2 p.
Proof.
  intros Hpc Hl Hb Hcount Hrest. eexists _, _, _. split; [|split].
  - constructor; cbn [enabled exec]; [by rewrite Hpc|]. unfold resume. rewrite Hpc.
    unfold barrier_leave, get_barrier. rewrite Hb. reflexivity.
  - constructor; [done|]. cbn [exec run_call]. unfold pthread_barrier_wait, get_barrier.
    cbn [heap set_pc set_obj set_heap]. rewrite lookup_insert_eq. reflexivity.
  - split_and!; cbn [pc threads heap current_tid set_pc set_obj set_heap]; [done|done| |done].
    rewrite lookup_insert_eq. eexists. split; [done|]. cbn. lia.
Qed.

(** C39: a barrier cannot be entered again before every thread has left it.  When
    the last thread to leave, in any program, comes back to the barrier at once
    and all other threads that can run have come back before it, they all
    wait for ever: leaving reset the count of the threads that had come back, so
    from then on no step of any run gives a result to the program. *)
Theorem early_reuse_hangs s p b :
  reachable s → pc s = BarrierLeave p → heap s !! p = Some (OBarrier b) → 2 ≤ count b →
  (∀ i t, zget (threads s) i = Some t → i ≠ current_tid s → status t = TS_READY →
     target (regs t) = BarrierLoop p) →
  ∃ s1 s2 r, step s Go (Some r) s1 ∧ step s1 (Call (BarrierWait p)) None s2 ∧
    ∀ s3 l o s4, runs s2 s3 → step s3 l o s4 → o = None.
Proof.
  intros Hr Hpc Hb Hcount Hrest. destruct (reachable_inv s Hr) as [q Hq].
  destruct (reenter_stuck s p b Hpc) as (s1 & s2 & r & S1 & S2 & Hst); [|done..|].
  { apply Hq. }
  exists s1, s2, r. split; [done|]. split; [done|]. intros s3 l o s4 Hrun Hs.
  by destruct (step_stuck _ _ _ _ _ (stuck_forever _ _ _ Hrun Hst) Hs).
Qed.
End stuck.
