(* ===== verification/ThreadsDemo.v ===== *)
(** * Concrete runs of the threads library

    A [malloc] that computes, and the theorems applied to runs with it. *)

From S2P Require Export ThreadsStuck.

#[export] Instance demo_image : Image :=
  { pointer_guard := 0x123456789abcdef0; addr_start_thunk := 0x401000; addr_pthread_exit := 0x402000 }.

#[export] Instance demo_image_spec : ImageSpec.
Proof. by split. Qed.

(** The first of 200 blocks of 64 KiB that is not in use. *)
Definition blocks : list Z := map (λ i, 65536 * i) (seqZ 1 200).

#[export] Instance demo_malloc : Malloc := {
  malloc_at h n := if n <=? 65536 then find (λ p, bool_decide (h !! p = None)) blocks else None;
  usable n := Z.max n 24
}.

Lemma demo_malloc_inv h n p : malloc_at h n = Some p →
  h !! p = None ∧ n ≤ 65536 ∧ ∃ i, 1 ≤ i < 201 ∧ p = 65536 * i.
Proof.
  cbn. destruct (Z.leb_spec n 65536); [|done]. intros [Hin Hp]%find_some.
  apply bool_decide_eq_true in Hp. split_and!; [done|done|].
  apply in_map_iff in Hin as (i & <- & Hi). apply list_elem_of_In, elem_of_seqZ in Hi. exists i. lia.
Qed.

#[export] Instance demo_malloc_spec : MallocSpec.
Proof.
  split.
  - intros h n p (? & ? & i & ? & ->)%demo_malloc_inv. split_and!; [done|lia|lia].
  - intros n. cbn. lia.
Qed.

#[export] Instance demo_malloc_aligned : MallocAligned.
Proof. intros h n p (_ & _ & i & _ & ->)%demo_malloc_inv. dlia. Qed.

(** ** A mutex is handed over and free at the same time *)

(** The main thread takes a mutex, a second thread waits for it, the main
    thread unlocks, the second thread returns from the call, and the main
    thread takes the mutex again. *)
Definition handover : list label :=
  [Call MutexInit; Call (Create 100 7); Call (MutexLock 65536); Tick; Go; Call (MutexLock 65536);
   Call (MutexUnlock 65536); Go; Go; Tick; Go; Call (MutexLock 65536)].

(** When the last waiting thread is woken, the mutex is marked free although
    that thread now returns from [pthread_mutex_lock] (with -1): in this run
    thread 1 returns from the call, and thread 0 takes the mutex before thread 1
    has unlocked it. *)
Theorem handover_frees_mutex :
  ∃ s, play handover boot = Done
    ([(0, RPtr 65536 0); (0, RCreate 1 0); (0, RInt 0); (1, RStart 100 7 addr_pthread_exit);
      (1, RInt (-1)); (0, RInt 0); (0, RInt 0)], s).
Proof. eexists. vm_compute. reflexivity. Qed.

(** ** A barrier is used twice *)

(** Two threads pass a barrier; the first to return calls it again before the
    other has returned. *)
Definition reuse : list label :=
  [Call (BarrierInit 2); Call (Create 100 7);
   Call (BarrierWait 65536); Go; Go; Call (BarrierWait 65536); Go; Go; Go; Go; Go;
   Call (BarrierWait 65536); Go; Go; Call (BarrierWait 65536)].

Definition in_loop (p : Z) (t : thread_control_block) : bool :=
  match status t, regs t with
  | TS_READY, Context (BarrierLoop b) => b =? p
  | TS_READY, _ => false
  | _, _ => true
  end.

Lemma in_loop_ok p t : in_loop p t = true → status t = TS_READY → target (regs t) = BarrierLoop p.
Proof.
  unfold in_loop. intros Hin Hst. rewrite Hst in Hin. destruct (regs t) as [|[]]; try done.
  apply Z.eqb_eq in Hin. by subst.
Qed.

Lemma all_in_loop p ths i t : forallb (in_loop p) ths = true → zget ths i = Some t → in_loop p t = true.
Proof.
  rewrite forallb_forall. intros Hall [_ Ht]%zget_Some. apply Hall, list_elem_of_In.
  by eapply list_elem_of_lookup_2.
Qed.

(** In this run both threads return from the first round, thread 1 as the serial
    thread, and both call [pthread_barrier_wait] a second time; the late return
    of thread 0 reset the count of thread 1's second call, so from here on no
    step of any run ever returns anything. *)
Theorem barrier_reuse_hangs :
  ∃ s, play reuse boot = Done
    ([(0, RPtr 65536 0); (0, RCreate 1 0); (1, RStart 100 7 addr_pthread_exit);
      (1, RInt PTHREAD_BARRIER_SERIAL_THREAD); (0, RInt 0)], s) ∧
    ∀ s1 l o s2, runs s s1 → step s1 l o s2 → o = None.
Proof.
  assert (stuck (after_script reuse) 65536) as Hst.
  { unfold stuck. split_and!.
    - vm_compute. reflexivity.
    - vm_compute. reflexivity.
    - eexists. split; [vm_compute; reflexivity|]. cbn. lia.
    - intros i t Ht Hne Hr.
      assert (forallb (in_loop 65536) (threads (after_script reuse)) = true) as Hall by (vm_compute; reflexivity).
      revert Hall Ht. generalize (threads (after_script reuse)). intros ths Hall Ht.
      exact (in_loop_ok 65536 t (all_in_loop 65536 ths i t Hall Ht) Hr). }
  exists (after_script reuse). split; [vm_compute; reflexivity|].
  intros s1 l o s2 Hrun Hs. pose proof (stuck_forever _ _ _ Hrun Hst) as Hst1.
  by destruct (step_stuck _ _ _ _ _ Hst1 Hs).
Qed.

(** When both threads have left before one of them comes back, the second round
    ends as well (without a serial thread). *)
Definition late_reuse : list label :=
  [Call (BarrierInit 2); Call (Create 100 7);
   Call (BarrierWait 65536); Go; Go; Call (BarrierWait 65536); Go; Go; Go; Go; Go; Tick; Go;
   Call (BarrierWait 65536); Go; Call (BarrierWait 65536); Go; Go; Go; Go; Go; Tick; Go].

Theorem late_reuse_returns :
  ∃ s, play late_reuse boot = Done
    ([(0, RPtr 65536 0); (0, RCreate 1 0); (1, RStart 100 7 addr_pthread_exit);
      (1, RInt PTHREAD_BARRIER_SERIAL_THREAD); (0, RInt 0); (1, RInt 0); (0, RInt 0)], s).
Proof. eexists. vm_compute. reflexivity. Qed.

(** ** The theorems applied *)

Lemma set_get_reg_witness :
  ∃ buf', set_reg (replicate 8 0) JBL_PC 0x401000 = Done buf' ∧ get_reg buf' JBL_PC = Done 0x401000.
Proof.
  destruct (set_get_reg (replicate 8 0) JBL_PC 0x401000 JBL_PC) as (b & E & _ & G & _);
    [done|done|done|done|]. exists b. split; [exact E|exact G].
Defined.

(** The main thread and two threads that have not started. *)
Definition three : sys := after_script [Call (Create 100 7); Call (Create 200 8)].

Lemma three_reachable : reachable three.
Proof. apply after_script_reachable. Qed.

Lemma slot_of s i t : (threads s) !! Z.to_nat i = Some t → 0 ≤ i → zget (threads s) i = Some t.
Proof. intros E Hi. apply zget_Some. by split. Qed.

Lemma schedule_round_robin_witness : ∃ s', schedule User three = Done s' ∧ current_tid s' = 1.
Proof.
  destruct (schedule_round_robin User three _ ltac:(vm_compute; reflexivity)
    (slot_of three 0 _ ltac:(vm_compute; reflexivity) ltac:(vm_compute; discriminate)))
    as [(_ & k & u & s' & E & _)|(Hno & _)].
  - exists s'. split; [exact E|]. assert (current_tid <$> match schedule User three with Done s => Some s | _ => None end = Some 1) as Ec
      by (vm_compute; reflexivity). rewrite E in Ec. by injection Ec.
  - specialize (Hno 1). vm_compute in Hno. discriminate Hno.
Defined.

(** One interruption, to thread 1; thread 2 is still ready. *)
Definition ticked : sys := after_script [Call (Create 100 7); Call (Create 200 8); Tick].

Lemma tick_step : step three Tick None ticked.
Proof. constructor; vm_compute; reflexivity. Qed.

Lemma no_join_tick s : joins_own_stack Tick s.
Proof. by apply joins_nobody_ok. Qed.

Lemma round_robin_fair_witness :
  Z.of_nat 1 < behind (current_tid three) 2 ∧ is_ready (threads ticked) 2 = true.
Proof.
  assert (passes_over 2 three (if decide (current_tid ticked = current_tid three) then 0 else 1) ticked) as Hrun.
  { eapply passes_cons; [apply no_join_tick|apply tick_step|vm_compute; discriminate|apply passes_nil]. }
  assert ((if decide (current_tid ticked = current_tid three) then 0 else 1)%nat = 1%nat) as E by (vm_compute; reflexivity).
  rewrite E in Hrun.
  exact (round_robin_fair three 2 1 ticked three_reachable ltac:(vm_compute; reflexivity)
    ltac:(vm_compute; discriminate) ltac:(vm_compute; reflexivity) Hrun).
Defined.

Lemma reachable_threads_witness : ∃ t, zget (threads three) 2 = Some t ∧ tid t = 2 ∧ saved_ok (mem three) (regs t).
Proof.
  assert (∃ t, zget (threads three) 2 = Some t ∧ status t = TS_READY) as (t & Ht & Hs)
    by (eexists; split; vm_compute; reflexivity).
  destruct (reachable_threads three 2 t three_reachable ltac:(vm_compute; reflexivity) Ht)
    as (Htid & _ & _ & _ & Hsaved & _).
  exists t. split; [exact Ht|]. split; [exact Htid|]. apply Hsaved; [vm_compute; discriminate|by left].
Defined.


(** Thread 1 has exited, the main thread runs. *)
Definition one_gone : sys := after_script [Call (Create 100 7); Tick; Go; Call (Exit 5)].

Lemma pthread_join_correct_witness : pthread_join 1 NULL one_gone = Crashed ∧
  ∃ s', pthread_join 1 99 one_gone = Done (Some (RJoin 5 0), s').
Proof.
  destruct (reachable_inv one_gone (after_script_reachable _)) as [q Hq].
  assert (∃ t, zget (threads one_gone) 1 = Some t ∧ status t = TS_EXITED ∧
    heap one_gone !! stack t = Some OStack ∧ exit_status t = 5) as (t & Ht & Hs & Hh & Hx)
    by (eexists; split_and!; vm_compute; reflexivity).
  destruct (pthread_join_correct one_gone q 1 t 99 Hq ltac:(vm_compute; reflexivity) Ht
    ltac:(vm_compute; split; [discriminate|reflexivity])) as [Hdone _].
  destruct (Hdone Hs Hh) as [Hnull Hret]. split; [exact Hnull|].
  destruct (Hret ltac:(discriminate)) as (s' & E & _). exists s'. rewrite Hx in E. exact E.
Defined.

Lemma none_ready ths : forallb (λ t, negb (bool_decide (status t = TS_READY))) ths = true →
  ∀ j, is_ready ths j = false.
Proof.
  rewrite forallb_forall. intros Hall j. unfold is_ready.
  destruct (zget ths j) as [t|] eqn:Ej; [|done]. apply zget_Some in Ej as [_ Ej].
  assert (In t ths) as Hin by (apply list_elem_of_In; by eapply list_elem_of_lookup_2).
  specialize (Hall t Hin). by destruct (bool_decide _).
Qed.

Lemma last_exit_hangs_witness : pthread_exit 0 one_gone = OutOfFuel.
Proof.
  apply (last_exit_hangs one_gone 0 (after_script_reachable _)).
  intros j _. apply none_ready. vm_compute. reflexivity.
Defined.

(** ** Mutexes *)

Definition with_mutex : sys := after_script [Call MutexInit].
Definition taken : sys := after_script [Call MutexInit; Call (MutexLock 65536)].

Lemma init_step : step boot (Call MutexInit) (Some (RPtr 65536 0)) with_mutex.
Proof. constructor; vm_compute; reflexivity. Qed.
Lemma take_step : step with_mutex (Call (MutexLock 65536)) (Some (RInt 0)) taken.
Proof. constructor; vm_compute; reflexivity. Qed.

Lemma mutexes_refine_queues_witness : ∃ A, represents with_mutex A ∧ A 65536 = Some (false, []).
Proof.
  destruct mutexes_refine_queues as [Hb Hstep].
  destruct (Hstep boot (λ _, None) (Call MutexInit) (Some (RPtr 65536 0)) with_mutex Hb ltac:(by apply joins_nobody_ok) init_step) as (A & HA & Hs & _).
  exists A. split; [exact HA|]. destruct Hs as (p & Ep & _ & E). injection Ep as <-.
  rewrite (E 65536). apply upd_eq.
Defined.

Lemma taken_holding : holding taken (upd (λ _, []) 65536 [0]).
Proof.
  apply (holding_step with_mutex (λ _, []) (Call (MutexLock 65536)) (Some (RInt 0)) taken).
  - apply (holding_step boot (λ _, []) (Call MutexInit) (Some (RPtr 65536 0)) with_mutex);
      [apply holding_boot|by apply joins_nobody_ok|by intros p|apply init_step].
  - by apply joins_nobody_ok.
  - by intros p.
  - apply take_step.
Qed.

(** A step that neither takes nor gives back a mutex. *)
Lemma holding_quiet ls l r s held : holding (after_script ls) held →
  joins_nobody l (after_script ls) = true → (∀ p, l ≠ Call (MutexUnlock p)) →
  track (current_tid (after_script ls)) l r held = held → step (after_script ls) l r s → holding s held.
Proof.
  intros Hh Hj Hu <- Hs. apply (holding_step (after_script ls) held l r s);
    [done|by apply joins_nobody_ok|intros p Hl; by destruct (Hu p)|done].
Qed.

(** A second thread waits for the mutex that the main thread holds. *)
Definition contention : list label :=
  [Call MutexInit; Call (MutexLock 65536); Call (Create 100 7); Tick; Go; Call (MutexLock 65536)].
Definition contended : sys := after_script contention.

Lemma contended_holding : holding contended (upd (λ _, []) 65536 [0]).
Proof.
  eapply (holding_quiet (take 5 contention) (Call (MutexLock 65536)) None);
    [|vm_compute; reflexivity|done|done|constructor; vm_compute; reflexivity].
  eapply (holding_quiet (take 4 contention) Go);
    [|vm_compute; reflexivity|done|done|constructor; vm_compute; reflexivity].
  eapply (holding_quiet (take 3 contention) Tick None);
    [|vm_compute; reflexivity|done|done|constructor; vm_compute; reflexivity].
  eapply (holding_quiet (take 2 contention) (Call (Create 100 7)));
    [|vm_compute; reflexivity|done|done|constructor; vm_compute; reflexivity].
  exact taken_holding.
Qed.

Lemma mutual_exclusion_witness :
  (∃ t, zget (threads contended) 1 = Some t ∧ status t = TS_BLOCKED) ∧
  (length (upd (λ _, []) 65536 [0] 65536) ≤ 1)%nat.
Proof.
  split; [eexists; split; vm_compute; reflexivity|].
  exact (mutual_exclusion contended (upd (λ _, []) 65536 [0]) 65536 contended_holding).
Defined.

Lemma pthread_create_correct_witness : ∃ s', pthread_create 100 7 boot = Done (Some (RCreate 1 0), s').
Proof.
  destruct (reachable_inv boot reachable_boot) as [q Hq].
  destruct (pthread_create_correct boot 100 7 q Hq) as [_ Hok].
  destruct (Hok ltac:(vm_compute; reflexivity) 65536 ltac:(vm_compute; reflexivity)) as (s' & t & E & _).
  by exists s'.
Defined.

(** ** A barrier for two threads *)

Definition new_barrier : list label := [Call (Create 100 7); Call (BarrierInit 2)].
Definition at_start : sys := after_script new_barrier.
Definition one_waits : sys := after_script (new_barrier ++ [Call (BarrierWait 131072)]).
Definition switched_to_1 : sys := after_script (new_barrier ++ [Call (BarrierWait 131072); Go]).
Definition started : sys := after_script (new_barrier ++ [Call (BarrierWait 131072); Go; Go]).
Definition both_wait : sys := after_script (new_barrier ++ [Call (BarrierWait 131072); Go; Go; Call (BarrierWait 131072)]).
Definition passed : sys := after_script (new_barrier ++ [Call (BarrierWait 131072); Go; Go; Call (BarrierWait 131072); Go]).
Definition leaving : sys := after_script (new_barrier ++ [Call (BarrierWait 131072); Go; Go; Call (BarrierWait 131072); Go; Go]).

Definition through (pt : point) : bool :=
  match pt with BarrierYield _ | BarrierLeave _ => true | _ => false end.

Lemma none_through s p : through (pc s) = false →
  forallb (λ t, match regs t with Context pt => negb (through pt) | Words _ => true end) (threads s) = true →
  nobody_through s p.
Proof.
  intros Hpc Hall i.
  assert (∀ pt, through pt = true → ¬ at_point s i pt) as Hno.
  { intros pt Hpt [[_ E]|(_ & t & Ht & Hr & _)]; [congruence|].
    rewrite forallb_forall in Hall. apply zget_Some in Ht as [_ Ht].
    assert (In t (threads s)) as Hin by (apply list_elem_of_In; by eapply list_elem_of_lookup_2).
    specialize (Hall t Hin). rewrite Hr, Hpt in Hall. done. }
  split; by apply Hno.
Qed.

Lemma round_wait p s n s1 o s2 : first_round p s n s1 → step s1 (Call (BarrierWait p)) o s2 →
  first_round p s (S n) s2.
Proof.
  intros Hr Hs. assert ((if decide (Call (BarrierWait p) = Call (BarrierWait p)) then S n else n) = S n) as <-
    by (by apply decide_True).
  eapply round_cons; [exact Hr|by apply joins_nobody_ok|exact Hs|done|by intros [? _]].
Qed.

Lemma round_go p s n s1 o s2 : first_round p s n s1 → step s1 Go o s2 → joins_nobody Go s1 = true →
  pc s1 ≠ BarrierLeave p → first_round p s n s2.
Proof.
  intros Hr Hs Hj Hp. assert ((if decide (Go = Call (BarrierWait p)) then S n else n) = n) as <-
    by (by apply decide_False).
  eapply round_cons; [exact Hr|by apply joins_nobody_ok|exact Hs|done|by intros [_ ?]].
Qed.

Ltac next_state := constructor; vm_compute; reflexivity.

Lemma barrier_round : first_round 131072 at_start 2 leaving.
Proof.
  assert (first_round 131072 at_start 1 one_waits) as H1
    by (eapply (round_wait 131072 at_start 0); [apply round_nil|next_state]).
  assert (first_round 131072 at_start 1 switched_to_1) as H2
    by (eapply round_go; [exact H1|next_state|vm_compute; reflexivity|vm_compute; discriminate]).
  assert (first_round 131072 at_start 1 started) as H3
    by (eapply round_go; [exact H2|next_state|vm_compute; reflexivity|vm_compute; discriminate]).
  assert (first_round 131072 at_start 2 both_wait) as H4 by (eapply round_wait; [exact H3|next_state]).
  assert (first_round 131072 at_start 2 passed) as H5
    by (eapply round_go; [exact H4|next_state|vm_compute; reflexivity|vm_compute; discriminate]).
  eapply round_go; [exact H5|next_state|vm_compute; reflexivity|vm_compute; discriminate].
Qed.

Lemma barrier_first_round_witness : first_round 131072 at_start 2 leaving ∧ 2 ≤ Z.of_nat 2.
Proof.
  split; [exact barrier_round|].
  apply (barrier_first_round 131072 2 at_start 2 leaving).
  - apply after_script_reachable.
  - vm_compute. reflexivity.
  - vm_compute. reflexivity.
  - apply none_through; vm_compute; reflexivity.
  - exact barrier_round.
  - exists 1. right. split; [vm_compute; discriminate|].
    eexists. split; [vm_compute; reflexivity|]. split; [reflexivity|]. by left.
Defined.

Lemma tail_in_loop p ths i t : forallb (in_loop p) (tail ths) = true → zget ths i = Some t → i ≠ 0 →
  in_loop p t = true.
Proof.
  intros Hall [Hi Ht]%zget_Some Hne. apply (all_in_loop p (tail ths) (i - 1) t Hall), zget_Some.
  split; [lia|]. destruct ths as [|u ths]; [done|]. rewrite <- Ht.
  replace (Z.to_nat i) with (S (Z.to_nat (i - 1))) by lia. done.
Qed.

(** The run [reuse] before thread 0 leaves the first round: thread 1 has come back
    to the barrier. *)
Definition before_leaving : sys := after_script (take 13 reuse).

Lemma early_reuse_hangs_witness :
  ∃ s1 s2 r, step before_leaving Go (Some r) s1 ∧ step s1 (Call (BarrierWait 65536)) None s2 ∧
    ∀ s3 l o s4, runs s2 s3 → step s3 l o s4 → o = None.
Proof.
  eapply (early_reuse_hangs before_leaving 65536);
    [apply after_script_reachable|vm_compute; reflexivity|vm_compute; reflexivity|cbn; lia|].
  intros i t Ht Hne Hs.
  assert (current_tid before_leaving = 0) as Hcur by (vm_compute; reflexivity).
  assert (forallb (in_loop 65536) (tail (threads before_leaving)) = true) as Hall
    by (vm_compute; reflexivity).
  rewrite Hcur in Hne. revert Hall Ht Hne. generalize (threads before_leaving). intros ths Hall Ht Hne.
  exact (in_loop_ok 65536 t (tail_in_loop 65536 ths i t Hall Ht Hne) Hs).
Defined.
