(* ===== verification/Shell.v ===== *)
(** * The shell ([myshell.c])

    The shell's process: its descriptor table, its children and the
    variables of [main].  The code runs without blocking from one blocking call
    to the next, [fgets] (line 117) and [waitpid] (line 72), so the state
    records at which of them it stands and a step ends one of them.  What the
    kernel answers to [open] and [execvp] in a child is a class; [pipe] and
    [fork] succeed.  The child's code between [fork] and [execvp] only
    changes the child's own descriptor table, so it is a function of the table
    at [fork]. *)

From S2P Require Export ParserSpec.

(** ** Descriptors *)

(** What a descriptor refers to: a file the shell was started with, an end of
    the [n]-th pipe, or a path opened by [open]. *)
Inductive file : Type :=
  | Inherited (n : Z)
  | PipeRead (n : nat)
  | PipeWrite (n : nat)
  | OpenWrite (path : cstr)
  | OpenRead (path : cstr).

#[export] Instance file_eq_dec : EqDecision file.
Proof. solve_decision. Defined.

Abbreviation fdtable := (gmap Z file).

Definition STDIN_FILENO : Z := 0.
Definition STDOUT_FILENO : Z := 1.

(** [open] and [pipe] allocate the lowest descriptor that is not open. *)
Fixpoint lowest_from (fuel : nat) (i : Z) (t : fdtable) : Z :=
  match fuel with
  | O => i
  | S fuel => match t !! i with Some _ => lowest_from fuel (i + 1) t | None => i end
  end.

Definition lowest_free (t : fdtable) : Z := lowest_from (size t) 0 t.

(** [None] is the result -1 ([EBADF]); the table is unchanged then. *)
Definition dup2 (old new : Z) (t : fdtable) : option fdtable :=
  f ← t !! old; Some (<[new := f]> t).

(** A call whose result the code ignores. *)
Definition ignore (call : fdtable → option fdtable) (t : fdtable) : fdtable := default t (call t).

Definition close (fd : Z) (t : fdtable) : fdtable := delete fd t.

(** The kernel's answers in the child number [pid]: whether the two [open]s
    succeed and whether [execvp] does. *)
Class Kernel : Type := {
  open_write_ok : nat → cstr → bool;
  open_read_ok : nat → cstr → bool;
  exec_ok : nat → list cstr → bool
}.

(** ** [doCommand], the child *)

(** How the child's code ends: a program runs with its arguments and
    descriptors, [exit (0)], or [execvp] is given a null or an uninitialised
    pointer. *)
Inductive child_end : Type :=
  | Executes (args : list cstr) (t : fdtable)
  | Exits
  | Faults.

(** The arguments [execvp] reads: the cells before the first [NULL]. *)
Fixpoint exec_args (cells : list arg_cell) : option (list cstr) :=
  match cells with
  | Str w :: cells => args ← exec_args cells; Some (w :: args)
  | Null :: _ => Some []
  | _ => None
  end.

Section child.
Context `{Kernel}.

Definition redirect_out (pid : nat) (c : pipeline_command) (t : fdtable) : option fdtable :=
  match redirect_out_path c with
  | Some path =>
      if open_write_ok pid path then
        let fdout := lowest_free t in
        t ← dup2 fdout STDOUT_FILENO (<[fdout := OpenWrite path]> t);
        Some (close fdout t)
      else None
  | None => Some t
  end.

Definition redirect_in (pid : nat) (c : pipeline_command) (t : fdtable) : option fdtable :=
  match redirect_in_path c with
  | Some path =>
      if open_read_ok pid path then
        let fdin := lowest_free t in
        t ← dup2 fdin STDIN_FILENO (<[fdin := OpenRead path]> t);
        Some (close fdin t)
      else None
  | None => Some t
  end.

(** Lines 51 to 60. *)
Definition connect (fd : Z * Z) (input : Z) (end_ : bool) (t : fdtable) : fdtable :=
  if negb end_ && (input =? 0) then ignore (dup2 fd.2 STDOUT_FILENO) t
  else if negb end_ && negb (input =? 0) then
    ignore (dup2 fd.2 STDOUT_FILENO) (ignore (dup2 input STDIN_FILENO) t)
  else ignore (dup2 input STDIN_FILENO) t.

Definition execvp (pid : nat) (c : pipeline_command) (t : fdtable) : child_end :=
  match command_args c with
  | Str _ :: _ =>
      match exec_args (command_args c) with
      | Some args => if exec_ok pid args then Executes args t else Exits
      | None => Faults
      end
  | _ => Faults
  end.

(** Lines 20 to 63, on the table [t] inherited from the shell. *)
Definition child (pid : nat) (p : pipeline) (c : pipeline_command)
    (fd : Z * Z) (input : Z) (end_ : bool) (t : fdtable) : child_end :=
  match t ← redirect_out pid c t; redirect_in pid c t with
  | None => Exits
  | Some t =>
      let t := if is_background p then close fd.2 t else t in
      execvp pid c (connect fd input end_ t)
  end.
End child.

(** ** The shell's state *)

Inductive status : Type := Running | Zombie | Reaped.

#[export] Instance status_eq_dec : EqDecision status.
Proof. solve_decision. Defined.

Record process : Type := Process { code : child_end; proc_status : status }.

(** Where the shell stands: in [fgets]; in [waitpid (pid, ...)] inside
    [doCommand] with its locals [fd], [input] and [end]; after [main]
    returned; or after undefined behaviour. *)
Inductive point : Type :=
  | Reading
  | Waiting (pid : nat) (fd : Z * Z) (input : Z) (end_ : bool)
  | Halted
  | Broken.

(** [quiet] is the condition of line 112; [stdin] the characters still to be
    read, after which [stdin] is at its end; [buffer] is [main]'s [input] and
    [current] its [pipeline], [None] before they are first written.  Children
    are numbered in the order of the [fork]s and pipes in that of the calls of
    [pipe]. *)
Record shell : Type := Shell {
  quiet : bool;
  stdin : list ascii;
  buffer : option cstr;
  current : option (option pipeline);
  fds : fdtable;
  children : list process;
  pipes : nat;
  printed : list cstr;
  at_point : point
}.

Definition set_stdin (x : list ascii) (b : option cstr) (s : shell) : shell :=
  Shell (quiet s) x b (current s) (fds s) (children s) (pipes s) (printed s) (at_point s).
Definition set_current (x : option pipeline) (s : shell) : shell :=
  Shell (quiet s) (stdin s) (buffer s) (Some x) (fds s) (children s) (pipes s) (printed s)
    (at_point s).
Definition set_fds (x : fdtable) (s : shell) : shell :=
  Shell (quiet s) (stdin s) (buffer s) (current s) x (children s) (pipes s) (printed s)
    (at_point s).
Definition set_children (x : list process) (s : shell) : shell :=
  Shell (quiet s) (stdin s) (buffer s) (current s) (fds s) x (pipes s) (printed s)
    (at_point s).
Definition set_pipes (x : nat) (s : shell) : shell :=
  Shell (quiet s) (stdin s) (buffer s) (current s) (fds s) (children s) x (printed s)
    (at_point s).
Definition print (x : cstr) (s : shell) : shell :=
  Shell (quiet s) (stdin s) (buffer s) (current s) (fds s) (children s) (pipes s)
    (printed s ++ [x]) (at_point s).
Definition go_to (x : point) (s : shell) : shell :=
  Shell (quiet s) (stdin s) (buffer s) (current s) (fds s) (children s) (pipes s) (printed s) x.

(** ** [doCommand], the parent *)

(** Lines 16 to 18 and the child: the pipe, its two descriptors, and the new
    child. *)
Definition fork_command `{Kernel} (p : pipeline) (c : pipeline_command) (input : Z) (end_ : bool)
    (s : shell) : shell * nat * (Z * Z) :=
  let r := lowest_free (fds s) in
  let t := <[r := PipeRead (pipes s)]> (fds s) in
  let w := lowest_free t in
  let t := <[w := PipeWrite (pipes s)]> t in
  let pid := length (children s) in
  let proc := Process (child pid p c (r, w) input end_ t) Running in
  (set_children (children s ++ [proc]) (set_pipes (S (pipes s)) (set_fds t s)), pid, (r, w)).

(** Lines 75 to 85, after the wait; the result is [fd[0]]. *)
Definition finish_command (fd : Z * Z) (input : Z) (end_ : bool) (s : shell) : shell :=
  let t := close fd.2 (fds s) in
  let t := if input =? 0 then t else close input t in
  let t := if end_ then close fd.1 t else t in
  set_fds t s.

(** ** [signalHandler] *)

(** [waitpid (-1, &status, WNOHANG)]: reaps a terminated child; [None] is a
    result that is not positive. *)
Definition waitpid_any (cs : list process) : option (list process) :=
  '(i, c) ← list_find (λ c, proc_status c = Zombie) cs;
  Some (<[i := Process (code c) Reaped]> cs).

Fixpoint reap_loop (fuel : nat) (cs : list process) : res (list process) :=
  match fuel with
  | O => NoFuel
  | S fuel =>
      match waitpid_any cs with Some cs => reap_loop fuel cs | None => Ret cs end
  end.

Definition signalHandler (cs : list process) : res (list process) :=
  reap_loop (S (length cs)) cs.

(** ** [main] *)

Definition MAX_COMMAND_LENGTH : nat := 256.
Definition newline : ascii := "010"%char.

(** A character array as a C string: what precedes the first NUL. *)
Fixpoint c_string (l : list ascii) : cstr :=
  match l with
  | c :: l => if Ascii.eqb c nul then [] else c :: c_string l
  | [] => []
  end.

(** [fgets] with room for [n] characters: the characters stored, the rest of
    the stream, and whether the end of the stream was met. *)
Fixpoint fgets (n : nat) (l : list ascii) : list ascii * list ascii * bool :=
  match n with
  | O => ([], l, false)
  | S n =>
      match l with
      | [] => ([], [], true)
      | c :: l =>
          if Ascii.eqb c newline then ([c], l, false)
          else let '(read, rest, eof) := fgets n l in (c :: read, rest, eof)
      end
  end.

(** Lines 112 to 117: the prompt, and the shell is in [fgets]. *)
Definition prompt (s : shell) : shell :=
  go_to Reading
    (if quiet s then s else print (String.list_ascii_of_string "my_shell$ "%string) s).

(** Lines 127 to 133, from the command [c] of the list [c :: rest] on, up to
    the next blocking call. *)
Fixpoint run_commands `{Kernel} (cmds : list pipeline_command) (bg : bool) (input_fd : Z)
    (s : shell) : shell :=
  match cmds with
  | [] => go_to Broken s
  | c :: rest =>
      let p := Pipeline cmds bg in
      let end_ := match rest with [] => true | _ => false end in
      let '(s, pid, fd) := fork_command p c input_fd end_ (set_current (Some p) s) in
      if bg then
        let s := finish_command fd input_fd end_ s in
        if end_ then prompt s else run_commands rest bg fd.1 s
      else go_to (Waiting pid fd input_fd end_) s
  end.

(** The rest of [doCommand] and of [main]'s loops after [waitpid] returned. *)
Definition wait_returns `{Kernel} (s : shell) : shell :=
  match at_point s, current s with
  | Waiting pid fd input end_, Some (Some (Pipeline (_ :: rest) bg)) =>
      let s := finish_command fd input end_ s in
      if end_ then prompt s else run_commands rest bg fd.1 s
  | _, _ => go_to Broken s
  end.

(** Lines 121 to 134, when [fgets] returned and [stdin] is not at its end. *)
Definition run_line `{Kernel} (s : shell) : shell :=
  match buffer s with
  | None => go_to Broken s
  | Some line =>
      match pipeline_build line with
      | Ret (Some p) => run_commands (commands p) (is_background p) 0 s
      | Ret None => prompt (print line (set_current None s))
      | _ => go_to Broken s
      end
  end.

(** Line 138, and the return from [main]. *)
Definition finish (s : shell) : shell :=
  match current s with
  | None => go_to Broken s
  | Some p => match pipeline_free p with Ret _ => go_to Halted s | _ => go_to Broken s end
  end.

(** [fgets] returns with what it read, or at the end of [stdin]; when a signal
    interrupts it before it has read anything, it fails and leaves the buffer as
    it was ([exec] of [Returns], below), as the C library does it. *)
Definition read_line `{Kernel} (s : shell) : shell :=
  let '(read, rest, eof) := fgets (MAX_COMMAND_LENGTH - 1) (stdin s) in
  let b := match read with [] => buffer s | _ => Some (c_string read) end in
  let s := set_stdin rest b s in
  if eof then finish s else run_line s.

Definition start (is_quiet : bool) (input : list ascii) (t : fdtable) : shell :=
  prompt (Shell is_quiet input None None t [] 0 [] Reading).

(** ** Steps *)

(** The children [pids], which are running, terminate; the signal runs the
    handler. *)
Definition is_running (cs : list process) (pid : nat) : bool :=
  match cs !! pid with Some c => bool_decide (proc_status c = Running) | None => false end.

Definition mark (pids : list nat) (cs : list process) : list process :=
  imap (λ i c, if decide (i ∈ pids) then Process (code c) Zombie else c) cs.

Definition terminate (pids : list nat) (cs : list process) : option (list process) :=
  if negb (bool_decide (pids = [])) && forallb (is_running cs) pids
  then Some (mark pids cs) else None.

Definition sigchld (pids : list nat) (s : shell) : option shell :=
  cs ← terminate pids (children s);
  match signalHandler cs with Ret cs => Some (set_children cs s) | _ => None end.

(** What can happen while the shell is in a blocking call: [fgets] returns;
    children terminate and the call goes on (the signal came before the call);
    children terminate and the call returns, [fgets] with the error [EINTR]
    (the handler is installed without [SA_RESTART]) and its buffer unchanged,
    [waitpid] with the child it waits for or with an error. *)
Inductive event : Type :=
  | Line
  | Ends (pids : list nat)
  | Returns (pids : list nat).

Definition exec `{Kernel} (s : shell) (e : event) : option shell :=
  match at_point s, e with
  | Reading, Line => Some (read_line s)
  | Reading, Ends pids => sigchld pids s
  | Reading, Returns pids => run_line <$> sigchld pids s
  | Waiting pid _ _ _, Ends pids => if decide (pid ∈ pids) then None else sigchld pids s
  | Waiting _ _ _ _, Returns pids => wait_returns <$> sigchld pids s
  | _, _ => None
  end.

Inductive step `{Kernel} : shell → shell → Prop :=
  | step_event s e s' : exec s e = Some s' → step s s'.

Fixpoint run_events `{Kernel} (s : shell) (es : list event) : option shell :=
  match es with
  | [] => Some s
  | e :: es => s ← exec s e; run_events s es
  end.

(** The states of a shell started with the descriptor table [t]. *)
Inductive reachable `{Kernel} (t : fdtable) : shell → Prop :=
  | reach_start q input : reachable t (start q input t)
  | reach_step s s' : reachable t s → step s s' → reachable t s'.
