(* ===== verification/ShellProofs.v ===== *)
(** * Lemmas about the shell model

    Descriptor tables, the descriptors a child ends up with, one command of
    a pipeline, and the signal handler. *)

From S2P Require Export Shell.

(** ** The lowest free descriptor *)

Lemma lowest_from_spec fuel i (t : fdtable) :
  0 ≤ i → (∀ j, 0 ≤ j < i → is_Some (t !! j)) → (size t <= fuel + Z.to_nat i)%nat →
  t !! lowest_from fuel i t = None.
Proof.
  revert i. induction fuel as [|fuel IH]; intros i Hi Hj Hs; simpl.
  - apply eq_None_not_Some. intros Hx.
    assert (list_to_set (seqZ 0 (i + 1)) ⊆ dom t) as Hsub.
    { intros j Hin. apply elem_of_list_to_set, elem_of_seqZ in Hin. apply elem_of_dom.
      destruct (decide (j = i)) as [->|]; [done|]. apply Hj. lia. }
    apply subseteq_size in Hsub. rewrite size_dom, size_list_to_set, length_seqZ in Hsub
      by apply NoDup_seqZ. lia.
  - destruct (t !! i) eqn:E; [|done]. apply IH; [lia| |lia].
    intros j Hlt. destruct (decide (j = i)) as [->|]; [by eexists|]. apply Hj. lia.
Qed.

Lemma lowest_free_None (t : fdtable) : t !! lowest_free t = None.
Proof. apply lowest_from_spec; lia. Qed.

Lemma lowest_free_ne (t : fdtable) fd f : t !! fd = Some f → lowest_free t ≠ fd.
Proof. intros E <-. by rewrite lowest_free_None in E. Qed.

(** ** The child's descriptors *)

Definition from_path (redirect : cstr → file) (f : file) (path : option cstr) : file :=
  match path with Some w => redirect w | None => f end.

(** What a command reads from, given the file [f] at descriptor [input], and
    writes to, given its pipe's number [n] and the shell's output [f]. *)
Definition stage_in (c : pipeline_command) (input : Z) (f : file) : file :=
  if input =? 0 then from_path OpenRead f (redirect_in_path c) else f.
Definition stage_out (c : pipeline_command) (bg end_ : bool) (n : nat) (f : file) : file :=
  if end_ || bg then from_path OpenWrite f (redirect_out_path c) else PipeWrite n.

Section child.
Context `{K : Kernel}.

(** The two [open]s of the child succeed. *)
Definition opens (pid : nat) (c : pipeline_command) : bool :=
  forallb (open_write_ok pid) (option_list (redirect_out_path c)) &&
  forallb (open_read_ok pid) (option_list (redirect_in_path c)).

Lemma redirect_out_eq pid c (t : fdtable) f1 :
  t !! 1 = Some f1 →
  redirect_out pid c t =
  if forallb (open_write_ok pid) (option_list (redirect_out_path c))
  then Some (<[1 := from_path OpenWrite f1 (redirect_out_path c)]> t) else None.
Proof.
  intros E1. unfold redirect_out. destruct (redirect_out_path c) as [w|]; simpl.
  - rewrite andb_true_r. destruct (open_write_ok pid w); [|done].
    pose proof (lowest_free_ne t 1 f1 E1) as Hne. pose proof (lowest_free_None t) as Hn.
    unfold dup2, STDOUT_FILENO, close. rewrite lookup_insert_eq. simpl.
    by rewrite delete_insert_ne, delete_insert_id by done.
  - by rewrite insert_id.
Qed.

Lemma redirect_in_eq pid c (t : fdtable) f0 :
  t !! 0 = Some f0 →
  redirect_in pid c t =
  if forallb (open_read_ok pid) (option_list (redirect_in_path c))
  then Some (<[0 := from_path OpenRead f0 (redirect_in_path c)]> t) else None.
Proof.
  intros E0. unfold redirect_in. destruct (redirect_in_path c) as [w|]; simpl.
  - rewrite andb_true_r. destruct (open_read_ok pid w); [|done].
    pose proof (lowest_free_ne t 0 f0 E0) as Hne. pose proof (lowest_free_None t) as Hn.
    unfold dup2, STDIN_FILENO, close. rewrite lookup_insert_eq. simpl.
    by rewrite delete_insert_ne, delete_insert_id by done.
  - by rewrite insert_id.
Qed.

(** The table of a child whose pipe has number [n], from the shell's table
    [t] at [fork]. *)
Definition stage_table (p : pipeline) (c : pipeline_command) (w : Z) (input : Z)
    (end_ : bool) (n : nat) (fin f1 : file) (t : fdtable) : fdtable :=
  <[0 := stage_in c input fin]>
    (<[1 := stage_out c (is_background p) end_ n f1]>
      (if is_background p then delete w t else t)).

Lemma connect_eq r w input end_ (t : fdtable) fin :
  t !! input = Some fin → input ≠ 1 → w ≠ 0 →
  connect (r, w) input end_ t =
  <[0 := fin]> (if end_ then t else match t !! w with Some f => <[1 := f]> t | None => t end).
Proof.
  intros Ei Hi Hw. unfold connect, ignore, dup2, STDIN_FILENO, STDOUT_FILENO. simpl.
  destruct end_; simpl; [by rewrite Ei|]. destruct (Z.eqb_spec input 0) as [->|Hne]; simpl.
  - destruct (t !! w) as [f|] eqn:E; simpl;
      symmetry; apply insert_id; [by rewrite lookup_insert_ne|done].
  - rewrite Ei. simpl. rewrite lookup_insert_ne by done.
    destruct (t !! w) as [f|]; simpl; [|done]. by rewrite insert_insert_ne.
Qed.

Lemma child_eq pid p c r w input end_ (t : fdtable) n fin f0 f1 :
  t !! 0 = Some f0 → t !! 1 = Some f1 → t !! input = Some fin → input ≠ 1 →
  w ≠ 0 → w ≠ 1 → w ≠ input → t !! w = Some (PipeWrite n) →
  child pid p c (r, w) input end_ t =
  if opens pid c then execvp pid c (stage_table p c w input end_ n fin f1 t) else Exits.
Proof.
  intros E0 E1 Ei Hi Hw0 Hw1 Hwi Ew. unfold child, opens.
  rewrite (redirect_out_eq pid c t f1) by done.
  destruct (forallb (open_write_ok pid) _); [|done]. simpl.
  rewrite (redirect_in_eq pid c _ f0) by (by rewrite lookup_insert_ne).
  destruct (forallb (open_read_ok pid) _); [|done]. f_equal.
  set (fo := from_path OpenWrite f1 _). set (fi := from_path OpenRead f0 _).
  set (t' := if is_background p then close w _ else _).
  assert (t' = <[0 := fi]> (<[1 := fo]> (if is_background p then delete w t else t))) as ->.
  { subst t'. destruct (is_background p); [|done]. unfold close.
    by rewrite !delete_insert_ne by done. }
  rewrite (connect_eq r w input end_ _ (stage_in c input fin)).
  3-4: done.
  2: { unfold stage_in. destruct (Z.eqb_spec input 0) as [->|Hne].
       - rewrite lookup_insert_eq. unfold fi. congruence.
       - rewrite !lookup_insert_ne by done.
         destruct (is_background p); [|done]. by rewrite lookup_delete_ne. }
  unfold stage_table, stage_out. rewrite lookup_insert_ne, lookup_insert_ne by done.
  destruct (is_background p); [rewrite lookup_delete_eq|rewrite Ew]; destruct end_; simpl;
    try by rewrite insert_insert_eq.
  rewrite (insert_insert_ne _ 1 0) by done. by rewrite insert_insert_eq, insert_insert_eq.
Qed.
End child.

(** ** The signal handler *)

Definition no_zombies (cs : list process) : Prop := Forall (λ c, proc_status c ≠ Zombie) cs.

Definition reap (c : process) : process :=
  match proc_status c with Zombie => Process (code c) Reaped | _ => c end.

(** [pids] terminated and were waited for. *)
Definition reaped (pids : list nat) (cs : list process) : list process :=
  imap (λ i c, if decide (i ∈ pids) then Process (code c) Reaped else c) cs.

Lemma reap_loop_spec fuel cs :
  (length (filter (λ c, proc_status c = Zombie) cs) < fuel)%nat →
  reap_loop fuel cs = Ret (map reap cs).
Proof.
  revert cs. induction fuel as [|fuel IH]; intros cs Hf; [lia|]. simpl. unfold waitpid_any.
  destruct (list_find _ cs) as [[i c]|] eqn:E; simpl.
  - apply list_find_Some in E as (Hi & Hz & _).
    rewrite <- (take_drop_middle cs i c Hi) in Hf |- *.
    assert (length (take i cs) = i) as Hl by (apply length_take_le; apply lookup_lt_Some in Hi; lia).
    rewrite insert_app_r_alt, Hl, Nat.sub_diag by lia. simpl.
    rewrite list.filter_app, list.filter_cons, decide_True in Hf by done.
    rewrite length_app in Hf. simpl in Hf. rewrite IH.
    + rewrite !map_app. simpl. unfold reap at 2 5. by rewrite Hz.
    + rewrite list.filter_app, list.filter_cons, decide_False by done. rewrite length_app. lia.
  - apply list_find_None in E. f_equal. rewrite <- (map_id cs) at 1. apply map_ext_in.
    intros c Hc. apply list_elem_of_In in Hc. rewrite Forall_forall in E.
    specialize (E c (proj1 (list_elem_of_In _ _) Hc)). unfold reap. by destruct (proc_status c).
Qed.

Lemma signalHandler_spec cs : signalHandler cs = Ret (map reap cs).
Proof. apply reap_loop_spec. pose proof (length_filter (λ c, proc_status c = Zombie) cs). lia. Qed.

Lemma reap_mark pids cs : no_zombies cs → map reap (mark pids cs) = reaped pids cs.
Proof.
  intros Hz. apply list_eq. intros i. unfold mark, reaped.
  rewrite list_lookup_fmap, !list_lookup_imap. destruct (cs !! i) as [c|] eqn:E; [|done]. simpl.
  case_decide; [done|]. pose proof (Forall_lookup_1 _ _ _ _ Hz E) as Hc. simpl in Hc.
  unfold reap. by destruct (proc_status c).
Qed.

Lemma sigchld_eq pids s :
  no_zombies (children s) →
  sigchld pids s =
  if negb (bool_decide (pids = [])) && forallb (is_running (children s)) pids
  then Some (set_children (reaped pids (children s)) s) else None.
Proof.
  intros Hz. unfold sigchld, terminate. destruct (negb _ && _); [|done]. simpl.
  by rewrite signalHandler_spec, reap_mark.
Qed.

Lemma sigchld_inv pids s s' :
  no_zombies (children s) → sigchld pids s = Some s' →
  pids ≠ [] ∧ Forall (λ i, is_running (children s) i = true) pids ∧
  s' = set_children (reaped pids (children s)) s.
Proof.
  intros Hz. rewrite sigchld_eq by done.
  destruct (bool_decide_reflect (pids = [])), (forallb _ pids) eqn:E; simpl; try done.
  intros [= <-]. split; [done|]. split; [|done]. apply Forall_forall. intros i Hi.
  by apply (proj1 (forallb_forall _ _) E).
Qed.

Lemma sigchld_one pid s :
  no_zombies (children s) → is_running (children s) pid = true →
  sigchld [pid] s = Some (set_children (reaped [pid] (children s)) s).
Proof. intros Hz Hr. rewrite sigchld_eq by done. simpl. by rewrite Hr. Qed.

Lemma reaped_no_zombies pids cs : no_zombies cs → no_zombies (reaped pids cs).
Proof.
  intros Hz. apply Forall_lookup. intros i c. unfold reaped. rewrite list_lookup_imap.
  destruct (cs !! i) as [c'|] eqn:E; [|done]. simpl. intros [= <-].
  case_decide; [done|]. exact (Forall_lookup_1 _ _ _ _ Hz E).
Qed.

Lemma reaped_lookup pids cs i :
  reaped pids cs !! i = (λ c, if decide (i ∈ pids) then Process (code c) Reaped else c) <$> cs !! i.
Proof. apply list_lookup_imap. Qed.
