(* ===== verification/ShellInv.v ===== *)
(** * One command of a pipeline, and the invariant of the shell

    Between the commands of a pipeline the shell's descriptors are those it was
    started with and, after the first command, the read end of the last pipe;
    [inv] is the invariant of the reachable states. *)

From S2P Require Export ShellProofs.

(** ** The lines of the shell *)

(** A built pipeline has commands and can be freed. *)
Lemma build_result line :
  (∃ p, pipeline_build line = Ret (Some p) ∧ commands p ≠ [] ∧ Forall terminated (commands p)) ∨
  pipeline_build line = Ret None ∨ pipeline_build line = UB.
Proof.
  destruct (lexes_total line) as [ts H].
  destruct (pipeline_build_spec line ts H) as [cs bg Hg| |]; eauto.
  left. eexists. split; [done|]. simpl.
  assert (∃ ts', g_pipes ts' cs) as [ts' Hp] by (destruct Hg; eauto).
  split; [by destruct Hp|by eapply terminated_pipes].
Qed.

Lemma fgets_eof n l read rest : fgets n l = (read, rest, true) → rest = [].
Proof.
  revert l read. induction n as [|n IH]; intros [|c l] read; simpl; try congruence.
  destruct (Ascii.eqb c newline); [congruence|].
  destruct (fgets n l) as [[read' rest'] eof'] eqn:E. intros [= _ <- ->]. by eapply IH.
Qed.

Lemma fgets_empty n l rest eof : fgets (S n) l = ([], rest, eof) → eof = true.
Proof.
  destruct l as [|c l]; simpl; [congruence|]. destruct (Ascii.eqb c newline); [congruence|].
  destruct (fgets n l) as [[??]?]. congruence.
Qed.

(** ** Descriptors between commands *)

(** The descriptors a shell is started with: none is an end of a pipe of its
    own. *)
Definition inherits (t : fdtable) : Prop := ∀ fd f, t !! fd = Some f → ∃ k, f = Inherited k.

Section shell.
Context `{K : Kernel} (t0 : fdtable) (f0 f1 : file)
  (Hin : inherits t0) (H0 : t0 !! 0 = Some f0) (H1 : t0 !! 1 = Some f1).

(** [handing np input f t]: before a command whose input is the file [f] at
    descriptor [input], the shell's table is [t]; [np] pipes were created. *)
Inductive handing (np : nat) : Z → file → fdtable → Prop :=
  | handing_first : handing np 0 f0 t0
  | handing_pipe r m :
      r ≠ 0 → t0 !! r = None → (m < np)%nat →
      handing np r (PipeRead m) (<[r := PipeRead m]> t0).

Lemma handing_input np input f t : handing np input f t → t !! input = Some f.
Proof using H0. intros []; [done|by rewrite lookup_insert_eq]. Qed.

Lemma handing_std np input f t :
  handing np input f t → t !! 0 = Some f0 ∧ t !! 1 = Some f1 ∧ input ≠ 1.
Proof using H0 H1.
  intros [|r m Hr Hn]; [done|]. assert (r ≠ 1) by (intros ->; congruence).
  by rewrite !lookup_insert_ne by done.
Qed.

Lemma handing_None np input f t fd : handing np input f t → t !! fd = None → t0 !! fd = None.
Proof. intros [|r m Hr Hn]; [done|]. by intros [? _]%lookup_insert_None. Qed.

Lemma handing_no_writer np input f t fd m : handing np input f t → t !! fd ≠ Some (PipeWrite m).
Proof using Hin.
  intros [|r k Hr Hn].
  - intros [j [=]]%Hin.
  - rewrite lookup_insert_Some. intros [[_ [=]]|[_ [j [=]]%Hin]].
Qed.

(** The table with the two ends of the [n]-th pipe. *)
Definition with_pipe (r w : Z) (n : nat) (t : fdtable) : fdtable :=
  <[w := PipeWrite n]> (<[r := PipeRead n]> t).

(** The two descriptors [pipe] allocates in a table. *)
Definition fresh_pair (r w : Z) (t : fdtable) : Prop :=
  t !! r = None ∧ t !! w = None ∧ r ≠ w.

Lemma lowest_fresh t n :
  fresh_pair (lowest_free t) (lowest_free (<[lowest_free t := PipeRead n]> t)) t.
Proof.
  set (r := lowest_free t). pose proof (lowest_free_None (<[r := PipeRead n]> t)) as Hw.
  apply lookup_insert_None in Hw as [Hw Hne]. split; [apply lowest_free_None|]. done.
Qed.

(** How the child of a command ends, as a function of what it reads and of
    the table of the shell at [fork]. *)
Definition stage_code (pid : nat) (p : pipeline) (c : pipeline_command) (w input : Z)
    (end_ : bool) (n : nat) (fin : file) (t : fdtable) : child_end :=
  if opens pid c then execvp pid c (stage_table p c w input end_ n fin f1 t) else Exits.

(** The state after [fork]: one more pipe, one more running child. *)
Definition forked (p : pipeline) (c : pipeline_command) (r w input : Z) (end_ : bool)
    (fin : file) (s : shell) : shell :=
  let n := pipes s in
  let t := with_pipe r w n (fds s) in
  let pid := length (children s) in
  set_children (children s ++ [Process (stage_code pid p c w input end_ n fin t) Running])
    (set_pipes (S n) (set_fds t s)).

Lemma fork_command_eq p c input end_ fin s :
  handing (pipes s) input fin (fds s) →
  ∃ r w, fresh_pair r w (fds s) ∧
    fork_command p c input end_ s =
    (forked p c r w input end_ fin s, length (children s), (r, w)).
Proof using H0 H1.
  intros H. pose proof (handing_input _ _ _ _ H) as Ei.
  destruct (handing_std _ _ _ _ H) as (E0 & E1 & Hi1).
  pose proof (lowest_fresh (fds s) (pipes s)) as Hf. unfold fork_command. cbv zeta.
  set (r := lowest_free (fds s)) in *.
  set (w := lowest_free (<[r := PipeRead (pipes s)]> (fds s))) in *. clearbody w. clearbody r.
  exists r, w. split; [done|]. destruct Hf as (Hr & Hw & Hne).
  assert (∀ fd f, fds s !! fd = Some f → r ≠ fd ∧ w ≠ fd) as Hfr
    by (intros fd f E; split; intros ->; congruence).
  assert (∀ fd f, fds s !! fd = Some f →
    with_pipe r w (pipes s) (fds s) !! fd = Some f) as Hold.
  { intros fd f E. destruct (Hfr fd f E). unfold with_pipe. by rewrite !lookup_insert_ne. }
  pose proof (Hfr _ _ E0) as [_ ?]. pose proof (Hfr _ _ E1) as [_ ?].
  pose proof (Hfr _ _ Ei) as [_ ?]. change (<[w := _]> _) with (with_pipe r w (pipes s) (fds s)).
  rewrite (child_eq _ p c r w input end_ _ (pipes s) fin f0 f1) by
    (done || (by apply Hold) || by apply lookup_insert_eq). done.
Qed.

(** After the command the pipe's write end and the input are closed, and the
    read end is kept for the next command only. *)
Lemma finish_command_fds np r w input end_ fin t n s :
  handing np input fin t → fresh_pair r w t → fds s = with_pipe r w n t →
  fds (finish_command (r, w) input end_ s) =
    if end_ then t0 else <[r := PipeRead n]> t0.
Proof.
  intros H (Hr & Hw & Hne) Hs. unfold finish_command, close. cbn [fds set_fds fst snd].
  rewrite Hs. unfold with_pipe. rewrite delete_insert_id by (by rewrite lookup_insert_ne).
  pose proof (handing_None _ _ _ _ r H Hr) as Hr0.
  destruct H as [|r' m Hr' Hn' Hm].
  - simpl. destruct end_; [|done]. by rewrite delete_insert_id.
  - rewrite (proj2 (Z.eqb_neq r' 0)) by done.
    apply lookup_insert_None in Hr as [_ Hr].
    rewrite (delete_insert_ne _ r' r), (delete_insert_id _ r') by done.
    destruct end_; [|done]. by rewrite delete_insert_id.
Qed.

Lemma handing_next r w input fin t np n :
  handing np input fin t → fresh_pair r w t → (n < S np)%nat →
  handing (S np) r (PipeRead n) (<[r := PipeRead n]> t0).
Proof using H0 H1.
  intros H (Hr & _ & _) Hn. destruct (handing_std _ _ _ _ H) as (E0 & _).
  apply handing_pipe; [congruence| |done]. by eapply handing_None.
Qed.
(** ** The invariant *)

Definition last_one (rest : list pipeline_command) : bool :=
  match rest with [] => true | _ => false end.

(** In [waitpid]: the child waited for is the youngest and runs the first
    command of [current], which is not in the background; the descriptors are
    those at its [fork]. *)
Inductive waiting (s : shell) (pid : nat) : Z * Z → Z → bool → Prop :=
  | waiting_intro t fin r w input n c rest :
      handing n input fin t → fresh_pair r w t →
      pipes s = S n → fds s = with_pipe r w n t →
      current s = Some (Some (Pipeline (c :: rest) false)) →
      S pid = length (children s) →
      children s !! pid =
        Some (Process (stage_code pid (Pipeline (c :: rest) false) c w input (last_one rest)
                         n fin (fds s)) Running) →
      waiting s pid (r, w) input (last_one rest).

(** The two ways to undefined behaviour: the end of the input before the
    first line, and a line on which the parser has undefined behaviour. *)
Definition bad_input (s : shell) : Prop :=
  (current s = None ∧ stdin s = []) ∨
  ∃ line, buffer s = Some line ∧ pipeline_build line = UB.

Definition point_inv (s : shell) : Prop :=
  match at_point s with
  | Reading | Halted => fds s = t0
  | Waiting pid fd input end_ => waiting s pid fd input end_
  | Broken => bad_input s
  end.

Record inv (s : shell) : Prop := Inv {
  inv_zombies : no_zombies (children s);
  inv_current : ∀ p, current s = Some (Some p) → Forall terminated (commands p);
  inv_first : buffer s = None → children s = [];
  inv_point : point_inv s
}.

Lemma prompt_inv s :
  fds s = t0 → no_zombies (children s) → (buffer s = None → children s = []) →
  (∀ p, current s = Some (Some p) → Forall terminated (commands p)) → inv (prompt s).
Proof. intros Hf Hz Hb Hc. unfold prompt. by destruct (quiet s); constructor. Qed.

Lemma run_commands_inv cmds bg : ∀ input fin s,
  cmds ≠ [] → Forall terminated cmds → handing (pipes s) input fin (fds s) →
  no_zombies (children s) → buffer s ≠ None → inv (run_commands cmds bg input s).
Proof using H0 H1.
  induction cmds as [|c rest IH]; intros input fin s Hne Ht Hh Hz Hb; [done|].
  cbn [run_commands]. fold (last_one rest).
  destruct (fork_command_eq (Pipeline (c :: rest) bg) c input (last_one rest) fin
              (set_current (Some (Pipeline (c :: rest) bg)) s) Hh)
    as (r & w & Hfresh & ->).
  set (s1 := forked _ _ _ _ _ _ _ _).
  assert (no_zombies (children s1)) as Hz1.
  { apply Forall_app_2; [done|]. by constructor. }
  assert (fds (finish_command (r, w) input (last_one rest) s1) =
            if last_one rest then t0 else <[r := PipeRead (pipes s)]> t0) as Hfin
    by (by eapply finish_command_fds).
  destruct bg.
  - destruct rest as [|c' rest]; cbn [last_one] in *.
    + apply prompt_inv; [done..|]. by intros p [= <-].
    + apply (IH _ (PipeRead (pipes s))); [done|by inversion Ht| |done..].
      rewrite Hfin. eapply (handing_next _ w _ _ (fds s) (pipes s)); [done..|lia].
  - constructor; [done|by intros p [= <-]|done|]. unfold point_inv. cbn [at_point go_to].
    eapply (waiting_intro _ _ (fds s) fin _ _ _ (pipes s)); try done.
    + simpl. rewrite length_app. simpl. lia.
    + apply list_lookup_middle. done.
Qed.
(** [waitpid] returns when the children are [cs]. *)
Lemma wait_returns_inv s cs pid fd input end_ :
  at_point s = Waiting pid fd input end_ → waiting s pid fd input end_ →
  (∀ p, current s = Some (Some p) → Forall terminated (commands p)) →
  no_zombies cs → buffer s ≠ None → inv (wait_returns (set_children cs s)).
Proof using H0 H1.
  intros E Hw Ht Hz Hb. destruct Hw as [t fin r w input n c rest Hh Hf Hp Ht' Hc Hl Hch].
  specialize (Ht _ Hc). unfold wait_returns. cbn [at_point current set_children].
  rewrite E, Hc.
  pose proof (finish_command_fds n r w input (last_one rest) fin t n (set_children cs s)
                Hh Hf Ht') as Hfin.
  destruct rest as [|c' rest]; cbn [last_one] in *.
  - apply prompt_inv; [done..|]. intros p. cbn [current finish_command set_fds set_children].
    rewrite Hc. by intros [= <-].
  - eapply run_commands_inv; [done|by inversion Ht| |done..]. rewrite Hfin. simpl. rewrite Hp.
    by eapply (handing_next _ w _ _ _ n); [..|lia].
Qed.

Lemma run_line_inv s :
  fds s = t0 → no_zombies (children s) → buffer s ≠ None →
  (∀ p, current s = Some (Some p) → Forall terminated (commands p)) → inv (run_line s).
Proof using H0 H1.
  intros Hf Hz Hb Hc. unfold run_line. destruct (buffer s) as [line|] eqn:E; [|done].
  destruct (build_result line) as [(p & Ep & Hne & Ht)|[Ep|Ep]]; rewrite Ep.
  - eapply run_commands_inv; [done..| |done|by rewrite E].
    rewrite Hf. apply handing_first.
  - apply prompt_inv; simpl; [done|done|by rewrite E|done].
  - constructor; simpl; [done|done|by rewrite E|]. right. by eauto.
Qed.

Lemma sigchld_keeps pids s s' :
  no_zombies (children s) → sigchld pids s = Some s' →
  pids ≠ [] ∧ no_zombies (children s') ∧ children s ≠ [] ∧
  s' = set_children (reaped pids (children s)) s.
Proof.
  intros Hz (Hne & Hr & ->)%sigchld_inv; [|done].
  split_and!; [done|by apply reaped_no_zombies| |done].
  intros E. rewrite E in Hr. destruct pids; [done|]. by inversion Hr.
Qed.

Lemma inv_buffer s : inv s → children s ≠ [] → buffer s ≠ None.
Proof. intros Hi Hc E. by apply Hc, inv_first. Qed.

Lemma read_line_inv s : inv s → at_point s = Reading → inv (read_line s).
Proof using H0 H1.
  intros [Hz Hc Hb Hp] E. unfold point_inv in Hp. rewrite E in Hp. unfold read_line.
  destruct (fgets _ _) as [[read rest] eof] eqn:F.
  destruct eof.
  - apply fgets_eof in F as ->. unfold finish. cbn [current set_stdin].
    destruct (current s) as [[p|]|] eqn:Ec; simpl.
    + destruct (free_commands_terminated (commands p)) as [freed ->]; [by apply Hc|].
      constructor; simpl; [done|by rewrite Ec| |done]. destruct read; [done|discriminate].
    + constructor; simpl; [done|by rewrite Ec| |done]. destruct read; [done|discriminate].
    + constructor; simpl; [done|by rewrite Ec| |by left]. destruct read; [done|discriminate].
  - apply run_line_inv; [done|done| |done]. simpl.
    destruct read; [|done]. by apply fgets_empty in F.
Qed.

Lemma ends_inv s pids s' :
  inv s → (∀ pid fd input end_, at_point s = Waiting pid fd input end_ → pid ∉ pids) →
  sigchld pids s = Some s' → inv s'.
Proof.
  intros Hi Hpid Hs. pose proof Hi as [Hz Hc Hb Hp].
  destruct (sigchld_keeps _ _ _ Hz Hs) as (Hne & Hz' & Hch & ->).
  constructor; simpl; [done|done|by intros ?%(inv_buffer s)|].
  unfold point_inv in *. cbn [at_point set_children].
  destruct (at_point s) as [|pid fd input end_| |] eqn:E; [done| |done|done].
  destruct Hp as [t fin r w input n c rest Hh Hf Hpi Ht Hcu Hl Hrun].
  eapply waiting_intro; try done; simpl.
  - unfold reaped. by rewrite length_imap.
  - rewrite reaped_lookup, Hrun. simpl. by rewrite decide_False by eauto.
Qed.

Lemma exec_inv s e s' : inv s → exec s e = Some s' → inv s'.
Proof using H0 H1.
  intros Hi He. pose proof Hi as [Hz Hc Hb Hp]. unfold exec in He.
  destruct (at_point s) as [|pid fd input end_| |] eqn:E; [| |done|done]; destruct e as [|pids|pids].
  - injection He as <-. by apply read_line_inv.
  - eapply ends_inv; [done| |done]. by rewrite E.
  - apply fmap_Some in He as (s1 & Hs & ->).
    pose proof (inv_buffer s Hi) as Hbuf. unfold point_inv in Hp. rewrite E in Hp.
    destruct (sigchld_keeps _ _ _ Hz Hs) as (_ & Hz' & Hch & ->).
    apply run_line_inv; [done|done|by apply Hbuf|done].
  - done.
  - case_decide; [done|]. eapply ends_inv; [done| |done]. rewrite E. by intros ? ? ? ? [= <-].
  - apply fmap_Some in He as (s1 & Hs & ->). unfold point_inv in Hp. rewrite E in Hp.
    pose proof (inv_buffer s Hi) as Hbuf.
    destruct (sigchld_keeps _ _ _ Hz Hs) as (_ & Hz' & Hch & ->).
    by eapply wait_returns_inv; eauto.
Qed.

Lemma start_inv q input : inv (start q input t0).
Proof.
  unfold start. apply prompt_inv; simpl; try done. by constructor.
Qed.

Lemma shell_reachable_inv s : reachable t0 s → inv s.
Proof using H0 H1.
  induction 1 as [q input|s s' _ IH Hs]; [apply start_inv|].
  inversion Hs as [s0 e s1 He]; subst. by eapply exec_inv.
Qed.
End shell.
