(* ===== verification/ShellRun.v ===== *)
(** * Running a pipeline

    [stages] is what the commands of a pipeline should be connected to; the
    shell's run of a pipeline's commands creates one child per command with
    these descriptors, in the foreground one after another. *)

From S2P Require Export ShellInv ParserTheorems.

(** What a child runs, reads and writes. *)
Abbreviation stage := (list cstr * option file * option file)%type.

Definition stage_of (c : process) : option stage :=
  match code c with Executes args t => Some (args, t !! 0, t !! 1) | _ => None end.

(** The commands [cs] when the first of them has its input from [fin]
    (through a pipe unless [first]), pipes are numbered from [n] and the
    shell's output is [f1]: each command but the last writes to a pipe the
    next one reads from.  In the background no command writes to its pipe. *)
Fixpoint stages (cs : list command_ast) (bg : bool) (n : nat) (first : bool) (fin f1 : file)
    : list stage :=
  match cs with
  | [] => []
  | c :: cs' =>
      (ast_args c,
       Some (if first then from_path OpenRead fin (ast_in c) else fin),
       Some (match cs' with
             | _ :: _ => if bg then from_path OpenWrite f1 (ast_out c) else PipeWrite n
             | [] => from_path OpenWrite f1 (ast_out c)
             end)) :: stages cs' bg (S n) false (PipeRead n) f1
  end.

(** Every [open] and every [execvp] succeeds. *)
Class AllSucceed (K : Kernel) : Prop := {
  open_write_succeeds pid path : open_write_ok pid path = true;
  open_read_succeeds pid path : open_read_ok pid path = true;
  exec_succeeds pid args : exec_ok pid args = true
}.

Lemma forallb_all {A} (P : A → bool) l : (∀ x, P x = true) → forallb P l = true.
Proof. intros H. apply forallb_forall. eauto. Qed.

Lemma exec_args_built ws : exec_args (build_args ws) = Some ws.
Proof.
  unfold build_args. set (cells := replicate _ _). clearbody cells.
  induction ws as [|w ws IH]; simpl; [done|]. by rewrite IH.
Qed.

Lemma reaped_app cs c : reaped [length cs] (cs ++ [c]) = cs ++ [Process (code c) Reaped].
Proof.
  unfold reaped. rewrite imap_app. simpl. f_equal.
  - apply list_eq. intros i. rewrite list_lookup_imap.
    destruct (cs !! i) as [x|] eqn:Hi; [|done]. apply lookup_lt_Some in Hi. simpl.
    rewrite decide_False; [done|]. rewrite list_elem_of_singleton. lia.
  - rewrite decide_True; [done|]. apply list_elem_of_singleton. lia.
Qed.

Section run.
Context `{K : Kernel} (t0 : fdtable) (f0 f1 : file)
  (H0 : t0 !! 0 = Some f0) (H1 : t0 !! 1 = Some f1).

Lemma stage_of_code `{!AllSucceed K} pid cmds bg c w input end_ n fin t st :
  ast_args c ≠ [] →
  stage_of (Process (stage_code f1 pid (Pipeline cmds bg) (build_command c) w input end_ n fin t)
              st) =
  Some (ast_args c,
        Some (if input =? 0 then from_path OpenRead fin (ast_in c) else fin),
        Some (if end_ || bg then from_path OpenWrite f1 (ast_out c) else PipeWrite n)).
Proof.
  intros Hne. unfold stage_code, opens.
  rewrite (forallb_all (open_write_ok pid)) by apply open_write_succeeds.
  rewrite (forallb_all (open_read_ok pid)) by apply open_read_succeeds.
  simpl. unfold execvp. cbn [command_args build_command]. rewrite exec_args_built.
  destruct c as [[|w0 ws] i o]; [done|]. cbn [ast_args build_args map app] in *.
  rewrite exec_succeeds. unfold stage_of, stage_table. simpl.
  by rewrite lookup_insert_eq, lookup_insert_ne, lookup_insert_eq by done.
Qed.

(** From [s] to the prompt in [s'] with the new children [new]. *)
Record ran (s s' : shell) (new : list process) : Prop := Ran {
  ran_at : at_point s' = Reading;
  ran_fds : fds s' = t0;
  ran_stdin : stdin s' = stdin s;
  ran_buffer : buffer s' = buffer s;
  ran_children : children s' = children s ++ new
}.

Lemma ran_prompt s s' new :
  fds s' = t0 → stdin s' = stdin s → buffer s' = buffer s →
  children s' = children s ++ new → ran s (prompt s') new.
Proof. intros. unfold prompt. by destruct (quiet s'). Qed.

Lemma ran_cons s s1 s' c new :
  stdin s1 = stdin s → buffer s1 = buffer s → children s1 = children s ++ [c] →
  ran s1 s' new → ran s s' (c :: new).
Proof. intros Es Eb Ec [???? E]. constructor; try congruence. by rewrite E, Ec, <- app_assoc. Qed.

(** One command: the new child, and the descriptors after it. *)
Record started (s : shell) (p : pipeline) (c : command_ast) (input : Z) (end_ : bool)
    (fin : file) (s1 : shell) (r w : Z) (x : process) : Prop := Started {
  st_stdin : stdin s1 = stdin s;
  st_buffer : buffer s1 = buffer s;
  st_pipes : pipes s1 = S (pipes s);
  st_current : current s1 = Some (Some p);
  st_children : children s1 = children s ++ [x];
  st_running : proc_status x = Running;
  st_stage : stage_of x =
    Some (ast_args c,
          Some (if input =? 0 then from_path OpenRead fin (ast_in c) else fin),
          Some (if end_ || is_background p then from_path OpenWrite f1 (ast_out c)
                else PipeWrite (pipes s)));
  st_input : (r =? 0) = false;
  st_fds : ∀ s2, fds s2 = fds s1 →
    fds (finish_command (r, w) input end_ s2) =
      if end_ then t0 else <[r := PipeRead (pipes s)]> t0;
  st_handing : handing t0 f0 (S (pipes s)) r (PipeRead (pipes s))
                 (<[r := PipeRead (pipes s)]> t0)
}.

Lemma fork_started `{!AllSucceed K} s p c input end_ fin :
  ast_args c ≠ [] → handing t0 f0 (pipes s) input fin (fds s) →
  ∃ s1 r w x, fork_command p (build_command c) input end_ (set_current (Some p) s) =
                (s1, length (children s), (r, w)) ∧
    started s p c input end_ fin s1 r w x.
Proof using H0 H1.
  intros Hc Hh.
  destruct (fork_command_eq t0 f0 f1 H0 H1 p (build_command c) input end_ fin
              (set_current (Some p) s) Hh) as (r & w & Hf & ->).
  pose proof (handing_next t0 f0 f1 H0 H1 r w input fin (fds s) (pipes s) (pipes s) Hh Hf
                ltac:(lia)) as Hnext.
  eexists _, r, w, _. split; [done|]. destruct p as [cmds bg]. constructor; try done.
  - by apply stage_of_code.
  - apply Z.eqb_neq. intros ->. destruct (handing_std _ _ _ H0 H1 _ _ _ _ Hh) as [E0 _].
    destruct Hf as [Hr _]. simpl in Hr. congruence.
  - intros s2 E. by eapply (finish_command_fds t0 f0).
Qed.

Lemma stages_head c cs bg input n fin x :
  stage_of x =
    Some (ast_args c,
          Some (if input =? 0 then from_path OpenRead fin (ast_in c) else fin),
          Some (if last_one (map build_command cs) || bg
                then from_path OpenWrite f1 (ast_out c) else PipeWrite n)) →
  ∀ new, map stage_of new = map Some (stages cs bg (S n) false (PipeRead n) f1) →
  map stage_of (x :: new) = map Some (stages (c :: cs) bg n (input =? 0) fin f1).
Proof. intros E new Hnew. cbn [map stages]. rewrite E, Hnew. by destruct cs, bg. Qed.

(** In the background all the commands are started at once. *)
Lemma run_commands_bg `{!AllSucceed K} cs : ∀ input fin s,
  cs ≠ [] → Forall (λ c, ast_args c ≠ []) cs →
  handing t0 f0 (pipes s) input fin (fds s) →
  ∃ new, ran s (run_commands (map build_command cs) true input s) new ∧
    map stage_of new = map Some (stages cs true (pipes s) (input =? 0) fin f1) ∧
    Forall (λ c, proc_status c = Running) new.
Proof using H0 H1.
  induction cs as [|c cs IH]; intros input fin s Hne Ha Hh; [done|].
  inversion Ha as [|? ? Hc Hcs]; subst. cbn [map run_commands].
  fold (last_one (map build_command cs)). set (p := Pipeline _ true).
  destruct (fork_started s p c input (last_one (map build_command cs)) fin Hc Hh)
    as (s1 & r & w & x & -> & []).
  destruct cs as [|c' cs]; cbn [map last_one] in *.
  - exists [x]. split; [by apply ran_prompt; [apply st_fds0|..]|].
    split; [by apply stages_head|by constructor].
  - destruct (IH r (PipeRead (pipes s)) (finish_command (r, w) input false s1))
      as (new & Hran & Hst & Hrun); [done|done| |].
    { rewrite (st_fds0 s1 eq_refl). cbn [pipes finish_command set_fds]. by rewrite st_pipes0. }
    exists (x :: new). split; [by eapply ran_cons; [..|exact Hran]|]. split; [|by constructor].
    apply stages_head; [done|]. cbn [pipes finish_command set_fds] in Hst.
    by rewrite Hst, st_pipes0, st_input0.
Qed.

(** The children number [k] to [k + n - 1] terminate in turn, each while the
    shell waits for it. *)
Definition waits (k n : nat) : list event := map (λ i, Returns [i]) (seq k n).

(** In the foreground the next command is started when the previous one has
    terminated. *)
Lemma run_commands_fg `{!AllSucceed K} cs : ∀ input fin s,
  cs ≠ [] → Forall (λ c, ast_args c ≠ []) cs → no_zombies (children s) →
  handing t0 f0 (pipes s) input fin (fds s) →
  ∃ s' new, run_events (run_commands (map build_command cs) false input s)
              (waits (length (children s)) (length cs)) = Some s' ∧
    ran s s' new ∧
    map stage_of new = map Some (stages cs false (pipes s) (input =? 0) fin f1) ∧
    Forall (λ c, proc_status c = Reaped) new.
Proof using H0 H1.
  induction cs as [|c cs IH]; intros input fin s Hne Ha Hz Hh; [done|].
  inversion Ha as [|? ? Hc Hcs]; subst. cbn [map run_commands].
  fold (last_one (map build_command cs)). set (p := Pipeline _ false).
  destruct (fork_started s p c input (last_one (map build_command cs)) fin Hc Hh)
    as (s1 & r & w & x & -> & []).
  set (y := Process (code x) Reaped). set (s2 := set_children (children s ++ [y]) s1).
  assert (no_zombies (children s2)) as Hz2 by (by apply Forall_app_2; [|constructor]).
  assert (∀ es end_, run_events (go_to (Waiting (length (children s)) (r, w) input end_) s1)
            (Returns [length (children s)] :: es) =
          run_events (wait_returns
            (go_to (Waiting (length (children s)) (r, w) input end_) s2)) es) as Hstep.
  { intros es end_. cbn [run_events exec at_point go_to].
    rewrite sigchld_one; cbn [children go_to].
    - simpl. rewrite st_children0, reaped_app. done.
    - rewrite st_children0. apply Forall_app_2; [done|]. constructor; [|done]. by rewrite st_running0.
    - unfold is_running. rewrite st_children0, list_lookup_middle by done.
      by rewrite bool_decide_eq_true_2. }
  assert (stage_of y = stage_of x) as Hy by done.
  cbn [length seq waits map]. rewrite Hstep. unfold wait_returns.
  cbn [at_point current go_to s2 set_children]. rewrite st_current0. unfold p.
  cbn [length map last_one] in *. set (s3 := go_to _ s2).
  destruct cs as [|c' cs]; cbn [map last_one] in *.
  - eexists _, [y]. split; [done|]. split; [by apply ran_prompt; [by apply (st_fds0 s3)|..]|].
    split; [by apply stages_head; [rewrite Hy|]|by constructor].
  - destruct (IH r (PipeRead (pipes s)) (finish_command (r, w) input false s3))
      as (s' & new & Hrun & Hran & Hst & Hre); [done|done|done| |].
    { rewrite (st_fds0 s3 eq_refl). cbn [pipes finish_command set_fds s3 s2 go_to set_children].
      by rewrite st_pipes0. }
    cbn [children finish_command set_fds s3 s2 go_to set_children] in Hrun.
    rewrite length_app, Nat.add_comm in Hrun.
    exists s', (y :: new). split; [exact Hrun|].
    split; [by eapply ran_cons; [..|exact Hran]|]. split; [|by constructor].
    apply stages_head; [by rewrite Hy|].
    cbn [pipes finish_command set_fds s3 s2 go_to set_children] in Hst.
    by rewrite Hst, st_pipes0, st_input0.
Qed.
End run.
