(* ===== verification/ShellTheorems.v ===== *)
(** * Theorems about the shell

    The descriptors of each command, the shell's own descriptors, running a
    typed pipeline, the order of foreground commands, and the line that is run
    again when a background command ends. *)

From S2P Require Export ShellRun.

(** ** Reading a printed line *)

Lemma fgets_line l rest : ∀ n, (length l < n)%nat → Forall (λ c, c ≠ newline) l →
  fgets n (l ++ newline :: rest) = (l ++ [newline], rest, false).
Proof.
  induction l as [|c l IH]; intros [|n] Hl Hc; simpl in *; try lia; [done|].
  inversion Hc as [|? ? Hn Hc']; subst.
  destruct (Ascii.eqb_spec c newline); [done|]. by rewrite IH by (lia || done).
Qed.

Lemma c_string_id l : Forall (λ c, c ≠ nul) l → c_string l = l.
Proof.
  induction 1 as [|c l Hc _ IH]; [done|]. simpl.
  destruct (Ascii.eqb_spec c nul); [done|]. by rewrite IH.
Qed.

Lemma word_char_plain c : word_char c = true → c ≠ newline ∧ c ≠ nul.
Proof. intros H. split; intros ->; by vm_compute in H. Qed.

Lemma print_tokens_plain ts :
  Forall wf_token ts → ∃ l, print_tokens ts = l ++ [newline] ∧ Forall (λ c, c ≠ newline ∧ c ≠ nul) l.
Proof.
  intros H. unfold print_tokens. eexists. split; [done|].
  induction H as [|t ts Ht _ IH]; [constructor|]. cbn [map concat].
  apply Forall_app_2; [|done]. constructor; [done|].
  destruct t as [| | | |w]; simpl; try by repeat constructor.
  destruct Ht as [Hw _]. unfold is_word in Hw. apply andb_true_iff in Hw as [_ Hw].
  apply Forall_forall. intros c Hc. apply word_char_plain.
  by apply (proj1 (forallb_forall _ _) Hw).
Qed.

(** The tokens of a printed pipeline. *)
Lemma line_tokens cs (bg : bool) :
  Forall wf_command cs → Forall wf_token (pipes_tokens cs ++ if bg then [Amp] else []).
Proof.
  intros H. apply Forall_app_2; [by apply wf_pipes_tokens|]. destruct bg; by repeat constructor.
Qed.

Definition fits (line : cstr) : Prop := (length line < MAX_COMMAND_LENGTH)%nat.

Lemma read_printed `{Kernel} s cs bg rest :
  Forall wf_command cs → fits (print_line cs bg) → stdin s = print_line cs bg ++ rest →
  read_line s = run_line (set_stdin rest (Some (print_line cs bg)) s).
Proof.
  intros Hwf Hfit Hs. destruct (print_tokens_plain _ (line_tokens cs bg Hwf)) as (l & E & Hl).
  unfold read_line. rewrite Hs. unfold print_line, fits in *. rewrite E in *.
  rewrite length_app in Hfit. simpl in Hfit. rewrite <- app_assoc. cbn [app].
  rewrite fgets_line.
  - rewrite c_string_id; [by destruct l|]. apply Forall_app_2; [|by constructor].
    eapply Forall_impl; [|exact Hl]. by intros c [].
  - unfold MAX_COMMAND_LENGTH in *. lia.
  - eapply Forall_impl; [|exact Hl]. by intros c [].
Qed.

Lemma run_printed `{Kernel} s cs bg :
  cs ≠ [] → Forall wf_command cs → buffer s = Some (print_line cs bg) →
  run_line s = run_commands (map build_command cs) bg 0 s.
Proof. intros Hne Hwf Hb. unfold run_line. by rewrite Hb, print_line_build. Qed.

Lemma wf_args cs : Forall wf_command cs → Forall (λ c, ast_args c ≠ []) cs.
Proof. apply Forall_impl. by intros c (? & _). Qed.

(** ** Histories without background pipelines *)

(** The states reached while every pipeline runs in the foreground. *)
Inductive foreground `{Kernel} (t : fdtable) : shell → Prop :=
  | fg_start q input : foreground t (start q input t)
  | fg_step s s' :
      foreground t s → step s s' →
      (∀ p, current s' = Some (Some p) → is_background p = false) → foreground t s'.

Section foreground.
Context `{K : Kernel} (t0 : fdtable) (f0 f1 : file)
  (Hin : inherits t0) (H0 : t0 !! 0 = Some f0) (H1 : t0 !! 1 = Some f1).

Lemma foreground_reachable s : foreground t0 s → reachable t0 s.
Proof. induction 1; [constructor|by eapply reach_step]. Qed.

(** Only the child the shell waits for runs. *)
Definition alone (s : shell) : Prop :=
  ∀ i c, children s !! i = Some c →
    proc_status c = match at_point s with
                    | Waiting pid _ _ _ => if decide (i = pid) then Running else Reaped
                    | _ => Reaped
                    end.

Lemma alone_prompt s : (∀ i c, children s !! i = Some c → proc_status c = Reaped) → alone (prompt s).
Proof. intros Hc. unfold prompt. by destruct (quiet s). Qed.

Lemma run_commands_current cmds bg : ∀ input s,
  cmds ≠ [] → ∃ cmds', current (run_commands cmds bg input s) = Some (Some (Pipeline cmds' bg)).
Proof.
  induction cmds as [|c rest IH]; intros input s Hne; [done|]. cbn [run_commands].
  destruct (fork_command _ _ _ _ _) as [[s1 pid] fd] eqn:E.
  assert (current s1 = Some (Some (Pipeline (c :: rest) bg))) as Hc by (by injection E as <- _ _).
  destruct bg; [|eauto]. destruct rest as [|c' rest].
  - unfold prompt. destruct (quiet _); eauto.
  - by apply IH.
Qed.

Lemma alone_run_commands cmds input fin s :
  cmds ≠ [] → handing t0 f0 (pipes s) input fin (fds s) →
  (∀ i c, children s !! i = Some c → proc_status c = Reaped) →
  alone (run_commands cmds false input s).
Proof using H0 H1.
  intros Hne Hh Hr. destruct cmds as [|c rest]; [done|]. cbn [run_commands].
  destruct (fork_command_eq t0 f0 f1 H0 H1 (Pipeline (c :: rest) false) c input (last_one rest) fin
              (set_current (Some (Pipeline (c :: rest) false)) s) Hh) as (r & w & Hf & E).
  fold (last_one rest). rewrite E. intros i x. cbn [at_point go_to children forked set_children].
  intros [Hi|[Hi Hx]]%lookup_app_Some.
  - rewrite decide_False; [by eapply Hr|]. apply lookup_lt_Some in Hi. simpl in *. lia.
  - apply list_lookup_singleton_Some in Hx as [Hx <-]. rewrite decide_True; [done|]. simpl in *. lia.
Qed.

Definition all_reaped (s : shell) : Prop :=
  ∀ i c, children s !! i = Some c → proc_status c = Reaped.

Lemma alone_run_line s :
  fds s = t0 → all_reaped s →
  (∀ p, current (run_line s) = Some (Some p) → is_background p = false) → alone (run_line s).
Proof using H0 H1.
  intros Hf Hr. unfold run_line. destruct (buffer s) as [line|]; [|done].
  destruct (build_result line) as [(p & Ep & Hne & _)|[Ep|Ep]]; rewrite Ep.
  - intros Hbg. destruct (run_commands_current (commands p) (is_background p) 0 s Hne) as [cmds' Ec].
    specialize (Hbg _ Ec). simpl in Hbg. rewrite Hbg.
    apply (alone_run_commands _ _ f0); [done| |done]. rewrite Hf. constructor.
  - intros _. by apply alone_prompt.
  - done.
Qed.

Lemma alone_read_line s :
  fds s = t0 → all_reaped s →
  (∀ p, current (read_line s) = Some (Some p) → is_background p = false) → alone (read_line s).
Proof using H0 H1.
  intros Hf Hr. unfold read_line. destruct (fgets _ _) as [[read rest] eof].
  destruct eof; [|by apply alone_run_line].
  intros _. unfold finish. destruct (current _) as [p|]; [|done]. by destruct (pipeline_free p).
Qed.

(** A child that terminates while the shell waits for [pid] is [pid]. *)
Lemma alone_sigchld s pids s' :
  no_zombies (children s) → alone s → sigchld pids s = Some s' →
  ∃ pid fd input end_, at_point s = Waiting pid fd input end_ ∧ pid ∈ pids ∧
    s' = set_children (reaped pids (children s)) s ∧ all_reaped s'.
Proof.
  intros Hz Ha (Hne & Hr & ->)%sigchld_inv; [|done]. unfold alone in Ha.
  assert (∀ i, i ∈ pids → ∃ fd input end_, at_point s = Waiting i fd input end_) as Hp.
  { intros i Hi. rewrite Forall_forall in Hr. specialize (Hr i (proj1 (list_elem_of_In _ _) Hi)).
    unfold is_running in Hr. destruct (children s !! i) as [c|] eqn:Ei; [|done].
    apply bool_decide_eq_true in Hr. specialize (Ha i c Ei). rewrite Hr in Ha.
    destruct (at_point s) as [|pid fd input end_| |]; try done.
    case_decide; [subst; eauto|done]. }
  destruct pids as [|pid pids]; [done|].
  destruct (Hp pid) as (fd & input & end_ & E); [by left|].
  exists pid, fd, input, end_. split_and!; [done|by left|done|].
  intros i c. cbn [children set_children]. rewrite reaped_lookup.
  destruct (children s !! i) as [x|] eqn:Ei; [|done]. simpl. intros [= <-].
  case_decide as Hd; [done|]. specialize (Ha i x Ei). rewrite E in Ha.
  rewrite decide_False in Ha; [done|]. intros ->. apply Hd. by left.
Qed.

Lemma alone_exec s e s' :
  inv t0 f0 f1 s → alone s → exec s e = Some s' →
  (∀ p, current s' = Some (Some p) → is_background p = false) → alone s'.
Proof using H0 H1.
  intros Hi Ha He Hbg. pose proof Hi as [Hz Hc Hb Hp]. unfold point_inv in Hp.
  destruct (at_point s) as [|pid fd input end_| |] eqn:E; unfold exec in He; rewrite E in He;
    [| |done|done]; destruct e as [|pids|pids]; try done.
  - injection He as <-. unfold alone in Ha. rewrite E in Ha. by apply alone_read_line.
  - destruct (alone_sigchld _ _ _ Hz Ha He) as (? & ? & ? & ? & E' & _). congruence.
  - apply fmap_Some in He as (s1 & Hs & ->).
    destruct (alone_sigchld _ _ _ Hz Ha Hs) as (? & ? & ? & ? & E' & _). congruence.
  - case_decide as Hd; [done|].
    destruct (alone_sigchld _ _ _ Hz Ha He) as (? & ? & ? & ? & E' & Hin' & _). congruence.
  - apply fmap_Some in He as (s1 & Hs & ->).
    destruct (alone_sigchld _ _ _ Hz Ha Hs) as (? & ? & ? & ? & E' & _ & -> & Hr).
    destruct Hp as [t fin r w input n c rest Hh Hf Hpi Ht Hcu Hl _].
    unfold wait_returns. cbn [at_point current set_children]. rewrite E, Hcu.
    set (s1 := set_children _ s) in *.
    pose proof (finish_command_fds t0 f0 n r w input (last_one rest) fin t n s1 Hh Hf Ht) as Hfin.
    destruct rest as [|c' rest]; cbn [last_one] in *; [by apply alone_prompt|].
    eapply alone_run_commands; [done| |done]. rewrite Hfin. cbn [pipes finish_command set_fds].
    replace (pipes s1) with (S n) by done.
    by eapply (handing_next t0 f0 f1 H0 H1 _ w _ _ _ n); [..|lia].
Qed.

Lemma foreground_alone s : foreground t0 s → alone s.
Proof using H0 H1.
  induction 1 as [q input|s s' Hfg IH Hs Hbg].
  - unfold start. by apply alone_prompt.
  - inversion Hs as [s0 e s1 He]; subst.
    pose proof (shell_reachable_inv t0 f0 f1 H0 H1 s (foreground_reachable s Hfg)).
    by eapply alone_exec.
Qed.
End foreground.

(** While the shell waits for a command that reads from a pipe, neither the
    shell nor the command has the pipe's write end. *)
Lemma waiting_no_writer `{K : Kernel} t0 f0 f1 s pid fd input end_ m d :
  inherits t0 → t0 !! 0 = Some f0 → t0 !! 1 = Some f1 → waiting t0 f0 f1 s pid fd input end_ →
  input ≠ 0 → fds s !! input = Some (PipeRead m) →
  fds s !! d ≠ Some (PipeWrite m) ∧
  ∀ c args t, children s !! pid = Some c → code c = Executes args t → t !! d ≠ Some (PipeWrite m).
Proof.
  intros Hin H0 H1 Hw Hi Em. destruct Hw as [t fin r w input n c rest Hh Hf _ Ht _ _ Hc].
  pose proof (handing_input t0 f0 H0 _ _ _ _ Hh) as Ei.
  assert (fin = PipeRead m ∧ (m < n)%nat) as [-> Hm].
  { rewrite Ht in Em. unfold with_pipe in Em. destruct Hf as (Hr & Hw & _).
    rewrite !lookup_insert_ne in Em by (intros ->; congruence).
    rewrite Ei in Em. injection Em as ->. inversion Hh; subst; [done|]. by split. }
  assert (∀ e, fds s !! e ≠ Some (PipeWrite m)) as Hfds.
  { intros e. rewrite Ht. unfold with_pipe. rewrite !lookup_insert_Some.
    intros [[_ [= ->]]|[_ [[_ [=]]|[_ Ee]]]]; [lia|].
    by eapply (handing_no_writer t0 f0 Hin). }
  split; [apply Hfds|]. intros x args tc Hx Hcode. rewrite Hc in Hx. injection Hx as <-.
  simpl in Hcode. unfold stage_code, execvp in Hcode.
  destruct (opens pid c); [|done]. destruct (command_args c) as [|[| |w0] cells]; try done.
  destruct (exec_args _) as [args'|]; [|done]. destruct (exec_ok pid args'); [|done].
  injection Hcode as _ <-. unfold stage_table, stage_in, stage_out. simpl is_background.
  rewrite (proj2 (Z.eqb_neq input 0)), !lookup_insert_Some by done.
  intros [[_ [=]]|[_ [[_ Eo]|[_ Ee]]]]; [|by eapply Hfds].
  destruct (Hin 1 f1 H1) as [k ->].
  destruct (last_one rest), (redirect_out_path c); simpl in Eo; congruence || (injection Eo; lia).
Qed.

(** ** The theorems *)

(** C23: the descriptors of a command: a child whose files open and whose
    program exists runs it with its argument words; its standard input is the
    previous command's pipe where there is one, even over an input
    redirection; its standard output is the pipe to the next command, even over
    an output redirection, except that in the background the pipe is closed
    first and the output goes where it would go without a pipe; every other
    descriptor is the shell's.  When a file does not open the child exits. *)
Theorem child_connections `{K : Kernel} pid p c r w input end_ (t : fdtable) n fin f0 f1 :
  t !! 0 = Some f0 → t !! 1 = Some f1 → t !! input = Some fin → input ≠ 1 →
  w ≠ 0 → w ≠ 1 → w ≠ input → t !! w = Some (PipeWrite n) →
  ∃ t', child pid p c (r, w) input end_ t = (if opens pid c then execvp pid c t' else Exits) ∧
    t' !! 0 = Some (if input =? 0 then from_path OpenRead fin (redirect_in_path c) else fin) ∧
    t' !! 1 = Some (if end_ || is_background p
                    then from_path OpenWrite f1 (redirect_out_path c) else PipeWrite n) ∧
    ∀ fd, fd ≠ 0 → fd ≠ 1 →
      t' !! fd = if is_background p && (fd =? w) then None else t !! fd.
Proof.
  intros E0 E1 Ei Hi Hw0 Hw1 Hwi Ew. eexists. split; [by apply (child_eq _ _ _ _ _ _ _ _ n fin f0 f1)|].
  unfold stage_table. split; [by rewrite lookup_insert_eq|].
  split; [by rewrite lookup_insert_ne, lookup_insert_eq|].
  intros fd Hd0 Hd1. rewrite !lookup_insert_ne by done.
  destruct (is_background p); [|done]. simpl.
  destruct (Z.eqb_spec fd w) as [->|]; [by rewrite lookup_delete_eq|by rewrite lookup_delete_ne].
Qed.

(** C24: whatever is typed and whenever children end, the shell keeps no
    descriptor: at the prompt and at its end its table is the one it was
    started with, while it waits it has besides at most the two ends of one
    pipe and the read end of the previous one; and it only meets undefined
    behaviour when the input ends before the first line or on a line on which
    the parser does. *)
Theorem shell_descriptors `{K : Kernel} t0 f0 f1 s :
  t0 !! 0 = Some f0 → t0 !! 1 = Some f1 → reachable t0 s →
  match at_point s with
  | Reading | Halted => fds s = t0
  | Waiting pid (r, w) input end_ =>
      ∃ n t, fds s = <[w := PipeWrite n]> (<[r := PipeRead n]> t) ∧
        t !! r = None ∧ t !! w = None ∧ r ≠ w ∧
        (input = 0 ∧ t = t0 ∨
         input ≠ 0 ∧ t0 !! input = None ∧ ∃ m, t = <[input := PipeRead m]> t0)
  | Broken => bad_input s
  end.
Proof.
  intros H0 H1 Hr. pose proof (inv_point _ _ _ _ (shell_reachable_inv t0 f0 f1 H0 H1 s Hr)) as Hp.
  unfold point_inv in Hp. destruct (at_point s) as [|pid fd input end_| |]; try done.
  destruct Hp as [t fin r w input n c rest Hh (Hfr & Hfw & Hne) _ Hf _ _ _].
  exists n, t. split_and!; try done. destruct Hh; [by left|right]. eauto.
Qed.

(** C22: running a typed pipeline implements its specification: when a line
    that prints a pipeline is read at the prompt, one child per command is
    created, in order, with the command's words and connected as [stages]
    says; in the foreground each command is started when the previous one has
    ended, in the background all run at once and the prompt returns
    immediately; the shell is back at the prompt with the descriptors it had
    and the rest of its input.  The files can be opened and the programs found
    ([AllSucceed]). *)
Theorem pipeline_runs `{K : Kernel, !AllSucceed K} t0 f0 f1 s cs bg rest :
  t0 !! 0 = Some f0 → t0 !! 1 = Some f1 → reachable t0 s → at_point s = Reading →
  cs ≠ [] → Forall wf_command cs → fits (print_line cs bg) → stdin s = print_line cs bg ++ rest →
  ∃ s' new,
    run_events s (Line :: if bg then [] else waits (length (children s)) (length cs)) = Some s' ∧
    at_point s' = Reading ∧ fds s' = t0 ∧ stdin s' = rest ∧ children s' = children s ++ new ∧
    map stage_of new = map Some (stages cs bg (pipes s) true f0 f1) ∧
    Forall (λ c, proc_status c = if bg then Running else Reaped) new.
Proof.
  intros H0 H1 Hr Hp Hne Hwf Hfit Hs.
  pose proof (shell_reachable_inv t0 f0 f1 H0 H1 s Hr) as [Hz _ _ Hpt].
  unfold point_inv in Hpt. rewrite Hp in Hpt.
  cbn [run_events]. unfold exec at 1. rewrite Hp.
  rewrite (read_printed s cs bg rest) by done. cbn [mbind option_bind].
  set (s1 := set_stdin _ _ s). rewrite (run_printed s1 cs bg) by done.
  assert (handing t0 f0 (pipes s1) 0 f0 (fds s1)) as Hh
    by (unfold s1; simpl; rewrite Hpt; constructor).
  pose proof (wf_args cs Hwf) as Ha. destruct bg.
  - destruct (run_commands_bg t0 f0 f1 H0 H1 cs 0 f0 s1 Hne Ha Hh) as (new & [] & Hst & Hrun).
    eexists _, new. by split.
  - destruct (run_commands_fg t0 f0 f1 H0 H1 cs 0 f0 s1 Hne Ha Hz Hh) as (s' & new & E & [] & Hst & Hrun).
    exists s', new. by split.
Qed.

(** C25: foreground commands run strictly one at a time: while no pipeline is
    in the background, nothing runs at the prompt and only the child waited
    for runs otherwise; when a command reads from a pipe no process has its
    write end, so what the previous command wrote had to fit into the pipe
    before anything read it. *)
Theorem foreground_sequential `{K : Kernel} t0 f0 f1 s :
  inherits t0 → t0 !! 0 = Some f0 → t0 !! 1 = Some f1 → foreground t0 s →
  (at_point s = Reading → ∀ i, is_running (children s) i = false) ∧
  ∀ pid fd input end_, at_point s = Waiting pid fd input end_ →
    (∀ i, is_running (children s) i = true ↔ i = pid) ∧
    ∀ m, input ≠ 0 → fds s !! input = Some (PipeRead m) → ∀ d,
      fds s !! d ≠ Some (PipeWrite m) ∧
      ∀ c args t, children s !! pid = Some c → code c = Executes args t →
        t !! d ≠ Some (PipeWrite m).
Proof.
  intros Hin H0 H1 Hfg.
  pose proof (foreground_alone t0 f0 f1 H0 H1 s Hfg) as Ha.
  pose proof (inv_point _ _ _ _ (shell_reachable_inv t0 f0 f1 H0 H1 s (foreground_reachable t0 s Hfg)))
    as Hp. unfold alone, point_inv in *. split.
  - intros E i. rewrite E in Ha. unfold is_running.
    destruct (children s !! i) as [c|] eqn:Ei; [|done]. by rewrite (Ha i c Ei).
  - intros pid fd input end_ E. rewrite E in Ha, Hp. split.
    + intros i. unfold is_running. destruct Hp as [???????? _ _ _ _ _ _ Hc].
      destruct (children s !! i) as [x|] eqn:Ei.
      * rewrite (Ha i x Ei). case_decide; subst; by split.
      * split; [done|]. intros ->. congruence.
    + intros m Hi Em d. by eapply (waiting_no_writer t0 f0 f1).
Qed.

(** ** The line that is run again *)

Lemma running_reaped_length pids cs : length (reaped pids cs) = length cs.
Proof. apply length_imap. Qed.

(** A child ends while [fgets] waits for a line and the buffer holds the text
    of a background pipeline: it is run again. *)
Lemma interrupted_rerun `{K : Kernel, !AllSucceed K} t0 f0 f1 s cs q :
  t0 !! 0 = Some f0 → t0 !! 1 = Some f1 → inv t0 f0 f1 s → at_point s = Reading →
  buffer s = Some (print_line cs true) → cs ≠ [] → Forall wf_command cs →
  is_running (children s) q = true →
  ∃ s' new, exec s (Returns [q]) = Some s' ∧ ran t0 (set_children (reaped [q] (children s)) s) s' new ∧
    length new = length cs ∧ Forall (λ c, proc_status c = Running) new.
Proof.
  intros H0 H1 [Hz _ _ Hp] E Hb Hne Hwf Hq. unfold point_inv in Hp. rewrite E in Hp.
  unfold exec. rewrite E, sigchld_one by done. simpl. set (s1 := set_children _ s).
  rewrite (run_printed s1 cs true) by done.
  destruct (run_commands_bg t0 f0 f1 H0 H1 cs 0 f0 s1) as (new & Hran & Hst & Hrun);
    [done|by apply wf_args|simpl; rewrite Hp; constructor|].
  eexists _, new. split; [done|]. split; [done|]. split; [|done].
  apply (f_equal length) in Hst. rewrite !length_map in Hst. rewrite Hst.
  generalize (pipes s1), (0 =? 0), f0. clear. induction cs as [|c cs IH]; intros n b f; simpl; auto.
Qed.

(** C40: the end of a background command makes the shell run its line again:
    [SIGCHLD] interrupts [fgets], the buffer still holds the last line, and
    [feof] is false (the C library leaves the buffer of an interrupted [fgets]
    alone).  As each run starts new children, it can go on forever
    without any input. *)
Theorem interrupted_reruns `{K : Kernel, !AllSucceed K} t0 f0 f1 s cs q k :
  t0 !! 0 = Some f0 → t0 !! 1 = Some f1 → reachable t0 s → at_point s = Reading →
  buffer s = Some (print_line cs true) → cs ≠ [] → Forall wf_command cs →
  is_running (children s) q = true →
  ∃ es s', length es = k ∧ Forall (λ e, ∃ i, e = Returns [i]) es ∧
    run_events s es = Some s' ∧ at_point s' = Reading ∧ stdin s' = stdin s ∧
    length (children s') = (length (children s) + k * length cs)%nat.
Proof.
  intros H0 H1 Hr. pose proof (shell_reachable_inv t0 f0 f1 H0 H1 s Hr) as Hi. clear Hr. revert s q Hi.
  induction k as [|k IH]; intros s q Hi E Hb Hne Hwf Hq.
  - exists [], s. split_and!; try done.
  - destruct (interrupted_rerun t0 f0 f1 s cs q H0 H1 Hi E Hb Hne Hwf Hq)
      as (s1 & new & He & [Ea _ Es Eb Ec] & Hl & Hrun). simpl in Es, Eb, Ec.
    destruct new as [|x new]; [by destruct cs|]. inversion Hrun as [|? ? Hx _]; subst.
    destruct (IH s1 (length (children s))) as (es & s' & Hk & Hes & Hs' & Ea' & Es' & Ec');
      [by eapply exec_inv|done|congruence|done|done| |].
    { unfold is_running. rewrite Ec, <- (running_reaped_length [q]), list_lookup_middle by done.
      by apply bool_decide_eq_true. }
    exists (Returns [q] :: es), s'. cbn [run_events length]. rewrite He.
    split_and!; [congruence|by constructor; eauto|done|done|congruence|].
    rewrite Ec', Ec, length_app, running_reaped_length, Hl. lia.
Qed.
