(* ===== verification/ShellDemo.v ===== *)
(** * The shell on concrete lines

    Runs of the model, the witnesses of the theorems, and lines on which the
    code does not do what a shell does. *)

From S2P Require Export ShellTheorems.

Lemma run_events_reachable `{Kernel} t s es s' :
  reachable t s → run_events s es = Some s' → reachable t s'.
Proof.
  revert s. induction es as [|e es IH]; intros s Hr; simpl; [by intros [= <-]|].
  destruct (exec s e) as [s1|] eqn:E; [|done]. simpl. apply IH.
  eapply reach_step; [done|]. by econstructor.
Qed.

(** A kernel on which every call succeeds. *)
Definition demo_kernel : Kernel := {|
  open_write_ok _ _ := true; open_read_ok _ _ := true; exec_ok _ _ := true
|}.
#[local] Existing Instance demo_kernel.
#[local] Instance demo_all : AllSucceed demo_kernel.
Proof. by constructor. Qed.

Definition terminal : fdtable := list_to_map [(0, Inherited 0); (1, Inherited 1); (2, Inherited 2)].

Definition text (line : String.string) : list ascii := String.list_ascii_of_string line ++ [newline].

(** The shell after the line and after [es]. *)
Definition after (line : list ascii) (es : list event) : option shell :=
  run_events (start true line terminal) (Line :: es).

(** [cat < in | wc > out] connects the two commands by a pipe. *)
Example two_stages :
  (λ s, map stage_of (children s)) <$> after (text "cat < in | wc > out") [Returns [0%nat]; Returns [1%nat]] =
  Some [Some ([word "cat"], Some (OpenRead (word "in")), Some (PipeWrite 0));
        Some ([word "wc"], Some (PipeRead 0), Some (OpenWrite (word "out")))].
Proof. vm_compute. reflexivity. Qed.

(** In the background [cat] writes to the terminal and [wc] reads from a pipe
    that nobody writes to. *)
Example two_stages_background :
  (λ s, map stage_of (children s)) <$> after (text "cat | wc &") [] =
  Some [Some ([word "cat"], Some (Inherited 0), Some (Inherited 1));
        Some ([word "wc"], Some (PipeRead 0), Some (Inherited 1))].
Proof. vm_compute. reflexivity. Qed.

(** The empty line, and a pipe at the end of a line, start a child that
    passes a null pointer to [execvp]. *)
Lemma empty_command_faults :
  (λ s, map code (children s)) <$> after (text "") [] = Some [Faults] ∧
  (λ s, map stage_of (children s)) <$> after (text "ls |") [Returns [0%nat]] =
    Some [Some ([word "ls"], Some (Inherited 0), Some (PipeWrite 0)); None].
Proof. split; vm_compute; reflexivity. Qed.

(** The end of the input before the first line: [pipeline_free] is given an
    uninitialised pointer. *)
Lemma eof_first_broken : at_point <$> after [] [] = Some Broken.
Proof. vm_compute. reflexivity. Qed.

(** A last line without a newline is not run. *)
Lemma last_line_dropped :
  (λ s, (at_point s, length (children s))) <$>
    after (text "ls" ++ String.list_ascii_of_string "rm x"%string) [Returns [0%nat]; Line] =
  Some (Halted, 1%nat).
Proof. vm_compute. reflexivity. Qed.

(** An output redirection before a pipe: the file stays empty. *)
Example redirect_out_overridden :
  (λ s, map stage_of (children s)) <$> after (text "ls > f | wc") [] =
  Some [Some ([word "ls"], Some (Inherited 0), Some (PipeWrite 0))].
Proof. vm_compute. reflexivity. Qed.

(** ** Witnesses *)

Lemma child_connections_witness :
  let c := PipelineCommand (build_args [word "wc"]) None (Some (word "out")) in
  let t := <[4 := PipeWrite 1]> (<[3 := PipeRead 0]> terminal) in
  t !! 0 = Some (Inherited 0) ∧ t !! 1 = Some (Inherited 1) ∧ t !! 3 = Some (PipeRead 0) ∧
  t !! 4 = Some (PipeWrite 1) ∧
  ∃ t', child 1 (Pipeline [c] false) c (5, 4) 3 true t =
          (if opens 1 c then execvp 1 c t' else Exits) ∧
    t' !! 0 = Some (PipeRead 0) ∧ t' !! 1 = Some (OpenWrite (word "out")) ∧
    ∀ fd, fd ≠ 0 → fd ≠ 1 → t' !! fd = if false && (fd =? 4) then None else t !! fd.
Proof.
  intros c t. assert (t !! 0 = Some (Inherited 0)) as E0 by (vm_compute; reflexivity).
  assert (t !! 1 = Some (Inherited 1)) as E1 by (vm_compute; reflexivity).
  assert (t !! 3 = Some (PipeRead 0)) as E3 by (vm_compute; reflexivity).
  assert (t !! 4 = Some (PipeWrite 1)) as E4 by (vm_compute; reflexivity).
  do 4 (split; [assumption|]).
  exact (child_connections 1 (Pipeline [c] false) c 5 4 3 true t 1 _ _ _ E0 E1 E3
           ltac:(lia) ltac:(lia) ltac:(lia) ltac:(lia) E4).
Defined.

(** The state in which the shell waits for [wc] in [cat | wc]. *)
Definition waiting_shell : shell :=
  default (start true [] terminal) (after (text "cat | wc") [Returns [0%nat]]).

Lemma waiting_reachable : reachable terminal waiting_shell.
Proof.
  apply (run_events_reachable _ (start true (text "cat | wc") terminal) [Line; Returns [0%nat]]);
    [constructor|vm_compute; reflexivity].
Qed.

Lemma shell_descriptors_witness :
  reachable terminal waiting_shell ∧ at_point waiting_shell = Waiting 1 (4, 5) 3 true ∧
  ∃ n t, fds waiting_shell = <[5 := PipeWrite n]> (<[4 := PipeRead n]> t) ∧
    t !! 4 = None ∧ t !! 5 = None ∧ 4 ≠ 5 ∧
    (3 = 0 ∧ t = terminal ∨
     3 ≠ 0 ∧ terminal !! 3 = None ∧ ∃ m, t = <[3 := PipeRead m]> terminal).
Proof.
  split; [exact waiting_reachable|].
  assert (at_point waiting_shell = Waiting 1 (4, 5) 3 true) as E by (vm_compute; reflexivity).
  split; [exact E|].
  pose proof (shell_descriptors terminal (Inherited 0) (Inherited 1) waiting_shell
    eq_refl eq_refl waiting_reachable) as H.
  rewrite E in H. exact H.
Defined.

Lemma pipeline_runs_witness :
  let s := start true (print_line demo_pipeline false) terminal in
  reachable terminal s ∧ at_point s = Reading ∧ demo_pipeline ≠ [] ∧
  Forall wf_command demo_pipeline ∧ fits (print_line demo_pipeline false) ∧
  ∃ s' new, run_events s (Line :: waits 0 3) = Some s' ∧
    at_point s' = Reading ∧ fds s' = terminal ∧ stdin s' = [] ∧ children s' = children s ++ new ∧
    map stage_of new = map Some (stages demo_pipeline false 0 true (Inherited 0) (Inherited 1)) ∧
    Forall (λ c, proc_status c = Reaped) new.
Proof.
  intros s. assert (reachable terminal s) as Hr by constructor.
  assert (Forall wf_command demo_pipeline) as Hwf.
  { repeat constructor; (discriminate || reflexivity). }
  assert (fits (print_line demo_pipeline false)) as Hf by (vm_compute; lia).
  split; [exact Hr|]. split; [reflexivity|]. split; [discriminate|]. split; [exact Hwf|].
  split; [exact Hf|].
  exact (pipeline_runs terminal (Inherited 0) (Inherited 1) s demo_pipeline false []
           eq_refl eq_refl Hr eq_refl ltac:(discriminate) Hwf Hf eq_refl).
Defined.

Lemma terminal_inherits : inherits terminal.
Proof.
  intros fd f. unfold terminal. simpl. rewrite !lookup_insert_Some, lookup_empty.
  intros [[_ <-]|[_ [[_ <-]|[_ [[_ <-]|[_ [=]]]]]]]; by eexists.
Qed.

Lemma waiting_foreground : foreground terminal waiting_shell.
Proof.
  eapply (fg_step _ (default (start true [] terminal) (after (text "cat | wc") []))).
  - eapply (fg_step _ (start true (text "cat | wc") terminal)); [constructor| |].
    + apply (step_event _ Line). vm_compute. reflexivity.
    + vm_compute. by intros p [= <-].
  - apply (step_event _ (Returns [0%nat])). vm_compute. reflexivity.
  - vm_compute. by intros p [= <-].
Qed.

Lemma foreground_sequential_witness :
  foreground terminal waiting_shell ∧ at_point waiting_shell = Waiting 1 (4, 5) 3 true ∧
  fds waiting_shell !! 3 = Some (PipeRead 0) ∧
  (∀ i, is_running (children waiting_shell) i = true ↔ i = 1%nat) ∧
  ∀ d, fds waiting_shell !! d ≠ Some (PipeWrite 0).
Proof.
  split; [exact waiting_foreground|].
  assert (at_point waiting_shell = Waiting 1 (4, 5) 3 true) as E by (vm_compute; reflexivity).
  assert (fds waiting_shell !! 3 = Some (PipeRead 0)) as Em by (vm_compute; reflexivity).
  split; [exact E|]. split; [exact Em|].
  destruct (foreground_sequential terminal (Inherited 0) (Inherited 1) waiting_shell
    terminal_inherits eq_refl eq_refl waiting_foreground) as [_ H].
  destruct (H _ _ _ _ E) as [Hr Hm]. split; [exact Hr|].
  intros d. exact (proj1 (Hm 0%nat ltac:(lia) Em d)).
Defined.

(** [sleep 1 &]. *)
Definition sleep : list command_ast := [CommandAst [word "sleep"; word "1"] None None].
Definition sleeping_shell : shell :=
  default (start true [] terminal) (after (print_line sleep true) []).

Lemma sleeping_reachable : reachable terminal sleeping_shell.
Proof.
  apply (run_events_reachable _ (start true (print_line sleep true) terminal) [Line]);
    [constructor|vm_compute; reflexivity].
Qed.

Lemma interrupted_reruns_witness :
  reachable terminal sleeping_shell ∧ at_point sleeping_shell = Reading ∧
  buffer sleeping_shell = Some (print_line sleep true) ∧ Forall wf_command sleep ∧
  is_running (children sleeping_shell) 0 = true ∧
  ∃ es s', length es = 1000%nat ∧ Forall (λ e, ∃ i, e = Returns [i]) es ∧
    run_events sleeping_shell es = Some s' ∧ at_point s' = Reading ∧
    stdin s' = stdin sleeping_shell ∧
    length (children s') = (length (children sleeping_shell) + 1000 * length sleep)%nat.
Proof.
  assert (Forall wf_command sleep) as Hwf.
  { repeat constructor; (discriminate || reflexivity). }
  assert (buffer sleeping_shell = Some (print_line sleep true)) as Hb by (vm_compute; reflexivity).
  assert (is_running (children sleeping_shell) 0 = true) as Hq by (vm_compute; reflexivity).
  assert (at_point sleeping_shell = Reading) as E by (vm_compute; reflexivity).
  split; [exact sleeping_reachable|]. split; [exact E|]. split; [exact Hb|].
  split; [exact Hwf|]. split; [exact Hq|].
  exact (interrupted_reruns terminal (Inherited 0) (Inherited 1) sleeping_shell sleep 0 1000
    eq_refl eq_refl sleeping_reachable E Hb ltac:(discriminate) Hwf Hq).
Defined.
